(* ===== verification/_CoqProject ===== *)
-Q . S2P
Prelude.v
GoStrings.v
Strconv.v
Errors.v
Regex.v
RegistryPath.v
Messages.v
Wire.v
Protobuf.v
WireSafe.v
PCI.v
GRPC.v
Registry.v
Slices.v
Level.v
Log.v
LogFacts.v
TestLog.v
Tracing.v
LogWriter.v
CmdMonitor.v
Effects.v
Json.v
SPDKClient.v
RPC.v
SPDKConn.v
SPDK.v
Daemon.v
Controller.v
ControllerSeq.v
Registration.v
CSIEnv.v
Paths.v
Remote.v
Sysfs.v
Mount.v
MountFacts.v
Subpath.v
MountInterface.v
System.v
Staging.v
Services.v
CSIMessages.v
CephCSI.v
Local.v
LocalFacts.v
CSIDriver.v
CSIServer.v
CSIFacts.v
NodeKernel.v
Node.v
NodeExample.v
Commands.v
