(* ===== verification/Prelude.v ===== *)
(** * Verification of OIM (Open Infrastructure Manager)

    OIM lets a Kubernetes node use storage that an accelerator card (or a local
    SPDK daemon) provides.  This library models the Go code of the repository and
    proves what makes it correct.

    ** The program

    - The OIM registry (pkg/oim-registry) is a key/value store behind gRPC with
      permission checks on the TLS peer.  Controllers register their address in
      it, and calls of a host to its controller go through it.
    - The OIM controller (pkg/oim-controller) runs next to SPDK.  Its gRPC service
      provisions, maps and unmaps volumes by JSON-RPC calls to SPDK (bindings and
      codec in pkg/spdk), and it registers itself with the registry periodically.
    - The CSI driver (pkg/oim-csi-driver) is what Kubernetes calls, in version 0.3
      or 1.0 of the Container Storage Interface.  Its backend is either SPDK on the
      same host (local.go) or an OIM controller behind the registry (remote.go,
      with ceph-csi.go for requests meant for another driver).  It mounts with
      pkg/mount, a copy of the Kubernetes mount utilities.
    - pkg/oim-common has what they share: registry paths, PCI addresses, TLS setup,
      the gRPC server and the logging of gRPC calls; pkg/log is the logger.
    - cmd has the main functions of the three servers and of oimctl, the command line
      client of the registry.

    ** The files

    Foundations.
    - Prelude: Go errors and results ([result]: a value, an error or a panic), gRPC
      status codes, machine integers ([int64], [uint32], ...), tactics, hints.
    - GoStrings, Strconv, Regex, Paths: what the code uses of the packages strings,
      strconv, regexp and path/filepath.  Paths also has PathWithinBase of
      pkg/mount/mount.go.
    - Errors: texts of errors, os.IsExist and os.IsNotExist.
    - Effects: a function that calls its environment is a finite tree of calls
      ([prog], and [go] with errors).  [run] executes it alone, [trace] lists its
      calls, [step] interleaves threads that share a state and a hashed key mutex,
      and [pool_inv], [pool_sound], [pool_progress] and [pool_terminates] are the
      program logic for "LockKey; ...; UnlockKey" code.
    - Json: JSON values, encoding/json for the types in use, untyped decoding.

    Components, with the definitions named like the Go functions.
    - RegistryPath (path.go), PCI (pci.go), GRPC (grpc.go, server.go) of
      pkg/oim-common.
    - Messages, Wire, Protobuf and WireSafe (pkg/spec/oim/v0/oim.pb.go): the structs of
      the protocol; the pieces of which the generated code consists, on byte slices with
      bounds checks; Size, MarshalTo and Unmarshal of every message, behind the class
      [ProtoMessage]; and what Unmarshal does with arbitrary bytes.
    - Registry: registry.go, memdb.go, tls.go.  [RegistryDB] is the class that
      states what the service expects of a database; [memRegistryDB] is its
      instance.  A handler takes the database and returns the new one.
    - Slices: Go slices with shared backing arrays.  Level, Log and LogFacts (pkg/log),
      TestLog (pkg/log/testlog): a call of a logger is a function on [lstate], which
      has the memory of all fields and everything that was written; [Logger] is the
      class for the interface of that name.  Tracing (tracing.go), LogWriter
      (logging.go) and CmdMonitor (cmdmonitor.go); the last two are step relations
      for a goroutine and its environment.
    - SPDKClient (the codec of client.go), RPC (net/rpc on this codec, with any number
      of concurrent calls), SPDKConn (the rest of client.go), SPDK (spdk.go); Daemon: the interface [SPDKSound] /
      [SPDKReliable] that states what the code relies on in the SPDK daemon, and a
      small daemon that satisfies it.
    - Controller: the handlers of controller.go, each under the lock of its volume,
      and the theorems about every interleaving of calls.  ControllerSeq: what one
      call does.  Registration: Start, register and Close as a step relation.
    - CSIEnv: the system calls, commands and remote calls of the driver, as events.
      Remote and Sysfs (remote.go), Local and LocalFacts (local.go, util.go),
      CephCSI (ceph-csi.go), CSIMessages (the messages of CSI), CSIDriver
      (oim-driver.go, driver.go, driver0.go, identityserver.go), CSIServer and
      CSIFacts (controllerserver.go, nodeserver.go, their 0.3 versions and
      serialize.go).
    - Mount and MountFacts (mount.go, mount_linux.go, exec.go, exec_mount.go,
      unmount.go), Subpath (the second half of mount_linux.go), MountInterface (the
      interface of mount.go with its two implementations).
    - System: the remote backend of a CSI driver, the registry, a controller and its
      SPDK daemon put together. Staging adds the kernel of the driver's machine, as
      the class [GuestKernel] with its laws. Services (the rest of oim.pb.go):
      client stubs, service tables and the same system exchanging bytes. NodeKernel
      adds its directories, mounts and disk formats, as the class [NodeKernel] with
      its laws, and derives what the functions of pkg/mount do on such a machine;
      Node has the specification of the node service ([abs_step]) and the proof that
      the handlers refine it; NodeExample has a machine that satisfies the laws.
      Commands: the four programs of cmd.

    ** The theorems

    - Concurrency of the controller: whatever calls are in progress and however
      they interleave, a volume is attached at most once, replies are true when
      they are given, other volumes are not disturbed, and nothing gets stuck.
      These hold for every daemon that is [SPDKSound], with calls failing at any
      point, and for every hash function of the mutex.
    - One call at a time: lowest free target, idempotency, the way back from
      MapVolume, deletion, sizes; for daemons that are also [SPDKReliable].
    - Registry: who may write what, what a history of requests leaves in the
      database, what a query returns, to whom Connect connects, with which error
      codes it refuses; and that a registered controller can be reached.
    - The whole way from CSI driver to SPDK: the life of a volume, that staging ends
      with a device node for the right disk, and that a driver cannot do anything to
      the controller of another host.
    - The node service: every sequence of stage, publish, unpublish and unstage has the
      outcome of a specification with four sets and maps (volumes, attached volumes,
      mounts, file systems), through all components, the kernel and mkfs included.
      Calls run one after the other there; [csi_calls_exclusive] is about interleavings.
    - The SPDK client: every concurrent call gets the answer to its own request.
    - Logging: what is written for a message, which loggers share fields, that the
      interceptors change nothing and reveal nothing beyond the payload formatter,
      that every line that is written through [LogWriter] is logged (and that a very
      long line blocks it).
    - Programs: oimctl prints what was set, servers run only with mutual TLS.
    - CSI driver: one call per volume at a time and no deadlock, no connections or
      temporary files left behind, which requests are refused, what [New] returns,
      sizes of volumes, the search for the block device, Ceph parameters.
    - Mounting: no formatting of a disk with data, the commands of a bind mount,
      mount tables, confinement of paths, no leaked file descriptors, agreement of the
      two mounters.
    - The wire format: every message survives Marshal and Unmarshal, unknown fields do no
      harm, and which bytes can make Unmarshal panic.  The system that exchanges bytes
      behaves like the one that exchanges messages ([wire_transparent]), so that the
      theorems about the way from CSI driver to SPDK are about both.
    - Exact languages and round trips of the parsers: PCI addresses, endpoints,
      registry paths, SPDK's error texts and untyped replies, device numbers.

    Where the code does not do what it means to, a theorem shows that: for example
    [createVolume_negative_deletes], [missing_pci_address_is_zero],
    [findDev_partition_first], [NodePublishVolume_panics], [removeEmptyDirs_climbs],
    [Close_leaks_goroutine], [siblings_share_fields], [LogWriter_blocks],
    [null_result_breaks_connection], [oimctl_path_error_lost],
    [Unmarshal_overflow_panics].

    ** Fuel

    Programs are finite trees, so loops without a bound take fuel.
    - [wait_loop] (waiting for a device) waits for the kernel and may wait forever;
      [waitForDevice_spec] says that one more unit than there are rounds is enough
      and that with less the loop is still waiting; [staging_finds_volume] shows that
      some number of rounds is enough if the kernel notices new disks, and
      [node_service_refines] the same for sequences of calls.
    - [find_nbd] goes through /dev/nbd0, /dev/nbd1, ... until a file does not exist;
      one unit per device file.
    - [remove_dirs] needs one unit more than there are directories to remove
      ([removeEmptyDirs_confined]).
    - [unmarshal] and [skipOim] get fuel from the length of the slice;
      [Unmarshal_never_panics] includes that it is enough.  Numbers of 64 bits have at
      most ten bytes ([encodeVarintOim], [sovOim]).

    ** Not modelled

    The messages of CSI on the wire; the gRPC library and its transparent proxy, beyond
    that they deliver the bytes of a call to the handler and those of the reply to the
    stub; TLS handshakes and certificates beyond the common name; the parsing of flags;
    and the test support.  The services are modelled without their log
    messages, which do not influence them; what a logger does with a message is
    modelled in Log.  File systems, mount(8), blkid, fsck and mkfs, and SPDK are
    parameters: their answers are arbitrary unless a hypothesis (or the class
    [NodeKernelLaws]) says otherwise.
    Contexts appear only where the code looks at them: metadata, TLS peer, logger and
    the end of waiting. *)
From stdpp Require Export base tactics list gmap strings numbers option.
From Stdlib Require Export ZArith Lia.
From Stdlib Require Export Ascii.
From stdpp Require Export strings.
Export List.ListNotations.

(** stdpp blocks [simpl] on string append; the proofs here compute with it. *)
#[global] Arguments String.append !_ _ / : simpl nomatch.

(** ** Scope and notation *)

Declare Scope go_scope.
Delimit Scope go_scope with go.
Open Scope go_scope.
Open Scope Z_scope.

(** ** gRPC status codes (google.golang.org/grpc/codes) *)

Inductive code :=
| OK | Canceled | Unknown | InvalidArgument | DeadlineExceeded | NotFound
| AlreadyExists | PermissionDenied | ResourceExhausted | FailedPrecondition
| Aborted | OutOfRange | Unimplemented | Internal | Unavailable | DataLoss
| Unauthenticated.

#[global] Instance code_eq_dec : EqDecision code.
Proof. solve_decision. Defined.

(** The error numbers of system calls that the code looks at. *)
Inductive errno :=
| ENOENT | EEXIST | ENOTEMPTY | ENOTDIR | EACCES | EPERM | EBUSY | EINVAL | EIO
| ENOTCONN | ESTALE | EOTHER (n : Z).

#[global] Instance errno_eq_dec : EqDecision errno.
Proof. solve_decision. Defined.

(** ** Go errors

    An error keeps the text of its constructor call: the format string and its
    string operands, not the formatted text.  [ServerError] is the exception:
    it is what [net/rpc] hands back for a reply with an error, a bare text that
    the code parses again.  [SysError] is the failure of a system call on a
    path ([os.PathError] and the like).  [ExitError] and [ErrExecutableNotFound]
    are how a command fails (k8s.io/utils/exec): with an exit status, or because
    there is no such executable. *)

Inductive error :=
| ErrorNew (msg : string)
| Errorf (format : string) (args : list string)
| StatusError (c : code) (format : string) (args : list string)
| StatusOf (c : code) (e : error)
| Wrap (e : error) (msg : string)
| ServerError (text : string)
| SysError (n : errno) (text : string)
| ExitError (status : Z)
| ErrExecutableNotFound.

#[global] Instance error_eq_dec : EqDecision error.
Proof. solve_decision. Defined.

(** The code that [status.FromError] and the gRPC server assign to an error
    that a handler returns: anything that is not a status becomes [Unknown]. *)

Definition status_code (e : error) : code :=
  match e with
  | StatusError c _ _ | StatusOf c _ => c
  | _ => Unknown
  end.

(** ** Results: a value, an error, or a run-time panic *)

Inductive result (A : Type) :=
| Ok (a : A)
| Err (e : error)
| Panic (why : string).
Arguments Ok {A} _.
Arguments Err {A} _.
Arguments Panic {A} _.

Definition result_bind {A B} (f : A → result B) (r : result A) : result B :=
  match r with
  | Ok a => f a
  | Err e => Err e
  | Panic w => Panic w
  end.

#[global] Instance result_ret : MRet result := @Ok.
#[global] Instance result_mbind : MBind result := @result_bind.

Definition is_ok {A} (r : result A) : bool :=
  match r with Ok _ => true | _ => false end.

Definition panics {A} (r : result A) : bool :=
  match r with Panic _ => true | _ => false end.

(** ** Machine integers *)

Definition wrap_unsigned (w : Z) (z : Z) : Z := z mod 2 ^ w.
Definition wrap_signed (w : Z) (z : Z) : Z :=
  (z + 2 ^ (w - 1)) mod 2 ^ w - 2 ^ (w - 1).

Abbreviation uint32 := (wrap_unsigned 32).
Abbreviation uint64 := (wrap_unsigned 64).
Abbreviation int32 := (wrap_signed 32).
Abbreviation int64 := (wrap_signed 64).

Definition in_uint32 (z : Z) : Prop := 0 ≤ z < 2 ^ 32.
Definition in_int64 (z : Z) : Prop := - 2 ^ 63 ≤ z < 2 ^ 63.

(** ** Tactics and hint databases *)

Create HintDb oim.
Create HintDb oim_str.

(** Case analysis on the outermost [match] or [if] of the goal or of a
    hypothesis that equates it to a constructor. *)
Ltac case_step :=
  match goal with
  | H : context [match ?x with _ => _ end] |- _ =>
      let E := fresh "E" in destruct x eqn:E; simplify_eq/=; try done
  | |- context [match ?x with _ => _ end] =>
      let E := fresh "E" in destruct x eqn:E; simplify_eq/=; try done
  end.

(** Settles tests that compare string constants. *)
Ltac decide_consts :=
  repeat (cbn; first [rewrite decide_True by done | rewrite decide_False by done]); cbn.

Ltac inv_bind H :=
  match type of H with
  | result_bind _ ?r = Ok _ =>
      let E := fresh "E" in destruct r eqn:E; simpl in H; try discriminate
  | mbind _ ?r = Ok _ =>
      let E := fresh "E" in destruct r eqn:E; simpl in H; try discriminate
  end.

(** ** Generic lemmas *)

Lemma result_bind_Ok {A B} (f : A → result B) r b :
  result_bind f r = Ok b ↔ ∃ a, r = Ok a ∧ f a = Ok b.
Proof. destruct r; simpl; split; [eauto|by intros (? & [= ->] & ?)|done|by intros (? & ? & ?)|done|by intros (? & ? & ?)]. Qed.

Lemma wrap_unsigned_small w z : 0 ≤ z < 2 ^ w → wrap_unsigned w z = z.
Proof. apply Z.mod_small. Qed.

Lemma wrap_unsigned_range w z : 0 ≤ w → 0 ≤ wrap_unsigned w z < 2 ^ w.
Proof. intros. apply Z.mod_pos_bound. lia. Qed.

Lemma wrap_signed_range w z : 0 < w → - 2 ^ (w - 1) ≤ wrap_signed w z < 2 ^ (w - 1).
Proof.
  intros Hw. unfold wrap_signed. assert (2 ^ w = 2 * 2 ^ (w - 1)) as E by (rewrite <-Z.pow_succ_r by lia; f_equal; lia).
  pose proof (Z.mod_pos_bound (z + 2 ^ (w - 1)) (2 ^ w)). lia.
Qed.

Lemma wrap_signed_small w z :
  - 2 ^ (w - 1) ≤ z < 2 ^ (w - 1) → 0 < w → wrap_signed w z = z.
Proof.
  intros ? ?. unfold wrap_signed. rewrite Z.mod_small; [lia|].
  replace (2 ^ w) with (2 ^ (w - 1) + 2 ^ (w - 1)); [lia|].
  replace w with (Z.succ (w - 1)) at 3 by lia. rewrite Z.pow_succ_r; lia.
Qed.

Lemma NoDup_fst_filter {K V} (l : list (K * V)) (P : K * V → Prop) `{∀ x, Decision (P x)} :
  NoDup l.*1 → NoDup (filter P l).*1.
Proof.
  induction l as [|x l IH]; simpl; [done|]. rewrite NoDup_cons. intros [Hx Hl].
  rewrite filter_cons. case_decide; [|by apply IH]. simpl. apply NoDup_cons. split; [|by apply IH].
  intros (y & Heq & Hin)%list_elem_of_fmap. apply list_elem_of_filter in Hin as [_ Hin].
  apply Hx. rewrite Heq. by apply list_elem_of_fmap_2.
Qed.
