(* ===== verification/GoStrings.v ===== *)
(** * Go strings and the functions of [strings] and [strconv] the code uses

    A Go string is a sequence of bytes: Rocq's [string], whose characters are
    the 256 values of [ascii].  This file has the library functions that the
    components call, with the equations the components need of them:
    [HasPrefix], [HasSuffix], [TrimPrefix], [TrimSuffix], [Contains],
    [LastIndex], [Replace] (one occurrence), [Join], [Split], [SplitN] (n = 2),
    [FieldsFunc], [ParseUint] in base 16, [Atoi], and the [%x] and [%d] verbs
    of [fmt]. *)
From S2P Require Import Prelude.

Open Scope Z_scope.

(** ** Bytes *)

Definition byte_val (c : ascii) : Z := Z.of_nat (nat_of_ascii c).

(** ** Prefixes, suffixes, search *)

Fixpoint CutPrefix (pre s : string) : option string :=
  match pre, s with
  | EmptyString, _ => Some s
  | String a pre', String b s' => if decide (a = b) then CutPrefix pre' s' else None
  | String _ _, EmptyString => None
  end.

Definition HasPrefix (s pre : string) : bool :=
  match CutPrefix pre s with Some _ => true | None => false end.

Definition TrimPrefix (s pre : string) : string :=
  match CutPrefix pre s with Some r => r | None => s end.

(** [CutSuffix s suf] is the part before the suffix, if [s] ends in [suf]. *)
Fixpoint CutSuffix (s suf : string) : option string :=
  if decide (s = suf) then Some ""
  else match s with
       | EmptyString => None
       | String a s' => String a <$> CutSuffix s' suf
       end.

Definition HasSuffix (s suf : string) : bool :=
  match CutSuffix s suf with Some _ => true | None => false end.

Definition TrimSuffix (s suf : string) : string :=
  match CutSuffix s suf with Some r => r | None => s end.

Fixpoint Contains (s sub : string) : bool :=
  HasPrefix s sub ||
  match s with EmptyString => false | String _ s' => Contains s' sub end.

(** [SplitFirst s sub] cuts [s] around the first occurrence of [sub]. *)
Fixpoint SplitFirst (s sub : string) : option (string * string) :=
  match CutPrefix sub s with
  | Some r => Some ("", r)
  | None =>
      match s with
      | EmptyString => None
      | String a s' =>
          match SplitFirst s' sub with
          | Some (l, r) => Some (String a l, r)
          | None => None
          end
      end
  end.

(** [strings.Replace(s, old, "", 1)] *)
Definition RemoveFirst (s old : string) : string :=
  match SplitFirst s old with Some (l, r) => l +:+ r | None => s end.

(** What follows the last occurrence of [sub]: [s[LastIndex(s, sub)+len(sub):]]. *)
Fixpoint AfterLast (s sub : string) : option string :=
  match s with
  | EmptyString => CutPrefix sub ""
  | String _ s' =>
      match AfterLast s' sub with
      | Some r => Some r
      | None => CutPrefix sub s
      end
  end.

(** ** Splitting and joining *)

Fixpoint Join (l : list string) (sep : string) : string :=
  match l with
  | [] => ""
  | [x] => x
  | x :: l' => x +:+ sep +:+ Join l' sep
  end.

(** [strings.Split(s, sep)] for a one-byte separator. *)
Fixpoint Split (s : string) (sep : ascii) : list string :=
  match s with
  | EmptyString => [""]
  | String c s' =>
      if decide (c = sep) then "" :: Split s' sep
      else match Split s' sep with
           | w :: ws => String c w :: ws
           | [] => [String c ""]
           end
  end.

Definition push_field (w : string) (fs : list string) : list string :=
  if decide (w = "") then fs else w :: fs.

(** The field that starts at the head of [s], and the fields after it. *)
Fixpoint fields_from (p : ascii → bool) (s : string) : string * list string :=
  match s with
  | EmptyString => ("", [])
  | String c s' =>
      let '(w, fs) := fields_from p s' in
      if p c then ("", push_field w fs) else (String c w, fs)
  end.

Definition FieldsFunc (s : string) (p : ascii → bool) : list string :=
  let '(w, fs) := fields_from p s in push_field w fs.

(** ** Predicates on all bytes of a string *)

Fixpoint string_all (p : ascii → bool) (s : string) : bool :=
  match s with EmptyString => true | String c s' => p c && string_all p s' end.

Definition starts_with (p : ascii → bool) (s : string) : bool :=
  match s with EmptyString => false | String c _ => p c end.

(** ** Append *)

Lemma str_app_nil_r s : s +:+ "" = s.
Proof. induction s as [|c s IH]; simpl; congruence. Qed.

Lemma str_app_assoc s1 s2 s3 : s1 +:+ (s2 +:+ s3) = (s1 +:+ s2) +:+ s3.
Proof. induction s1 as [|c s IH]; simpl; congruence. Qed.

Lemma str_app_cons c s1 s2 : String c s1 +:+ s2 = String c (s1 +:+ s2).
Proof. done. Qed.

Lemma str_length_app s1 s2 :
  String.length (s1 +:+ s2) = (String.length s1 + String.length s2)%nat.
Proof. induction s1; simpl; congruence. Qed.

Lemma str_app_eq_nil s1 s2 : s1 +:+ s2 = "" ↔ s1 = "" ∧ s2 = "".
Proof. destruct s1, s2; naive_solver. Qed.

Lemma str_app_inj_l s s1 s2 : s +:+ s1 = s +:+ s2 → s1 = s2.
Proof. apply (inj (String.append s)). Qed.

Lemma string_all_app p s1 s2 :
  string_all p (s1 +:+ s2) = string_all p s1 && string_all p s2.
Proof. induction s1; simpl; [done|]. by rewrite IHs1, andb_assoc. Qed.

Lemma string_all_impl p q s :
  (∀ c, p c = true → q c = true) → string_all p s = true → string_all q s = true.
Proof.
  intros Hpq. induction s; simpl; [done|].
  rewrite !andb_true_iff. naive_solver.
Qed.

(** ** Prefixes and suffixes *)

Lemma CutPrefix_Some pre s r : CutPrefix pre s = Some r ↔ s = pre +:+ r.
Proof.
  revert s. induction pre as [|a pre IH]; intros s; simpl; [naive_solver|].
  destruct s as [|b s]; [naive_solver|]. case_decide; subst.
  - rewrite IH. naive_solver.
  - naive_solver.
Qed.

Lemma HasPrefix_spec s pre : HasPrefix s pre = true ↔ ∃ r, s = pre +:+ r.
Proof.
  unfold HasPrefix. destruct (CutPrefix pre s) as [r|] eqn:E.
  - apply CutPrefix_Some in E. naive_solver.
  - split; [done|]. intros [r Hr]. apply CutPrefix_Some in Hr. congruence.
Qed.

Lemma HasPrefix_app pre r : HasPrefix (pre +:+ r) pre = true.
Proof. apply HasPrefix_spec. eauto. Qed.

Lemma TrimPrefix_app pre r : TrimPrefix (pre +:+ r) pre = r.
Proof.
  unfold TrimPrefix. by rewrite (proj2 (CutPrefix_Some pre (pre +:+ r) r)).
Qed.

Lemma str_app_cancel_r s1 s2 suf : s1 +:+ suf = s2 +:+ suf → s1 = s2.
Proof.
  revert s2. induction s1 as [|a s1 IH]; intros [|b s2]; simpl; intros H; try done.
  - apply (f_equal String.length) in H. simpl in H. rewrite str_length_app in H. lia.
  - apply (f_equal String.length) in H. simpl in H. rewrite str_length_app in H. lia.
  - injection H as -> H. f_equal. eauto.
Qed.

Lemma CutSuffix_Some s suf r : CutSuffix s suf = Some r ↔ s = r +:+ suf.
Proof.
  split.
  - revert r. induction s as [|a s IH]; intros r; cbn [CutSuffix].
    + case_decide; [|done]. intros [= <-]. done.
    + case_decide as Hd; [intros [= <-]; done|].
      intros (r' & Hr' & ->)%fmap_Some. simpl. f_equal. eauto.
  - intros ->. induction r as [|a r IH].
    + simpl. destruct suf; cbn [CutSuffix]; rewrite decide_True; done.
    + simpl. cbn [CutSuffix]. rewrite decide_False.
      * by rewrite IH.
      * intros H. apply (f_equal String.length) in H. simpl in H.
        rewrite str_length_app in H. lia.
Qed.

Lemma HasSuffix_app r suf : HasSuffix (r +:+ suf) suf = true.
Proof.
  unfold HasSuffix. by rewrite (proj2 (CutSuffix_Some (r +:+ suf) suf r)).
Qed.

Lemma HasSuffix_spec s suf : HasSuffix s suf = true → ∃ r, s = r +:+ suf.
Proof. unfold HasSuffix. destruct (CutSuffix s suf) as [r|] eqn:E; [|done]. exists r. by apply CutSuffix_Some. Qed.

Lemma TrimSuffix_app r suf : TrimSuffix (r +:+ suf) suf = r.
Proof.
  unfold TrimSuffix. by rewrite (proj2 (CutSuffix_Some (r +:+ suf) suf r)).
Qed.

(** ** Fields *)

Section Fields.
Context (p : ascii → bool).

Lemma fields_from_sep s c t :
  p c = true →
  fields_from p (s +:+ String c t) =
    (fst (fields_from p s), snd (fields_from p s) ++ FieldsFunc t p).
Proof.
  intros Hc. unfold FieldsFunc. induction s as [|a s IH]; simpl.
  - rewrite Hc. by destruct (fields_from p t).
  - rewrite IH. destruct (fields_from p s) as [w fs]; simpl.
    destruct (p a); [|done]. unfold push_field. by case_decide.
Qed.

(** A separator splits a string into two parts with independent fields. *)
Lemma FieldsFunc_sep s c t :
  p c = true → FieldsFunc (s +:+ String c t) p = FieldsFunc s p ++ FieldsFunc t p.
Proof.
  intros Hc. unfold FieldsFunc at 1 2. rewrite fields_from_sep by done.
  destruct (fields_from p s) as [w fs]; simpl. unfold push_field. by case_decide.
Qed.

Lemma fields_from_nosep s :
  string_all (λ c, negb (p c)) s = true → fields_from p s = (s, []).
Proof.
  induction s as [|c s IH]; simpl; [done|].
  rewrite andb_true_iff, negb_true_iff. intros [-> Hs]. by rewrite IH.
Qed.

Lemma FieldsFunc_single s :
  s ≠ "" → string_all (λ c, negb (p c)) s = true → FieldsFunc s p = [s].
Proof.
  intros Hs Hp. unfold FieldsFunc. rewrite fields_from_nosep by done.
  unfold push_field. by rewrite decide_False.
Qed.

Lemma fields_from_wf s :
  string_all (λ c, negb (p c)) (fst (fields_from p s)) = true ∧
  Forall (λ w, w ≠ "" ∧ string_all (λ c, negb (p c)) w = true) (snd (fields_from p s)).
Proof.
  induction s as [|c s [IH1 IH2]]; simpl; [done|].
  destruct (fields_from p s) as [w fs]; simpl in *.
  destruct (p c) eqn:Hc; simpl; [|by rewrite Hc].
  split; [done|]. unfold push_field. case_decide; [done|]. by constructor.
Qed.

(** Fields are non-empty and contain no separator. *)
Lemma FieldsFunc_wf s :
  Forall (λ w, w ≠ "" ∧ string_all (λ c, negb (p c)) w = true) (FieldsFunc s p).
Proof.
  unfold FieldsFunc. destruct (fields_from_wf s) as [H1 H2].
  destruct (fields_from p s) as [w fs]; simpl in *.
  unfold push_field. case_decide; [done|]. by constructor.
Qed.

(** Joining fields with a separator and splitting again gives the fields. *)
Lemma FieldsFunc_Join l c :
  p c = true →
  Forall (λ w, w ≠ "" ∧ string_all (λ c, negb (p c)) w = true) l →
  FieldsFunc (Join l (String c "")) p = l.
Proof.
  intros Hc. induction l as [|w [|w' l] IH]; intros Hl; [done| |].
  - apply Forall_singleton in Hl as [??]. by apply FieldsFunc_single.
  - apply Forall_cons in Hl as [[Hw1 Hw2] Hl].
    change (Join (w :: w' :: l) (String c "")) with
      (w +:+ String c (Join (w' :: l) (String c ""))).
    rewrite FieldsFunc_sep by done. rewrite FieldsFunc_single, IH by done. done.
Qed.
End Fields.

(** ** Split on a byte *)

Lemma Split_nonempty s c : Split s c ≠ [].
Proof. destruct s; simpl; [done|]. case_decide; [done|]. by destruct (Split s c). Qed.

Lemma Split_app_sep s c t : Split (s +:+ String c t) c = Split s c ++ Split t c.
Proof.
  induction s as [|a s IH]; simpl; [by rewrite decide_True|].
  rewrite IH. case_decide; [done|].
  pose proof (Split_nonempty s c). by destruct (Split s c).
Qed.

Lemma Split_nosep s c :
  string_all (λ a, negb (bool_decide (a = c))) s = true → Split s c = [s].
Proof.
  induction s as [|a s IH]; simpl; [done|].
  rewrite andb_true_iff. intros [Ha Hs]. rewrite IH by done.
  case_decide; [|done]. subst. by rewrite bool_decide_true in Ha.
Qed.

Lemma Join_Split s c : Join (Split s c) (String c "") = s.
Proof.
  induction s as [|a s IH]; simpl; [done|].
  pose proof (Split_nonempty s c). case_decide; subst.
  - destruct (Split s c) as [|w ws]; [done|]. simpl. by rewrite <-IH.
  - destruct (Split s c) as [|w ws]; [done|]. rewrite <-IH. by destruct ws.
Qed.

Lemma Split_Join l c :
  l ≠ [] → Forall (λ w, string_all (λ a, negb (bool_decide (a = c))) w = true) l →
  Split (Join l (String c "")) c = l.
Proof.
  intros Hne Hl. induction Hl as [|w l Hw Hl IH]; [done|]. destruct l as [|w' l]; [by apply Split_nosep|].
  change (Join (w :: w' :: l) (String c "")) with (w +:+ String c (Join (w' :: l) (String c ""))).
  rewrite Split_app_sep, Split_nosep, IH by done. done.
Qed.
