(* ===== verification/Strconv.v ===== *)
(** * Number formatting and parsing: [strconv] and the [%x], [%d] verbs of [fmt]

    Digits are generic in the base (up to 16).  [FormatUint] writes a
    non-negative number, [parse_digits] reads digits back, and the round-trip
    lemma [parse_digits_FormatUint] connects them.  On top: [ParseUint16hex]
    (strconv.ParseUint(s, 16, 16)), [Atoi] and [Itoa] for Go's 64-bit int, and
    zero padding ([%04x]). *)
From S2P Require Import Prelude GoStrings.

(** ** Definitions *)

Definition digit_char (d : Z) : ascii :=
  ascii_of_nat (Z.to_nat (if d <? 10 then 48 + d else 87 + d)).

Definition digit_val (c : ascii) : option Z :=
  let v := byte_val c in
  if (48 <=? v) && (v <=? 57) then Some (v - 48)
  else if (97 <=? v) && (v <=? 102) then Some (v - 87)
  else if (65 <=? v) && (v <=? 70) then Some (v - 55)
  else None.

Definition is_digit (base : Z) (c : ascii) : bool :=
  match digit_val c with Some d => d <? base | None => false end.

(** Most significant digit first; [fuel] bounds the number of digits. *)
Fixpoint format_digits (base : Z) (fuel : nat) (n : Z) (acc : string) : string :=
  match fuel with
  | O => acc
  | S fuel' =>
      let acc' := String (digit_char (n mod base)) acc in
      if n <? base then acc' else format_digits base fuel' (n / base) acc'
  end.

(** A uint64 has at most 64 digits in base 2. *)
Definition FormatUint (base n : Z) : string := format_digits base 64 n "".
Arguments FormatUint : simpl never.

Fixpoint pad0 (n : nat) (s : string) : string :=
  match n with O => s | S n' => String "0" (pad0 n' s) end.

(** [fmt.Sprintf("%0<w>x", n)] for an unsigned [n]. *)
Definition fmt_hex (width : nat) (n : Z) : string :=
  let s := FormatUint 16 n in pad0 (width - String.length s) s.

Definition Itoa (n : Z) : string :=
  if n <? 0 then String "-" (FormatUint 10 (- n)) else FormatUint 10 n.

Fixpoint parse_digits (base v : Z) (s : string) : option Z :=
  match s with
  | EmptyString => Some v
  | String c s' =>
      match digit_val c with
      | Some d => if d <? base then parse_digits base (v * base + d) s' else None
      | None => None
      end
  end.

(** [strconv.ParseUint(s, 16, 16)]; [None] is a syntax or range error. *)
Definition ParseUint16hex (s : string) : option Z :=
  match s with
  | EmptyString => None
  | _ => v ← parse_digits 16 0 s; if v <? 2 ^ 16 then Some v else None
  end.

(** [strconv.Atoi]: an optional sign and decimal digits, in the range of int. *)
Definition Atoi (s : string) : option Z :=
  let '(neg, ds) := match s with
                    | String "-" r => (true, r)
                    | String "+" r => (false, r)
                    | _ => (false, s)
                    end in
  match ds with
  | EmptyString => None
  | _ =>
      v ← parse_digits 10 0 ds;
      let v := if neg : bool then - v else v in
      if (- 2 ^ 63 <=? v) && (v <? 2 ^ 63) then Some v else None
  end.

(** ** Digits *)

Lemma byte_val_of_nat n : (n < 256)%nat → byte_val (ascii_of_nat n) = Z.of_nat n.
Proof. intros. unfold byte_val. by rewrite nat_ascii_embedding. Qed.

Lemma digit_val_char d : 0 ≤ d < 16 → digit_val (digit_char d) = Some d.
Proof.
  intros Hd. unfold digit_val, digit_char.
  rewrite byte_val_of_nat by (case_match; lia).
  rewrite Z2Nat.id by (case_match; lia).
  destruct (Z.ltb_spec d 10).
  - replace ((48 <=? 48 + d) && (48 + d <=? 57)) with true by lia. f_equal. lia.
  - replace ((48 <=? 87 + d) && (87 + d <=? 57)) with false by lia.
    replace ((97 <=? 87 + d) && (87 + d <=? 102)) with true by lia. f_equal. lia.
Qed.

Lemma digit_val_range c d : digit_val c = Some d → 0 ≤ d < 16.
Proof. unfold digit_val. intros H. repeat case_match; simplify_eq; lia. Qed.

Lemma is_digit_char base d : 0 ≤ d < base → base ≤ 16 → is_digit base (digit_char d) = true.
Proof. intros. unfold is_digit. rewrite digit_val_char by lia. lia. Qed.

(** ** Formatting *)

Section Base.
Context (base : Z) (Hbase : 2 ≤ base ≤ 16).

Lemma parse_digits_app v s t :
  parse_digits base v (s +:+ t) = v' ← parse_digits base v s; parse_digits base v' t.
Proof.
  revert v. induction s as [|c s IH]; intros v; simpl; [done|].
  destruct (digit_val c); [|done]. case_match; [|done]. apply IH.
Qed.

Lemma parse_digits_all v s :
  string_all (is_digit base) s = true → is_Some (parse_digits base v s).
Proof.
  revert v. induction s as [|c s IH]; intros v; simpl; [by eauto|].
  rewrite andb_true_iff. unfold is_digit. intros [Hc Hs].
  destruct (digit_val c); [|done]. rewrite Hc. eauto.
Qed.

Lemma parse_digits_Some_all v s v' :
  parse_digits base v s = Some v' → string_all (is_digit base) s = true.
Proof.
  revert v. induction s as [|c s IH]; intros v; simpl; [done|].
  unfold is_digit at 1. destruct (digit_val c); [|done].
  case_match eqn:E; [|done]. simpl. eauto.
Qed.

Lemma parse_digits_bound v s v' :
  0 ≤ v → parse_digits base v s = Some v' →
  0 ≤ v' < (v + 1) * base ^ Z.of_nat (String.length s).
Proof.
  revert v. induction s as [|c s IH]; intros v Hv; cbn [parse_digits String.length].
  - intros [= <-]. lia.
  - destruct (digit_val c) as [d|] eqn:Ec; [|done].
    destruct (Z.ltb_spec d base); [|done]. apply digit_val_range in Ec.
    intros [H1 H2]%IH; [|nia]. split; [done|].
    rewrite Nat2Z.inj_succ, Z.pow_succ_r by lia.
    assert (0 < base ^ Z.of_nat (String.length s)) by (apply Z.pow_pos_nonneg; lia).
    nia.
Qed.

Lemma parse_digits_format fuel n acc :
  0 ≤ n < base ^ Z.of_nat fuel → (0 < fuel)%nat →
  parse_digits base 0 (format_digits base fuel n acc) = parse_digits base n acc.
Proof.
  revert n acc. induction fuel as [|fuel IH]; intros n acc Hn Hf; [lia|].
  cbn [format_digits]. assert (0 ≤ n mod base < base) by (apply Z.mod_pos_bound; lia).
  destruct (Z.ltb_spec n base).
  - cbn [parse_digits]. rewrite digit_val_char, Z.mod_small by lia.
    destruct (Z.ltb_spec n base); [|lia]. by rewrite Z.mul_0_l, Z.add_0_l.
  - rewrite Nat2Z.inj_succ, Z.pow_succ_r in Hn by lia.
    assert (0 < fuel)%nat as Hf'.
    { destruct fuel; [simpl in Hn; lia|lia]. }
    rewrite IH; [|split; [apply Z.div_pos; lia|apply Z.div_lt_upper_bound; lia]|done].
    cbn [parse_digits]. rewrite digit_val_char by lia.
    destruct (Z.ltb_spec (n mod base) base); [|lia].
    f_equal. pose proof (Z.div_mod n base). lia.
Qed.

Lemma format_digits_all fuel n acc :
  0 ≤ n → string_all (is_digit base) acc = true →
  string_all (is_digit base) (format_digits base fuel n acc) = true.
Proof.
  revert n acc. induction fuel as [|fuel IH]; intros n acc Hn Hacc; [done|].
  cbn [format_digits]. assert (0 ≤ n mod base < base) by (apply Z.mod_pos_bound; lia).
  assert (string_all (is_digit base) (String (digit_char (n mod base)) acc) = true).
  { cbn [string_all]. by rewrite is_digit_char, Hacc by lia. }
  destruct (n <? base); [done|]. apply IH; [apply Z.div_pos; lia|done].
Qed.

Lemma format_digits_length fuel n acc k :
  0 ≤ n < base ^ Z.of_nat k → (0 < k)%nat →
  (String.length (format_digits base fuel n acc) ≤ k + String.length acc)%nat.
Proof.
  revert n acc k. induction fuel as [|fuel IH]; intros n acc k Hn Hk; cbn [format_digits].
  { lia. }
  destruct (Z.ltb_spec n base); [cbn [String.length]; lia|].
  destruct k as [|k]; [lia|]. rewrite Nat2Z.inj_succ, Z.pow_succ_r in Hn by lia.
  destruct k as [|k]; [simpl in Hn; lia|].
  etransitivity; [apply (IH _ _ (S k))|]; [|lia|cbn [String.length]; lia].
  split; [apply Z.div_pos; lia|apply Z.div_lt_upper_bound; lia].
Qed.

Lemma format_digits_nonempty fuel n acc :
  (0 < fuel)%nat ∨ acc ≠ "" → format_digits base fuel n acc ≠ "".
Proof.
  revert n acc. induction fuel as [|fuel IH]; intros n acc H; simpl.
  - destruct H; [lia|done].
  - case_match; [done|]. apply IH. by right.
Qed.

Lemma FormatUint_all n : 0 ≤ n → string_all (is_digit base) (FormatUint base n) = true.
Proof. intros. by apply format_digits_all. Qed.

Lemma FormatUint_nonempty n : FormatUint base n ≠ "".
Proof. apply format_digits_nonempty. lia. Qed.

Lemma parse_digits_FormatUint n :
  0 ≤ n < 2 ^ 64 → parse_digits base 0 (FormatUint base n) = Some n.
Proof.
  intros Hn. unfold FormatUint. rewrite parse_digits_format; [done| |lia].
  split; [lia|]. apply Z.lt_le_trans with (2 ^ 64); [lia|].
  change (Z.of_nat 64) with 64. apply Z.pow_le_mono_l. lia.
Qed.

Lemma parse_digits_pad0 k s : parse_digits base 0 (pad0 k s) = parse_digits base 0 s.
Proof.
  induction k as [|k IH]; [done|]. cbn [pad0 parse_digits].
  change (digit_val "0") with (Some 0). cbn -[Z.mul].
  destruct (Z.ltb_spec 0 base); [|lia]. by rewrite Z.mul_0_l, Z.add_0_l.
Qed.
End Base.

Lemma pad0_length k s : String.length (pad0 k s) = (k + String.length s)%nat.
Proof. induction k; simpl; congruence. Qed.

Lemma pad0_all base k s :
  2 ≤ base → string_all (is_digit base) (pad0 k s) = string_all (is_digit base) s.
Proof.
  intros. induction k as [|k IH]; [done|]. cbn [pad0 string_all]. rewrite IH.
  change (is_digit base "0") with (0 <? base).
  by replace (0 <? base) with true by lia.
Qed.

(** ** Padded hexadecimal numbers *)

Lemma fmt_hex_length k n :
  0 ≤ n < 16 ^ Z.of_nat k → (0 < k)%nat → (String.length (fmt_hex k n) ≤ k)%nat.
Proof.
  intros Hn Hk. unfold fmt_hex. rewrite pad0_length.
  pose proof (format_digits_length 16 ltac:(lia) 64 n "" k Hn Hk) as H.
  change (format_digits 16 64 n "") with (FormatUint 16 n) in H.
  cbn [String.length] in H. lia.
Qed.

Lemma fmt_hex_all k n : 0 ≤ n → string_all (is_digit 16) (fmt_hex k n) = true.
Proof. intros. unfold fmt_hex. rewrite pad0_all by lia. by apply FormatUint_all. Qed.

Lemma fmt_hex_nonempty k n : fmt_hex k n ≠ "".
Proof.
  unfold fmt_hex. generalize (k - String.length (FormatUint 16 n))%nat.
  intros [|j]; [apply FormatUint_nonempty|done].
Qed.

Lemma ParseUint16hex_fmt k n :
  0 ≤ n < 2 ^ 16 → ParseUint16hex (fmt_hex k n) = Some n.
Proof.
  intros Hn. unfold ParseUint16hex.
  destruct (fmt_hex k n) eqn:E; [by apply fmt_hex_nonempty in E|rewrite <-E].
  unfold fmt_hex. rewrite parse_digits_pad0, parse_digits_FormatUint by lia. simpl.
  by replace (n <? 2 ^ 16) with true by lia.
Qed.

(** At most four hexadecimal digits always parse. *)
Lemma ParseUint16hex_digits s :
  s ≠ "" → string_all (is_digit 16) s = true → (String.length s ≤ 4)%nat →
  ∃ v, ParseUint16hex s = Some v ∧ 0 ≤ v < 16 ^ Z.of_nat (String.length s).
Proof.
  intros Hs Hall Hlen. destruct (parse_digits_all 16 0 s Hall) as [v Hv].
  pose proof (parse_digits_bound 16 ltac:(lia) 0 s v ltac:(lia) Hv) as Hb.
  assert (16 ^ Z.of_nat (String.length s) ≤ 16 ^ 4) by (apply Z.pow_le_mono_r; lia).
  exists v. split; [|lia]. unfold ParseUint16hex. destruct s; [done|].
  rewrite Hv. simpl. by replace (v <? 2 ^ 16) with true by lia.
Qed.

(** ** Decimal integers *)

Lemma Atoi_FormatUint n : 0 ≤ n < 2 ^ 63 → Atoi (FormatUint 10 n) = Some n.
Proof.
  intros Hn. pose proof (FormatUint_all 10 ltac:(lia) n ltac:(lia)) as Hall.
  pose proof (parse_digits_FormatUint 10 ltac:(lia) n ltac:(lia)) as Hp.
  unfold Atoi. destruct (FormatUint 10 n) as [|c s] eqn:E.
  { by apply FormatUint_nonempty in E. }
  assert (is_digit 10 c = true) as Hc by (cbn [string_all] in Hall; by apply andb_prop in Hall as [? _]).
  assert (c ≠ "-"%char ∧ c ≠ "+"%char) as [H1 H2] by (by split; intros ->).
  assert (match String c s with
          | String "-" r => (true, r) | String "+" r => (false, r) | _ => (false, String c s)
          end = (false, String c s)) as Heq.
  { destruct c as [[] [] [] [] [] [] [] []]; done. }
  rewrite Heq, Hp. simpl.
  by replace ((- 2 ^ 63 <=? n) && (n <? 2 ^ 63)) with true by lia.
Qed.

Lemma Atoi_Itoa n : - 2 ^ 63 ≤ n < 2 ^ 63 → Atoi (Itoa n) = Some n.
Proof.
  intros Hn. unfold Itoa. destruct (Z.ltb_spec n 0); [|apply Atoi_FormatUint; lia].
  unfold Atoi. pose proof (parse_digits_FormatUint 10 ltac:(lia) (- n) ltac:(lia)) as Hp.
  destruct (FormatUint 10 (- n)) eqn:E; [by apply FormatUint_nonempty in E|].
  rewrite Hp. simpl. rewrite Z.opp_involutive.
  by replace ((- 2 ^ 63 <=? n) && (n <? 2 ^ 63)) with true by lia.
Qed.
