(* ===== verification/Errors.v ===== *)
(** * Texts and tests of Go errors

    [Error] is the text of an error ([err.Error()]); the tests of package [os]
    look at the error number of a failed system call. *)
From S2P Require Import Prelude GoStrings Strconv.

(** [fmt.Sprintf] for operands that are already texts: every verb takes the next
    operand, [%q] puts it in quotes. *)
Fixpoint Sprintf (format : string) (args : list string) : string :=
  match format with
  | EmptyString => ""
  | String "%" (String v rest) =>
      match args with
      | a :: args' =>
          (if decide (v = "q"%char) then String "034" (a +:+ String "034" "") else a) +:+ Sprintf rest args'
      | [] => "%!" +:+ String v ("(MISSING)" +:+ Sprintf rest [])
      end
  | String c rest => String c (Sprintf rest args)
  end.

Fixpoint Error (e : error) : string :=
  match e with
  | ErrorNew msg => msg
  | Errorf format args => Sprintf format args
  | StatusError c format args => "rpc error: " +:+ Sprintf format args
  | StatusOf c e => "rpc error: " +:+ Error e
  | Wrap e msg => msg +:+ ": " +:+ Error e
  | ServerError text => text
  | SysError n text => text
  | ExitError status => "exit status " +:+ Itoa status
  | ErrExecutableNotFound => "executable file not found in $PATH"
  end.

Definition IsNotExist (e : error) : bool :=
  match e with SysError n _ => bool_decide (n = ENOENT) | _ => false end.

Definition IsExist (e : error) : bool :=
  match e with SysError n _ => bool_decide (n = EEXIST) || bool_decide (n = ENOTEMPTY) | _ => false end.

Definition IsPermission (e : error) : bool :=
  match e with SysError n _ => bool_decide (n = EACCES) || bool_decide (n = EPERM) | _ => false end.
