(* ===== verification/Regex.v ===== *)
(** * Regular expressions, as Go's [regexp] matches them

    The expressions of the source repeat only character classes, so a term of
    [re] has classes with a greedy repetition count, concatenation, a greedy
    optional part, numbered groups and the end anchor.  [matches r s] lists all
    the ways [r] matches a prefix of [s], in the order a backtracking matcher
    tries them; Go returns the leftmost match that is first in this order.
    [FindAnchored] is the search for an expression that starts with [^],
    [FindSubmatch] the search at every position. *)
From S2P Require Import Prelude GoStrings.

(** ** Definitions *)

Inductive re :=
| RClass (p : ascii → bool) (lo : nat) (hi : option nat)
| RCat (r1 r2 : re)
| ROpt (r : re)
| RGroup (n : nat) (r : re)
| REnd.

Infix ";;;" := RCat (at level 60, right associativity) : go_scope.

(** One literal byte. *)
Definition RChar (c : ascii) : re := RClass (λ a, bool_decide (a = c)) 1 (Some 1%nat).

(** A literal text. *)
Fixpoint RText (s : string) (r : re) : re :=
  match s with EmptyString => r | String c s' => RChar c ;;; RText s' r end.

Definition caps := list (nat * string).

(** [parts[n]]: a group that did not take part in the match is empty. *)
Fixpoint group (n : nat) (c : caps) : string :=
  match c with
  | [] => ""
  | (m, w) :: c' => if decide (m = n) then w else group n c'
  end.

(** The runs of class [p] at the head of [s] with at most [hi] bytes, longest
    first, each with what follows it. *)
Fixpoint runs (p : ascii → bool) (hi : option nat) (s : string) : list (string * string) :=
  match hi, s with
  | Some O, _ | _, EmptyString => [("", s)]
  | _, String c s' =>
      (if p c
       then (λ '(w, t), (String c w, t)) <$> runs p (pred <$> hi) s'
       else []) ++ [("", s)]
  end.

Fixpoint matches (r : re) (s : string) : list (string * caps * string) :=
  match r with
  | RClass p lo hi =>
      (λ '(w, t), (w, [], t)) <$>
        filter (λ '(w, t), (lo ≤ String.length w)%nat) (runs p hi s)
  | RCat r1 r2 =>
      '(w1, c1, s1) ← matches r1 s;
      '(w2, c2, s2) ← matches r2 s1;
      [(w1 +:+ w2, c1 ++ c2, s2)]
  | ROpt r => matches r s ++ [("", [], s)]
  | RGroup n r => '(w, c, t) ← matches r s; [(w, (n, w) :: c, t)]
  | REnd => match s with EmptyString => [("", [], "")] | _ => [] end
  end.

(** The match at the start of [s]: the matched text and the groups. *)
Definition FindAnchored (r : re) (s : string) : option (string * caps) :=
  fst <$> head (matches r s).

Fixpoint FindSubmatch (r : re) (s : string) : option (string * caps) :=
  match head (matches r s) with
  | Some (w, c, _) => Some (w, c)
  | None => match s with EmptyString => None | String _ s' => FindSubmatch r s' end
  end.

(** ** Character classes of the source *)

(** [\s] is [[\t\n\f\r ]] in Go. *)
Definition is_space (c : ascii) : bool :=
  bool_decide (c ∈ ["009"%char; "010"%char; "012"%char; "013"%char; " "%char]).

Definition le_opt (n : nat) (hi : option nat) : Prop :=
  match hi with Some h => (n ≤ h)%nat | None => True end.

(** ** What a match is *)

Lemma elem_of_runs p hi s w t :
  (w, t) ∈ runs p hi s ↔
    s = w +:+ t ∧ string_all p w = true ∧ le_opt (String.length w) hi.
Proof.
  assert (le_opt 0 hi) by (destruct hi; simpl; lia).
  revert hi w t H. induction s as [|c s IH]; intros hi w t Hhi.
  - assert (runs p hi "" = [("", "")]) as -> by (by destruct hi as [[]|]).
    rewrite list_elem_of_singleton. split.
    + by intros [= -> ->].
    + intros (Heq & _ & _). symmetry in Heq. apply str_app_eq_nil in Heq as [-> ->]. done.
  - destruct (decide (hi = Some O)) as [->|Hne].
    { simpl. rewrite list_elem_of_singleton. split; [by intros [= -> ->]|].
      intros (Heq & _ & Hl). destruct w; simpl in *; [congruence|lia]. }
    assert (runs p hi (String c s) =
      (if p c then (λ '(w, t), (String c w, t)) <$> runs p (pred <$> hi) s else [])
        ++ [("", String c s)]) as ->.
    { destruct hi as [[]|]; done. }
    assert (le_opt 0 (pred <$> hi)) as Hhi' by (destruct hi; simpl; lia).
    rewrite elem_of_app, list_elem_of_singleton. split.
    + intros [Hin|[= -> ->]]; [|done]. destruct (p c) eqn:Hc; [|by apply not_elem_of_nil in Hin].
      apply list_elem_of_fmap in Hin as ([w' t'] & [= -> ->] & Hin).
      apply IH in Hin as (-> & Hall & Hl); [|done]. simpl. rewrite Hc.
      split_and!; [done|done|]. destruct hi as [[|h]|]; simpl in *; try done; lia.
    + intros (Heq & Hall & Hl). destruct w as [|a w]; [right; simpl in *; congruence|].
      simpl in Heq, Hall. injection Heq as <- ->. apply andb_prop in Hall as [Hc Hall].
      left. rewrite Hc. apply list_elem_of_fmap. exists (w, t). split; [done|].
      apply IH; [done|]. split_and!; [done..|]. destruct hi as [[|h]|]; simpl in *; try done; lia.
Qed.

Lemma elem_of_matches_class p lo hi s w c t :
  (w, c, t) ∈ matches (RClass p lo hi) s ↔
    c = [] ∧ s = w +:+ t ∧ string_all p w = true ∧
    (lo ≤ String.length w)%nat ∧ le_opt (String.length w) hi.
Proof.
  simpl. rewrite list_elem_of_fmap. split.
  - intros ([w' t'] & [= -> -> ->] & (Hlo & Hin)%list_elem_of_filter).
    apply elem_of_runs in Hin as (? & ? & ?). by split_and!.
  - intros (-> & Hs & Hall & Hlo & Hhi). exists (w, t). split; [done|].
    apply list_elem_of_filter. split; [done|]. by apply elem_of_runs.
Qed.

Lemma elem_of_matches_char a s w c t :
  (w, c, t) ∈ matches (RChar a) s ↔ c = [] ∧ w = String a "" ∧ s = String a t.
Proof.
  unfold RChar. rewrite elem_of_matches_class. split.
  - intros (-> & -> & Hall & Hlo & Hhi). destruct w as [|b [|b' w]]; simpl in *; try lia.
    rewrite andb_true_r, bool_decide_eq_true in Hall. by subst.
  - intros (-> & -> & ->). simpl. rewrite bool_decide_true by done. split_and!; done || lia.
Qed.

Lemma elem_of_matches_cat r1 r2 s w c t :
  (w, c, t) ∈ matches (r1 ;;; r2) s ↔
    ∃ w1 c1 s1 w2 c2, (w1, c1, s1) ∈ matches r1 s ∧ (w2, c2, t) ∈ matches r2 s1 ∧
      w = w1 +:+ w2 ∧ c = c1 ++ c2.
Proof.
  simpl. rewrite list_elem_of_bind. split.
  - intros ([[w1 c1] s1] & Hin & H1). apply list_elem_of_bind in Hin as ([[w2 c2] s2] & Hin & H2).
    apply list_elem_of_singleton in Hin as [= -> -> ->]. by exists w1, c1, s1, w2, c2.
  - intros (w1 & c1 & s1 & w2 & c2 & H1 & H2 & -> & ->). exists (w1, c1, s1). split; [|done].
    apply list_elem_of_bind. exists (w2, c2, t). split; [by left|done].
Qed.

Lemma elem_of_matches_opt r s w c t :
  (w, c, t) ∈ matches (ROpt r) s ↔
    (w, c, t) ∈ matches r s ∨ w = "" ∧ c = [] ∧ t = s.
Proof. simpl. rewrite elem_of_app, list_elem_of_singleton. naive_solver. Qed.

Lemma elem_of_matches_group n r s w c t :
  (w, c, t) ∈ matches (RGroup n r) s ↔
    ∃ c', (w, c', t) ∈ matches r s ∧ c = (n, w) :: c'.
Proof.
  simpl. rewrite list_elem_of_bind. split.
  - intros ([[w' c'] t'] & Hin & H). apply list_elem_of_singleton in Hin as [= -> -> ->]. eauto.
  - intros (c' & Hin & ->). exists (w, c', t). split; [by left|done].
Qed.

Lemma elem_of_matches_end s w c t :
  (w, c, t) ∈ matches REnd s ↔ s = "" ∧ w = "" ∧ c = [] ∧ t = "".
Proof.
  destruct s; simpl; [rewrite list_elem_of_singleton; naive_solver|].
  split; [by intros ?%not_elem_of_nil|naive_solver].
Qed.

(** A match takes a prefix of the text. *)
Lemma matches_prefix r s w c t : (w, c, t) ∈ matches r s → s = w +:+ t.
Proof.
  revert s w c t. induction r as [p lo hi|r1 IH1 r2 IH2|r IH|n r IH|]; intros s w c t.
  - by intros (_ & ? & _)%elem_of_matches_class.
  - intros (w1 & c1 & s1 & w2 & c2 & H1%IH1 & H2%IH2 & -> & ->)%elem_of_matches_cat.
    subst. by rewrite str_app_assoc.
  - intros [?%IH|(-> & -> & ->)]%elem_of_matches_opt; done.
  - intros (c' & ?%IH & ->)%elem_of_matches_group. done.
  - intros (-> & -> & _ & ->)%elem_of_matches_end. done.
Qed.

(** If all matches agree on the text and the groups, the search finds them. *)
Lemma FindAnchored_unique r s x :
  (∃ t, (x, t) ∈ matches r s) → (∀ y t, (y, t) ∈ matches r s → y = x) →
  FindAnchored r s = Some x.
Proof.
  intros [t Hin] Huniq. unfold FindAnchored.
  destruct (matches r s) as [|[y t'] l] eqn:E; [by apply not_elem_of_nil in Hin|].
  simpl. f_equal. apply (Huniq y t'). by left.
Qed.

Lemma FindAnchored_None r s :
  FindAnchored r s = None ↔ ∀ y t, ¬ (y, t) ∈ matches r s.
Proof.
  unfold FindAnchored. destruct (matches r s) as [|[y t] l]; simpl; split.
  - intros _ y t. apply not_elem_of_nil.
  - done.
  - done.
  - intros H. destruct (H y t). by left.
Qed.

Lemma FindAnchored_Some r s w c :
  FindAnchored r s = Some (w, c) → ∃ t, (w, c, t) ∈ matches r s.
Proof.
  unfold FindAnchored. destruct (matches r s) as [|[[w' c'] t'] l]; simpl; [done|].
  intros [= -> ->]. exists t'. by left.
Qed.

(** ** Reading a run of a class up to a byte outside it *)

Lemma span_unique p w1 w2 t1 t2 :
  string_all p w1 = true → string_all p w2 = true →
  starts_with p t1 = false → starts_with p t2 = false →
  w1 +:+ t1 = w2 +:+ t2 → w1 = w2 ∧ t1 = t2.
Proof.
  revert w2. induction w1 as [|b w1 IH]; intros [|b' w2]; simpl;
    rewrite ?andb_true_iff; intros H1 H2 Ht1 Ht2 Heq; subst; simpl in *.
  - done.
  - by destruct H2; congruence.
  - by destruct H1; congruence.
  - injection Heq as -> Heq. destruct H1, H2. edestruct (IH w2) as [-> ->]; eauto.
Qed.

Lemma span_unique_char p w1 w2 a1 a2 t1 t2 :
  string_all p w1 = true → string_all p w2 = true → p a1 = false → p a2 = false →
  w1 +:+ String a1 t1 = w2 +:+ String a2 t2 → w1 = w2 ∧ a1 = a2 ∧ t1 = t2.
Proof.
  intros ???? Heq. apply (span_unique p) in Heq as [-> [= -> ->]]; done.
Qed.

(** A text of one class does not start with a byte of a disjoint one. *)
Lemma starts_with_disjoint p q s t :
  (∀ c, q c = true → p c = false) → string_all q s = true →
  starts_with p t = false → starts_with p (s +:+ t) = false.
Proof. intros Hpq. destruct s; simpl; [done|]. rewrite andb_true_iff. intros [?%Hpq _]. done. Qed.

(** ** One step of an expression

    Each lemma peels the first part off a concatenation.  [re_inv] takes a
    membership hypothesis apart with them, [re_step] builds one. *)

Lemma matches_cat_class p lo hi r s w c t :
  (w, c, t) ∈ matches (RClass p lo hi ;;; r) s ↔
    ∃ v s1 w2, s = v +:+ s1 ∧ w = v +:+ w2 ∧ string_all p v = true ∧
      (lo ≤ String.length v)%nat ∧ le_opt (String.length v) hi ∧ (w2, c, t) ∈ matches r s1.
Proof.
  rewrite elem_of_matches_cat. split.
  - intros (v & ? & s1 & w2 & c2 & (-> & -> & ? & ? & ?)%elem_of_matches_class & ? & -> & ->).
    exists v, s1, w2. by split_and!.
  - intros (v & s1 & w2 & -> & -> & ? & ? & ? & ?). exists v, [], s1, w2, c.
    split_and!; [by apply elem_of_matches_class|done..].
Qed.

Lemma matches_cat_group n p lo hi r s w c t :
  (w, c, t) ∈ matches (RGroup n (RClass p lo hi) ;;; r) s ↔
    ∃ v s1 w2 c2, s = v +:+ s1 ∧ w = v +:+ w2 ∧ c = (n, v) :: c2 ∧ string_all p v = true ∧
      (lo ≤ String.length v)%nat ∧ le_opt (String.length v) hi ∧ (w2, c2, t) ∈ matches r s1.
Proof.
  rewrite elem_of_matches_cat. split.
  - intros (v & ? & s1 & w2 & c2 & (? & Hin & ->)%elem_of_matches_group & ? & -> & ->).
    apply elem_of_matches_class in Hin as (-> & -> & ? & ? & ?). exists v, s1, w2, c2. by split_and!.
  - intros (v & s1 & w2 & c2 & -> & -> & -> & ? & ? & ? & ?). exists v, [(n, v)], s1, w2, c2.
    split_and!; [|done..]. apply elem_of_matches_group. exists []. split; [|done].
    by apply elem_of_matches_class.
Qed.

Lemma matches_cat_char a r s w c t :
  (w, c, t) ∈ matches (RChar a ;;; r) s ↔
    ∃ s1 w2, s = String a s1 ∧ w = String a w2 ∧ (w2, c, t) ∈ matches r s1.
Proof.
  rewrite elem_of_matches_cat. split.
  - intros (v & ? & s1 & w2 & c2 & (-> & -> & ->)%elem_of_matches_char & ? & -> & ->). eauto.
  - intros (s1 & w2 & -> & -> & ?). exists (String a ""), [], s1, w2, c.
    split_and!; [by apply elem_of_matches_char|done..].
Qed.

Lemma matches_cat_opt r r' s w c t :
  (w, c, t) ∈ matches (ROpt r ;;; r') s ↔
    (w, c, t) ∈ matches (r ;;; r') s ∨ (w, c, t) ∈ matches r' s.
Proof.
  rewrite !elem_of_matches_cat. split.
  - intros (w1 & c1 & s1 & w2 & c2 & [?|(-> & -> & ->)]%elem_of_matches_opt & ? & -> & ->).
    + left. by exists w1, c1, s1, w2, c2.
    + by right.
  - intros [(w1 & c1 & s1 & w2 & c2 & ? & ? & -> & ->)|?].
    + exists w1, c1, s1, w2, c2. split_and!; [apply elem_of_matches_opt; by left|done..].
    + exists "", [], s, w, c. split_and!; [apply elem_of_matches_opt; by right|done..].
Qed.

Lemma matches_cat_assoc r1 r2 r3 s w c t :
  (w, c, t) ∈ matches ((r1 ;;; r2) ;;; r3) s ↔ (w, c, t) ∈ matches (r1 ;;; r2 ;;; r3) s.
Proof.
  rewrite !elem_of_matches_cat. split.
  - intros (w12 & c12 & s2 & w3 & c3 & H & ? & -> & ->).
    apply elem_of_matches_cat in H as (w1 & c1 & s1 & w2 & c2 & ? & ? & -> & ->).
    exists w1, c1, s1, (w2 +:+ w3), (c2 ++ c3). rewrite str_app_assoc, (assoc (++)).
    split_and!; [done| |done..]. apply elem_of_matches_cat. by exists w2, c2, s2, w3, c3.
  - intros (w1 & c1 & s1 & w23 & c23 & ? & H & -> & ->).
    apply elem_of_matches_cat in H as (w2 & c2 & s2 & w3 & c3 & ? & ? & -> & ->).
    exists (w1 +:+ w2), (c1 ++ c2), s2, w3, c3. rewrite str_app_assoc, (assoc (++)).
    split_and!; [|done..]. apply elem_of_matches_cat. by exists w1, c1, s1, w2, c2.
Qed.

#[global] Arguments matches : simpl never.

Lemma matches_RText s r t w c u :
  (w, c, u) ∈ matches (RText s r) t ↔
    ∃ w' t', t = s +:+ t' ∧ w = s +:+ w' ∧ (w', c, u) ∈ matches r t'.
Proof.
  revert t w. induction s as [|a s IH]; intros t w; simpl.
  - split; [by exists w, t|]. by intros (? & ? & -> & -> & ?).
  - rewrite matches_cat_char. split.
    + intros (t1 & w1 & -> & -> & H). apply IH in H as (w' & t' & -> & -> & H). by exists w', t'.
    + intros (w' & t' & -> & -> & H). exists (s +:+ t'), (s +:+ w'). split_and!; [done..|].
      apply IH. by exists w', t'.
Qed.

(** Introduction rules. *)
Lemma match_class p lo hi r v s w c t :
  string_all p v = true → (lo ≤ String.length v)%nat → le_opt (String.length v) hi →
  (w, c, t) ∈ matches r s → (v +:+ w, c, t) ∈ matches (RClass p lo hi ;;; r) (v +:+ s).
Proof. intros. apply matches_cat_class. by exists v, s, w. Qed.

Lemma match_group n p lo hi r v s w c t :
  string_all p v = true → (lo ≤ String.length v)%nat → le_opt (String.length v) hi →
  (w, c, t) ∈ matches r s → (v +:+ w, (n, v) :: c, t) ∈ matches (RGroup n (RClass p lo hi) ;;; r) (v +:+ s).
Proof. intros. apply matches_cat_group. by exists v, s, w, c. Qed.

Lemma match_char a r s w c t :
  (w, c, t) ∈ matches r s → (String a w, c, t) ∈ matches (RChar a ;;; r) (String a s).
Proof. intros. apply matches_cat_char. by exists s, w. Qed.

Lemma match_text x r s w c t :
  (w, c, t) ∈ matches r s → (x +:+ w, c, t) ∈ matches (RText x r) (x +:+ s).
Proof. intros. apply matches_RText. by exists w, s. Qed.

(** ** Searching *)

Lemma FindSubmatch_here r s x : FindAnchored r s = Some x → FindSubmatch r s = Some x.
Proof.
  unfold FindAnchored. destruct s as [|c s]; simpl; destruct (head _) as [[[w g] t]|]; by intros [= <-].
Qed.

Lemma FindSubmatch_skip r c s :
  (∀ y, y ∉ matches r (String c s)) → FindSubmatch r (String c s) = FindSubmatch r s.
Proof.
  intros H. simpl. destruct (matches r (String c s)) as [|y l] eqn:E; [done|].
  destruct (H y). by left.
Qed.

(** No match starts where the first byte of the expression is not found. *)
Lemma FindSubmatch_skip_char a r c s :
  c ≠ a → FindSubmatch (RChar a ;;; r) (String c s) = FindSubmatch (RChar a ;;; r) s.
Proof.
  intros Hc. apply FindSubmatch_skip. intros [[w g] t] H.
  apply matches_cat_char in H as (s1 & w2 & [= -> _] & _). done.
Qed.

Lemma FindSubmatch_skip_text a r p s :
  string_all (λ c, negb (bool_decide (c = a))) p = true →
  FindSubmatch (RChar a ;;; r) (p +:+ s) = FindSubmatch (RChar a ;;; r) s.
Proof.
  induction p as [|c p IH]; [done|]. cbn [string_all]. rewrite andb_true_iff, negb_true_iff, bool_decide_eq_false.
  intros [Hc Hp]. change (String c p +:+ s) with (String c (p +:+ s)).
  rewrite FindSubmatch_skip_char by done. by apply IH.
Qed.

Ltac re_inv H :=
  lazymatch type of H with
  | _ ∈ matches ((_ ;;; _) ;;; _) _ => rewrite matches_cat_assoc in H; re_inv H
  | _ ∈ matches (RClass _ _ _ ;;; _) _ =>
      apply matches_cat_class in H as (? & ? & ? & -> & -> & ? & ? & ? & H); re_inv H
  | _ ∈ matches (RGroup _ (RClass _ _ _) ;;; _) _ =>
      apply matches_cat_group in H as (? & ? & ? & ? & -> & -> & -> & ? & ? & ? & H); re_inv H
  | _ ∈ matches (RChar _ ;;; _) _ =>
      apply matches_cat_char in H as (? & ? & -> & -> & H); re_inv H
  | _ ∈ matches (ROpt _ ;;; _) _ =>
      apply matches_cat_opt in H as [H|H]; re_inv H
  | _ ∈ matches REnd _ => apply elem_of_matches_end in H as (-> & -> & -> & ->)
  | _ => idtac
  end.

