(* ===== verification/RegistryPath.v ===== *)
(** * Registry paths: pkg/oim-common/path.go

    A registry key is a path of elements separated by slashes.
    [SplitRegistryPath] splits a path a client sent, [JoinRegistryPath] builds
    the key that is stored.  The theorems say that the two are inverse on
    well-formed elements, that redundant slashes do not matter, and which paths
    are refused. *)
From S2P Require Import Prelude GoStrings.

(** ** Definitions *)

Definition RegistryAddress : string := "address".
Definition RegistryPCI : string := "pci".

Definition slash : ascii := "/"%char.
Definition is_slash (r : ascii) : bool := bool_decide (r = slash).

(** The loop over the elements: the first "." or ".." is an error. *)
Fixpoint check_elements (path : string) (elements : list string) : result () :=
  match elements with
  | [] => Ok ()
  | element :: rest =>
      if decide (element = "." ∨ element = "..")
      then Err (Errorf "%s: %q not allowed as path element" [path; element])
      else check_elements path rest
  end.

Definition SplitRegistryPath (path : string) : result (list string) :=
  let elements := FieldsFunc path is_slash in
  _ ← check_elements path elements;
  mret elements.

Definition JoinRegistryPath (elements : list string) : string :=
  Join elements "/".

(** A path element that may appear in a key. *)
Definition wf_element (e : string) : Prop :=
  e ≠ "" ∧ string_all (λ c, negb (is_slash c)) e = true ∧ e ≠ "." ∧ e ≠ "..".

(** A key in the form in which the registry stores it. *)
Definition canonical (key : string) : Prop :=
  ∃ es, es ≠ [] ∧ Forall wf_element es ∧ key = JoinRegistryPath es.

(** ** Lemmas *)

Lemma is_slash_slash : is_slash slash = true.
Proof. by apply bool_decide_eq_true. Qed.

Lemma check_elements_Ok path es :
  check_elements path es = Ok () ↔ Forall (λ e, e ≠ "." ∧ e ≠ "..") es.
Proof.
  induction es as [|e es IH]; simpl; [done|].
  rewrite Forall_cons. case_decide; [split; [done|tauto]|]. rewrite IH. tauto.
Qed.

Lemma check_elements_total path es :
  check_elements path es = Ok () ∨
  ∃ e, e ∈ es ∧ (e = "." ∨ e = "..") ∧
       check_elements path es = Err (Errorf "%s: %q not allowed as path element" [path; e]).
Proof.
  induction es as [|e es IH]; simpl; [by left|].
  case_decide; [right; exists e; split_and!; [left|done|done]|].
  destruct IH as [|(e' & ? & ? & ?)]; [by left|right].
  exists e'. split_and!; [by right|done|done].
Qed.

Lemma SplitRegistryPath_Ok path es :
  SplitRegistryPath path = Ok es ↔
    es = FieldsFunc path is_slash ∧ Forall (λ e, e ≠ "." ∧ e ≠ "..") es.
Proof.
  unfold SplitRegistryPath. destruct (check_elements_total path (FieldsFunc path is_slash))
    as [H|(e & Hin & He & H)]; rewrite H; simpl.
  - apply check_elements_Ok in H. split; [by intros [= <-]|by intros [-> _]].
  - split; [done|]. intros [-> HF]. rewrite Forall_forall in HF.
    destruct (HF e Hin). naive_solver.
Qed.

Lemma SplitRegistryPath_wf path es :
  SplitRegistryPath path = Ok es → Forall wf_element es.
Proof.
  intros [-> HF]%SplitRegistryPath_Ok.
  pose proof (FieldsFunc_wf is_slash path) as HW.
  rewrite Forall_forall in *. intros e He.
  destruct (HF e He), (HW e He). by split_and!.
Qed.

Lemma wf_element_field es :
  Forall wf_element es →
  Forall (λ w, w ≠ "" ∧ string_all (λ c, negb (is_slash c)) w = true) es.
Proof. intros H. apply (Forall_impl _ _ _ H). by intros e (? & ? & _). Qed.

Lemma SplitRegistryPath_Join es :
  Forall wf_element es → SplitRegistryPath (JoinRegistryPath es) = Ok es.
Proof.
  intros Hes. apply SplitRegistryPath_Ok. split.
  - symmetry. apply FieldsFunc_Join; [apply is_slash_slash|by apply wf_element_field].
  - apply (Forall_impl _ _ _ Hes). by intros e (_ & _ & ? & ?).
Qed.

Lemma SplitRegistryPath_canonical path es :
  SplitRegistryPath path = Ok es → es ≠ [] → canonical (JoinRegistryPath es).
Proof. intros H ?. exists es. split_and!; [done|by eapply SplitRegistryPath_wf|done]. Qed.

Lemma JoinRegistryPath_inj es1 es2 :
  Forall wf_element es1 → Forall wf_element es2 →
  JoinRegistryPath es1 = JoinRegistryPath es2 → es1 = es2.
Proof.
  intros H1 H2 Heq. apply SplitRegistryPath_Join in H1, H2.
  rewrite Heq in H1. congruence.
Qed.

Lemma JoinRegistryPath_nil es :
  Forall wf_element es → JoinRegistryPath es = "" ↔ es = [].
Proof.
  intros Hes. split; [|by intros ->].
  intros H. apply (JoinRegistryPath_inj es []); [done|constructor|done].
Qed.

Lemma SplitRegistryPath_slash p q esp esq :
  SplitRegistryPath p = Ok esp → SplitRegistryPath q = Ok esq →
  SplitRegistryPath (p +:+ "/" +:+ q) = Ok (esp ++ esq).
Proof.
  intros [-> Hp]%SplitRegistryPath_Ok [-> Hq]%SplitRegistryPath_Ok.
  apply SplitRegistryPath_Ok. split; [|by apply Forall_app].
  symmetry. apply FieldsFunc_sep, is_slash_slash.
Qed.

#[export] Hint Resolve SplitRegistryPath_wf SplitRegistryPath_canonical : oim.

(** ** Properties *)

(** Round trip of registry keys: the key that is stored for a valid path
    splits again into exactly the elements of the path, so normalising twice is
    normalising once, and two valid paths get the same key only if they have the
    same elements. *)
Theorem registry_path_roundtrip p es :
  SplitRegistryPath p = Ok es →
  SplitRegistryPath (JoinRegistryPath es) = Ok es ∧
  (∀ q es', SplitRegistryPath q = Ok es' →
            JoinRegistryPath es' = JoinRegistryPath es → es' = es).
Proof.
  intros Hp. pose proof (SplitRegistryPath_wf _ _ Hp) as Hwf. split.
  - by apply SplitRegistryPath_Join.
  - intros q es' Hq. apply JoinRegistryPath_inj; eauto with oim.
Qed.

Lemma registry_path_roundtrip_witness :
  SplitRegistryPath "/foo///pci/" = Ok ["foo"; "pci"] ∧
  SplitRegistryPath (JoinRegistryPath ["foo"; "pci"]) = Ok ["foo"; "pci"].
Proof.
  split; [reflexivity|]. apply (registry_path_roundtrip "/foo///pci/"). reflexivity.
Defined.
