(* ===== verification/Messages.v ===== *)
(** * Messages of the OIM protocol: pkg/spec/oim/v0/oim.pb.go

    The Go structs of the messages, as records.  A pointer field is an
    [option], a [oneof] is an inductive type, a uint32 or int64 is a [Z]. *)
From S2P Require Import Prelude.

Record PCIAddress := MkPCIAddress {
  Domain : Z; Bus : Z; Device : Z; Function_ : Z
}.

Record SCSIDisk := MkSCSIDisk { Target : Z; Lun : Z }.

Record Value := MkValue { Path : string; Value_ : string }.

Record SetValueRequest := MkSetValueRequest { SetValue_Value : option Value }.
Record GetValuesRequest := MkGetValuesRequest { GetValues_Path : string }.
Record GetValuesReply := MkGetValuesReply { Values : list Value }.

Record CephParams := MkCephParams {
  UserId : string; Secret : string; Monitors : string; Pool : string; Image : string
}.

Inductive MapVolumeParams :=
| MapVolumeRequest_Malloc
| MapVolumeRequest_Ceph (Ceph : option CephParams).

Record MapVolumeRequest := MkMapVolumeRequest {
  Map_VolumeId : string; Params : option MapVolumeParams
}.

Record MapVolumeReply := MkMapVolumeReply {
  PciAddress : option PCIAddress; ScsiDisk : option SCSIDisk
}.

Record UnmapVolumeRequest := MkUnmapVolumeRequest { Unmap_VolumeId : string }.

Record ProvisionMallocBDevRequest := MkProvisionMallocBDevRequest {
  Provision_BdevName : string; Size_ : Z
}.

Record CheckMallocBDevRequest := MkCheckMallocBDevRequest { Check_BdevName : string }.

#[global] Instance PCIAddress_eq_dec : EqDecision PCIAddress.
Proof. solve_decision. Defined.
#[global] Instance SCSIDisk_eq_dec : EqDecision SCSIDisk.
Proof. solve_decision. Defined.
#[global] Instance Value_eq_dec : EqDecision Value.
Proof. solve_decision. Defined.
