(* ===== verification/Wire.v ===== *)
(** * Protocol buffers: the building blocks of pkg/spec/oim/v0/oim.pb.go

    Every message of the OIM protocol has methods Size, MarshalTo and Unmarshal,
    generated for its fields.  They consist of the same few pieces: here are these
    pieces, on byte slices with Go's bounds checks and 64-bit indices.  [Protobuf.v]
    has the messages. *)
From S2P Require Import Prelude GoStrings Strconv Errors.

(** ** Byte slices *)

Abbreviation bytes := (list Z).
Abbreviation zlen l := (Z.of_nat (length l)).

Definition bytes_of (s : string) : bytes := byte_val <$> String.list_ascii_of_string s.
Definition string_of (b : bytes) : string := String.string_of_list_ascii ((λ z, ascii_of_nat (Z.to_nat z)) <$> b).

(** [d[i]], [d[i] = b], [d[i:]] and [d[i:j]] *)
Definition index (d : bytes) (i : Z) : result Z :=
  if decide (0 ≤ i < zlen d) then Ok (nth (Z.to_nat i) d 0) else Panic "index out of range".
Definition set_index (d : bytes) (i b : Z) : result bytes :=
  if decide (0 ≤ i < zlen d) then Ok (<[Z.to_nat i:=b]> d) else Panic "index out of range".
Definition slice_from (d : bytes) (i : Z) : result bytes :=
  if decide (0 ≤ i ≤ zlen d) then Ok (drop (Z.to_nat i) d) else Panic "slice bounds out of range".
Definition slice (d : bytes) (i j : Z) : result bytes :=
  if decide (0 ≤ i ≤ j ∧ j ≤ zlen d) then Ok (take (Z.to_nat (j - i)) (drop (Z.to_nat i) d))
  else Panic "slice bounds out of range".

Definition ErrUnexpectedEOF_ : error := ErrorNew "unexpected EOF".
Definition ErrInvalidLengthOim : error := ErrorNew "proto: negative length found during unmarshaling".
Definition ErrIntOverflowOim : error := ErrorNew "proto: integer overflow".

(** Loops whose number of rounds depends on the data take fuel. *)
Definition out_of_fuel : string := "out of fuel".

(** ** Writing *)

Fixpoint encodeVarint_loop (fuel : nat) (dAtA : bytes) (offset v : Z) : result (bytes * Z) :=
  match fuel with
  | O => Panic out_of_fuel
  | S fuel =>
      if decide (128 ≤ v) then
        dAtA ← set_index dAtA offset (Z.lor (Z.land v 0x7f) 0x80);
        encodeVarint_loop fuel dAtA (offset + 1) (Z.shiftr v 7)
      else
        dAtA ← set_index dAtA offset v;
        Ok (dAtA, offset + 1)
  end.

(** Ten bytes are enough for 64 bits. *)
Definition encodeVarintOim (dAtA : bytes) (offset v : Z) : result (bytes * Z) := encodeVarint_loop 10 dAtA offset v.

Fixpoint sov_loop (fuel : nat) (n x : Z) : Z :=
  let n := n + 1 in
  let x := Z.shiftr x 7 in
  match fuel with
  | O => n
  | S fuel => if decide (x = 0) then n else sov_loop fuel n x
  end.

Definition sovOim (x : Z) : Z := sov_loop 9 0 x.

(** MarshalTo works on the slice and the index [i]. *)
Abbreviation writer := (bytes * Z → result (bytes * Z)).

Definition put (tag : Z) : writer := λ '(dAtA, i), dAtA ← set_index dAtA i tag; Ok (dAtA, i + 1).
Definition put_varint (v : Z) : writer := λ '(dAtA, i), encodeVarintOim dAtA i v.

(** [i += copy(dAtA[i:], s)] *)
Definition put_copy (s : bytes) : writer := λ '(dAtA, i),
  rest ← slice_from dAtA i;
  let n := Nat.min (length s) (length rest) in
  Ok (take (Z.to_nat i) dAtA ++ take n s ++ drop n rest, i + Z.of_nat n).

(** [n, err := msg.MarshalTo(dAtA[i:]); i += n] *)
Definition put_nested (MarshalTo : bytes → result (bytes * Z)) : writer := λ '(dAtA, i),
  rest ← slice_from dAtA i;
  '(rest, n) ← MarshalTo rest;
  Ok (take (Z.to_nat i) dAtA ++ rest, i + n).

(** One writer after the other. *)
Definition andThen (f g : writer) : writer := λ st, st ← f st; g st.
#[global] Infix ">=>" := andThen (at level 60, right associativity).

(** The fields: an empty string and a zero are not written. *)
Definition put_string (tag : Z) (s : string) : writer :=
  if decide (0 < zlen (bytes_of s)) then put tag >=> put_varint (uint64 (zlen (bytes_of s))) >=> put_copy (bytes_of s)
  else Ok.
Definition put_number (tag v : Z) : writer :=
  if decide (v ≠ 0) then put tag >=> put_varint (uint64 v) else Ok.
Definition put_message (tag size : Z) (MarshalTo : bytes → result (bytes * Z)) : writer :=
  put tag >=> put_varint (uint64 size) >=> put_nested MarshalTo.

Definition size_string (s : string) : Z :=
  let l := zlen (bytes_of s) in if decide (0 < l) then 1 + l + sovOim (uint64 l) else 0.
Definition size_number (v : Z) : Z := if decide (v ≠ 0) then 1 + sovOim (uint64 v) else 0.
Definition size_message (l : Z) : Z := 1 + l + sovOim (uint64 l).

(** ** Reading *)

(** The values of [shift] below 64. *)
Definition shifts : list Z := [0; 7; 14; 21; 28; 35; 42; 49; 56; 63].

(** A variable-length number; [conv] is the type of the variable that gets it. *)
Fixpoint varint_loop (conv : Z → Z) (shifts : list Z) (x : Z) (dAtA : bytes) (iNdEx : Z) : result (Z * Z) :=
  match shifts with
  | [] => Err ErrIntOverflowOim
  | shift :: shifts =>
      if decide (zlen dAtA ≤ iNdEx) then Err ErrUnexpectedEOF_
      else
        b ← index dAtA iNdEx;
        let iNdEx := iNdEx + 1 in
        let x := Z.lor x (conv (Z.shiftl (Z.land b 0x7F) shift)) in
        if decide (b < 0x80) then Ok (x, iNdEx) else varint_loop conv shifts x dAtA iNdEx
  end.

Definition read_varint (conv : Z → Z) : bytes → Z → result (Z * Z) := varint_loop conv shifts 0.

(** How many bytes an unknown field has. *)
Fixpoint skip (fuel : nat) (dAtA : bytes) : result Z :=
  match fuel with
  | O => Panic out_of_fuel
  | S fuel =>
      if decide (zlen dAtA ≤ 0) then Panic "unreachable"
      else
        '(wire, iNdEx) ← read_varint uint64 dAtA 0;
        let wireType := Z.land wire 0x7 in
        if decide (wireType = 0) then '(_, iNdEx) ← read_varint uint64 dAtA iNdEx; Ok iNdEx
        else if decide (wireType = 1) then Ok (int64 (iNdEx + 8))
        else if decide (wireType = 2) then
          '(length, iNdEx) ← read_varint int64 dAtA iNdEx;
          if decide (length < 0) then Err ErrInvalidLengthOim else Ok (int64 (iNdEx + length))
        else if decide (wireType = 3) then skip_group fuel dAtA iNdEx
        else if decide (wireType = 4) then Ok iNdEx
        else if decide (wireType = 5) then Ok (int64 (iNdEx + 4))
        else Err (Errorf "proto: illegal wireType %d" [Itoa wireType])
  end
with skip_group (fuel : nat) (dAtA : bytes) (start : Z) : result Z :=
  match fuel with
  | O => Panic out_of_fuel
  | S fuel =>
      '(innerWire, iNdEx) ← read_varint uint64 dAtA start;
      if decide (Z.land innerWire 0x7 = 4) then Ok iNdEx
      else
        rest ← slice_from dAtA start;
        next ← skip fuel rest;
        skip_group fuel dAtA (int64 (start + next))
  end.

(** Each level and each field of a group has a byte of its own. *)
Definition skipOim (dAtA : bytes) : result Z := skip (2 * length dAtA + 1) dAtA.

(** A [case] of Unmarshal's switch: what the field is called, how it is read and
    where it goes. *)
Inductive field (M : Type) :=
| StringField (name : string) (set : string → M → M)
| NumberField (name : string) (conv : Z → Z) (set : Z → M → M)
| MessageField (name : string) (Unmarshal : bytes → M → result M).
Arguments StringField {M} _ _.
Arguments NumberField {M} _ _ _.
Arguments MessageField {M} _ _.

Definition wrong_type (wireType : Z) (name : string) : error :=
  Errorf ("proto: wrong wireType = %d for field " +:+ name) [Itoa wireType].

(** The bytes of a field with a length. *)
Definition read_chunk (n : Z) (dAtA : bytes) (iNdEx : Z) : result (bytes * Z) :=
  if decide (n < 0) then Err ErrInvalidLengthOim
  else
    let postIndex := int64 (iNdEx + n) in
    if decide (zlen dAtA < postIndex) then Err ErrUnexpectedEOF_
    else chunk ← slice dAtA iNdEx postIndex; Ok (chunk, postIndex).

Definition read_field {M} (f : field M) (wireType : Z) (dAtA : bytes) (iNdEx : Z) (m : M) : result (M * Z) :=
  match f with
  | StringField name set =>
      if decide (wireType ≠ 2) then Err (wrong_type wireType name)
      else
        '(stringLen, iNdEx) ← read_varint uint64 dAtA iNdEx;
        '(chunk, postIndex) ← read_chunk (int64 stringLen) dAtA iNdEx;
        Ok (set (string_of chunk) m, postIndex)
  | NumberField name conv set =>
      if decide (wireType ≠ 0) then Err (wrong_type wireType name)
      else '(x, iNdEx) ← read_varint conv dAtA iNdEx; Ok (set x m, iNdEx)
  | MessageField name Unmarshal =>
      if decide (wireType ≠ 2) then Err (wrong_type wireType name)
      else
        '(msglen, iNdEx) ← read_varint int64 dAtA iNdEx;
        '(chunk, postIndex) ← read_chunk msglen dAtA iNdEx;
        m ← Unmarshal chunk m;
        Ok (m, postIndex)
  end.

(** The loop of Unmarshal for the message type [name]. *)
Fixpoint unmarshal_loop {M} (fuel : nat) (name : string) (fields : Z → option (field M))
    (dAtA : bytes) (iNdEx : Z) (m : M) : result M :=
  match fuel with
  | O => Panic out_of_fuel
  | S fuel =>
      if decide (iNdEx < zlen dAtA) then
        let preIndex := iNdEx in
        '(wire, iNdEx) ← read_varint uint64 dAtA iNdEx;
        let fieldNum := int32 (Z.shiftr wire 3) in
        let wireType := Z.land wire 0x7 in
        if decide (wireType = 4) then Err (ErrorNew ("proto: " +:+ name +:+ ": wiretype end group for non-group"))
        else if decide (fieldNum ≤ 0)
        then Err (Errorf ("proto: " +:+ name +:+ ": illegal tag %d (wire type %d)") [Itoa fieldNum; Itoa wire])
        else
          match fields fieldNum with
          | Some f =>
              '(m, iNdEx) ← read_field f wireType dAtA iNdEx m;
              unmarshal_loop fuel name fields dAtA iNdEx m
          | None =>
              rest ← slice_from dAtA preIndex;
              skippy ← skipOim rest;
              if decide (skippy < 0) then Err ErrInvalidLengthOim
              else if decide (zlen dAtA < int64 (preIndex + skippy)) then Err ErrUnexpectedEOF_
              else unmarshal_loop fuel name fields dAtA (int64 (preIndex + skippy)) m
          end
      else if decide (zlen dAtA < iNdEx) then Err ErrUnexpectedEOF_
      else Ok m
  end.

(** A round takes at least one byte, or leads to an index below zero. *)
Definition unmarshal {M} (name : string) (fields : Z → option (field M)) (dAtA : bytes) (m : M) : result M :=
  unmarshal_loop (length dAtA + 2) name fields dAtA 0 m.

(** ** Numbers of a fixed width *)

(** A conversion to an integer type works bit by bit. *)
Class BitwiseConv (conv : Z → Z) := {
  conv_lor a b : conv (Z.lor a b) = Z.lor (conv a) (conv b);
  conv_0 : conv 0 = 0
}.

Lemma unsigned_bitwise w : 0 ≤ w → BitwiseConv (wrap_unsigned w).
Proof.
  intros Hw. split; unfold wrap_unsigned; [|by rewrite Z.mod_0_l by lia].
  intros a b. rewrite <-!Z.land_ones by done. apply Z.land_lor_distr_l.
Qed.

(** The bits of a signed number: the upper ones repeat the sign. *)
Lemma signed_testbit w z i : 0 < w → 0 ≤ i → Z.testbit (wrap_signed w z) i = Z.testbit z (Z.min i (w - 1)).
Proof.
  intros Hw Hi. unfold wrap_signed. set (h := 2 ^ (w - 1)). assert (2 ^ w = 2 * h) as Hp.
  { unfold h. rewrite <-Z.pow_succ_r by lia. f_equal. lia. }
  assert (0 < h) as Hh by (unfold h; lia).
  set (r := (z + h) mod 2 ^ w - h). assert (r mod 2 ^ w = z mod 2 ^ w) as Hmod.
  { unfold r. rewrite <-Zminus_mod_idemp_l, Zmod_mod, Zminus_mod_idemp_l. f_equal. lia. }
  assert (- h ≤ r < h) as Hr.
  { unfold r. pose proof (Z.mod_pos_bound (z + h) (2 ^ w)). lia. }
  assert (∀ j, 0 ≤ j < w → Z.testbit r j = Z.testbit z j) as Hlow.
  { intros j Hj. rewrite <-(Z.mod_pow2_bits_low r w j), <-(Z.mod_pow2_bits_low z w j), Hmod by lia. done. }
  assert (∀ j, w - 1 ≤ j → Z.testbit r j = bool_decide (r < 0)) as Hhigh.
  { intros j Hj. replace j with ((j - (w - 1)) + (w - 1)) by lia. rewrite <-Z.shiftr_spec by lia.
    rewrite Z.shiftr_div_pow2 by lia. fold h. case_bool_decide.
    - replace (r / h) with (-1); [apply Z.bits_m1; lia|]. apply (Z.div_unique _ _ _ (r + h)); lia.
    - rewrite Z.div_small by lia. apply Z.bits_0. }
  destruct (decide (i < w)) as [Hiw|Hiw].
  - rewrite Z.min_l by lia. apply Hlow. lia.
  - rewrite Z.min_r, <-Hlow, !Hhigh by lia. done.
Qed.

Lemma signed_bitwise w : 0 < w → BitwiseConv (wrap_signed w).
Proof.
  intros Hw. split; [|rewrite wrap_signed_small; lia]. intros a b. apply Z.bits_inj'. intros i Hi.
  by rewrite Z.lor_spec, !signed_testbit, Z.lor_spec.
Qed.
#[export] Hint Extern 1 (BitwiseConv uint32) => apply unsigned_bitwise; lia : typeclass_instances.
#[export] Hint Extern 1 (BitwiseConv uint64) => apply unsigned_bitwise; lia : typeclass_instances.
#[export] Hint Extern 1 (BitwiseConv int64) => apply signed_bitwise; lia : typeclass_instances.

Lemma int64_small v : 0 ≤ v < 2 ^ 63 → int64 v = v.
Proof. intros Hv. apply wrap_signed_small; lia. Qed.

(** ** Slices that are cut into pieces *)

Lemma index_at pre x post : index (pre ++ x :: post) (zlen pre) = Ok x.
Proof.
  unfold index. rewrite decide_True by (rewrite length_app, length_cons; lia). f_equal.
  by rewrite Nat2Z.id, app_nth2, Nat.sub_diag by lia.
Qed.

Lemma set_index_at pre x post b : set_index (pre ++ x :: post) (zlen pre) b = Ok (pre ++ b :: post).
Proof.
  unfold set_index. rewrite decide_True by (rewrite length_app, length_cons; lia). f_equal.
  by rewrite Nat2Z.id, insert_app_r_alt, Nat.sub_diag by lia.
Qed.

Lemma slice_from_at pre post : slice_from (pre ++ post) (zlen pre) = Ok post.
Proof. unfold slice_from. by rewrite decide_True, Nat2Z.id, drop_app_length by (rewrite length_app; lia). Qed.

Lemma slice_at pre mid post : slice (pre ++ mid ++ post) (zlen pre) (zlen pre + zlen mid) = Ok mid.
Proof.
  unfold slice. rewrite decide_True by (rewrite !length_app; lia). f_equal.
  rewrite Nat2Z.id, drop_app_length. replace (Z.to_nat _) with (length mid) by lia. apply take_app_length.
Qed.

(** ** The encoding of a number *)

Fixpoint varint_bytes (fuel : nat) (v : Z) : bytes :=
  match fuel with
  | O => []
  | S fuel => if decide (128 ≤ v) then Z.lor (Z.land v 0x7f) 0x80 :: varint_bytes fuel (Z.shiftr v 7) else [v]
  end.

Definition varint (v : Z) : bytes := varint_bytes 10 v.

Lemma shiftr_7_bound v n : 128 ≤ v < 2 ^ (7 * Z.of_nat (S n)) → 0 ≤ Z.shiftr v 7 < 2 ^ (7 * Z.of_nat n).
Proof.
  intros Hv. rewrite Z.shiftr_div_pow2 by lia. split; [apply Z.div_pos; lia|].
  apply Z.div_lt_upper_bound; [lia|]. rewrite <-Z.pow_add_r by lia.
  replace (7 + 7 * Z.of_nat n) with (7 * Z.of_nat (S n)) by lia. tauto.
Qed.

Lemma continuation_byte v : let b := Z.lor (Z.land v 0x7f) 0x80 in 128 ≤ b ∧ Z.land b 0x7f = Z.land v 0x7f.
Proof.
  cbv zeta. split.
  - rewrite <-Z.add_nocarry_lor by (by rewrite <-Z.land_assoc, Z.land_0_r).
    assert (0 ≤ Z.land v 0x7f) by (apply Z.land_nonneg; lia). lia.
  - rewrite Z.land_lor_distr_l, <-Z.land_assoc. change (Z.land 0x7f 0x7f) with 0x7f. change (Z.land 0x80 0x7f) with 0. apply Z.lor_0_r.
Qed.

(** The number is its lowest seven bits and the rest. *)
Lemma low_and_high v s : 0 ≤ s →
  Z.lor (Z.shiftl (Z.land v 0x7f) s) (Z.shiftl (Z.shiftr v 7) (s + 7)) = Z.shiftl v s.
Proof.
  intros Hs. rewrite Z.add_comm, <-Z.shiftl_shiftl, <-Z.shiftl_lor by lia. f_equal.
  rewrite <-Z.ldiff_ones_r by lia. change (Z.ones 7) with 0x7f. rewrite Z.lor_comm. apply Z.lor_ldiff_and.
Qed.

Fixpoint shifts_from (s : Z) (n : nat) : list Z :=
  match n with O => [] | S n => s :: shifts_from (s + 7) n end.

Lemma varint_bytes_S n v :
  varint_bytes (S n) v = if decide (128 ≤ v) then Z.lor (Z.land v 0x7f) 0x80 :: varint_bytes n (Z.shiftr v 7) else [v].
Proof. done. Qed.

Lemma shifts_from_S s n : shifts_from s (S n) = s :: shifts_from (s + 7) n.
Proof. done. Qed.

(** One round. *)
Lemma varint_loop_cons conv s ss x b pre post :
  varint_loop conv (s :: ss) x (pre ++ b :: post) (zlen pre) =
    let x := Z.lor x (conv (Z.shiftl (Z.land b 0x7F) s)) in
    if decide (b < 0x80) then Ok (x, zlen pre + 1) else varint_loop conv ss x (pre ++ b :: post) (zlen pre + 1).
Proof. cbn [varint_loop]. by rewrite decide_False, index_at by (rewrite length_app, length_cons; lia). Qed.

Lemma varint_loop_at conv `{!BitwiseConv conv} n s x v pre post :
  0 ≤ s → 0 ≤ v < 2 ^ (7 * Z.of_nat (S n)) →
  varint_loop conv (shifts_from s (S n)) x (pre ++ varint_bytes (S n) v ++ post) (zlen pre) =
    Ok (Z.lor x (conv (Z.shiftl v s)), zlen pre + zlen (varint_bytes (S n) v)).
Proof.
  revert s x v pre. induction n as [|n IH]; intros s x v pre Hs Hv; rewrite varint_bytes_S, shifts_from_S.
  all: destruct (decide (128 ≤ v)) as [Hbig|Hsmall]; cbn [app]; rewrite varint_loop_cons; cbv zeta.
  all: try (rewrite decide_True by lia; do 4 f_equal; change 0x7F with (Z.ones 7); by rewrite Z.land_ones, Z.mod_small by lia).
  - lia.
  - destruct (continuation_byte v) as [Hb Hland]. rewrite decide_False, Hland by lia.
    rewrite (cons_middle _ pre), app_assoc. replace (zlen pre + 1) with (zlen (pre ++ [Z.lor (Z.land v 0x7f) 0x80]))
      by (rewrite length_app; cbn; lia).
    rewrite IH; [|lia|apply shiftr_7_bound; split; [done|apply Hv]]. f_equal. f_equal.
    + by rewrite <-Z.lor_assoc, <-conv_lor, low_and_high by lia.
    + rewrite length_app, length_cons. cbn [length]. lia.
Qed.

(** Ten bytes of seven bits. *)
Lemma varint_range v : 0 ≤ v < 2 ^ 64 → 0 ≤ v < 2 ^ (7 * Z.of_nat 10).
Proof. intros Hv. split; [lia|]. transitivity (2 ^ 64); [lia|done]. Qed.

(** Numbers of up to 64 bits are read back, in the type of the variable. *)
Lemma read_varint_at conv `{!BitwiseConv conv} v pre post :
  0 ≤ v < 2 ^ 64 → read_varint conv (pre ++ varint v ++ post) (zlen pre) = Ok (conv v, zlen pre + zlen (varint v)).
Proof.
  intros Hv. unfold read_varint. change shifts with (shifts_from 0 10).
  unfold varint. rewrite (varint_loop_at conv); [|done|by apply varint_range]. by rewrite Z.lor_0_l, Z.shiftl_0_r.
Qed.

Lemma varint_length n v : 0 ≤ v < 2 ^ (7 * Z.of_nat (S n)) → zlen (varint_bytes (S n) v) = sov_loop n 0 v.
Proof.
  assert (∀ n k v, 0 ≤ v < 2 ^ (7 * Z.of_nat (S n)) → sov_loop n k v = k + zlen (varint_bytes (S n) v)) as H; [|intros; by rewrite H].
  clear n v. induction n as [|n IH]; intros k v Hv.
  - cbn [varint_bytes sov_loop]. rewrite decide_False by lia. done.
  - rewrite varint_bytes_S. cbn [sov_loop]. case_decide as Hz; case_decide as Hbig.
    + rewrite Z.shiftr_div_pow2 in Hz by lia. apply Z.div_small_iff in Hz; lia.
    + done.
    + rewrite IH by (apply shiftr_7_bound; split; [done|apply Hv]). rewrite length_cons. lia.
    + destruct Hz. rewrite Z.shiftr_div_pow2 by lia. apply Z.div_small. lia.
Qed.

Lemma sovOim_length v : 0 ≤ v < 2 ^ 64 → sovOim v = zlen (varint v).
Proof. intros Hv. unfold sovOim, varint. by rewrite varint_length by (by apply varint_range). Qed.

(** ** Writing *)

(** The writer replaces as many bytes as the encoding has, and moves behind them. *)
Definition writes (f : writer) (e : bytes) : Prop :=
  ∀ pre old post, length old = length e → f (pre ++ old ++ post, zlen pre) = Ok (pre ++ e ++ post, zlen pre + zlen e).

Lemma writes_nothing : writes Ok [].
Proof. intros pre old post ->%nil_length_inv. cbn. f_equal. f_equal. lia. Qed.

Lemma writes_seq f g e1 e2 : writes f e1 → writes g e2 → writes (f >=> g) (e1 ++ e2).
Proof.
  intros Hf Hg pre old post Hlen. unfold andThen. rewrite length_app in Hlen. rewrite <-(take_drop (length e1) old), <-app_assoc.
  rewrite Hf by (rewrite length_take; lia). cbn [mbind result_mbind result_bind].
  rewrite app_assoc. replace (zlen pre + zlen e1) with (zlen (pre ++ e1)) by (rewrite length_app; lia).
  rewrite Hg by (rewrite length_drop; lia). rewrite !length_app, <-!app_assoc. f_equal. f_equal. lia.
Qed.

Lemma writes_put tag : writes (put tag) [tag].
Proof.
  intros pre old post Hlen. destruct old as [|x [|]]; [done| |done]. cbn [app put]. by rewrite set_index_at.
Qed.

(** One round. *)
Lemma encodeVarint_loop_S n v pre x post :
  encodeVarint_loop (S n) (pre ++ x :: post) (zlen pre) v =
    if decide (128 ≤ v) then encodeVarint_loop n (pre ++ Z.lor (Z.land v 0x7f) 0x80 :: post) (zlen pre + 1) (Z.shiftr v 7)
    else Ok (pre ++ v :: post, zlen pre + 1).
Proof. cbn [encodeVarint_loop]. by rewrite !set_index_at. Qed.

Lemma writes_varint_bytes n v :
  0 ≤ v < 2 ^ (7 * Z.of_nat (S n)) → writes (λ '(d, i), encodeVarint_loop (S n) d i v) (varint_bytes (S n) v).
Proof.
  revert v. induction n as [|n IH]; intros v Hv pre old post; rewrite varint_bytes_S; intros Hlen.
  all: destruct old as [|x old]; [by case_decide|]; cbn [app]; rewrite encodeVarint_loop_S.
  all: destruct (decide (128 ≤ v)) as [Hbig|Hsmall]; [|by destruct old].
  - lia.
  - injection Hlen as Hlen.
    pose proof (IH (Z.shiftr v 7) ltac:(apply shiftr_7_bound; split; [done|apply Hv])
      (pre ++ [Z.lor (Z.land v 0x7f) 0x80]) old post Hlen) as Hrest.
    rewrite <-!app_assoc, length_app in Hrest. cbn [app length] in Hrest. rewrite Nat2Z.inj_add in Hrest.
    etransitivity; [exact Hrest|]. rewrite length_cons. f_equal. f_equal. lia.
Qed.

Lemma writes_varint v : 0 ≤ v < 2 ^ 64 → writes (put_varint v) (varint v).
Proof. intros Hv. apply (writes_varint_bytes 9). by apply varint_range. Qed.

Lemma writes_copy s : writes (put_copy s) s.
Proof.
  intros pre old post Hlen. unfold put_copy. rewrite slice_from_at. cbn [mbind result_mbind result_bind].
  rewrite Nat2Z.id, take_app_length, length_app, <-Hlen, Nat.min_l by lia.
  rewrite drop_app_length, take_ge by lia. done.
Qed.

(** A nested message, which fills a slice of its size. *)
Definition marshals (MarshalTo : bytes → result (bytes * Z)) (e : bytes) : Prop :=
  ∀ old post, length old = length e → MarshalTo (old ++ post) = Ok (e ++ post, zlen e).

Lemma writes_nested MarshalTo e : marshals MarshalTo e → writes (put_nested MarshalTo) e.
Proof.
  intros Hm pre old post Hlen. unfold put_nested. rewrite slice_from_at. cbn [mbind result_mbind result_bind].
  rewrite Hm by done. cbn [mbind result_mbind result_bind]. by rewrite Nat2Z.id, take_app_length.
Qed.

Lemma marshals_writer f e : writes f e → marshals (λ d, f (d, 0)) e.
Proof. intros Hf old post Hlen. exact (Hf [] old post Hlen). Qed.

(** The encodings of the fields. *)
Definition enc_string (tag : Z) (s : string) : bytes :=
  if decide (s = "") then [] else tag :: varint (zlen (bytes_of s)) ++ bytes_of s.
Definition enc_number (tag v : Z) : bytes := if decide (v = 0) then [] else tag :: varint (uint64 v).
Definition enc_message (tag : Z) (e : bytes) : bytes := tag :: varint (zlen e) ++ e.

(** What fits into memory. *)
Definition fits (l : bytes) : Prop := zlen l < 2 ^ 63.

Lemma bytes_of_empty s : 0 < zlen (bytes_of s) ↔ s ≠ "".
Proof. destruct s; cbn; split; [lia|done|done|lia]. Qed.

Lemma writes_string tag s : fits (bytes_of s) → writes (put_string tag s) (enc_string tag s).
Proof.
  intros Hs. unfold fits in Hs. unfold put_string, enc_string. pose proof (bytes_of_empty s).
  destruct (decide (s = "")) as [->|Hne]; [apply writes_nothing|]. rewrite decide_True by tauto.
  apply (writes_seq (put tag) _ [tag]); [apply writes_put|]. apply writes_seq; [|apply writes_copy].
  rewrite wrap_unsigned_small by lia. apply writes_varint. lia.
Qed.

Lemma writes_number tag v : writes (put_number tag v) (enc_number tag v).
Proof.
  unfold put_number, enc_number. destruct (decide (v = 0)) as [->|Hne]; [apply writes_nothing|]. rewrite decide_True by done.
  apply (writes_seq (put tag) _ [tag]); [apply writes_put|]. apply writes_varint, wrap_unsigned_range. lia.
Qed.

Lemma writes_message tag MarshalTo e :
  fits e → marshals MarshalTo e → writes (put_message tag (zlen e) MarshalTo) (enc_message tag e).
Proof.
  intros He Hm. unfold fits in He. apply (writes_seq (put tag) _ [tag]); [apply writes_put|].
  apply writes_seq; [|by apply writes_nested]. rewrite wrap_unsigned_small by lia. apply writes_varint. lia.
Qed.

Lemma size_string_enc tag s : fits (bytes_of s) → size_string s = zlen (enc_string tag s).
Proof.
  intros Hs. unfold fits in Hs. unfold size_string, enc_string. pose proof (bytes_of_empty s).
  destruct (decide (s = "")) as [->|Hne]; [done|]. rewrite decide_True by tauto.
  rewrite wrap_unsigned_small, sovOim_length, length_cons, length_app by lia. lia.
Qed.

Lemma size_number_enc tag v : size_number v = zlen (enc_number tag v).
Proof.
  unfold size_number, enc_number. destruct (decide (v = 0)) as [->|Hne]; [done|]. rewrite decide_True by done.
  rewrite sovOim_length, length_cons by (apply wrap_unsigned_range; lia). lia.
Qed.

Lemma size_message_enc tag e : fits e → size_message (zlen e) = zlen (enc_message tag e).
Proof.
  intros He. unfold fits in He. unfold size_message, enc_message.
  rewrite wrap_unsigned_small, sovOim_length, length_cons, length_app by lia. lia.
Qed.

(** ** Reading back *)

Lemma string_of_bytes s : string_of (bytes_of s) = s.
Proof.
  unfold string_of, bytes_of. rewrite <-list_fmap_compose. rewrite <-(String.string_of_list_ascii_of_string s) at 2. f_equal.
  rewrite <-(list_fmap_id (String.list_ascii_of_string s)) at 2. apply list_fmap_ext. intros i c _. cbn.
  unfold byte_val. by rewrite Nat2Z.id, ascii_nat_embedding.
Qed.

Lemma read_chunk_at pre c post :
  fits (pre ++ c ++ post) → read_chunk (zlen c) (pre ++ c ++ post) (zlen pre) = Ok (c, zlen pre + zlen c).
Proof.
  intros Hfits. unfold fits in Hfits. unfold read_chunk. rewrite decide_False by lia.
  rewrite !length_app in Hfits. rewrite wrap_signed_small by lia.
  rewrite decide_False by (rewrite !length_app; lia). by rewrite slice_at.
Qed.

(** The bytes of a field behind its tag. *)
Definition reads {M} (f : field M) (wireType : Z) (body : bytes) (m m' : M) : Prop :=
  ∀ pre post, fits (pre ++ body ++ post) →
    read_field f wireType (pre ++ body ++ post) (zlen pre) m = Ok (m', zlen pre + zlen body).

Lemma reads_number {M} name conv `{!BitwiseConv conv} (set : Z → M → M) v m :
  0 ≤ v < 2 ^ 64 → reads (NumberField name conv set) 0 (varint v) m (set (conv v) m).
Proof.
  intros Hv pre post _. cbn [read_field]. rewrite decide_False by (by intros []). by rewrite (read_varint_at conv).
Qed.

(** A length and what it is the length of. *)
Lemma read_length conv `{!BitwiseConv conv} pre c post :
  fits (pre ++ (varint (zlen c) ++ c) ++ post) → conv (zlen c) = zlen c →
  read_varint conv (pre ++ (varint (zlen c) ++ c) ++ post) (zlen pre) = Ok (zlen c, zlen pre + zlen (varint (zlen c))) ∧
  read_chunk (zlen c) (pre ++ (varint (zlen c) ++ c) ++ post) (zlen pre + zlen (varint (zlen c))) =
    Ok (c, zlen pre + zlen (varint (zlen c) ++ c)).
Proof.
  intros Hfits Hc. pose proof Hfits as Hl. unfold fits in Hl. rewrite !length_app in Hl. split.
  - rewrite <-app_assoc, (read_varint_at conv) by lia. by rewrite Hc.
  - rewrite <-app_assoc, app_assoc. replace (zlen pre + zlen (varint (zlen c))) with (zlen (pre ++ varint (zlen c)))
      by (rewrite length_app; lia).
    rewrite read_chunk_at by (by rewrite <-app_assoc, (app_assoc (varint _))).
    rewrite !length_app. f_equal. f_equal. lia.
Qed.

Lemma reads_string {M} name (set : string → M → M) s m :
  reads (StringField name set) 2 (varint (zlen (bytes_of s)) ++ bytes_of s) m (set s m).
Proof.
  intros pre post Hfits. cbn [read_field]. rewrite decide_False by (by intros []).
  pose proof Hfits as Hl. unfold fits in Hl. rewrite !length_app in Hl.
  destruct (read_length uint64 pre (bytes_of s) post Hfits) as [-> Hchunk]; [apply wrap_unsigned_small; lia|].
  cbn [mbind result_mbind result_bind]. rewrite wrap_signed_small, Hchunk by lia. cbn [mbind result_mbind result_bind].
  by rewrite string_of_bytes.
Qed.

Lemma reads_message {M} name (Unmarshal : bytes → M → result M) e m m' :
  Unmarshal e m = Ok m' → reads (MessageField name Unmarshal) 2 (varint (zlen e) ++ e) m m'.
Proof.
  intros Hm pre post Hfits. cbn [read_field]. rewrite decide_False by (by intros []).
  pose proof Hfits as Hl. unfold fits in Hl. rewrite !length_app in Hl.
  destruct (read_length int64 pre e post Hfits) as [-> Hchunk]; [apply wrap_signed_small; lia|].
  cbn [mbind result_mbind result_bind]. rewrite Hchunk. cbn [mbind result_mbind result_bind]. by rewrite Hm.
Qed.

(** ** Unknown fields *)

(** Fields with a number that no message has: later versions of the protocol may have
    them. *)
Inductive unknown_fields : bytes → Prop :=
| unknown_none : unknown_fields []
| unknown_varint num v rest :
    6 ≤ num < 2 ^ 28 → 0 ≤ v < 2 ^ 64 → unknown_fields rest → unknown_fields ((varint (num * 8) ++ varint v) ++ rest)
| unknown_fixed64 num c rest :
    6 ≤ num < 2 ^ 28 → length c = 8%nat → unknown_fields rest → unknown_fields ((varint (num * 8 + 1) ++ c) ++ rest)
| unknown_bytes num c rest :
    6 ≤ num < 2 ^ 28 → unknown_fields rest → unknown_fields ((varint (num * 8 + 2) ++ varint (zlen c) ++ c) ++ rest)
| unknown_fixed32 num c rest :
    6 ≤ num < 2 ^ 28 → length c = 4%nat → unknown_fields rest → unknown_fields ((varint (num * 8 + 5) ++ c) ++ rest).

Lemma land_7 num t : 0 ≤ t < 8 → Z.land (num * 8 + t) 0x7 = t.
Proof. intros Ht. change 0x7 with (Z.ones 3). rewrite Z.land_ones by lia. change (2 ^ 3) with 8. rewrite Z.add_comm, Z.mod_add, Z.mod_small by lia. done. Qed.

Lemma shiftr_3 num t : 0 ≤ t < 8 → Z.shiftr (num * 8 + t) 3 = num.
Proof. intros Ht. rewrite Z.shiftr_div_pow2 by lia. change (2 ^ 3) with 8. rewrite Z.add_comm, Z.div_add, Z.div_small by lia. lia. Qed.

(** The tag of a field, in front of whatever follows. *)
Lemma read_tag pre num t post :
  0 ≤ num < 2 ^ 28 → 0 ≤ t < 8 →
  read_varint uint64 (pre ++ varint (num * 8 + t) ++ post) (zlen pre) = Ok (num * 8 + t, zlen pre + zlen (varint (num * 8 + t))).
Proof. intros Hn Ht. rewrite (read_varint_at uint64) by lia. by rewrite wrap_unsigned_small by lia. Qed.

Lemma varint_nonempty v : 0 < zlen (varint v).
Proof. unfold varint. rewrite varint_bytes_S. case_decide; rewrite length_cons; lia. Qed.

Lemma skip_tag num t rest n :
  0 ≤ num < 2 ^ 28 → 0 ≤ t < 8 →
  (let d := varint (num * 8 + t) ++ rest in let i := zlen (varint (num * 8 + t)) in
   t = 0 ∧ (∃ x, read_varint uint64 d i = Ok (x, n)) ∨ t = 1 ∧ int64 (i + 8) = n ∨ t = 5 ∧ int64 (i + 4) = n ∨
   t = 2 ∧ ∃ l j, read_varint int64 d i = Ok (l, j) ∧ 0 ≤ l ∧ int64 (j + l) = n) →
  skipOim (varint (num * 8 + t) ++ rest) = Ok n.
Proof.
  intros Hn Ht Hcase. unfold skipOim. rewrite Nat.add_1_r. cbn [skip]. pose proof (varint_nonempty (num * 8 + t)).
  rewrite decide_False by (rewrite length_app; lia). pose proof (read_tag [] num t rest Hn Ht) as Hr. cbn [app length] in Hr.
  change (Z.of_nat 0) with 0 in Hr. rewrite Hr. cbn [mbind result_mbind result_bind]. rewrite land_7, Z.add_0_l by done.
  destruct Hcase as [[-> [x Hx]]|[[-> Hx]|[[-> Hx]|[-> (l & j & Hx & Hl & Hj)]]]].
  - rewrite decide_True by done. by rewrite Hx.
  - rewrite decide_False, decide_True by done. by rewrite Hx.
  - do 5 rewrite decide_False by done. rewrite decide_True by done. by rewrite Hx.
  - do 2 rewrite decide_False by done. rewrite decide_True by done. rewrite Hx. cbn [mbind result_mbind result_bind]. rewrite decide_False by lia. by rewrite Hj.
Qed.

(** ** The loop of Unmarshal *)

Section Loop.
Context {M : Type} (name : string) (fields : Z → option (field M)).

(** The loop takes the bytes in and changes the message. *)
Definition consumes (e : bytes) (m m' : M) : Prop :=
  ∀ pre post fuel, fits (pre ++ e ++ post) → zlen (e ++ post) < Z.of_nat fuel →
    ∃ fuel', zlen post < Z.of_nat fuel' ∧
      unmarshal_loop fuel name fields (pre ++ e ++ post) (zlen pre) m =
        unmarshal_loop fuel' name fields (pre ++ e ++ post) (zlen (pre ++ e)) m'.

Lemma consumes_nothing m : consumes [] m m.
Proof. intros pre post fuel _ Hfuel. exists fuel. by rewrite app_nil_r. Qed.

Lemma consumes_app e1 e2 m m1 m2 : consumes e1 m m1 → consumes e2 m1 m2 → consumes (e1 ++ e2) m m2.
Proof.
  intros H1 H2 pre post fuel Hfits Hfuel. rewrite <-app_assoc in *.
  destruct (H1 pre (e2 ++ post) fuel Hfits Hfuel) as (f1 & Hf1 & ->). rewrite app_assoc in Hfits |- *.
  destruct (H2 (pre ++ e1) post f1 Hfits Hf1) as (f2 & Hf2 & ->). exists f2. by rewrite !app_assoc.
Qed.

Lemma consumes_eq e m m1 m2 : consumes e m m1 → m1 = m2 → consumes e m m2.
Proof. by intros ? <-. Qed.

(** A tag of one byte. *)
Definition tag_of (tag num wireType : Z) : Prop :=
  0 ≤ tag < 128 ∧ int32 (Z.shiftr tag 3) = num ∧ Z.land tag 0x7 = wireType ∧ 0 < num ∧ wireType ≠ 4.

Lemma consumes_field tag num wireType f body m m' :
  tag_of tag num wireType → fields num = Some f → reads f wireType body m m' → consumes (tag :: body) m m'.
Proof.
  intros (Htag & Hnum & Hwt & Hpos & Hgroup) Hf Hbody pre post fuel Hfits Hfuel.
  destruct fuel as [|fuel]; [lia|]. exists fuel. split; [rewrite length_app, length_cons in Hfuel; lia|].
  cbn [unmarshal_loop]. rewrite decide_True by (rewrite !length_app, length_cons; lia).
  pose proof (read_varint_at uint64 tag pre (body ++ post)) as Hread. unfold varint in Hread.
  rewrite varint_bytes_S, decide_False in Hread by lia. cbn [app length] in Hread |- *. rewrite Hread by lia.
  cbn [mbind result_mbind result_bind]. rewrite wrap_unsigned_small by lia. rewrite Hnum, Hwt, Hf.
  rewrite !decide_False by lia. rewrite (cons_middle tag), app_assoc.
  replace (zlen pre + Z.of_nat 1) with (zlen (pre ++ [tag])) by (rewrite length_app; cbn; lia).
  rewrite Hbody by (by rewrite <-app_assoc). cbn [mbind result_mbind result_bind].
  f_equal. rewrite !length_app. cbn. lia.
Qed.

Lemma consumes_string tag num fname set s m :
  tag_of tag num 2 → fields num = Some (StringField fname set) → (s = "" → set s m = m) →
  consumes (enc_string tag s) m (set s m).
Proof.
  intros Htag Hf Hset. unfold enc_string. case_decide; [rewrite Hset by done; apply consumes_nothing|].
  eapply consumes_field; [done..|apply reads_string].
Qed.

Lemma consumes_number tag num fname conv `{!BitwiseConv conv} set v m :
  tag_of tag num 0 → fields num = Some (NumberField fname conv set) → conv (uint64 v) = v → (v = 0 → set v m = m) →
  consumes (enc_number tag v) m (set v m).
Proof.
  intros Htag Hf Hv Hset. unfold enc_number. case_decide; [rewrite Hset by done; apply consumes_nothing|].
  eapply consumes_field; [done..|]. rewrite <-Hv at 2. apply reads_number; [done|]. apply wrap_unsigned_range. lia.
Qed.

Lemma consumes_message tag num fname Unmarshal e m m' :
  tag_of tag num 2 → fields num = Some (MessageField fname Unmarshal) → Unmarshal e m = Ok m' →
  consumes (enc_message tag e) m m'.
Proof. intros Htag Hf Hm. eapply consumes_field; [done..|]. by apply reads_message. Qed.

(** An unknown field is skipped. *)
Lemma consumes_skip num t body m :
  fields num = None → 0 < num < 2 ^ 28 → 0 ≤ t < 8 → t ≠ 4 →
  (∀ post, fits (varint (num * 8 + t) ++ body ++ post) →
     skipOim (varint (num * 8 + t) ++ body ++ post) = Ok (zlen (varint (num * 8 + t) ++ body))) →
  consumes (varint (num * 8 + t) ++ body) m m.
Proof.
  intros Hf Hnum Ht H4 Hskip pre post fuel Hfits Hfuel. rewrite <-!app_assoc in *. pose proof (varint_nonempty (num * 8 + t)) as Hne.
  pose proof Hfits as Hl. unfold fits in Hl. rewrite !length_app in Hl. rewrite !length_app in Hfuel. destruct fuel as [|fuel]; [lia|].
  exists fuel. split; [lia|]. cbn [unmarshal_loop]. rewrite decide_True by (rewrite !length_app; lia).
  rewrite read_tag by lia. cbn [mbind result_mbind result_bind]. rewrite shiftr_3, land_7, wrap_signed_small by lia.
  rewrite !decide_False, Hf, slice_from_at by lia. cbn [mbind result_mbind result_bind].
  rewrite Hskip by (unfold fits; rewrite !length_app; lia). cbn [mbind result_mbind result_bind].
  rewrite length_app, decide_False, wrap_signed_small by lia. rewrite decide_False by (rewrite !length_app; lia).
  f_equal. rewrite !length_app. lia.
Qed.

Lemma consumes_unknown u m : (∀ num, 6 ≤ num → fields num = None) → unknown_fields u → consumes u m m.
Proof.
  intros Hnone Hu. induction Hu as [|num v rest Hnum Hv _ IH|num c rest Hnum Hc _ IH|num c rest Hnum _ IH|num c rest Hnum Hc _ IH];
    [apply consumes_nothing|eapply consumes_app; [|exact IH]..].
  - replace (num * 8) with (num * 8 + 0) by lia. apply consumes_skip; [auto with lia|lia..|]. intros post Hfits.
    apply skip_tag; [lia..|]. left. split; [done|]. eexists. rewrite (read_varint_at uint64) by done.
    by rewrite length_app, Nat2Z.inj_add.
  - apply consumes_skip; [auto with lia|lia..|]. intros post Hfits. unfold fits in Hfits. rewrite !length_app in Hfits.
    apply skip_tag; [lia..|]. right; left. split; [done|]. rewrite length_app, wrap_signed_small by lia. lia.
  - apply consumes_skip; [auto with lia|lia..|]. intros post Hfits. unfold fits in Hfits. rewrite !length_app in Hfits.
    apply skip_tag; [lia..|]. do 3 right. split; [done|]. rewrite <-app_assoc. eexists _, _.
    rewrite (read_varint_at int64) by lia. split; [done|]. rewrite int64_small by lia. split; [lia|].
    rewrite !length_app, wrap_signed_small by lia. lia.
  - apply consumes_skip; [auto with lia|lia..|]. intros post Hfits. unfold fits in Hfits. rewrite !length_app in Hfits.
    apply skip_tag; [lia..|]. right; right; left. split; [done|]. rewrite length_app, wrap_signed_small by lia. lia.
Qed.

(** The loop comes to its end, with unknown fields before and after. *)
Lemma unmarshal_consumes u1 e u2 m m' :
  (∀ num, 6 ≤ num → fields num = None) → unknown_fields u1 → unknown_fields u2 → consumes e m m' → fits (u1 ++ e ++ u2) →
  unmarshal name fields (u1 ++ e ++ u2) m = Ok m'.
Proof.
  intros Hnone Hu1 Hu2 He Hfits. assert (consumes (u1 ++ e ++ u2) m m') as Hc.
  { eapply consumes_app; [by apply consumes_unknown|]. eapply consumes_app; [done|by apply consumes_unknown]. }
  set (d := u1 ++ e ++ u2) in *. destruct (Hc [] [] (length d + 2)%nat) as (fuel & Hfuel & Hrun).
  - by rewrite app_nil_r.
  - rewrite app_nil_r. lia.
  - cbn [app] in Hrun. rewrite app_nil_r in Hrun. unfold unmarshal. etransitivity; [exact Hrun|].
    destruct fuel as [|fuel]; [cbn in Hfuel; lia|]. cbn [unmarshal_loop]. by rewrite !decide_False by lia.
Qed.
End Loop.
