(* ===== verification/Protobuf.v ===== *)
(** * The messages on the wire: pkg/spec/oim/v0/oim.pb.go

    Size, MarshalTo, Marshal and Unmarshal of every message of the OIM protocol, made
    of the pieces in [Wire.v].  gRPC calls Marshal for what it sends, and Reset and
    Unmarshal for what it receives.  An error or panic of Unmarshal leaves a partly
    filled message behind, which nobody looks at; it is not part of the result. *)
From S2P Require Import Prelude GoStrings Strconv Errors Messages Wire.

(** Messages without fields. *)
Record Empty := MkEmpty {}.

(** What the generated code gives to every message type. *)
Class ProtoMessage (M : Type) := {
  Reset : M;
  Size : M → Z;
  MarshalTo : M → bytes → result (bytes * Z);
  Unmarshal : bytes → M → result M
}.

Definition Marshal {M} `{ProtoMessage M} (m : M) : result bytes :=
  let dAtA := replicate (Z.to_nat (Size m)) 0 in
  '(dAtA, n) ← MarshalTo m dAtA;
  slice dAtA 0 n.

(** ** Messages without fields *)

Definition Empty_Size (m : Empty) : Z := 0.
Definition Empty_MarshalTo (m : Empty) (dAtA : bytes) : result (bytes * Z) := Ok (dAtA, 0).
Definition Empty_Unmarshal (name : string) (dAtA : bytes) (m : Empty) : result Empty :=
  unmarshal name (λ _, None) dAtA m.

Definition SetValueReply_Unmarshal : bytes → Empty → result Empty := Empty_Unmarshal "SetValueReply".
Definition MallocParams_Unmarshal : bytes → Empty → result Empty := Empty_Unmarshal "MallocParams".
Definition UnmapVolumeReply_Unmarshal : bytes → Empty → result Empty := Empty_Unmarshal "UnmapVolumeReply".
Definition ProvisionMallocBDevReply_Unmarshal : bytes → Empty → result Empty := Empty_Unmarshal "ProvisionMallocBDevReply".
Definition CheckMallocBDevReply_Unmarshal : bytes → Empty → result Empty := Empty_Unmarshal "CheckMallocBDevReply".

(** ** Value, SetValueRequest, GetValuesRequest, GetValuesReply *)

Definition Value_Reset : Value := MkValue "" "".
Definition Value_Size (m : Value) : Z := size_string (Path m) + size_string (Value_ m).
Definition Value_MarshalTo (m : Value) (dAtA : bytes) : result (bytes * Z) :=
  (put_string 0xa (Path m) >=> put_string 0x12 (Value_ m)) (dAtA, 0).
Definition Value_fields (fieldNum : Z) : option (field Value) :=
  match fieldNum with
  | 1 => Some (StringField "Path" (λ s m, MkValue s (Value_ m)))
  | 2 => Some (StringField "Value" (λ s m, MkValue (Path m) s))
  | _ => None
  end.
Definition Value_Unmarshal (dAtA : bytes) (m : Value) : result Value := unmarshal "Value" Value_fields dAtA m.

Definition SetValueRequest_Size (m : SetValueRequest) : Z :=
  match SetValue_Value m with Some v => size_message (Value_Size v) | None => 0 end.
Definition SetValueRequest_MarshalTo (m : SetValueRequest) (dAtA : bytes) : result (bytes * Z) :=
  match SetValue_Value m with Some v => put_message 0xa (Value_Size v) (Value_MarshalTo v) | None => Ok end (dAtA, 0).
(** A value that was there already is merged into. *)
Definition SetValueRequest_fields (fieldNum : Z) : option (field SetValueRequest) :=
  match fieldNum with
  | 1 => Some (MessageField "Value" (λ d m,
           v ← Value_Unmarshal d (default Value_Reset (SetValue_Value m)); Ok (MkSetValueRequest (Some v))))
  | _ => None
  end.
Definition SetValueRequest_Unmarshal (dAtA : bytes) (m : SetValueRequest) : result SetValueRequest :=
  unmarshal "SetValueRequest" SetValueRequest_fields dAtA m.

Definition GetValuesRequest_Size (m : GetValuesRequest) : Z := size_string (GetValues_Path m).
Definition GetValuesRequest_MarshalTo (m : GetValuesRequest) (dAtA : bytes) : result (bytes * Z) :=
  put_string 0xa (GetValues_Path m) (dAtA, 0).
Definition GetValuesRequest_fields (fieldNum : Z) : option (field GetValuesRequest) :=
  match fieldNum with
  | 1 => Some (StringField "Path" (λ s _, MkGetValuesRequest s))
  | _ => None
  end.
Definition GetValuesRequest_Unmarshal (dAtA : bytes) (m : GetValuesRequest) : result GetValuesRequest :=
  unmarshal "GetValuesRequest" GetValuesRequest_fields dAtA m.

Definition GetValuesReply_Size (m : GetValuesReply) : Z :=
  foldr (λ e n, size_message (Value_Size e) + n) 0 (Values m).
Definition GetValuesReply_MarshalTo (m : GetValuesReply) (dAtA : bytes) : result (bytes * Z) :=
  foldr (λ msg rest, put_message 0xa (Value_Size msg) (Value_MarshalTo msg) >=> rest) Ok (Values m) (dAtA, 0).
Definition GetValuesReply_fields (fieldNum : Z) : option (field GetValuesReply) :=
  match fieldNum with
  | 1 => Some (MessageField "Values" (λ d m,
           v ← Value_Unmarshal d Value_Reset; Ok (MkGetValuesReply (Values m ++ [v]))))
  | _ => None
  end.
Definition GetValuesReply_Unmarshal (dAtA : bytes) (m : GetValuesReply) : result GetValuesReply :=
  unmarshal "GetValuesReply" GetValuesReply_fields dAtA m.

(** ** PCIAddress, SCSIDisk, MapVolumeReply *)

Definition PCIAddress_Reset : PCIAddress := MkPCIAddress 0 0 0 0.
Definition PCIAddress_Size (m : PCIAddress) : Z :=
  size_number (Domain m) + size_number (Bus m) + size_number (Device m) + size_number (Function_ m).
Definition PCIAddress_MarshalTo (m : PCIAddress) (dAtA : bytes) : result (bytes * Z) :=
  (put_number 0x8 (Domain m) >=> put_number 0x10 (Bus m) >=> put_number 0x18 (Device m) >=> put_number 0x20 (Function_ m))
    (dAtA, 0).
Definition PCIAddress_fields (fieldNum : Z) : option (field PCIAddress) :=
  match fieldNum with
  | 1 => Some (NumberField "Domain" uint32 (λ x m, MkPCIAddress x (Bus m) (Device m) (Function_ m)))
  | 2 => Some (NumberField "Bus" uint32 (λ x m, MkPCIAddress (Domain m) x (Device m) (Function_ m)))
  | 3 => Some (NumberField "Device" uint32 (λ x m, MkPCIAddress (Domain m) (Bus m) x (Function_ m)))
  | 4 => Some (NumberField "Function" uint32 (λ x m, MkPCIAddress (Domain m) (Bus m) (Device m) x))
  | _ => None
  end.
Definition PCIAddress_Unmarshal (dAtA : bytes) (m : PCIAddress) : result PCIAddress :=
  unmarshal "PCIAddress" PCIAddress_fields dAtA m.

Definition SCSIDisk_Reset : SCSIDisk := MkSCSIDisk 0 0.
Definition SCSIDisk_Size (m : SCSIDisk) : Z := size_number (Target m) + size_number (Lun m).
Definition SCSIDisk_MarshalTo (m : SCSIDisk) (dAtA : bytes) : result (bytes * Z) :=
  (put_number 0x8 (Target m) >=> put_number 0x10 (Lun m)) (dAtA, 0).
Definition SCSIDisk_fields (fieldNum : Z) : option (field SCSIDisk) :=
  match fieldNum with
  | 1 => Some (NumberField "Target" uint32 (λ x m, MkSCSIDisk x (Lun m)))
  | 2 => Some (NumberField "Lun" uint32 (λ x m, MkSCSIDisk (Target m) x))
  | _ => None
  end.
Definition SCSIDisk_Unmarshal (dAtA : bytes) (m : SCSIDisk) : result SCSIDisk :=
  unmarshal "SCSIDisk" SCSIDisk_fields dAtA m.

Definition MapVolumeReply_Size (m : MapVolumeReply) : Z :=
  match PciAddress m with Some a => size_message (PCIAddress_Size a) | None => 0 end +
  match ScsiDisk m with Some a => size_message (SCSIDisk_Size a) | None => 0 end.
Definition MapVolumeReply_MarshalTo (m : MapVolumeReply) (dAtA : bytes) : result (bytes * Z) :=
  (match PciAddress m with Some a => put_message 0xa (PCIAddress_Size a) (PCIAddress_MarshalTo a) | None => Ok end >=>
   match ScsiDisk m with Some a => put_message 0x12 (SCSIDisk_Size a) (SCSIDisk_MarshalTo a) | None => Ok end)
    (dAtA, 0).
Definition MapVolumeReply_fields (fieldNum : Z) : option (field MapVolumeReply) :=
  match fieldNum with
  | 1 => Some (MessageField "PciAddress" (λ d m,
           v ← PCIAddress_Unmarshal d (default PCIAddress_Reset (PciAddress m)); Ok (MkMapVolumeReply (Some v) (ScsiDisk m))))
  | 2 => Some (MessageField "ScsiDisk" (λ d m,
           v ← SCSIDisk_Unmarshal d (default SCSIDisk_Reset (ScsiDisk m)); Ok (MkMapVolumeReply (PciAddress m) (Some v))))
  | _ => None
  end.
Definition MapVolumeReply_Unmarshal (dAtA : bytes) (m : MapVolumeReply) : result MapVolumeReply :=
  unmarshal "MapVolumeReply" MapVolumeReply_fields dAtA m.

(** ** CephParams, MapVolumeRequest *)

Definition CephParams_Reset : CephParams := MkCephParams "" "" "" "" "".
Definition CephParams_Size (m : CephParams) : Z :=
  size_string (UserId m) + size_string (Secret m) + size_string (Monitors m) + size_string (Pool m) + size_string (Image m).
Definition CephParams_MarshalTo (m : CephParams) (dAtA : bytes) : result (bytes * Z) :=
  (put_string 0xa (UserId m) >=> put_string 0x12 (Secret m) >=> put_string 0x1a (Monitors m) >=>
   put_string 0x22 (Pool m) >=> put_string 0x2a (Image m)) (dAtA, 0).
Definition CephParams_fields (fieldNum : Z) : option (field CephParams) :=
  match fieldNum with
  | 1 => Some (StringField "UserId" (λ s m, MkCephParams s (Secret m) (Monitors m) (Pool m) (Image m)))
  | 2 => Some (StringField "Secret" (λ s m, MkCephParams (UserId m) s (Monitors m) (Pool m) (Image m)))
  | 3 => Some (StringField "Monitors" (λ s m, MkCephParams (UserId m) (Secret m) s (Pool m) (Image m)))
  | 4 => Some (StringField "Pool" (λ s m, MkCephParams (UserId m) (Secret m) (Monitors m) s (Image m)))
  | 5 => Some (StringField "Image" (λ s m, MkCephParams (UserId m) (Secret m) (Monitors m) (Pool m) s))
  | _ => None
  end.
Definition CephParams_Unmarshal (dAtA : bytes) (m : CephParams) : result CephParams :=
  unmarshal "CephParams" CephParams_fields dAtA m.

(** A [MapVolumeRequest_Malloc] has its (empty) parameters; a [MapVolumeRequest_Ceph]
    without parameters is not written. *)
Definition Params_Size (p : MapVolumeParams) : Z :=
  match p with
  | MapVolumeRequest_Malloc => size_message (Empty_Size MkEmpty)
  | MapVolumeRequest_Ceph (Some c) => size_message (CephParams_Size c)
  | MapVolumeRequest_Ceph None => 0
  end.
Definition Params_MarshalTo (p : MapVolumeParams) (dAtA : bytes) : result (bytes * Z) :=
  match p with
  | MapVolumeRequest_Malloc => put_message 0x12 (Empty_Size MkEmpty) (Empty_MarshalTo MkEmpty) (dAtA, 0)
  | MapVolumeRequest_Ceph (Some c) => put_message 0x1a (CephParams_Size c) (CephParams_MarshalTo c) (dAtA, 0)
  | MapVolumeRequest_Ceph None => Ok (dAtA, 0)
  end.

Definition MapVolumeRequest_Size (m : MapVolumeRequest) : Z :=
  size_string (Map_VolumeId m) + match Params m with Some p => Params_Size p | None => 0 end.
Definition MapVolumeRequest_MarshalTo (m : MapVolumeRequest) (dAtA : bytes) : result (bytes * Z) :=
  (put_string 0xa (Map_VolumeId m) >=>
   match Params m with Some p => put_nested (Params_MarshalTo p) | None => Ok end) (dAtA, 0).
(** Other parameters that were there are replaced. *)
Definition MapVolumeRequest_fields (fieldNum : Z) : option (field MapVolumeRequest) :=
  match fieldNum with
  | 1 => Some (StringField "VolumeId" (λ s m, MkMapVolumeRequest s (Params m)))
  | 2 => Some (MessageField "Malloc" (λ d m,
           _ ← MallocParams_Unmarshal d MkEmpty; Ok (MkMapVolumeRequest (Map_VolumeId m) (Some MapVolumeRequest_Malloc))))
  | 3 => Some (MessageField "Ceph" (λ d m,
           v ← CephParams_Unmarshal d CephParams_Reset;
           Ok (MkMapVolumeRequest (Map_VolumeId m) (Some (MapVolumeRequest_Ceph (Some v))))))
  | _ => None
  end.
Definition MapVolumeRequest_Unmarshal (dAtA : bytes) (m : MapVolumeRequest) : result MapVolumeRequest :=
  unmarshal "MapVolumeRequest" MapVolumeRequest_fields dAtA m.

(** ** UnmapVolumeRequest, ProvisionMallocBDevRequest, CheckMallocBDevRequest *)

Definition UnmapVolumeRequest_Size (m : UnmapVolumeRequest) : Z := size_string (Unmap_VolumeId m).
Definition UnmapVolumeRequest_MarshalTo (m : UnmapVolumeRequest) (dAtA : bytes) : result (bytes * Z) :=
  put_string 0xa (Unmap_VolumeId m) (dAtA, 0).
Definition UnmapVolumeRequest_fields (fieldNum : Z) : option (field UnmapVolumeRequest) :=
  match fieldNum with
  | 1 => Some (StringField "VolumeId" (λ s _, MkUnmapVolumeRequest s))
  | _ => None
  end.
Definition UnmapVolumeRequest_Unmarshal (dAtA : bytes) (m : UnmapVolumeRequest) : result UnmapVolumeRequest :=
  unmarshal "UnmapVolumeRequest" UnmapVolumeRequest_fields dAtA m.

Definition ProvisionMallocBDevRequest_Size (m : ProvisionMallocBDevRequest) : Z :=
  size_string (Provision_BdevName m) + size_number (Size_ m).
Definition ProvisionMallocBDevRequest_MarshalTo (m : ProvisionMallocBDevRequest) (dAtA : bytes) : result (bytes * Z) :=
  (put_string 0xa (Provision_BdevName m) >=> put_number 0x10 (Size_ m)) (dAtA, 0).
Definition ProvisionMallocBDevRequest_fields (fieldNum : Z) : option (field ProvisionMallocBDevRequest) :=
  match fieldNum with
  | 1 => Some (StringField "BdevName" (λ s m, MkProvisionMallocBDevRequest s (Size_ m)))
  | 2 => Some (NumberField "Size_" int64 (λ x m, MkProvisionMallocBDevRequest (Provision_BdevName m) x))
  | _ => None
  end.
Definition ProvisionMallocBDevRequest_Unmarshal (dAtA : bytes) (m : ProvisionMallocBDevRequest) :
    result ProvisionMallocBDevRequest :=
  unmarshal "ProvisionMallocBDevRequest" ProvisionMallocBDevRequest_fields dAtA m.

Definition CheckMallocBDevRequest_Size (m : CheckMallocBDevRequest) : Z := size_string (Check_BdevName m).
Definition CheckMallocBDevRequest_MarshalTo (m : CheckMallocBDevRequest) (dAtA : bytes) : result (bytes * Z) :=
  put_string 0xa (Check_BdevName m) (dAtA, 0).
Definition CheckMallocBDevRequest_fields (fieldNum : Z) : option (field CheckMallocBDevRequest) :=
  match fieldNum with
  | 1 => Some (StringField "BdevName" (λ s _, MkCheckMallocBDevRequest s))
  | _ => None
  end.
Definition CheckMallocBDevRequest_Unmarshal (dAtA : bytes) (m : CheckMallocBDevRequest) : result CheckMallocBDevRequest :=
  unmarshal "CheckMallocBDevRequest" CheckMallocBDevRequest_fields dAtA m.

(** ** All messages *)

Inductive kind :=
| KSetValueRequest | KValue | KSetValueReply | KGetValuesRequest | KGetValuesReply
| KMapVolumeRequest | KMallocParams | KCephParams | KMapVolumeReply | KPCIAddress | KSCSIDisk
| KUnmapVolumeRequest | KUnmapVolumeReply | KProvisionMallocBDevRequest | KProvisionMallocBDevReply
| KCheckMallocBDevRequest | KCheckMallocBDevReply.

Definition msg (k : kind) : Type :=
  match k with
  | KSetValueRequest => SetValueRequest | KValue => Value
  | KGetValuesRequest => GetValuesRequest | KGetValuesReply => GetValuesReply
  | KMapVolumeRequest => MapVolumeRequest | KCephParams => CephParams | KMapVolumeReply => MapVolumeReply
  | KPCIAddress => PCIAddress | KSCSIDisk => SCSIDisk | KUnmapVolumeRequest => UnmapVolumeRequest
  | KProvisionMallocBDevRequest => ProvisionMallocBDevRequest | KCheckMallocBDevRequest => CheckMallocBDevRequest
  | KSetValueReply | KMallocParams | KUnmapVolumeReply | KProvisionMallocBDevReply | KCheckMallocBDevReply => Empty
  end.

#[export] Instance message (k : kind) : ProtoMessage (msg k) :=
  match k with
  | KSetValueRequest => {| Reset := MkSetValueRequest None; Size := SetValueRequest_Size;
      MarshalTo := SetValueRequest_MarshalTo; Unmarshal := SetValueRequest_Unmarshal |}
  | KValue => {| Reset := Value_Reset; Size := Value_Size; MarshalTo := Value_MarshalTo; Unmarshal := Value_Unmarshal |}
  | KSetValueReply => {| Reset := MkEmpty; Size := Empty_Size; MarshalTo := Empty_MarshalTo; Unmarshal := SetValueReply_Unmarshal |}
  | KGetValuesRequest => {| Reset := MkGetValuesRequest ""; Size := GetValuesRequest_Size;
      MarshalTo := GetValuesRequest_MarshalTo; Unmarshal := GetValuesRequest_Unmarshal |}
  | KGetValuesReply => {| Reset := MkGetValuesReply []; Size := GetValuesReply_Size;
      MarshalTo := GetValuesReply_MarshalTo; Unmarshal := GetValuesReply_Unmarshal |}
  | KMapVolumeRequest => {| Reset := MkMapVolumeRequest "" None; Size := MapVolumeRequest_Size;
      MarshalTo := MapVolumeRequest_MarshalTo; Unmarshal := MapVolumeRequest_Unmarshal |}
  | KMallocParams => {| Reset := MkEmpty; Size := Empty_Size; MarshalTo := Empty_MarshalTo; Unmarshal := MallocParams_Unmarshal |}
  | KCephParams => {| Reset := CephParams_Reset; Size := CephParams_Size;
      MarshalTo := CephParams_MarshalTo; Unmarshal := CephParams_Unmarshal |}
  | KMapVolumeReply => {| Reset := MkMapVolumeReply None None; Size := MapVolumeReply_Size;
      MarshalTo := MapVolumeReply_MarshalTo; Unmarshal := MapVolumeReply_Unmarshal |}
  | KPCIAddress => {| Reset := PCIAddress_Reset; Size := PCIAddress_Size;
      MarshalTo := PCIAddress_MarshalTo; Unmarshal := PCIAddress_Unmarshal |}
  | KSCSIDisk => {| Reset := SCSIDisk_Reset; Size := SCSIDisk_Size; MarshalTo := SCSIDisk_MarshalTo; Unmarshal := SCSIDisk_Unmarshal |}
  | KUnmapVolumeRequest => {| Reset := MkUnmapVolumeRequest ""; Size := UnmapVolumeRequest_Size;
      MarshalTo := UnmapVolumeRequest_MarshalTo; Unmarshal := UnmapVolumeRequest_Unmarshal |}
  | KUnmapVolumeReply => {| Reset := MkEmpty; Size := Empty_Size; MarshalTo := Empty_MarshalTo; Unmarshal := UnmapVolumeReply_Unmarshal |}
  | KProvisionMallocBDevRequest => {| Reset := MkProvisionMallocBDevRequest "" 0; Size := ProvisionMallocBDevRequest_Size;
      MarshalTo := ProvisionMallocBDevRequest_MarshalTo; Unmarshal := ProvisionMallocBDevRequest_Unmarshal |}
  | KProvisionMallocBDevReply => {| Reset := MkEmpty; Size := Empty_Size;
      MarshalTo := Empty_MarshalTo; Unmarshal := ProvisionMallocBDevReply_Unmarshal |}
  | KCheckMallocBDevRequest => {| Reset := MkCheckMallocBDevRequest ""; Size := CheckMallocBDevRequest_Size;
      MarshalTo := CheckMallocBDevRequest_MarshalTo; Unmarshal := CheckMallocBDevRequest_Unmarshal |}
  | KCheckMallocBDevReply => {| Reset := MkEmpty; Size := Empty_Size; MarshalTo := Empty_MarshalTo; Unmarshal := CheckMallocBDevReply_Unmarshal |}
  end.

(** ** Round trips *)

(** Sizes say whether strings and messages fit. *)
Lemma sov_loop_pos n k x : 0 ≤ k → 0 < sov_loop n k x.
Proof. revert k x. induction n as [|n IH]; intros k x Hk; cbn [sov_loop]; [lia|]. case_decide; [lia|]. apply IH. lia. Qed.

Lemma sovOim_pos x : 0 < sovOim x.
Proof. by apply sov_loop_pos. Qed.

Lemma sovOim_bounds x : 1 ≤ sovOim (uint64 x) ≤ 10.
Proof.
  pose proof (sovOim_pos (uint64 x)). rewrite sovOim_length in * by (apply wrap_unsigned_range; lia).
  assert (∀ n x, (length (varint_bytes n x) ≤ n)%nat) as Hl.
  { induction n as [|n IH]; intros y; [done|]. rewrite varint_bytes_S. case_decide; cbn [length]; [|lia]. specialize (IH (Z.shiftr y 7)). lia. }
  specialize (Hl 10%nat (uint64 x)). unfold varint in *. lia.
Qed.

Lemma size_string_bounds s : zlen (bytes_of s) ≤ size_string s ≤ zlen (bytes_of s) + 11.
Proof. unfold size_string. pose proof (sovOim_bounds (zlen (bytes_of s))). case_decide; lia. Qed.

Lemma size_number_bounds v : 0 ≤ size_number v ≤ 11.
Proof. unfold size_number. pose proof (sovOim_bounds v). case_decide; lia. Qed.

Lemma size_message_bounds l : l < size_message l ≤ l + 11.
Proof. unfold size_message. pose proof (sovOim_bounds l). lia. Qed.

(** Fields keep their values on the way through 64 bits. *)
Lemma conv_uint32 v : in_uint32 v → uint32 (uint64 v) = v.
Proof. intros Hv. unfold in_uint32 in Hv. rewrite (wrap_unsigned_small 64), wrap_unsigned_small by lia. done. Qed.

Lemma conv_int64 v : in_int64 v → int64 (uint64 v) = v.
Proof.
  intros Hv. unfold in_int64 in Hv. unfold wrap_signed, wrap_unsigned. rewrite Zplus_mod_idemp_l, Z.mod_small by lia. lia.
Qed.

(** Size, MarshalTo and Unmarshal agree on an encoding; unknown fields around it do
    not matter. *)
Definition coded {M} (size : Z) (marshalTo : bytes → result (bytes * Z)) (unmarshal : bytes → M → result M)
    (reset m : M) (e : bytes) : Prop :=
  size = zlen e ∧ marshals marshalTo e ∧
  ∀ u1 u2, unknown_fields u1 → unknown_fields u2 → fits (u1 ++ e ++ u2) → unmarshal (u1 ++ e ++ u2) reset = Ok m.

Lemma coded_Unmarshal {M} size marshalTo unmarshal (reset m : M) e :
  coded size marshalTo unmarshal reset m e → size < 2 ^ 63 → unmarshal e reset = Ok m.
Proof.
  intros (-> & _ & Hu) Hfits. specialize (Hu [] [] unknown_none unknown_none). cbn [app] in Hu.
  rewrite app_nil_r in Hu. by apply Hu.
Qed.

(** There are at most five fields. *)
Ltac no_more_fields :=
  intros num Hnum; destruct num as [|[[[?|?|]|[?|?|]|]|[[?|?|]|[?|?|]|]|]|?]; done || lia.

Lemma coded_message {M} size marshalTo unmarshal (reset m : M) e tag :
  coded size marshalTo unmarshal reset m e → size < 2 ^ 63 →
  size_message size = zlen (enc_message tag e) ∧ writes (put_message tag size marshalTo) (enc_message tag e).
Proof. intros (-> & Hm & _) Hfits. split; [by apply size_message_enc|by apply writes_message]. Qed.

Lemma coded_Marshal {M} `{ProtoMessage M} (m : M) e :
  coded (Size m) (MarshalTo m) Unmarshal Reset m e → Marshal m = Ok e.
Proof.
  intros (Hs & Hm & _). unfold Marshal. rewrite Hs, Nat2Z.id.
  pose proof (Hm (replicate (length e) 0) []) as Hrun. rewrite !app_nil_r, length_replicate in Hrun.
  rewrite Hrun by done. cbn [mbind result_mbind result_bind].
  pose proof (slice_at [] e []) as Hslice. by rewrite app_nil_r in Hslice.
Qed.

(** Fields one after the other: sizes, writers and readers. *)
Ltac wire_sizes := rewrite ?length_app, ?Nat2Z.inj_add; repeat match goal with
  | |- context [size_string ?s] => lazymatch goal with |- context [zlen (enc_string ?tag s)] =>
      rewrite (size_string_enc tag s) by (pose proof (size_string_bounds s); unfold fits; lia) end
  | |- context [size_number ?v] => lazymatch goal with |- context [zlen (enc_number ?tag v)] =>
      rewrite (size_number_enc tag v) end
  end; try lia.
Ltac wire_writes := apply marshals_writer; repeat apply writes_seq;
  first [apply writes_string; unfold fits; lia | apply writes_number | apply writes_nothing | idtac].
Ltac wire_field := first
  [ eapply consumes_string; [by repeat split|done|by intros ->]
  | eapply consumes_number; [|by repeat split|done| |];
    [apply _|first [by apply conv_uint32|by apply conv_int64]|by intros ->] ].
Ltac wire_end := intros ? ? ? ? ?; apply unmarshal_consumes; [no_more_fields|done|done| |done].
Tactic Notation "wire_reads" := wire_end; [eapply consumes_eq; [repeat (eapply consumes_app; [wire_field|]); wire_field|]].

Definition Value_enc (m : Value) : bytes := enc_string 0xa (Path m) ++ enc_string 0x12 (Value_ m).

Lemma Value_coded m : Value_Size m < 2 ^ 63 →
  coded (Value_Size m) (Value_MarshalTo m) Value_Unmarshal Value_Reset m (Value_enc m).
Proof.
  unfold Value_Size. intros Hs. pose proof (size_string_bounds (Path m)). pose proof (size_string_bounds (Value_ m)).
  assert (size_string (Path m) + size_string (Value_ m) = zlen (Value_enc m)) as Hsize by (unfold Value_enc; wire_sizes).
  split_and!; [done|wire_writes|]. destruct m as [p v]. unfold Value_Unmarshal, Value_enc in *. cbn [Path Value_] in *.
  wire_reads; done.
Qed.

Definition PCIAddress_enc (m : PCIAddress) : bytes :=
  enc_number 0x8 (Domain m) ++ enc_number 0x10 (Bus m) ++ enc_number 0x18 (Device m) ++ enc_number 0x20 (Function_ m).

Definition PCIAddress_ok (m : PCIAddress) : Prop :=
  in_uint32 (Domain m) ∧ in_uint32 (Bus m) ∧ in_uint32 (Device m) ∧ in_uint32 (Function_ m).

Lemma PCIAddress_coded m : PCIAddress_ok m →
  coded (PCIAddress_Size m) (PCIAddress_MarshalTo m) PCIAddress_Unmarshal PCIAddress_Reset m (PCIAddress_enc m).
Proof.
  intros (Hd & Hb & Hv & Hf). assert (PCIAddress_Size m = zlen (PCIAddress_enc m)) as Hsize
    by (unfold PCIAddress_Size, PCIAddress_enc; wire_sizes).
  split_and!; [done|wire_writes|]. pose proof (size_number_bounds (Domain m)). pose proof (size_number_bounds (Bus m)).
  pose proof (size_number_bounds (Device m)). pose proof (size_number_bounds (Function_ m)).
  unfold PCIAddress_Size in Hsize. destruct m as [d b v f]. unfold PCIAddress_Unmarshal, PCIAddress_enc in *.
  cbn [Domain Bus Device Function_] in *. wire_reads; done.
Qed.

Definition SCSIDisk_enc (m : SCSIDisk) : bytes := enc_number 0x8 (Target m) ++ enc_number 0x10 (Lun m).
Definition SCSIDisk_ok (m : SCSIDisk) : Prop := in_uint32 (Target m) ∧ in_uint32 (Lun m).

Lemma SCSIDisk_coded m : SCSIDisk_ok m →
  coded (SCSIDisk_Size m) (SCSIDisk_MarshalTo m) SCSIDisk_Unmarshal SCSIDisk_Reset m (SCSIDisk_enc m).
Proof.
  intros (Ht & Hl). assert (SCSIDisk_Size m = zlen (SCSIDisk_enc m)) as Hsize by (unfold SCSIDisk_Size, SCSIDisk_enc; wire_sizes).
  split_and!; [done|wire_writes|]. pose proof (size_number_bounds (Target m)). pose proof (size_number_bounds (Lun m)).
  unfold SCSIDisk_Size in Hsize. destruct m as [t l]. unfold SCSIDisk_Unmarshal, SCSIDisk_enc in *.
  cbn [Target Lun] in *. wire_reads; done.
Qed.

Definition CephParams_enc (m : CephParams) : bytes :=
  enc_string 0xa (UserId m) ++ enc_string 0x12 (Secret m) ++ enc_string 0x1a (Monitors m) ++
  enc_string 0x22 (Pool m) ++ enc_string 0x2a (Image m).

Lemma CephParams_coded m : CephParams_Size m < 2 ^ 63 →
  coded (CephParams_Size m) (CephParams_MarshalTo m) CephParams_Unmarshal CephParams_Reset m (CephParams_enc m).
Proof.
  unfold CephParams_Size. intros Hs. pose proof (size_string_bounds (UserId m)). pose proof (size_string_bounds (Secret m)).
  pose proof (size_string_bounds (Monitors m)). pose proof (size_string_bounds (Pool m)). pose proof (size_string_bounds (Image m)).
  assert (CephParams_Size m = zlen (CephParams_enc m)) as Hsize by (unfold CephParams_Size, CephParams_enc; wire_sizes).
  split_and!; [done|wire_writes|]. unfold CephParams_Size in Hsize. destruct m as [u s mo p i].
  unfold CephParams_Unmarshal, CephParams_enc in *. cbn [UserId Secret Monitors Pool Image] in *.
  wire_reads; done.
Qed.

(** Messages with one string. *)
Lemma one_string_coded {M} name (fields : Z → option (field M)) fname (set : string → M → M) (reset m : M) s :
  fields 1 = Some (StringField fname set) → (∀ num, 6 ≤ num → fields num = None) → set s reset = m → (s = "" → m = reset) → size_string s < 2 ^ 63 →
  coded (size_string s) (λ d, put_string 0xa s (d, 0)) (unmarshal name fields) reset m (enc_string 0xa s).
Proof.
  intros Hf Hnone Hset Hempty Hs. pose proof (size_string_bounds s) as Hb. assert (fits (bytes_of s)) as Hfits by (unfold fits; lia).
  pose proof (size_string_enc 0xa s Hfits) as Hsize. split_and!; [done|by apply marshals_writer, writes_string|].
  intros u1 u2 Hu1 Hu2 Hu. apply unmarshal_consumes; [done..| |done]. eapply consumes_eq; [|exact Hset].
  eapply consumes_string; [by repeat split|done|]. intros He. rewrite Hset. by apply Hempty.
Qed.

Lemma Empty_coded name (m : Empty) : coded (Empty_Size m) (Empty_MarshalTo m) (Empty_Unmarshal name) MkEmpty m [].
Proof.
  split_and!; [done| |]; [by intros old post ->%nil_length_inv|]. destruct m. intros u1 u2 Hu1 Hu2 Hfits.
  apply unmarshal_consumes; [done..|apply consumes_nothing|done].
Qed.

Definition ProvisionMallocBDevRequest_enc (m : ProvisionMallocBDevRequest) : bytes :=
  enc_string 0xa (Provision_BdevName m) ++ enc_number 0x10 (Size_ m).

Lemma ProvisionMallocBDevRequest_coded m : in_int64 (Size_ m) → ProvisionMallocBDevRequest_Size m < 2 ^ 63 →
  coded (ProvisionMallocBDevRequest_Size m) (ProvisionMallocBDevRequest_MarshalTo m) ProvisionMallocBDevRequest_Unmarshal
    (MkProvisionMallocBDevRequest "" 0) m (ProvisionMallocBDevRequest_enc m).
Proof.
  unfold ProvisionMallocBDevRequest_Size. intros Hv Hs. pose proof (size_string_bounds (Provision_BdevName m)).
  pose proof (size_number_bounds (Size_ m)).
  assert (size_string (Provision_BdevName m) + size_number (Size_ m) = zlen (ProvisionMallocBDevRequest_enc m)) as Hsize
    by (unfold ProvisionMallocBDevRequest_enc; wire_sizes).
  split_and!; [done|wire_writes|]. destruct m as [n v].
  unfold ProvisionMallocBDevRequest_Unmarshal, ProvisionMallocBDevRequest_enc in *. cbn [Provision_BdevName Size_] in *.
  wire_reads; done.
Qed.

Lemma Value_size_nonneg m : 0 ≤ Value_Size m.
Proof. unfold Value_Size. pose proof (size_string_bounds (Path m)). pose proof (size_string_bounds (Value_ m)). lia. Qed.

Definition SetValueRequest_enc (m : SetValueRequest) : bytes :=
  match SetValue_Value m with Some v => enc_message 0xa (Value_enc v) | None => [] end.

Lemma SetValueRequest_coded m : SetValueRequest_Size m < 2 ^ 63 →
  coded (SetValueRequest_Size m) (SetValueRequest_MarshalTo m) SetValueRequest_Unmarshal (MkSetValueRequest None) m
    (SetValueRequest_enc m).
Proof.
  destruct m as [[v|]]; unfold SetValueRequest_Size, SetValueRequest_enc; cbn [SetValue_Value]; intros Hs; last first.
  { split_and!; [done|by apply marshals_writer, writes_nothing|]. wire_end. apply consumes_nothing. }
  pose proof (size_message_bounds (Value_Size v)) as Hb.
  assert (Value_Size v < 2 ^ 63) as Hv by lia. pose proof (Value_coded v Hv) as Hc.
  destruct (coded_message _ _ _ _ _ _ 0xa Hc Hv) as [Hsize Hw]. split_and!; [done|by apply marshals_writer|].
  wire_end. eapply consumes_message; [by repeat split|done|]. cbn. by rewrite (coded_Unmarshal _ _ _ _ _ _ Hc Hv).
Qed.

Definition GetValuesReply_enc (m : GetValuesReply) : bytes := concat ((λ v, enc_message 0xa (Value_enc v)) <$> Values m).

Lemma GetValuesReply_size_nonneg vs : 0 ≤ GetValuesReply_Size (MkGetValuesReply vs).
Proof.
  unfold GetValuesReply_Size. cbn [Values]. induction vs as [|v vs IH]; cbn [foldr]; [done|].
  pose proof (size_message_bounds (Value_Size v)). pose proof (Value_size_nonneg v). lia.
Qed.

Lemma GetValuesReply_coded m : GetValuesReply_Size m < 2 ^ 63 →
  coded (GetValuesReply_Size m) (GetValuesReply_MarshalTo m) GetValuesReply_Unmarshal (MkGetValuesReply []) m
    (GetValuesReply_enc m).
Proof.
  intros Hs. assert (GetValuesReply_Size m = zlen (GetValuesReply_enc m) ∧
    writes (foldr (λ msg rest, put_message 0xa (Value_Size msg) (Value_MarshalTo msg) >=> rest) Ok (Values m)) (GetValuesReply_enc m) ∧
    ∀ vs, consumes "GetValuesReply" GetValuesReply_fields (GetValuesReply_enc m) (MkGetValuesReply vs) (MkGetValuesReply (vs ++ Values m)))
    as (Hsize & Hw & Hr).
  { destruct m as [vs]. unfold GetValuesReply_enc. cbn [Values]. induction vs as [|v vs IH].
    { split_and!; [done|apply writes_nothing|]. intros vs. rewrite app_nil_r. apply consumes_nothing. }
    change (GetValuesReply_Size (MkGetValuesReply (v :: vs))) with
      (size_message (Value_Size v) + GetValuesReply_Size (MkGetValuesReply vs)) in *.
    pose proof (size_message_bounds (Value_Size v)) as Hb. pose proof (GetValuesReply_size_nonneg vs).
    assert (Value_Size v < 2 ^ 63) as Hv by lia. pose proof (Value_coded v Hv) as Hc. pose proof (Value_size_nonneg v).
    destruct (coded_message _ _ _ _ _ _ 0xa Hc Hv) as [Hsize Hw]. destruct IH as (Hsize' & Hw' & Hr'); [lia|].
    cbn [fmap list_fmap concat foldr]. split_and!.
    - rewrite length_app. lia.
    - by apply writes_seq.
    - intros ws. eapply consumes_app.
      + eapply consumes_message; [by repeat split|done|]. cbn. by rewrite (coded_Unmarshal _ _ _ _ _ _ Hc) by lia.
      + eapply consumes_eq; [apply Hr'|by rewrite <-app_assoc]. }
  split_and!; [done|by apply marshals_writer|]. wire_end. eapply consumes_eq; [apply Hr|by destruct m].
Qed.

Definition MapVolumeReply_enc (m : MapVolumeReply) : bytes :=
  match PciAddress m with Some a => enc_message 0xa (PCIAddress_enc a) | None => [] end ++
  match ScsiDisk m with Some a => enc_message 0x12 (SCSIDisk_enc a) | None => [] end.

Definition MapVolumeReply_ok (m : MapVolumeReply) : Prop :=
  (∀ a, PciAddress m = Some a → PCIAddress_ok a) ∧ (∀ a, ScsiDisk m = Some a → SCSIDisk_ok a).

Lemma PCIAddress_size_small a : 0 ≤ PCIAddress_Size a ≤ 44.
Proof.
  unfold PCIAddress_Size. pose proof (size_number_bounds (Domain a)). pose proof (size_number_bounds (Bus a)).
  pose proof (size_number_bounds (Device a)). pose proof (size_number_bounds (Function_ a)). lia.
Qed.

Lemma SCSIDisk_size_small a : 0 ≤ SCSIDisk_Size a ≤ 22.
Proof. unfold SCSIDisk_Size. pose proof (size_number_bounds (Target a)). pose proof (size_number_bounds (Lun a)). lia. Qed.

Lemma MapVolumeReply_coded m : MapVolumeReply_ok m → MapVolumeReply_Size m < 2 ^ 63 →
  coded (MapVolumeReply_Size m) (MapVolumeReply_MarshalTo m) MapVolumeReply_Unmarshal (MkMapVolumeReply None None) m
    (MapVolumeReply_enc m).
Proof.
  destruct m as [pa sd]. intros [Hpa Hsd] Hs. cbn [PciAddress ScsiDisk] in *.
  unfold MapVolumeReply_Size, MapVolumeReply_enc, MapVolumeReply_MarshalTo in *. cbn [PciAddress ScsiDisk] in *.
  set (e1 := match pa with Some a => enc_message 0xa (PCIAddress_enc a) | None => [] end).
  set (e2 := match sd with Some a => enc_message 0x12 (SCSIDisk_enc a) | None => [] end).
  assert (match pa with Some a => size_message (PCIAddress_Size a) | None => 0 end = zlen e1 ∧
    writes (match pa with Some a => put_message 0xa (PCIAddress_Size a) (PCIAddress_MarshalTo a) | None => Ok end) e1 ∧
    consumes "MapVolumeReply" MapVolumeReply_fields e1 (MkMapVolumeReply None None) (MkMapVolumeReply pa None)) as (H1 & H2 & H3).
  { destruct pa as [a|]; [|split_and!; [done|apply writes_nothing|apply consumes_nothing]].
    pose proof (PCIAddress_coded a (Hpa a eq_refl)) as Hc. pose proof (PCIAddress_size_small a).
    destruct (coded_message _ _ _ _ _ _ 0xa Hc) as [Hsize Hw]; [lia|]. split_and!; [done..|].
    eapply consumes_message; [by repeat split|done|]. cbn. by rewrite (coded_Unmarshal _ _ _ _ _ _ Hc) by lia. }
  assert (match sd with Some a => size_message (SCSIDisk_Size a) | None => 0 end = zlen e2 ∧
    writes (match sd with Some a => put_message 0x12 (SCSIDisk_Size a) (SCSIDisk_MarshalTo a) | None => Ok end) e2 ∧
    consumes "MapVolumeReply" MapVolumeReply_fields e2 (MkMapVolumeReply pa None) (MkMapVolumeReply pa sd)) as (H4 & H5 & H6).
  { destruct sd as [a|]; [|split_and!; [done|apply writes_nothing|apply consumes_nothing]].
    pose proof (SCSIDisk_coded a (Hsd a eq_refl)) as Hc. pose proof (SCSIDisk_size_small a).
    destruct (coded_message _ _ _ _ _ _ 0x12 Hc) as [Hsize Hw]; [lia|]. split_and!; [done..|].
    eapply consumes_message; [by repeat split|done|]. cbn. by rewrite (coded_Unmarshal _ _ _ _ _ _ Hc) by lia. }
  split_and!; [rewrite length_app; lia|by apply marshals_writer, writes_seq|].
  wire_end. by eapply consumes_app.
Qed.

Definition Params_enc (p : option MapVolumeParams) : bytes :=
  match p with
  | Some MapVolumeRequest_Malloc => enc_message 0x12 []
  | Some (MapVolumeRequest_Ceph (Some c)) => enc_message 0x1a (CephParams_enc c)
  | _ => []
  end.
Definition MapVolumeRequest_enc (m : MapVolumeRequest) : bytes := enc_string 0xa (Map_VolumeId m) ++ Params_enc (Params m).

Lemma CephParams_size_nonneg m : 0 ≤ CephParams_Size m.
Proof.
  unfold CephParams_Size. pose proof (size_string_bounds (UserId m)). pose proof (size_string_bounds (Secret m)).
  pose proof (size_string_bounds (Monitors m)). pose proof (size_string_bounds (Pool m)). pose proof (size_string_bounds (Image m)). lia.
Qed.

Lemma Params_coded id ps :
  let size := match ps with Some p => Params_Size p | None => 0 end in
  ps ≠ Some (MapVolumeRequest_Ceph None) → size < 2 ^ 63 →
  size = zlen (Params_enc ps) ∧
  writes (match ps with Some p => put_nested (Params_MarshalTo p) | None => Ok end) (Params_enc ps) ∧
  consumes "MapVolumeRequest" MapVolumeRequest_fields (Params_enc ps) (MkMapVolumeRequest id None) (MkMapVolumeRequest id ps).
Proof.
  destruct ps as [[|[c|]]|]; intros size Hok Hs; unfold size in *; clear size; cbn [Params_Size Params_enc Params_MarshalTo] in *.
  - pose proof (Empty_coded "MallocParams" MkEmpty) as Hc. destruct (coded_message _ _ _ _ _ _ 0x12 Hc) as [Hsize Hw]; [done|].
    split_and!; [done|by apply writes_nested, marshals_writer|]. by eapply consumes_message; [by repeat split|..].
  - pose proof (size_message_bounds (CephParams_Size c)). pose proof (CephParams_size_nonneg c).
    assert (CephParams_Size c < 2 ^ 63) as Hv by lia. pose proof (CephParams_coded c Hv) as Hc.
    destruct (coded_message _ _ _ _ _ _ 0x1a Hc Hv) as [Hsize Hw]. split_and!; [done|by apply writes_nested, marshals_writer|].
    eapply consumes_message; [by repeat split|done|]. cbn. by rewrite (coded_Unmarshal _ _ _ _ _ _ Hc) by lia.
  - done.
  - split_and!; [done|apply writes_nothing|apply consumes_nothing].
Qed.

Lemma MapVolumeRequest_coded m : Params m ≠ Some (MapVolumeRequest_Ceph None) → MapVolumeRequest_Size m < 2 ^ 63 →
  coded (MapVolumeRequest_Size m) (MapVolumeRequest_MarshalTo m) MapVolumeRequest_Unmarshal (MkMapVolumeRequest "" None) m
    (MapVolumeRequest_enc m).
Proof.
  destruct m as [id ps]. unfold MapVolumeRequest_Size, MapVolumeRequest_enc, MapVolumeRequest_MarshalTo.
  cbn [Map_VolumeId Params]. intros Hok Hs. pose proof (size_string_bounds id) as Hid.
  destruct (Params_coded id ps) as (H1 & H2 & H3); [done|lia|]. rewrite H1 in *.
  assert (fits (bytes_of id)) as Hfits by (unfold fits; lia). pose proof (size_string_enc 0xa id Hfits) as Hsize.
  split_and!; [rewrite length_app; lia|by apply marshals_writer, writes_seq; [apply writes_string|]|].
  wire_end. eapply consumes_app; [|exact H3].
  eapply (consumes_string _ _ _ 1 _ (λ s m, MkMapVolumeRequest s (Params m)) id (MkMapVolumeRequest "" None)); [by repeat split|done|by intros ->].
Qed.

(** The values that Go's types have; a [oneof] with a nil pointer inside is not sent. *)
Definition wire_ok (k : kind) : msg k → Prop :=
  match k with
  | KMapVolumeRequest => λ m, Params m ≠ Some (MapVolumeRequest_Ceph None)
  | KMapVolumeReply => MapVolumeReply_ok
  | KPCIAddress => PCIAddress_ok
  | KSCSIDisk => SCSIDisk_ok
  | KProvisionMallocBDevRequest => λ m, in_int64 (Size_ m)
  | _ => λ _, True
  end.

Lemma message_coded k (m : msg k) :
  wire_ok k m → Size m < 2 ^ 63 → ∃ e, coded (Size m) (MarshalTo m) Unmarshal Reset m e.
Proof.
  destruct k; cbn [msg message Size MarshalTo Unmarshal Reset wire_ok] in *; intros Hok Hs.
  - eexists. by apply SetValueRequest_coded.
  - eexists. by apply Value_coded.
  - eexists. apply Empty_coded.
  - eexists. eapply one_string_coded; [done|no_more_fields|by destruct m| |done]. destruct m. cbn. congruence.
  - eexists. by apply GetValuesReply_coded.
  - eexists. by apply MapVolumeRequest_coded.
  - eexists. apply Empty_coded.
  - eexists. by apply CephParams_coded.
  - eexists. by apply MapVolumeReply_coded.
  - eexists. by apply PCIAddress_coded.
  - eexists. by apply SCSIDisk_coded.
  - eexists. eapply one_string_coded; [done|no_more_fields|by destruct m| |done]. destruct m. cbn. congruence.
  - eexists. apply Empty_coded.
  - eexists. by apply ProvisionMallocBDevRequest_coded.
  - eexists. apply Empty_coded.
  - eexists. eapply one_string_coded; [done|no_more_fields|by destruct m| |done]. destruct m. cbn. congruence.
  - eexists. apply Empty_coded.
Qed.

(** C16. The wire format: for every message of the OIM protocol, Marshal succeeds (it
    never writes outside of the slice that it allocated), produces as many bytes as
    Size says, and Unmarshal of these bytes into a new message gives the message back,
    also with fields before and after it that only later versions know. *)
Theorem wire_roundtrip k (m : msg k) :
  wire_ok k m → Size m < 2 ^ 63 →
  ∃ e, Marshal m = Ok e ∧ zlen e = Size m ∧
    ∀ u1 u2, unknown_fields u1 → unknown_fields u2 → fits (u1 ++ e ++ u2) → Unmarshal (u1 ++ e ++ u2) Reset = Ok m.
Proof.
  intros Hok Hs. destruct (message_coded k m Hok Hs) as [e He]. exists e. split; [by apply coded_Marshal|].
  by destruct He as (-> & _ & ?).
Qed.
