(* ===== verification/WireSafe.v ===== *)
(** * What Unmarshal does with bytes that are not a message

    Every varint of seven bits per byte is at most ten bytes long, so a length can be
    close to 2^63, and then the index behind the field overflows.  Without such long
    numbers Unmarshal never panics, whatever the bytes are. *)
From S2P Require Import Prelude GoStrings Strconv Errors Messages Wire Protobuf.

(** Not eight bytes in a row that continue a number. *)
Definition calm (d : bytes) : Prop := ∀ i, ∃ j, (j < 8)%nat ∧ nth (i + j) d 0 < 128.

Definition small (d : bytes) : Prop := zlen d < 2 ^ 62.

Lemma calm_drop n d : calm d → calm (drop n d).
Proof.
  intros Hd i. destruct (Hd (n + i)%nat) as (j & Hj & Hb). exists j. split; [done|].
  by rewrite nth_skipn, Nat.add_assoc.
Qed.

Lemma calm_take n d : calm d → calm (take n d).
Proof.
  intros Hd i. destruct (Hd i) as (j & Hj & Hb). exists j. split; [done|].
  destruct (decide (i + j < n)%nat) as [Hlt|Hge].
  - by rewrite nth_firstn, (proj2 (Nat.ltb_lt _ _) Hlt).
  - rewrite nth_overflow; [lia|]. rewrite length_take. lia.
Qed.

(** Short slices are calm. *)
Lemma calm_short d : (length d < 8)%nat → calm d.
Proof. intros Hl i. exists 7%nat. split; [lia|]. rewrite nth_overflow; lia. Qed.

Lemma lor_bound a b n : 0 ≤ n → 0 ≤ a < 2 ^ n → 0 ≤ b < 2 ^ n → 0 ≤ Z.lor a b < 2 ^ n.
Proof.
  intros Hn Ha Hb. replace (Z.lor a b) with (Z.lor a b mod 2 ^ n); [apply Z.mod_pos_bound; lia|].
  rewrite <-Z.land_ones, Z.land_lor_distr_l, !Z.land_ones, !Z.mod_small by lia. done.
Qed.

(** A conversion that keeps numbers up to 63 bits. *)
Definition keeps_small (conv : Z → Z) : Prop := ∀ v, 0 ≤ v < 2 ^ 63 → conv v = v.
Lemma uint64_keeps : keeps_small uint64.
Proof. intros v Hv. apply wrap_unsigned_small. lia. Qed.
Lemma int64_keeps : keeps_small int64.
Proof. intros v Hv. apply wrap_signed_small; lia. Qed.

(** Reading a number never panics and goes forward. *)
Lemma varint_loop_moves conv ss x d i :
  0 ≤ i →
  match varint_loop conv ss x d i with Ok (_, i') => i < i' ≤ zlen d | Err _ => True | Panic _ => False end.
Proof.
  revert x i. induction ss as [|s ss IH]; intros x i Hi; cbn [varint_loop]; [done|]. case_decide as Hend; [done|].
  unfold index. rewrite decide_True by lia. cbn [mbind result_mbind result_bind]. case_decide; [lia|].
  specialize (IH (Z.lor x (conv (Z.shiftl (Z.land (nth (Z.to_nat i) d 0) 0x7F) s))) (i + 1)).
  destruct (varint_loop conv ss _ d (i + 1)) as [[y i']|e|w]; [|done|]; [destruct IH; lia|apply IH; lia].
Qed.

(** In calm data, the number is small. *)
Lemma varint_loop_small conv j n s x d i :
  keeps_small conv → (j < n)%nat → 0 ≤ i → nth (Z.to_nat i + j) d 0 < 128 → 0 ≤ s → s + 7 * Z.of_nat (S j) ≤ 63 → 0 ≤ x < 2 ^ s →
  match varint_loop conv (shifts_from s n) x d i with
  | Ok (y, _) => 0 ≤ y < 2 ^ (s + 7 * Z.of_nat (S j))
  | _ => True
  end.
Proof.
  intros Hconv. revert n s x i. induction j as [|j IH]; intros n s x i Hn Hi Hb Hs Hs63 Hx; (destruct n as [|n]; [lia|]);
    rewrite shifts_from_S; cbn [varint_loop]; (case_decide as Hend; [done|]).
  all: unfold index; rewrite decide_True by lia; cbn [mbind result_mbind result_bind].
  all: set (b := nth (Z.to_nat i) d 0) in *; set (y := Z.lor x _).
  all: assert (0 ≤ y < 2 ^ (s + 7)) as Hy.
  1, 3: unfold y; assert (0 ≤ Z.land b 0x7F < 2 ^ 7) as Hland
    by (change 0x7F with (Z.ones 7); rewrite Z.land_ones by lia; apply Z.mod_pos_bound; lia).
  1, 2: assert (0 ≤ Z.shiftl (Z.land b 0x7F) s < 2 ^ (s + 7)) as Hsh
    by (rewrite Z.shiftl_mul_pow2, Z.pow_add_r by lia; nia).
  1, 2: assert (2 ^ (s + 7) ≤ 2 ^ 63) by (apply Z.pow_le_mono_r; lia); rewrite Hconv by lia.
  1, 2: apply lor_bound; [lia| |done]; assert (2 ^ s ≤ 2 ^ (s + 7)) by (apply Z.pow_le_mono_r; lia); lia.
  - rewrite Nat.add_0_r in Hb. fold b in Hb. rewrite decide_True by lia. by replace (s + 7 * Z.of_nat 1) with (s + 7) by lia.
  - case_decide as Hlt.
    + assert (2 ^ (s + 7) ≤ 2 ^ (s + 7 * Z.of_nat (S (S j)))) by (apply Z.pow_le_mono_r; lia). lia.
    + specialize (IH n (s + 7) y (i + 1)). replace (s + 7 * Z.of_nat (S (S j))) with (s + 7 + 7 * Z.of_nat (S j)) in * by lia.
      apply IH; try lia; try done. replace (Z.to_nat (i + 1) + j)%nat with (Z.to_nat i + S j)%nat by lia. done.
Qed.

(** Both together. *)
Lemma read_varint_safe conv d i :
  0 ≤ i →
  match read_varint conv d i with
  | Ok (x, i') => i < i' ≤ zlen d ∧ (calm d → keeps_small conv → 0 ≤ x < 2 ^ 56)
  | Err _ => True
  | Panic _ => False
  end.
Proof.
  intros Hi. pose proof (varint_loop_moves conv shifts 0 d i Hi) as Hm. unfold read_varint in *.
  destruct (varint_loop conv shifts 0 d i) as [[x i']|e|w] eqn:E; [|done..]. split; [done|]. intros Hc Hk.
  destruct (Hc (Z.to_nat i)) as (j & Hj & Hb). change shifts with (shifts_from 0 10) in E.
  pose proof (varint_loop_small conv j 10 0 0 d i Hk ltac:(lia) Hi Hb ltac:(lia) ltac:(lia) ltac:(lia)) as Hsmall.
  rewrite E in Hsmall. assert (2 ^ (0 + 7 * Z.of_nat (S j)) ≤ 2 ^ 56) by (apply Z.pow_le_mono_r; lia). lia.
Qed.

(** A chunk lies inside the slice. *)
Lemma read_chunk_safe n d i :
  small d → 0 ≤ i ≤ zlen d → n < 2 ^ 56 →
  match read_chunk n d i with
  | Ok (c, i') => i ≤ i' ≤ zlen d ∧ small c ∧ (calm d → calm c)
  | Err _ => True
  | Panic _ => False
  end.
Proof.
  intros Hs Hi Hn. unfold small in *. unfold read_chunk. case_decide; [done|]. rewrite wrap_signed_small by lia.
  case_decide; [done|]. unfold slice. rewrite decide_True by lia. cbn [mbind result_mbind result_bind]. split_and!; [lia|lia| |].
  - rewrite length_take, length_drop. lia.
  - intros Hc. by apply calm_take, calm_drop.
Qed.

Lemma slice_from_safe d i :
  small d → calm d → 0 ≤ i ≤ zlen d →
  ∃ rest, slice_from d i = Ok rest ∧ small rest ∧ calm rest ∧ zlen rest = zlen d - i.
Proof.
  intros Hs Hc Hi. unfold small in *. unfold slice_from. rewrite decide_True by done.
  exists (drop (Z.to_nat i) d). split_and!; [done|rewrite length_drop; lia|by apply calm_drop|rewrite length_drop; lia].
Qed.

(** What [skip] may return for a slice. *)
Definition skipped (d : bytes) (i : Z) (r : result Z) : Prop :=
  match r with Ok n => i < n ≤ zlen d + 2 ^ 57 | Err _ => True | Panic _ => False end.

Lemma int64_skipped i n d : 0 ≤ i ≤ zlen d → small d → 0 ≤ n ≤ 2 ^ 57 → int64 (i + n) = i + n.
Proof. unfold small. intros. apply wrap_signed_small; lia. Qed.

(** Unknown fields are skipped with at least one byte, or there is an error. *)
Lemma skip_safe fuel :
  (∀ d, small d → calm d → 0 < zlen d → 2 * zlen d ≤ Z.of_nat fuel → skipped d 0 (skip fuel d)) ∧
  (∀ d i, small d → calm d → 0 ≤ i → 2 * (zlen d - i) + 1 ≤ Z.of_nat fuel → 1 ≤ Z.of_nat fuel → skipped d i (skip_group fuel d i)).
Proof.
  induction fuel as [|fuel [IHskip IHgroup]]; [split; intros; lia|]. split.
  - intros d Hs Hc Hne Hfuel. cbn [skip]. rewrite decide_False by lia.
    pose proof (read_varint_safe uint64 d 0 ltac:(lia)) as Hwire.
    destruct (read_varint uint64 d 0) as [[wire i]|e|w]; [|done..]. cbn [mbind result_mbind result_bind].
    destruct Hwire as [Hi _]. pose proof Hs as Hsd. unfold small in Hsd.
    repeat case_decide; try (cbn; rewrite ?(int64_skipped _ _ d) by (done || lia); lia); try done.
    + pose proof (read_varint_safe uint64 d i ltac:(lia)) as Hv.
      destruct (read_varint uint64 d i) as [[x i']|e|w]; [|done..]. cbn. lia.
    + pose proof (read_varint_safe int64 d i ltac:(lia)) as Hv.
      destruct (read_varint int64 d i) as [[x i']|e|w]; [|done..]. cbn [mbind result_mbind result_bind].
      destruct Hv as [Hi' Hx]. specialize (Hx Hc int64_keeps). rewrite decide_False by lia. cbn.
      rewrite (int64_skipped _ _ d) by (done || lia). lia.
    + assert (skipped d i (skip_group fuel d i)) as Hg by (apply IHgroup; try done; lia).
      unfold skipped in *. destruct (skip_group fuel d i); [lia|done..].
  - intros d i Hs Hc Hi Hfuel _. cbn [skip_group]. pose proof (read_varint_safe uint64 d i Hi) as Hwire.
    destruct (read_varint uint64 d i) as [[wire i']|e|w]; [|done..]. cbn [mbind result_mbind result_bind].
    destruct Hwire as [Hi' _]. pose proof Hs as Hsd. unfold small in Hsd. case_decide; [cbn; lia|].
    destruct (slice_from_safe d i Hs Hc ltac:(lia)) as (rest & -> & Hrs & Hrc & Hrl). cbn [mbind result_mbind result_bind].
    assert (skipped rest 0 (skip fuel rest)) as Hskip by (apply IHskip; try done; lia).
    destruct (skip fuel rest) as [n|e|w]; [|done..]. cbn [mbind result_mbind result_bind]. cbn in Hskip.
    rewrite wrap_signed_small by lia.
    assert (skipped d (i + n) (skip_group fuel d (i + n))) as Hg by (apply IHgroup; try done; lia).
    unfold skipped in *. destruct (skip_group fuel d (i + n)); [lia|done..].
Qed.

Lemma skipOim_safe d : small d → calm d → 0 < zlen d → skipped d 0 (skipOim d).
Proof. intros Hs Hc Hne. apply skip_safe; try done. lia. Qed.

(** A case of the switch. *)
Definition field_safe {M} (f : field M) : Prop :=
  match f with
  | MessageField _ Unmarshal => ∀ d m, small d → calm d → panics (Unmarshal d m) = false
  | _ => True
  end.

Lemma read_field_safe {M} (f : field M) wireType d i m :
  field_safe f → small d → calm d → 0 ≤ i ≤ zlen d →
  match read_field f wireType d i m with Ok (_, i') => i ≤ i' ≤ zlen d | Err _ => True | Panic _ => False end.
Proof.
  intros Hf Hs Hc Hi. destruct f as [name set|name conv set|name U]; cbn [read_field]; case_decide; try done.
  - pose proof (read_varint_safe uint64 d i ltac:(lia)) as Hv.
    destruct (read_varint uint64 d i) as [[x i1]|e|w]; [|done..]. cbn [mbind result_mbind result_bind].
    destruct Hv as [Hi1 Hx]. specialize (Hx Hc uint64_keeps). rewrite int64_keeps by lia.
    pose proof (read_chunk_safe x d i1 Hs ltac:(lia) ltac:(lia)) as Hchunk.
    destruct (read_chunk x d i1) as [[c i2]|e|w]; [|done..]. cbn. lia.
  - pose proof (read_varint_safe conv d i ltac:(lia)) as Hv.
    destruct (read_varint conv d i) as [[x i1]|e|w]; [|done..]. cbn. lia.
  - pose proof (read_varint_safe int64 d i ltac:(lia)) as Hv.
    destruct (read_varint int64 d i) as [[x i1]|e|w]; [|done..]. cbn [mbind result_mbind result_bind].
    destruct Hv as [Hi1 Hx]. specialize (Hx Hc int64_keeps).
    pose proof (read_chunk_safe x d i1 Hs ltac:(lia) ltac:(lia)) as Hchunk.
    destruct (read_chunk x d i1) as [[c i2]|e|w]; [|done..]. cbn [mbind result_mbind result_bind].
    destruct Hchunk as (Hi2 & Hcs & Hcc). specialize (Hf c m Hcs (Hcc Hc)).
    destruct (U c m); [cbn; lia|done|done].
Qed.

Lemma unmarshal_safe {M} name (fields : Z → option (field M)) d m :
  (∀ num f, fields num = Some f → field_safe f) → small d → calm d → panics (unmarshal name fields d m) = false.
Proof.
  intros Hfields Hs Hc. unfold unmarshal.
  assert (∀ fuel i m, 0 ≤ i ≤ zlen d → zlen d - i < Z.of_nat fuel → panics (unmarshal_loop fuel name fields d i m) = false) as H;
    [|apply H; lia].
  clear m. induction fuel as [|fuel IH]; intros i m Hi Hfuel; [lia|]. cbn [unmarshal_loop].
  case_decide; [|by case_decide]. pose proof (read_varint_safe uint64 d i ltac:(lia)) as Hwire.
  destruct (read_varint uint64 d i) as [[wire i1]|e|w]; [|done..]. cbn [mbind result_mbind result_bind].
  destruct Hwire as [Hi1 _]. case_decide; [done|]. case_decide; [done|].
  destruct (fields (int32 (Z.shiftr wire 3))) as [f|] eqn:Ef.
  - pose proof (read_field_safe f (Z.land wire 0x7) d i1 m (Hfields _ _ Ef) Hs Hc ltac:(lia)) as Hf.
    destruct (read_field f _ d i1 m) as [[m' i2]|e|w]; [|done..]. cbn [mbind result_mbind result_bind]. apply IH; lia.
  - destruct (slice_from_safe d i Hs Hc ltac:(lia)) as (rest & -> & Hrs & Hrc & Hrl). cbn [mbind result_mbind result_bind].
    pose proof (skipOim_safe rest Hrs Hrc ltac:(lia)) as Hskip. destruct (skipOim rest) as [n|e|w]; [|done..].
    cbn [mbind result_mbind result_bind]. cbn in Hskip. unfold small in Hs. rewrite decide_False by lia.
    rewrite wrap_signed_small by lia. case_decide; [done|]. apply IH; lia.
Qed.

(** ** The messages *)

Lemma panics_bind {A B} (r : result A) (f : A → B) : panics r = false → panics (a ← r; Ok (f a)) = false.
Proof. by destruct r. Qed.

(** The fields of a message: those that are messages are safe. *)
Ltac safe_fields := intros num f Hf; destruct num as [|[[[?|?|]|[?|?|]|]|[[?|?|]|[?|?|]|]|]|?]; try discriminate Hf;
  injection Hf as <-; try done; intros ? ? ? ?; apply panics_bind.

Lemma Value_Unmarshal_safe d m : small d → calm d → panics (Value_Unmarshal d m) = false.
Proof. apply unmarshal_safe. safe_fields. Qed.
Lemma PCIAddress_Unmarshal_safe d m : small d → calm d → panics (PCIAddress_Unmarshal d m) = false.
Proof. apply unmarshal_safe. safe_fields. Qed.
Lemma SCSIDisk_Unmarshal_safe d m : small d → calm d → panics (SCSIDisk_Unmarshal d m) = false.
Proof. apply unmarshal_safe. safe_fields. Qed.
Lemma CephParams_Unmarshal_safe d m : small d → calm d → panics (CephParams_Unmarshal d m) = false.
Proof. apply unmarshal_safe. safe_fields. Qed.
Lemma Empty_Unmarshal_safe name d m : small d → calm d → panics (Empty_Unmarshal name d m) = false.
Proof. by apply unmarshal_safe. Qed.
#[export] Hint Resolve Value_Unmarshal_safe PCIAddress_Unmarshal_safe SCSIDisk_Unmarshal_safe
  CephParams_Unmarshal_safe Empty_Unmarshal_safe : oim.

(** C18. Whatever bytes arrive, Unmarshal of every message returns a message or an error
    and does not panic or loop, as long as there are no eight bytes in a row that all
    continue a number (so that lengths are below 2^56). *)
Theorem Unmarshal_never_panics k (d : bytes) (m : msg k) :
  small d → calm d → panics (Unmarshal d m) = false.
Proof.
  destruct k; cbn [msg message Unmarshal] in *; intros Hs Hc; eauto with oim;
    (apply unmarshal_safe; [safe_fields|done..]); unfold MallocParams_Unmarshal; eauto with oim.
Qed.

(** A length of 2^63 - 1: the index behind the field overflows. *)
Definition overflow : bytes := [0x0a; 0xff; 0xff; 0xff; 0xff; 0xff; 0xff; 0xff; 0xff; 0x7f].

(** Messages whose first field has a length. *)
Definition has_length (k : kind) : bool :=
  match k with
  | KSetValueRequest | KValue | KGetValuesRequest | KGetValuesReply | KMapVolumeRequest | KCephParams
  | KMapVolumeReply | KUnmapVolumeRequest | KProvisionMallocBDevRequest | KCheckMallocBDevRequest => true
  | _ => false
  end.


(** The same behind a group in an unknown field, as an index below zero. *)
Example skip_group_panics :
  Unmarshal ([0x33; 0x32] ++ [0xff; 0xff; 0xff; 0xff; 0xff; 0xff; 0xff; 0xff; 0x7f]) (M := msg KSetValueReply) MkEmpty =
    Panic "index out of range".
Proof. by vm_compute. Qed.

Example truncated_request :
  Unmarshal [0x0a; 0x05; 0x0a] (M := msg KSetValueRequest) Reset = Err ErrUnexpectedEOF_.
Proof. by vm_compute. Qed.

Lemma Unmarshal_never_panics_witness :
  panics (Unmarshal [0xff; 0xff; 0xff; 0x0a; 0x05; 0x0a] (M := msg KSetValueRequest) Reset) = false.
Proof. apply (Unmarshal_never_panics KSetValueRequest); [done|apply calm_short; cbn; lia]. Defined.


(** ** Witness of the round trip *)

Definition wire_example : msg KMapVolumeReply :=
  MkMapVolumeReply (Some (MkPCIAddress 0xFFFF 0 3 0)) (Some (MkSCSIDisk 7 0)).

Example wire_example_bytes :
  Marshal wire_example = Ok [0x0a; 6; 0x08; 0xff; 0xff; 0x03; 0x18; 3; 0x12; 2; 0x08; 7].
Proof. by vm_compute. Qed.

Lemma wire_roundtrip_witness :
  ∃ e, Marshal wire_example = Ok e ∧ Unmarshal ([0x38; 1] ++ e ++ []) Reset = Ok wire_example.
Proof.
  destruct (wire_roundtrip KMapVolumeReply wire_example) as (e & He & Hl & Hu).
  - split; intros a [= <-]; repeat split; done.
  - by vm_compute.
  - exists e. split; [exact He|]. apply Hu.
    + apply (unknown_varint 7 1 []); [lia|lia|apply unknown_none].
    + apply unknown_none.
    + unfold fits. rewrite !length_app. change (Size wire_example) with 12 in Hl. cbn [length]. lia.
Defined.
