(* ===== verification/PCI.v ===== *)
(** * PCI addresses: pkg/oim-common/pci.go

    [ParseBDFString] reads a PCI address in extended BDF notation through a
    regular expression, [PrettyPCIAddress] prints one, [CompletePCIAddress]
    fills in unknown fields.  0xFFFF stands for "unknown".  The theorems give
    the exact language of the parser, say that it never panics, that printing
    and parsing are inverse on the addresses the parser can return, and what
    completing does. *)
From S2P Require Import Prelude GoStrings Strconv Regex Messages.

(** ** Definitions *)

Definition hex : ascii → bool := is_digit 16.
Definition octal : ascii → bool := is_digit 8.

(** ^\s*(?:([0-9a-fA-F]{0,4}):)?([0-9a-fA-F]{0,2}):([0-9a-fA-F]{0,2})\.([0-7]{0,1})\s*$ *)
Definition bdfRe : re :=
  RClass is_space 0 None ;;;
  ROpt (RGroup 1 (RClass hex 0 (Some 4%nat)) ;;; RChar ":") ;;;
  RGroup 2 (RClass hex 0 (Some 2%nat)) ;;; RChar ":" ;;;
  RGroup 3 (RClass hex 0 (Some 2%nat)) ;;; RChar "." ;;;
  RGroup 4 (RClass octal 0 (Some 1%nat)) ;;;
  RClass is_space 0 None ;;; REnd.

Definition unknown : Z := 0xFFFF.

Definition HexToU32 (hex : string) : result Z :=
  if decide (hex = "") then Ok unknown
  else match ParseUint16hex hex with
       | Some value => Ok (uint32 value)
       | None => Panic "strconv.ParseUint"
       end.

Definition ParseBDFString (dev : string) : result PCIAddress :=
  match FindAnchored bdfRe dev with
  | None => Err (Errorf "%q not in BDF notation ([[domain]:][bus]:[dev].[function])" [dev])
  | Some (_, parts) =>
      Domain ← HexToU32 (group 1 parts);
      Bus ← HexToU32 (group 2 parts);
      Device ← HexToU32 (group 3 parts);
      Function ← HexToU32 (group 4 parts);
      mret (MkPCIAddress Domain Bus Device Function)
  end.

Definition CompletePCIAddress (addr def : PCIAddress) : PCIAddress :=
  let addr := if Domain addr =? unknown
              then MkPCIAddress (Domain def) (Bus addr) (Device addr) (Function_ addr) else addr in
  let addr := if Bus addr =? unknown
              then MkPCIAddress (Domain addr) (Bus def) (Device addr) (Function_ addr) else addr in
  let addr := if Device addr =? unknown
              then MkPCIAddress (Domain addr) (Bus addr) (Device def) (Function_ addr) else addr in
  if Function_ addr =? unknown
  then MkPCIAddress (Domain addr) (Bus addr) (Device addr) (Function_ def) else addr.

Definition PrettyPCIAddress (p : option PCIAddress) : string :=
  match p with
  | None => ":."
  | Some p =>
      let result := if Domain p =? unknown then "" else fmt_hex 4 (Domain p) +:+ ":" in
      let result := result +:+ (if Bus p =? unknown then ":" else fmt_hex 2 (Bus p) +:+ ":") in
      let result := result +:+ (if Device p =? unknown then "." else fmt_hex 2 (Device p) +:+ ".") in
      result +:+ (if Function_ p =? unknown then "" else fmt_hex 1 (Function_ p))
  end.

(** The notation: [[ws] [domain:] bus:device.function [ws]]. *)
Record bdf_parts := MkBDF {
  ws1 : string; odom : option string; bus : string; dev : string; fn : string; ws2 : string
}.

Definition bdf_wf (b : bdf_parts) : Prop :=
  string_all is_space (ws1 b) = true ∧ string_all is_space (ws2 b) = true ∧
  match odom b with
  | Some d => string_all hex d = true ∧ (String.length d ≤ 4)%nat
  | None => True
  end ∧
  string_all hex (bus b) = true ∧ (String.length (bus b) ≤ 2)%nat ∧
  string_all hex (dev b) = true ∧ (String.length (dev b) ≤ 2)%nat ∧
  string_all octal (fn b) = true ∧ (String.length (fn b) ≤ 1)%nat.

Definition bdf_tail (b : bdf_parts) : string :=
  bus b +:+ ":" +:+ dev b +:+ "." +:+ fn b +:+ ws2 b.

Definition bdf_text (b : bdf_parts) : string :=
  ws1 b +:+ match odom b with Some d => d +:+ ":" +:+ bdf_tail b | None => bdf_tail b end.

(** The number a field stands for: unknown when it is left out. *)
Definition field_val (s : string) : Z :=
  if decide (s = "") then unknown else default 0 (parse_digits 16 0 s).

Definition bdf_val (b : bdf_parts) : PCIAddress :=
  MkPCIAddress (field_val (default "" (odom b))) (field_val (bus b))
    (field_val (dev b)) (field_val (fn b)).

(** The addresses that a notation can denote. *)
Definition pci_wf (a : PCIAddress) : Prop :=
  0 ≤ Domain a ≤ unknown ∧
  (0 ≤ Bus a < 2 ^ 8 ∨ Bus a = unknown) ∧
  (0 ≤ Device a < 2 ^ 8 ∨ Device a = unknown) ∧
  (0 ≤ Function_ a < 8 ∨ Function_ a = unknown).

(** ** The language of the expression *)

Lemma hex_not_sep : hex ":" = false ∧ hex "." = false ∧ octal "." = false.
Proof. done. Qed.

Lemma space_not_hex c : is_space c = true → hex c = false ∧ octal c = false.
Proof.
  unfold is_space. rewrite bool_decide_eq_true.
  rewrite !elem_of_cons. intros H. destruct_or?; subst; try done.
  by apply not_elem_of_nil in H.
Qed.

Definition bdf_caps (b : bdf_parts) : caps :=
  match odom b with Some d => [(1%nat, d)] | None => [] end ++
  [(2%nat, bus b); (3%nat, dev b); (4%nat, fn b)].

Lemma matches_bdf_sound s w c t :
  (w, c, t) ∈ matches bdfRe s →
  ∃ b, s = bdf_text b ∧ w = s ∧ c = bdf_caps b ∧ bdf_wf b.
Proof.
  unfold bdfRe. intros H. re_inv H; rewrite !str_app_nil_r.
  - eexists (MkBDF _ (Some _) _ _ _ _). split; [reflexivity|]. unfold bdf_wf; simpl. by split_and!.
  - eexists (MkBDF _ None _ _ _ _). split; [reflexivity|]. unfold bdf_wf; simpl. by split_and!.
Qed.

(** From the bus on. *)
Lemma matches_bdf_tail b :
  bdf_wf b →
  (bdf_tail b, [(2%nat, bus b); (3%nat, dev b); (4%nat, fn b)], "") ∈
    matches (RGroup 2 (RClass hex 0 (Some 2%nat)) ;;; RChar ":" ;;;
             RGroup 3 (RClass hex 0 (Some 2%nat)) ;;; RChar "." ;;;
             RGroup 4 (RClass octal 0 (Some 1%nat)) ;;;
             RClass is_space 0 None ;;; REnd) (bdf_tail b).
Proof.
  intros (_ & ? & _ & ? & ? & ? & ? & ? & ?).
  apply matches_cat_group. exists (bus b), (":" +:+ dev b +:+ "." +:+ fn b +:+ ws2 b).
  eexists _, _. split_and!; [done..|lia|done|].
  apply matches_cat_char. eexists _, _. split_and!; [done..|].
  apply matches_cat_group. exists (dev b), ("." +:+ fn b +:+ ws2 b).
  eexists _, _. split_and!; [done..|lia|done|].
  apply matches_cat_char. eexists _, _. split_and!; [done..|].
  apply matches_cat_group. exists (fn b), (ws2 b).
  eexists _, _. split_and!; [done..|lia|done|].
  apply matches_cat_class. exists (ws2 b), "", "". rewrite str_app_nil_r.
  split_and!; [done..|lia|done|]. by apply elem_of_matches_end.
Qed.

Lemma matches_bdf_complete b :
  bdf_wf b → (bdf_text b, bdf_caps b, "") ∈ matches bdfRe (bdf_text b).
Proof.
  intros Hb. pose proof (matches_bdf_tail b Hb) as Htail. destruct Hb as (? & _ & Hd & _).
  unfold bdfRe, bdf_text, bdf_caps.
  apply matches_cat_class. eexists (ws1 b), _, _. split_and!; [done..|lia|done|].
  apply matches_cat_opt. destruct (odom b) as [d|]; [left|by right].
  destruct Hd as [??]. apply matches_cat_assoc, matches_cat_group. eexists d, _, _, _.
  split_and!; [reflexivity|done|done|done|lia|done|].
  apply matches_cat_char. eexists _, _. split_and!; [done..|]. apply Htail.
Qed.

(** The notation is unambiguous. *)
Lemma bdf_tail_inj b b' :
  bdf_wf b → bdf_wf b' → bdf_tail b = bdf_tail b' →
  bus b = bus b' ∧ dev b = dev b' ∧ fn b = fn b'.
Proof.
  intros (_ & Hw & _ & Hb & _ & Hd & _ & Hf & _) (_ & Hw' & _ & Hb' & _ & Hd' & _ & Hf' & _) Heq.
  unfold bdf_tail in Heq. apply (span_unique_char hex) in Heq as (-> & _ & Heq); [|done..].
  apply (span_unique_char hex) in Heq as (-> & _ & Heq); [|done..].
  apply (span_unique octal) in Heq as [-> _]; [done|done|done|..].
  - rewrite <-(str_app_nil_r (ws2 b)). by apply (starts_with_disjoint _ is_space); [apply space_not_hex|..].
  - rewrite <-(str_app_nil_r (ws2 b')). by apply (starts_with_disjoint _ is_space); [apply space_not_hex|..].
Qed.

Lemma hex_not_space c : hex c = true → is_space c = false.
Proof. destruct (is_space c) eqn:E; [|done]. apply space_not_hex in E as [? _]. congruence. Qed.

Lemma bdf_body_not_space b :
  bdf_wf b →
  starts_with is_space
    (match odom b with Some d => d +:+ ":" +:+ bdf_tail b | None => bdf_tail b end) = false.
Proof.
  intros (_ & _ & Hd & Hb & _). destruct (odom b) as [d|].
  - by apply (starts_with_disjoint _ hex); [apply hex_not_space|apply Hd|].
  - by apply (starts_with_disjoint _ hex); [apply hex_not_space|apply Hb|].
Qed.

Lemma bdf_text_inj b b' :
  bdf_wf b → bdf_wf b' → bdf_text b = bdf_text b' → bdf_caps b = bdf_caps b'.
Proof.
  intros Hb Hb' Heq. unfold bdf_text in Heq.
  apply (span_unique is_space) in Heq as [_ Heq];
    [|apply Hb|apply Hb'|by apply bdf_body_not_space..].
  pose proof (bdf_tail_inj b b' Hb Hb') as Hinj.
  destruct Hb as (_ & _ & Hd & H1 & _ & H2 & _), Hb' as (_ & _ & Hd' & H1' & _ & H2' & _).
  unfold bdf_caps. destruct (odom b) as [d|], (odom b') as [d'|].
  - apply (span_unique_char hex) in Heq as (-> & _ & Heq); [|apply Hd|apply Hd'|done..].
    destruct (Hinj Heq) as (-> & -> & ->). done.
  - unfold bdf_tail in Heq. apply (span_unique_char hex) in Heq as (_ & _ & Heq); [|apply Hd|done..].
    by apply (span_unique_char hex) in Heq as (_ & [=] & _).
  - unfold bdf_tail in Heq. apply (span_unique_char hex) in Heq as (_ & _ & Heq); [|done|apply Hd'|done..].
    by apply (span_unique_char hex) in Heq as (_ & [=] & _).
  - destruct (Hinj Heq) as (-> & -> & ->). done.
Qed.

Lemma FindAnchored_bdf b :
  bdf_wf b → FindAnchored bdfRe (bdf_text b) = Some (bdf_text b, bdf_caps b).
Proof.
  intros Hb. apply FindAnchored_unique.
  - exists "". by apply matches_bdf_complete.
  - intros [w c] t (b' & Hs & -> & -> & Hb')%matches_bdf_sound. f_equal.
    by apply bdf_text_inj.
Qed.

(** ** Numbers of the fields *)

Lemma HexToU32_field s k :
  string_all hex s = true → (String.length s ≤ k)%nat → (k ≤ 4)%nat →
  HexToU32 s = Ok (field_val s) ∧ (0 ≤ field_val s < 16 ^ Z.of_nat k ∨ field_val s = unknown).
Proof.
  intros Hall Hl Hk. unfold HexToU32, field_val. case_decide as Hs; [by auto|].
  destruct (ParseUint16hex_digits s Hs Hall ltac:(lia)) as (v & Hv & Hb). rewrite Hv.
  assert (16 ^ Z.of_nat (String.length s) ≤ 16 ^ Z.of_nat k) by (apply Z.pow_le_mono_r; lia).
  assert (16 ^ Z.of_nat k ≤ 16 ^ 4) by (apply Z.pow_le_mono_r; lia).
  assert (parse_digits 16 0 s = Some v) as ->.
  { unfold ParseUint16hex in Hv. destruct s; [done|].
    destruct (parse_digits 16 0 _); simpl in *; [|done]. by case_match; simplify_eq. }
  simpl. rewrite wrap_unsigned_small by lia. split; [done|]. left. lia.
Qed.

Lemma octal_hex c : octal c = true → hex c = true.
Proof. unfold octal, hex, is_digit. destruct (digit_val c); [|done]. lia. Qed.

Lemma octal_field_val s :
  string_all octal s = true → (String.length s ≤ 1)%nat →
  0 ≤ field_val s < 8 ∨ field_val s = unknown.
Proof.
  unfold field_val. destruct s as [|c [|c' s]]; simpl; [by right| |lia].
  rewrite andb_true_r. unfold octal, is_digit. destruct (digit_val c) as [d|] eqn:E; [|done].
  apply digit_val_range in E. intros ? _. left.
  replace (d <? 16) with true by lia. simpl. lia.
Qed.

Lemma ParseBDFString_bdf b :
  bdf_wf b → ParseBDFString (bdf_text b) = Ok (bdf_val b) ∧ pci_wf (bdf_val b).
Proof.
  intros Hb. unfold ParseBDFString. rewrite FindAnchored_bdf by done.
  destruct Hb as (_ & _ & Hd & Hb & Hbl & Hdv & Hdl & Hf & Hfl).
  assert (group 1 (bdf_caps b) = default "" (odom b) ∧ group 2 (bdf_caps b) = bus b ∧
          group 3 (bdf_caps b) = dev b ∧ group 4 (bdf_caps b) = fn b) as (-> & -> & -> & ->).
  { unfold bdf_caps. by destruct (odom b). }
  destruct (HexToU32_field (default "" (odom b)) 4) as [-> Hr1]; [by destruct (odom b); naive_solver| |lia|].
  { destruct (odom b); simpl; [apply Hd|lia]. }
  destruct (HexToU32_field (bus b) 2) as [-> Hr2]; [done..|lia|].
  destruct (HexToU32_field (dev b) 2) as [-> Hr3]; [done..|lia|].
  destruct (HexToU32_field (fn b) 1) as [-> _]; [|done|lia|].
  { eapply string_all_impl; [|done]. apply octal_hex. }
  split; [done|]. unfold bdf_val, pci_wf; simpl. pose proof (octal_field_val (fn b) Hf Hfl).
  unfold unknown in *. change (16 ^ Z.of_nat 4) with 65536 in Hr1.
  change (16 ^ Z.of_nat 2) with 256 in *. lia.
Qed.

Lemma ParseBDFString_cases s :
  (∃ b, bdf_wf b ∧ s = bdf_text b ∧ ParseBDFString s = Ok (bdf_val b)) ∨
  ((¬ ∃ b, bdf_wf b ∧ s = bdf_text b) ∧
   ParseBDFString s =
     Err (Errorf "%q not in BDF notation ([[domain]:][bus]:[dev].[function])" [s])).
Proof.
  destruct (FindAnchored bdfRe s) as [[w c]|] eqn:E.
  - left. apply FindAnchored_Some in E as (t & (b & -> & _ & _ & Hb)%matches_bdf_sound).
    exists b. split_and!; [done..|]. by apply ParseBDFString_bdf.
  - right. split.
    + intros (b & Hb & ->). by rewrite FindAnchored_bdf in E.
    + unfold ParseBDFString. by rewrite E.
Qed.

(** ** Printing *)

Definition pretty_field (k : nat) (n : Z) : string :=
  if n =? unknown then "" else fmt_hex k n.

Definition pretty_parts (a : PCIAddress) : bdf_parts :=
  MkBDF "" (if Domain a =? unknown then None else Some (fmt_hex 4 (Domain a)))
    (pretty_field 2 (Bus a)) (pretty_field 2 (Device a)) (pretty_field 1 (Function_ a)) "".

Lemma pretty_text a : PrettyPCIAddress (Some a) = bdf_text (pretty_parts a).
Proof.
  unfold PrettyPCIAddress, bdf_text, bdf_tail, pretty_parts, pretty_field; simpl.
  destruct (Domain a =? unknown), (Bus a =? unknown), (Device a =? unknown),
    (Function_ a =? unknown); simpl; rewrite ?str_app_nil_r, <-?str_app_assoc; done.
Qed.

Lemma field_val_fmt_hex k n : 0 ≤ n < 2 ^ 16 → field_val (fmt_hex k n) = n.
Proof.
  intros Hn. unfold field_val. rewrite decide_False by apply fmt_hex_nonempty.
  unfold fmt_hex. by rewrite parse_digits_pad0, parse_digits_FormatUint by lia.
Qed.

Lemma field_val_pretty k n : 0 ≤ n < 2 ^ 16 → field_val (pretty_field k n) = n.
Proof.
  intros. unfold pretty_field. destruct (Z.eqb_spec n unknown); [by subst|].
  by apply field_val_fmt_hex.
Qed.

Lemma pretty_field_wf k n :
  0 ≤ n < 16 ^ Z.of_nat k ∨ n = unknown → (0 < k)%nat →
  string_all hex (pretty_field k n) = true ∧ (String.length (pretty_field k n) ≤ k)%nat.
Proof.
  intros Hn ?. unfold pretty_field. destruct (Z.eqb_spec n unknown); [split; [done|simpl; lia]|].
  destruct Hn; [|done]. split; [apply fmt_hex_all; lia|by apply fmt_hex_length].
Qed.

Lemma pretty_octal n :
  0 ≤ n < 8 ∨ n = unknown →
  string_all octal (pretty_field 1 n) = true ∧ (String.length (pretty_field 1 n) ≤ 1)%nat.
Proof.
  intros Hn. assert (n = unknown ∨ n ∈ [0;1;2;3;4;5;6;7]) as [->|H].
  { destruct Hn; [right|by left]. rewrite !elem_of_cons. lia. }
  - split; [done|simpl; lia].
  - rewrite !elem_of_cons in H.
    destruct_or?; subst; try (split; [done|vm_compute; lia]). by apply not_elem_of_nil in H.
Qed.

Lemma pretty_parts_wf a : pci_wf a → bdf_wf (pretty_parts a) ∧ bdf_val (pretty_parts a) = a.
Proof.
  intros (Hd & Hb & Hv & Hf). split.
  - destruct (pretty_field_wf 2 (Bus a) Hb ltac:(lia)) as [H1 H2].
    destruct (pretty_field_wf 2 (Device a) Hv ltac:(lia)) as [H3 H4].
    destruct (pretty_octal (Function_ a) Hf) as [H5 H6].
    unfold bdf_wf, pretty_parts; cbn [ws1 ws2 odom bus dev fn]. split_and!; try assumption; [done..|].
    destruct (Z.eqb_spec (Domain a) unknown) as [|E]; [done|].
    split; [apply fmt_hex_all; lia|apply fmt_hex_length; [|lia]]. unfold unknown in *.
    change (16 ^ Z.of_nat 4) with 65536. lia.
  - unfold bdf_val, pretty_parts; cbn [odom bus dev fn]. unfold unknown in *.
    rewrite !field_val_pretty by lia.
    destruct (Z.eqb_spec (Domain a) 0xFFFF) as [E|E]; cbn [default from_option id].
    + change (field_val "") with 0xFFFF. rewrite <-E. by destruct a.
    + rewrite field_val_fmt_hex by lia. by destruct a.
Qed.

(** ** Completing *)

(** One field of the merged address. *)
Definition pick (x y : Z) : Z := if x =? unknown then y else x.

Lemma CompletePCIAddress_fields a b :
  CompletePCIAddress a b =
    MkPCIAddress (pick (Domain a) (Domain b)) (pick (Bus a) (Bus b))
      (pick (Device a) (Device b)) (pick (Function_ a) (Function_ b)).
Proof.
  destruct a as [a1 a2 a3 a4], b as [b1 b2 b3 b4]. unfold CompletePCIAddress, pick; simpl.
  destruct (a1 =? unknown); simpl; destruct (a2 =? unknown); simpl;
    destruct (a3 =? unknown); simpl; by destruct (a4 =? unknown).
Qed.

Lemma pick_assoc x y z : pick (pick x y) z = pick x (pick y z).
Proof. unfold pick. destruct (x =? unknown) eqn:E; [done|]. by rewrite E. Qed.

Lemma pick_unknown_r x : pick x unknown = x.
Proof. unfold pick. by destruct (Z.eqb_spec x unknown). Qed.

Lemma pick_unknown x y : pick x y = unknown ↔ x = unknown ∧ y = unknown.
Proof. unfold pick. destruct (Z.eqb_spec x unknown); naive_solver. Qed.

(** ** Properties *)


(** Printing and parsing PCI addresses are inverse: every address that the
    parser can return (domain up to 0xFFFF, bus and device one byte or unknown,
    function one octal digit or unknown) is printed in a form that parses back
    to it, and the parser returns no other addresses. *)
Theorem PCIAddress_roundtrip a :
  pci_wf a →
  ParseBDFString (PrettyPCIAddress (Some a)) = Ok a ∧
  (∀ s a', ParseBDFString s = Ok a' → pci_wf a').
Proof.
  intros Ha. destruct (pretty_parts_wf a Ha) as [Hwf Hval]. split.
  - rewrite pretty_text. rewrite <-Hval at 2. by apply ParseBDFString_bdf.
  - intros s a' Hs. destruct (ParseBDFString_cases s) as [(b & Hb & -> & E)|[_ E]]; [|congruence].
    rewrite E in Hs. simplify_eq. by apply ParseBDFString_bdf.
Qed.

Lemma PCIAddress_roundtrip_witness :
  PrettyPCIAddress (Some (MkPCIAddress unknown 0 0x15 unknown)) = "00:15." ∧
  ParseBDFString (PrettyPCIAddress (Some (MkPCIAddress unknown 0 0x15 unknown))) =
    Ok (MkPCIAddress unknown 0 0x15 unknown).
Proof.
  split; [reflexivity|]. apply PCIAddress_roundtrip. unfold pci_wf, unknown; simpl. lia.
Defined.

(** [CompletePCIAddress] takes each field from the first address where it is
    known; it is associative, the all-unknown address is its unit on both sides,
    and a field of the result is unknown only if it is unknown in both. *)
Theorem CompletePCIAddress_spec a b c :
  let none := MkPCIAddress unknown unknown unknown unknown in
  CompletePCIAddress a b =
    MkPCIAddress (if Domain a =? unknown then Domain b else Domain a)
      (if Bus a =? unknown then Bus b else Bus a)
      (if Device a =? unknown then Device b else Device a)
      (if Function_ a =? unknown then Function_ b else Function_ a) ∧
  (Domain (CompletePCIAddress a b) = unknown ↔ Domain a = unknown ∧ Domain b = unknown) ∧
  (Bus (CompletePCIAddress a b) = unknown ↔ Bus a = unknown ∧ Bus b = unknown) ∧
  (Device (CompletePCIAddress a b) = unknown ↔ Device a = unknown ∧ Device b = unknown) ∧
  (Function_ (CompletePCIAddress a b) = unknown ↔ Function_ a = unknown ∧ Function_ b = unknown) ∧
  CompletePCIAddress (CompletePCIAddress a b) c = CompletePCIAddress a (CompletePCIAddress b c) ∧
  CompletePCIAddress a none = a ∧ CompletePCIAddress none a = a.
Proof.
  intros none. rewrite !CompletePCIAddress_fields; simpl.
  split_and!; [done|apply pick_unknown..| | |by destruct a].
  - by rewrite !pick_assoc.
  - rewrite !pick_unknown_r. by destruct a.
Qed.
