(* ===== verification/GRPC.v ===== *)
(** * gRPC plumbing: pkg/oim-common/grpc.go and server.go

    [ParseEndpoint] splits an endpoint, [ChooseDialOpts] picks the options of a
    connection, [LoadTLSConfig] sets up mutual TLS with the check of the peer's
    common name, and the [NonBlockingGRPCServer] is started on an endpoint.
    Reading key files, sockets and the gRPC library itself are parameters. *)
From S2P Require Import Prelude GoStrings Errors.

(** ** Lower case

    [strings.ToLower] maps the ASCII letters; the only other runes whose lower
    case is ASCII are U+0130 (bytes C4 B0, to "i") and U+212A (bytes E2 84 AA,
    to "k").  Bytes of other runes are kept: the code only compares the result
    with ASCII text. *)

Definition lower_byte (c : ascii) : ascii :=
  let n := nat_of_ascii c in
  if (65 <=? n)%nat && (n <=? 90)%nat then ascii_of_nat (n + 32) else c.

(** The rune that starts at the first byte, if its lower case is another ASCII
    letter than the byte's own: the letter, and how many more bytes it takes. *)
Definition lower_rune (c : ascii) (s : string) : ascii * nat :=
  if decide (c = "196"%char ∧ starts_with (λ a, bool_decide (a = "176"%char)) s = true)
  then ("i"%char, 1%nat)
  else if decide (c = "226"%char ∧ HasPrefix s (String "132" (String "170" "")) = true)
  then ("k"%char, 2%nat)
  else (lower_byte c, 0%nat).

(** [skip] bytes belong to the rune read last. *)
Fixpoint to_lower (skip : nat) (s : string) : string :=
  match s, skip with
  | EmptyString, _ => ""
  | String _ s', S skip' => to_lower skip' s'
  | String c s', O => let '(l, n) := lower_rune c s' in String l (to_lower n s')
  end.

Definition ToLower (s : string) : string := to_lower 0 s.

(** ** Endpoints *)

Definition ParseEndpoint (ep : string) : result (string * string) :=
  let lower := ToLower ep in
  if HasPrefix lower "unix://" || HasPrefix lower "tcp://" ||
     HasPrefix lower "tcp4://" || HasPrefix lower "tcp6://"
  then match SplitFirst ep "://" with
       | None => Panic "index out of range"
       | Some (s0, s1) =>
           if decide (s1 = "") then Err (Errorf "Invalid endpoint: %v" [ep])
           else Ok (s0, s1)
       end
  else Err (Errorf "Invalid endpoint: %v" [ep]).

(** ** TLS *)

(** The chains of verified certificates, by common name. *)
Definition chains := list (list string).

Section TLS.
Context {Cert Pool : Type}.
Context (LoadX509KeyPair : string → string → result Cert).
Context (ReadFile : string → result string).
Context (AppendCertsFromPEM : string → option Pool).

Record TLSConfig := MkTLSConfig {
  ServerName : string;
  VerifyPeerCertificate : chains → result ();
  Certificates : Cert;
  RootCAs : Pool;
  ClientCAs : Pool;
  RequireAndVerifyClientCert : bool
}.

Definition verify_peer (peerName : string) (verifiedChains : chains) : result () :=
  if decide (peerName = "") then Ok ()
  else match verifiedChains with
       | (commonName :: _) :: _ =>
           if decide (commonName = peerName) then Ok ()
           else Err (Errorf "expected CN %q, got %q" [peerName; commonName])
       | _ => Err (ErrorNew "no valid certificate")
       end.

Definition key_base (key : string) : string :=
  if HasSuffix key ".key" || HasSuffix key ".crt"
  then String.substring 0 (String.length key - 4) key else key.

Definition LoadTLSConfig (caFile key peerName : string) : result TLSConfig :=
  let base := key_base key in
  let crtFile := base +:+ ".crt" in
  let keyFile := base +:+ ".key" in
  match LoadX509KeyPair crtFile keyFile with
  | Err e => Err (Wrap e (Sprintf "load X509 key pair for key=%q" [key]))
  | Panic w => Panic w
  | Ok certificate =>
      match ReadFile caFile with
      | Err e => Err (Wrap e "read CA cert")
      | Panic w => Panic w
      | Ok bs =>
          match AppendCertsFromPEM bs with
          | None => Err (Errorf "failed to append certs from %q" [caFile])
          | Some certPool =>
              Ok (MkTLSConfig peerName (verify_peer peerName) certificate certPool certPool true)
          end
      end
  end.

(** [credentials.NewTLS] is a parameter. *)
Definition LoadTLS {Credentials} (NewTLS : TLSConfig → Credentials) (caFile key peerName : string) :
    result Credentials :=
  tlsConfig ← LoadTLSConfig caFile key peerName;
  mret (NewTLS tlsConfig).
End TLS.
Arguments TLSConfig : clear implicits.

(** ** Dial options *)

Inductive PayloadFormatter := CompletePayloadFormatter | StripSecretsFormatter | NullPayloadFormatter.

Inductive DialOption (Creds : Type) :=
| WithDialer
| WithUnaryInterceptor (f : PayloadFormatter)
| WithTransportCredentials (c : Creds)
| WithCodec
| WithBlock.
Arguments WithDialer {Creds}.
Arguments WithUnaryInterceptor {Creds} f.
Arguments WithTransportCredentials {Creds} c.
Arguments WithCodec {Creds}.
Arguments WithBlock {Creds}.

Definition ChooseDialOpts {Creds} (endpoint : string) (opts : list (DialOption Creds)) :
    list (DialOption Creds) :=
  let result := if HasPrefix endpoint "unix://" then [WithDialer] else [] in
  let opts := opts ++ [WithUnaryInterceptor StripSecretsFormatter] in
  result ++ opts.

(** The custom dialer for unix:// endpoints: [Dial] is [net.Dialer.DialContext]
    with a deadline. *)
Definition GRPCDialer {Conn} (Dial : string → string → result Conn) (endpoint : string) : result Conn :=
  '(network, address) ← ParseEndpoint endpoint;
  Dial network address.

(** ** Servers *)

Inductive ServerOption :=
| UnaryInterceptor (formatter : PayloadFormatter)
| Creds
| CustomCodec
| UnknownServiceHandler.

(** A gRPC server: its options and the services registered with it. *)
Record grpc_Server := MkGrpcServer {
  grpc_options : list ServerOption;
  grpc_services : list string
}.

Record NonBlockingGRPCServer := MkServer {
  Endpoint : string;
  ServerOptions : list ServerOption;
  server : option grpc_Server;
  addr : option string;
  (** The goroutine that runs [Serve] is counted in the wait group. *)
  serving : bool
}.

Section Server.
(** [os.Remove]: nothing, or an error and whether it says "does not exist". *)
Context (Remove : string → option (error * bool)).
(** [net.Listen]: the address of the listener. *)
Context (Listen : string → string → result string).

(** The address to listen on; an old Unix socket is removed. *)
Definition listen_address (proto addr : string) : result string :=
  if decide (proto = "unix") then
    let addr := "/" +:+ addr in
    match Remove addr with
    | Some (err, false) => Err (Wrap err "remove Unix socket")
    | Some (_, true) | None => Ok addr
    end
  else Ok addr.

Definition Start (s : NonBlockingGRPCServer) (services : list string) : result NonBlockingGRPCServer :=
  match ParseEndpoint (Endpoint s) with
  | Err e => Err (Wrap e "parse endpoint")
  | Panic w => Panic w
  | Ok (proto, addr) =>
      addr ← listen_address proto addr;
      listener ← Listen proto addr;
      let opts := [UnaryInterceptor CompletePayloadFormatter] ++ ServerOptions s in
      mret (MkServer (Endpoint s) (ServerOptions s) (Some (MkGrpcServer opts services))
              (Some listener) true)
  end.

(** [Wait] returns when [Serve] has returned. *)
Definition Wait (s : NonBlockingGRPCServer) : NonBlockingGRPCServer :=
  MkServer (Endpoint s) (ServerOptions s) (server s) None false.

Definition Addr (s : NonBlockingGRPCServer) : option string := addr s.

(** [Stop] and [ForceStop] call the gRPC server, which does not exist before [Start];
    what they return here is what they do to it. *)
Inductive stop_mode := GracefulStop | Stop_now.

Definition stop_with (mode : stop_mode) (s : NonBlockingGRPCServer) : result (grpc_Server * stop_mode) :=
  match server s with
  | None => Panic "nil pointer dereference: server"
  | Some g => Ok (g, mode)
  end.
Definition Stop (s : NonBlockingGRPCServer) := stop_with GracefulStop s.
Definition ForceStop (s : NonBlockingGRPCServer) := stop_with Stop_now s.

Definition Run (s : NonBlockingGRPCServer) (services : list string) : result NonBlockingGRPCServer :=
  s ← Start s services;
  mret (Wait s).
End Server.

(** ** Lower case and separators *)

Definition sep (c : ascii) : Prop := c = ":"%char ∨ c = "/"%char.

Lemma sep_not_cont c : sep c → c ≠ "176"%char ∧ c ≠ "132"%char ∧ c ≠ "170"%char.
Proof. intros [-> | ->]; done. Qed.

Lemma lower_byte_sep c d : sep d → lower_byte c = d ↔ c = d.
Proof.
  intros Hd. split; [|intros ->; by destruct Hd as [-> | ->]].
  unfold lower_byte. destruct (_ && _) eqn:E; [|done]. intros H. exfalso.
  apply andb_prop in E as [E1%Nat.leb_le E2%Nat.leb_le].
  apply (f_equal nat_of_ascii) in H. rewrite nat_ascii_embedding in H by lia.
  destruct Hd as [-> | ->];
    [change (nat_of_ascii ":") with 58%nat in H|change (nat_of_ascii "/") with 47%nat in H]; lia.
Qed.

(** A separator after a text does not change how its last rune is read. *)
Lemma lower_rune_sep c l d t :
  sep d →
  lower_rune c (l +:+ String d t) = lower_rune c l ∧
  (snd (lower_rune c l) ≤ String.length l)%nat.
Proof.
  intros Hd. destruct (sep_not_cont d Hd) as (H1 & H2 & H3).
  unfold lower_rune, HasPrefix. destruct l as [|b l]; simpl.
  - rewrite (bool_decide_false (d = _)) by done. rewrite (decide_False (P := "132"%char = d)) by done.
    repeat case_decide; simpl; try naive_solver lia.
  - destruct l as [|b' l]; simpl.
    + rewrite (decide_False (P := "170"%char = d)) by done.
      repeat case_decide; simpl; naive_solver lia.
    + split; [|repeat case_decide; simpl; lia].
      by destruct (decide ("132"%char = b)); [destruct (decide ("170"%char = b'))|].
Qed.

Lemma to_lower_sep k l d t :
  sep d → (k ≤ String.length l)%nat →
  to_lower k (l +:+ String d t) = to_lower k l +:+ String d (ToLower t).
Proof.
  intros Hd. revert k. induction l as [|c l IH]; intros k Hk; simpl in *.
  - replace k with O by lia. unfold lower_rune. 
    assert (d ≠ "196"%char ∧ d ≠ "226"%char) as [??] by (destruct Hd as [-> | ->]; done).
    rewrite !decide_False by naive_solver. f_equal. by apply lower_byte_sep.
  - destruct k as [|k]; [|by rewrite IH by lia].
    destruct (lower_rune_sep c l d t Hd) as [-> Hn].
    destruct (lower_rune c l) as [a n]; simpl in *. by rewrite IH.
Qed.

Lemma to_lower_sep_inv k s x d y :
  sep d → to_lower k s = x +:+ String d y →
  ∃ l t, s = l +:+ String d t ∧ (k ≤ String.length l)%nat ∧ to_lower k l = x ∧ ToLower t = y.
Proof.
  intros Hd. revert k x. induction s as [|c s IH]; intros k x.
  { simpl. by destruct x. }
  destruct k as [|k]; cbn [to_lower].
  - destruct (lower_rune c s) as [a n] eqn:Er. destruct x as [|a' x]; simpl; intros [= -> H].
    + unfold lower_rune in Er. repeat case_decide; simplify_eq; [by destruct Hd|by destruct Hd|].
      exists "", s. assert (c = lower_byte c) as <- by (by apply (lower_byte_sep c _ Hd)).
      split_and!; [done|simpl; lia|done..].
    + apply IH in H as (l & t & -> & Hn & <- & <-). exists (String c l), t.
      destruct (lower_rune_sep c l d t Hd) as [Heq _]. rewrite Heq in Er. simpl. rewrite Er.
      split_and!; [done|lia|done..].
  - intros H. apply IH in H as (l & t & -> & Hk & <- & <-).
    exists (String c l), t. split_and!; [done|simpl; lia|done..].
Qed.

Definition css : string := "://".

Lemma ToLower_css l r : ToLower (l +:+ css +:+ r) = ToLower l +:+ css +:+ ToLower r.
Proof.
  unfold css, ToLower. simpl. by rewrite to_lower_sep by (by left || lia).
Qed.

Lemma ToLower_css_inv s x y :
  ToLower s = x +:+ css +:+ y → ∃ l r, s = l +:+ css +:+ r ∧ ToLower l = x ∧ ToLower r = y.
Proof.
  unfold css. simpl. intros H. apply to_lower_sep_inv in H as (l & t & -> & _ & <- & H); [|by left].
  apply (to_lower_sep_inv 0 t "") in H as (l1 & t1 & -> & _ & Hl1 & H); [|by right].
  apply (to_lower_sep_inv 0 t1 "") in H as (l2 & t2 & -> & _ & Hl2 & H); [|by right].
  assert (∀ l, to_lower 0 l = "" → l = "") as Hnil.
  { intros [|c l']; [done|]. simpl. by destruct (lower_rune c l'). }
  apply Hnil in Hl1 as ->. apply Hnil in Hl2 as ->. by exists l, t2.
Qed.

(** No separator in the scheme: the first "://" is the one after it. *)
Lemma SplitFirst_scheme l r :
  string_all (λ c, negb (bool_decide (c = ":"%char))) l = true →
  SplitFirst (l +:+ css +:+ r) css = Some (l, r).
Proof.
  induction l as [|c l IH]; intros Hl; [done|].
  simpl in Hl. apply andb_prop in Hl as [Hc Hl]. rewrite str_app_cons. cbn [SplitFirst].
  assert (CutPrefix css (String c (l +:+ css +:+ r)) = None) as ->.
  { simpl. rewrite decide_False; [done|]. intros <-. by rewrite bool_decide_true in Hc. }
  by rewrite (IH Hl).
Qed.

Lemma ToLower_no_colon l :
  string_all (λ c, negb (bool_decide (c = ":"%char))) (ToLower l) = true →
  string_all (λ c, negb (bool_decide (c = ":"%char))) l = true.
Proof.
  intros H. destruct (string_all _ l) eqn:E; [done|exfalso].
  assert (∃ a b, l = a +:+ String ":" b) as (a & b & ->).
  { clear H. induction l as [|c l IH]; simpl in E; [done|].
    destruct (decide (c = ":"%char)) as [->|Hc]; [by exists "", l|].
    rewrite bool_decide_false in E by done. destruct (IH E) as (a & b & ->). by exists (String c a), b. }
  unfold ToLower in H. rewrite to_lower_sep in H by (by left || lia).
  rewrite string_all_app in H. simpl in H. by rewrite andb_false_r in H.
Qed.

Definition schemes : list string := ["unix"; "tcp"; "tcp4"; "tcp6"].

Lemma scheme_prefix s :
  HasPrefix s "unix://" || HasPrefix s "tcp://" || HasPrefix s "tcp4://" || HasPrefix s "tcp6://" = true
  ↔ ∃ x y, x ∈ schemes ∧ s = x +:+ css +:+ y.
Proof.
  rewrite !orb_true_iff, !HasPrefix_spec. unfold schemes. split.
  - intros [[[[r ->]|[r ->]]|[r ->]]|[r ->]];
      [exists "unix", r|exists "tcp", r|exists "tcp4", r|exists "tcp6", r]; (split; [|done]);
      rewrite !elem_of_cons; tauto.
  - intros (x & y & Hx & ->). rewrite !elem_of_cons in Hx. destruct_or!; subst; try by eauto 6.
    by apply not_elem_of_nil in Hx.
Qed.

Lemma ParseEndpoint_scheme net a :
  ToLower net ∈ schemes →
  ParseEndpoint (net +:+ css +:+ a) =
    if decide (a = "") then Err (Errorf "Invalid endpoint: %v" [net +:+ css +:+ a]) else Ok (net, a).
Proof.
  intros Hnet. unfold ParseEndpoint.
  rewrite (proj2 (scheme_prefix (ToLower (net +:+ css +:+ a))))
    by (exists (ToLower net), (ToLower a); split; [done|apply ToLower_css]).
  change "://" with css. rewrite SplitFirst_scheme; [done|]. apply ToLower_no_colon.
  unfold schemes in Hnet. rewrite !elem_of_cons in Hnet. destruct_or!; try by rewrite Hnet.
  by apply not_elem_of_nil in Hnet.
Qed.

(** ** Properties *)

(** C40. The exact language of [ParseEndpoint]: it accepts "<network>://<address>"
    with a non-empty address where the network is unix, tcp, tcp4 or tcp6 in any
    case, and it returns the two parts as written (not in lower case), cut at the
    first "://".  It never indexes out of range. *)
Theorem ParseEndpoint_language ep :
  (∀ net a, ParseEndpoint ep = Ok (net, a) ↔
     ep = net +:+ "://" +:+ a ∧ a ≠ "" ∧ ToLower net ∈ schemes) ∧
  panics (ParseEndpoint ep) = false.
Proof.
  destruct (HasPrefix (ToLower ep) "unix://" || HasPrefix (ToLower ep) "tcp://" ||
    HasPrefix (ToLower ep) "tcp4://" || HasPrefix (ToLower ep) "tcp6://") eqn:E.
  - apply scheme_prefix in E as (x & y & Hx & (l & r & -> & <- & <-)%ToLower_css_inv).
    rewrite ParseEndpoint_scheme by done. split; [|by case_decide].
    intros net a. split.
    + case_decide; [done|]. by intros [= <- <-].
    + intros (Heq & Ha & Hnet). pose proof (ParseEndpoint_scheme net a Hnet) as H1.
      pose proof (ParseEndpoint_scheme l r Hx) as H2. change css with "://" in *.
      rewrite <-Heq, H2, (decide_False (P := a = "")) in H1 by done. done.
  - unfold ParseEndpoint. rewrite E. split; [|done]. intros net a. split; [done|].
    intros (-> & Ha & Hnet). rewrite <-not_true_iff_false in E. destruct E.
    apply scheme_prefix. exists (ToLower net), (ToLower a). split; [done|]. apply ToLower_css.
Qed.

(** Mutual TLS as configured: whatever files are loaded, a configuration for a
    named peer accepts exactly the connections whose first verified certificate
    has that common name, and always demands a client certificate; without a
    name every peer with a certificate of the CA is accepted. *)
Theorem LoadTLSConfig_peer {Cert Pool} LoadX509KeyPair ReadFile AppendCertsFromPEM
    caFile key peerName (cfg : TLSConfig Cert Pool) (verifiedChains : chains) :
  LoadTLSConfig LoadX509KeyPair ReadFile AppendCertsFromPEM caFile key peerName = Ok cfg →
  ServerName cfg = peerName ∧ RequireAndVerifyClientCert cfg = true ∧
  (VerifyPeerCertificate cfg verifiedChains = Ok () ↔
     peerName = "" ∨ ∃ rest others, verifiedChains = (peerName :: rest) :: others).
Proof.
  unfold LoadTLSConfig. destruct (LoadX509KeyPair _ _); [|done..]. destruct (ReadFile caFile); [|done..].
  destruct (AppendCertsFromPEM _); [|done]. intros [= <-]. split_and!; [done..|]. simpl. unfold verify_peer.
  case_decide as Hp; [naive_solver|]. split.
  - destruct verifiedChains as [|[|cn rest] others]; [done..|]. case_decide; [|done]. subst. eauto.
  - intros [?|(rest & others & ->)]; [done|]. by rewrite decide_True.
Qed.

Lemma LoadTLSConfig_peer_witness :
  ∃ cfg : TLSConfig (string * string) string,
    LoadTLSConfig (λ crt key, Ok (crt, key)) (λ f, Ok f) Some "ca.crt" "_work/host.key" "component.registry" =
      Ok cfg ∧
    Certificates cfg = ("_work/host.crt", "_work/host.key") ∧
    (VerifyPeerCertificate cfg [["component.registry"; "CA"]] = Ok () ↔
       "component.registry" = "" ∨
       ∃ rest others, [["component.registry"; "CA"]] = ("component.registry" :: rest) :: others).
Proof.
  eexists. split; [vm_compute; reflexivity|]. split; [reflexivity|].
  refine (proj2 (proj2 (LoadTLSConfig_peer (λ crt key, Ok (crt, key)) (λ f, Ok f) Some
    "ca.crt" "_work/host.key" "component.registry" _ [["component.registry"; "CA"]] _))).
  vm_compute. reflexivity.
Defined.
