(* ===== verification/Registry.v ===== *)
(** * OIM registry: pkg/oim-registry (registry.go, memdb.go, tls.go)

    The registry keeps a key/value database behind the interface [RegistryDB]
    (a class with its laws; [memRegistryDB] is the instance the daemon uses),
    serves [SetValue] and [GetValues] with permission checks on the TLS peer,
    and decides in [Connect] where a proxied call goes.  Handlers pass the
    database explicitly. *)
From S2P Require Import Prelude GoStrings RegistryPath Messages GRPC.

(** ** The database interface *)

Class RegistryDB (DB : Type) := {
  Store : string → string → DB → DB;
  Lookup : string → DB → string;
  (** The callback gets a key, a value and the caller's variables; [false]
      ends the iteration. *)
  Foreach : ∀ S : Type, (string → string → S → S * bool) → DB → S → S
}.

(** Iteration over entries in a given order, until the callback returns false. *)
Fixpoint iterate {S} (callback : string → string → S → S * bool)
    (l : list (string * string)) (s : S) : S :=
  match l with
  | [] => s
  | (k, v) :: l' =>
      let '(s', more) := callback k v s in
      if more : bool then iterate callback l' s' else s'
  end.

Class RegistryDBLaws (DB : Type) `{RegistryDB DB} := {
  db_wf : DB → Prop;
  Store_wf db k v : db_wf db → db_wf (Store k v db);
  (** "Empty address removes the entry", "the empty string if not found". *)
  Lookup_Store db k v k' :
    db_wf db → Lookup k' (Store k v db) = if decide (k = k') then v else Lookup k' db;
  (** "Foreach iterates over all DB entries", in some order. *)
  Foreach_iterates db :
    db_wf db → ∃ l, NoDup l.*1 ∧ (∀ k v, (k, v) ∈ l ↔ v ≠ "" ∧ Lookup k db = v) ∧
      ∀ S cb (s : S), Foreach S cb db s = iterate cb l s
}.

(** [GetRegistryEntries]: all entries as a map. *)
Definition GetRegistryEntries {DB} `{RegistryDB DB} (db : DB) : gmap string string :=
  Foreach (gmap string string) (λ key value entries, (<[key:=value]> entries, true)) db ∅.

(** ** memdb.go *)

Module memdb.
(** Go iterates over a map in an unspecified order: a parameter. *)
Record memRegistryDB := MkMemDB {
  db : gmap string string;
  order : gmap string string → list (string * string)
}.

Definition NewMemRegistryDB (order : gmap string string → list (string * string)) :
    memRegistryDB := MkMemDB ∅ order.

Definition mem_Store (controllerID address : string) (m : memRegistryDB) : memRegistryDB :=
  if decide (address = "")
  then MkMemDB (delete controllerID (db m)) (order m)
  else MkMemDB (<[controllerID:=address]> (db m)) (order m).

Definition mem_Lookup (controllerID : string) (m : memRegistryDB) : string :=
  default "" (db m !! controllerID).

Definition mem_Foreach (S : Type) (callback : string → string → S → S * bool)
    (m : memRegistryDB) (s : S) : S :=
  iterate callback (order m (db m)) s.
End memdb.

#[export] Instance memdb_RegistryDB : RegistryDB memdb.memRegistryDB := {
  Store := memdb.mem_Store; Lookup := memdb.mem_Lookup; Foreach := memdb.mem_Foreach
}.

Definition mem_wf (m : memdb.memRegistryDB) : Prop :=
  (∀ k, memdb.db m !! k ≠ Some "") ∧
  (∀ d, memdb.order m d ≡ₚ map_to_list d).

(** ** The caller of a request *)

Inductive AuthInfo := TLSInfo (VerifiedChains : chains) | NoTLSInfo.

Record context := MkContext {
  ctx_peer : option AuthInfo;
  ctx_metadata : option (gmap string (list string))
}.

(** tls.go: a context as if the client had connected with this common name. *)
Definition RegistryClientContext (ctx : context) (client : string) : context :=
  MkContext (Some (TLSInfo [[client]])) (ctx_metadata ctx).

Definition getPeer (ctx : context) : result string :=
  match ctx_peer ctx with
  | None => Err (StatusError FailedPrecondition "cannot determine caller identity" [])
  | Some NoTLSInfo => Err (StatusError FailedPrecondition "no TLS info" [])
  | Some (TLSInfo ((commonName :: _) :: _)) => Ok commonName
  | Some (TLSInfo _) =>
      Err (StatusError FailedPrecondition "cannot determine peer, empty TLS verification chain" [])
  end.

(** ** Handlers *)

Section Handlers.
Context {DB : Type} `{RegistryDB DB}.

(** "admin can set anything, controller only '<controller ID>/address'" *)
Definition set_allowed (peer : string) (elements : list string) : bool :=
  bool_decide (peer = "user.admin") ||
  match elements with
  | [e0; e1] => bool_decide (peer = "controller." +:+ e0) && bool_decide (e1 = RegistryAddress)
  | _ => false
  end.

(** The checks of [SetValue] in order, and the entry to store. *)
Definition SetValue_check (ctx : context) (in_ : SetValueRequest) : result (string * string) :=
  match SetValue_Value in_ with
  | None => Err (ErrorNew "missing value")
  | Some value =>
      elements ← SplitRegistryPath (Path value);
      if decide (elements = []) then Err (ErrorNew "empty path")
      else
        let key := JoinRegistryPath elements in
        peer ← getPeer ctx;
        if set_allowed peer elements then mret (key, Value_ value)
        else Err (StatusError PermissionDenied "caller %q not allowed to set %q" [peer; key])
  end.

Definition SetValue (ctx : context) (in_ : SetValueRequest) (db : DB) : DB * result () :=
  match SetValue_check ctx in_ with
  | Ok (key, value) => (Store key value db, Ok ())
  | Err e => (db, Err e)
  | Panic w => (db, Panic w)
  end.

(** The test of the callback of [GetValues]. *)
Definition key_matches (prefix key : string) : bool :=
  bool_decide (prefix = "") ||
  HasPrefix key prefix &&
    (bool_decide (String.length key = String.length prefix) ||
     match String.get (String.length prefix) key with
     | Some c => bool_decide (c = slash)
     | None => false
     end).

Definition GetValues (ctx : context) (in_ : GetValuesRequest) (db : DB) : result GetValuesReply :=
  elements ← SplitRegistryPath (GetValues_Path in_);
  let prefix := JoinRegistryPath elements in
  _ ← getPeer ctx;
  mret (MkGetValuesReply
    (Foreach (list Value)
       (λ key value out,
          ((if key_matches prefix key then out ++ [MkValue key value] else out), true))
       db [])).

(** The connection that [Connect] asks for: [grpc.DialContext]'s arguments. *)
Record dial := MkDial {
  dial_address : string;
  dial_ServerName : string;
  dial_opts : list (DialOption string);
  dial_metadata : gmap string (list string)
}.

Definition Connect (ctx : context) (method : string) (db : DB) : result dial :=
  if HasPrefix method "/oim.v0.Registry/"
  then Err (StatusError Unimplemented "unknown method" [])
  else
    match ctx_metadata ctx with
    | None => Err (StatusError FailedPrecondition "missing metadata" [])
    | Some md =>
        match md !! "controllerid" with
        | Some [controllerID] =>
            peer ← getPeer ctx;
            let prefix := "host." in
            if negb (HasPrefix peer prefix) || negb (bool_decide (TrimPrefix peer prefix = controllerID))
            then Err (StatusError PermissionDenied
                        "caller %q not allowed to contact controller %q" [peer; controllerID])
            else
              let address := Lookup (controllerID +:+ "/" +:+ RegistryAddress) db in
              if decide (address = "")
              then Err (StatusError Unavailable "%s: no address registered" [controllerID])
              else
                let ServerName := "controller." +:+ controllerID in
                let opts := ChooseDialOpts address [WithCodec; WithTransportCredentials ServerName] in
                mret (MkDial address ServerName opts md)
        | _ => Err (StatusError FailedPrecondition "missing or invalid controllerid meta data" [])
        end
    end.

(** ** Histories *)

(** One request to the registry: who sent it, and what. *)
Record request := MkRequest { req_ctx : context; req_set : SetValueRequest }.

(** The states the database goes through: requests are served one at a time
    (every call of the database holds its mutex). *)
Inductive registry_run (db0 : DB) : list request → DB → Prop :=
| run_nil : registry_run db0 [] db0
| run_snoc h db rq db' r :
    registry_run db0 h db → SetValue (req_ctx rq) (req_set rq) db = (db', r) →
    registry_run db0 (h ++ [rq]) db'.

(** The value of a key after a history of requests: the last accepted write. *)
Definition last_write (h : list request) (k : string) : string :=
  foldl (λ acc rq, match SetValue_check (req_ctx rq) (req_set rq) with
                   | Ok (k', v) => if decide (k' = k) then v else acc
                   | _ => acc
                   end) "" h.

(** Every key with a value is the canonical text of its path. *)
Definition canonical_db (db : DB) : Prop := ∀ k, Lookup k db ≠ "" → canonical k.
End Handlers.

(** ** New *)

Section New.
Context {DB TLS : Type} `{RegistryDB DB}.

Record registry := MkRegistry { reg_db : DB; tlsConfig : option TLS }.

Definition Option_ := registry → result registry.
Definition DB_ (db : DB) : Option_ := λ r, Ok (MkRegistry db (tlsConfig r)).
Definition TLS_ (t : TLS) : Option_ := λ r, Ok (MkRegistry (reg_db r) (Some t)).

Fixpoint apply_options (options : list Option_) (r : registry) : result registry :=
  match options with
  | [] => Ok r
  | op :: options' => r' ← op r; apply_options options' r'
  end.

Definition New (default_db : DB) (options : list Option_) : result registry :=
  r ← apply_options options (MkRegistry default_db None);
  match tlsConfig r with
  | None => Err (ErrorNew "transport credentials missing")
  | Some _ => mret r
  end.

(** The server: registry calls are handled by this process, calls of unknown
    services go to the proxy. *)
Definition registry_Server (r : registry) (endpoint : string) : NonBlockingGRPCServer * string :=
  (MkServer endpoint [CustomCodec; UnknownServiceHandler; Creds] None None false, "oim.v0.Registry").
End New.

(** ** The in-memory database satisfies the interface *)

Lemma mem_Lookup_Store m k v k' :
  Lookup k' (Store k v m) = if decide (k = k') then v else Lookup k' m.
Proof.
  simpl. unfold memdb.mem_Store, memdb.mem_Lookup. case_decide as Hv; simpl.
  - rewrite lookup_delete. case_decide; by subst.
  - rewrite lookup_insert. case_decide; by subst.
Qed.

Lemma mem_Store_wf m k v : mem_wf m → mem_wf (Store k v m).
Proof.
  intros [H1 H2]. simpl. unfold memdb.mem_Store. case_decide as Hv; split; simpl; try done.
  - intros k'. rewrite lookup_delete. by case_decide.
  - intros k'. rewrite lookup_insert. case_decide; [congruence|done].
Qed.

#[export] Program Instance memdb_laws : RegistryDBLaws memdb.memRegistryDB := {
  db_wf := mem_wf
}.
Next Obligation. intros. by apply mem_Store_wf. Qed.
Next Obligation. intros. apply mem_Lookup_Store. Qed.
Next Obligation.
  intros m [H1 H2]. exists (memdb.order m (memdb.db m)). split_and!.
  - rewrite H2. apply NoDup_fst_map_to_list.
  - intros k v. rewrite H2, elem_of_map_to_list. simpl. unfold memdb.mem_Lookup. split.
    + intros Hk. split; [intros ->; by apply (H1 k)|]. by rewrite Hk.
    + destruct (memdb.db m !! k); naive_solver.
  - done.
Qed.

(** ** Lemmas on the checks *)

Lemma set_allowed_spec peer es :
  set_allowed peer es = true ↔
    peer = "user.admin" ∨ ∃ id, es = [id; RegistryAddress] ∧ peer = "controller." +:+ id.
Proof.
  unfold set_allowed. rewrite orb_true_iff, bool_decide_eq_true.
  destruct es as [|e0 [|e1 [|e2 es]]];
    try (split; [intros [?|?]; [by left|done]|intros [?|(? & ? & ?)]; [by left|done]]).
  rewrite andb_true_iff, !bool_decide_eq_true. split.
  - intros [?|[-> ->]]; [by left|right; by exists e0].
  - intros [?|(id & [= -> ->] & ->)]; [by left|by right].
Qed.

Lemma SetValue_check_Ok ctx in_ k v :
  SetValue_check ctx in_ = Ok (k, v) ↔
    ∃ path es peer, SetValue_Value in_ = Some (MkValue path v) ∧
      SplitRegistryPath path = Ok es ∧ es ≠ [] ∧ k = JoinRegistryPath es ∧
      getPeer ctx = Ok peer ∧ set_allowed peer es = true.
Proof.
  unfold SetValue_check. destruct (SetValue_Value in_) as [[path v']|];
    [|split; [done|by intros (? & ? & ? & ? & _)]].
  simpl. rewrite result_bind_Ok. split.
  - intros (es & Hes & H). case_decide; [done|]. apply result_bind_Ok in H as (peer & Hp & H).
    destruct (set_allowed peer es) eqn:Ha; [|done]. injection H as <- <-.
    by exists path, es, peer.
  - intros (path' & es & peer & [= -> ->] & Hes & Hne & -> & Hp & Ha). exists es. split; [done|].
    rewrite decide_False by done. apply result_bind_Ok. exists peer. by rewrite Ha.
Qed.

Lemma key_matches_spec prefix key :
  key_matches prefix key = true ↔
    prefix = "" ∨ key = prefix ∨ ∃ r, key = prefix +:+ String slash r.
Proof.
  unfold key_matches. rewrite orb_true_iff, andb_true_iff, orb_true_iff, HasPrefix_spec, !bool_decide_eq_true.
  assert (∀ p c r, String.get (String.length p) (p +:+ String c r) = Some c) as Hget.
  { intros p c r. induction p; simpl; done. }
  split.
  - intros [?|[[r ->] Hr]]; [by left|right]. destruct r as [|c r]; [left; by rewrite str_app_nil_r|].
    destruct Hr as [Hl|Hc]; [rewrite str_length_app in Hl; simpl in Hl; lia|].
    rewrite Hget, bool_decide_eq_true in Hc. subst. right. by exists r.
  - intros [?|[->|[r ->]]]; [by left|right..].
    + split; [exists ""; by rewrite str_app_nil_r|by left].
    + split; [by eexists|right]. rewrite Hget. by apply bool_decide_eq_true.
Qed.

Lemma Join_app es es' :
  es ≠ [] → es' ≠ [] →
  JoinRegistryPath (es ++ es') = JoinRegistryPath es +:+ String slash (JoinRegistryPath es').
Proof.
  intros Hes Hes'. unfold JoinRegistryPath. induction es as [|e [|e' es] IH]; [done| |].
  - by destruct es'.
  - change ((e :: e' :: es) ++ es') with (e :: (e' :: es) ++ es').
    cbn [Join app] in *. rewrite IH by done. by rewrite <-!str_app_assoc.
Qed.

(** On canonical keys the textual test is the prefix order of paths. *)
Lemma key_matches_path es ks :
  Forall wf_element es → Forall wf_element ks →
  key_matches (JoinRegistryPath es) (JoinRegistryPath ks) = true ↔ ∃ es', ks = es ++ es'.
Proof.
  intros Hes Hks. rewrite key_matches_spec. split.
  - intros [H|[H|[r H]]].
    + apply JoinRegistryPath_nil in H as ->; [|done]. by exists ks.
    + apply JoinRegistryPath_inj in H as ->; [|done..]. exists []. by rewrite app_nil_r.
    + exists (FieldsFunc r is_slash). apply SplitRegistryPath_Join in Hks, Hes.
      apply SplitRegistryPath_Ok in Hks as [-> _], Hes as [Hes _]. rewrite H.
      rewrite FieldsFunc_sep by done. by rewrite <-Hes.
  - intros [es' ->]. destruct (decide (es = [])) as [->|]; [by left|right].
    destruct (decide (es' = [])) as [->|]; [left; by rewrite app_nil_r|right].
    rewrite Join_app by done. eauto.
Qed.

(** ** Iteration *)

Lemma iterate_collect (P : string → bool) (l : list (string * string)) (out : list Value) :
  iterate (λ k v (out : list Value), ((if P k then out ++ [MkValue k v] else out), true)) l out =
    out ++ ((λ '(k, v), MkValue k v) <$> filter (λ '(k, v), P k = true) l).
Proof.
  revert out. induction l as [|[k v] l IH]; intros out; simpl; [by rewrite app_nil_r|].
  rewrite IH. rewrite filter_cons. destruct (decide _) as [Hd|Hd]; simpl.
  - rewrite Hd. by rewrite <-(assoc (++)).
  - by destruct (P k).
Qed.

Section Facts.
Context {DB : Type} {RDB : RegistryDB DB} {RDBL : RegistryDBLaws DB}.

Lemma SetValue_Ok ctx in_ db db' r :
  SetValue ctx in_ db = (db', r) →
  (∃ k v, SetValue_check ctx in_ = Ok (k, v) ∧ r = Ok () ∧ db' = Store k v db) ∨
  ((∀ k v, SetValue_check ctx in_ ≠ Ok (k, v)) ∧ r ≠ Ok () ∧ db' = db).
Proof.
  unfold SetValue. destruct (SetValue_check ctx in_) as [[k v]| |] eqn:E; intros [= <- <-].
  - left. eauto.
  - right. by split_and!.
  - right. by split_and!.
Qed.

Lemma getPeer_never_panics ctx : panics (getPeer ctx) = false.
Proof. unfold getPeer. destruct (ctx_peer ctx) as [[[|[|]]|]|]; done. Qed.

Lemma SetValue_check_canonical ctx in_ k v :
  SetValue_check ctx in_ = Ok (k, v) → canonical k.
Proof. intros (path & es & peer & _ & ? & ? & -> & _)%SetValue_check_Ok. eauto with oim. Qed.

Lemma registry_run_wf db0 h db : db_wf db0 → registry_run db0 h db → db_wf db.
Proof.
  intros Hdb0. induction 1 as [|h db1 rq db' r _ IH Hset]; [done|].
  apply SetValue_Ok in Hset as [(k & v & _ & _ & ->)|(_ & _ & ->)]; [by apply Store_wf|done].
Qed.

Lemma registry_run_last_write db0 h db :
  db_wf db0 → (∀ k, Lookup k db0 = "") → registry_run db0 h db →
  ∀ k, Lookup k db = last_write h k.
Proof.
  intros Hwf Hempty Hrun k. induction Hrun as [|h db1 rq db' r Hrun IH Hset]; [done|].
  unfold last_write. rewrite foldl_app. simpl. fold (last_write h k).
  apply SetValue_Ok in Hset as [(k' & v & Hc & _ & ->)|(Hc & _ & ->)].
  - rewrite Hc. rewrite Lookup_Store by (by eapply registry_run_wf). by rewrite IH.
  - rewrite IH. destruct (SetValue_check _ _) as [[k' v]| |] eqn:E; [|done..].
    by destruct (Hc k' v).
Qed.

Lemma last_write_in h k :
  last_write h k ≠ "" → ∃ rq, rq ∈ h ∧ SetValue_check (req_ctx rq) (req_set rq) = Ok (k, last_write h k).
Proof.
  induction h as [|rq h IH] using rev_ind; [done|].
  unfold last_write. rewrite foldl_app. simpl. fold (last_write h k).
  destruct (SetValue_check (req_ctx rq) (req_set rq)) as [[k' v]| |] eqn:E.
  - case_decide; [subst|]; intros Hne.
    + exists rq. split; [apply elem_of_app; right; by left|done].
    + destruct (IH Hne) as (rq' & ? & ?). exists rq'. split; [apply elem_of_app; by left|done].
  - intros Hne. destruct (IH Hne) as (rq' & ? & ?). exists rq'. split; [apply elem_of_app; by left|done].
  - intros Hne. destruct (IH Hne) as (rq' & ? & ?). exists rq'. split; [apply elem_of_app; by left|done].
Qed.

Lemma Connect_Ok ctx method (db : DB) d :
  Connect ctx method db = Ok d ↔
    HasPrefix method "/oim.v0.Registry/" = false ∧
    ∃ md id, ctx_metadata ctx = Some md ∧ md !! "controllerid" = Some [id] ∧
      getPeer ctx = Ok ("host." +:+ id) ∧ Lookup (id +:+ "/" +:+ RegistryAddress) db ≠ "" ∧
      d = MkDial (Lookup (id +:+ "/" +:+ RegistryAddress) db) ("controller." +:+ id)
            (ChooseDialOpts (Lookup (id +:+ "/" +:+ RegistryAddress) db)
               [WithCodec; WithTransportCredentials ("controller." +:+ id)]) md.
Proof.
  unfold Connect. destruct (HasPrefix method _); [naive_solver|].
  destruct (ctx_metadata ctx) as [md|]; [|naive_solver].
  destruct (md !! "controllerid") as [[|id [|id' ids]]|] eqn:Hmd; try naive_solver.
  simpl. rewrite result_bind_Ok. split.
  - intros (peer & Hp & H). destruct (negb _ || negb _) eqn:E; [done|].
    apply orb_false_elim in E as [E1%negb_false_iff E2%negb_false_iff].
    apply HasPrefix_spec in E1 as [r ->]. rewrite TrimPrefix_app, bool_decide_eq_true in E2. subst r.
    case_decide; [done|]. injection H as <-. split; [done|]. by exists md, id.
  - intros (_ & md' & id' & [= <-] & Hid & Hp & Hl & ->). rewrite Hmd in Hid. injection Hid as ->.
    exists ("host." +:+ id'). split; [done|]. rewrite HasPrefix_app, TrimPrefix_app.
    rewrite bool_decide_true by done. simpl. by rewrite decide_False.
Qed.


Lemma registry_run_canonical db0 h db :
  db_wf db0 → (∀ k, Lookup k db0 = "") → registry_run db0 h db → canonical_db db.
Proof.
  intros Hwf Hempty Hrun k Hk. rewrite (registry_run_last_write db0 h) in Hk by done.
  apply last_write_in in Hk as (rq & _ & Hc). by eapply SetValue_check_canonical.
Qed.

(** ** Properties *)

(** C4. Authority over registry entries: whatever request arrives, an entry can
    only change if the request is accepted, the changed key is in canonical form,
    and the TLS peer is either the administrator or the controller whose own
    "<id>/address" entry it is. *)
Theorem SetValue_authority ctx in_ (db db' : DB) r k :
  db_wf db → SetValue ctx in_ db = (db', r) → Lookup k db' ≠ Lookup k db →
  r = Ok () ∧ canonical k ∧ ∃ peer, getPeer ctx = Ok peer ∧
    (peer = "user.admin" ∨
     ∃ id, wf_element id ∧ peer = "controller." +:+ id ∧ k = id +:+ "/" +:+ RegistryAddress).
Proof.
  intros Hwf [(k' & v & Hc & -> & ->)|(_ & _ & ->)]%SetValue_Ok Hk; [|done].
  rewrite Lookup_Store in Hk by done. case_decide as Hkk; [subst k'|done]. split; [done|].
  split; [by eapply SetValue_check_canonical|].
  apply SetValue_check_Ok in Hc as (path & es & peer & _ & Hes & _ & -> & Hp & Ha).
  exists peer. split; [done|]. apply set_allowed_spec in Ha as [->|(id & -> & ->)]; [by left|right].
  exists id. split; [|done]. apply SplitRegistryPath_wf in Hes. by apply Forall_cons in Hes as [? _].
Qed.


Lemma GetValues_run ctx in_ (db : DB) es peer :
  db_wf db → canonical_db db →
  SplitRegistryPath (GetValues_Path in_) = Ok es → getPeer ctx = Ok peer →
  ∃ vs, GetValues ctx in_ db = Ok (MkGetValuesReply vs) ∧ NoDup (Path <$> vs) ∧
    ∀ k v, MkValue k v ∈ vs ↔
      v ≠ "" ∧ Lookup k db = v ∧ ∃ es', Forall wf_element es' ∧ k = JoinRegistryPath (es ++ es').
Proof.
  intros Hwf Hcan Hes Hp. destruct (Foreach_iterates db Hwf) as (l & Hnd & Hl & Hit).
  exists ((λ '(k, v), MkValue k v) <$> filter (λ '(k, v), key_matches (JoinRegistryPath es) k = true) l).
  pose proof (SplitRegistryPath_wf _ _ Hes) as Hwfes. split_and!.
  - unfold GetValues. rewrite Hes; simpl. rewrite Hp; simpl. by rewrite Hit, iterate_collect.
  - rewrite <-list_fmap_compose, (list_fmap_ext _ fst) by (by intros ? [? ?]).
    by apply NoDup_fst_filter.
  - intros k v. rewrite list_elem_of_fmap. split.
    + intros ([k' v'] & [= <- <-] & [Hm Hin]%list_elem_of_filter). apply Hl in Hin as [Hv Hk].
      split_and!; [done..|]. assert (Lookup k db ≠ "") as (ks & _ & Hks & ->)%Hcan by congruence.
      apply key_matches_path in Hm as [es' ->]; [|done..]. exists es'. split; [|done].
      by apply Forall_app in Hks as [_ ?].
    + intros (Hv & Hk & es' & Hes' & ->). exists (JoinRegistryPath (es ++ es'), v). split; [done|].
      apply list_elem_of_filter. split; [|by apply Hl].
      apply key_matches_path; [done|by apply Forall_app|eauto].
Qed.

(** C14. [GetValues] is exact: for a valid path and an identified peer it returns,
    without duplicates, precisely the entries whose path has the requested path
    as a prefix element by element (so "foo" matches "foo/pci" but not
    "foobar/pci"), in any iteration order of the database. *)
Theorem GetValues_exact ctx in_ (db : DB) es peer :
  db_wf db → canonical_db db →
  SplitRegistryPath (GetValues_Path in_) = Ok es → getPeer ctx = Ok peer →
  ∃ vs, GetValues ctx in_ db = Ok (MkGetValuesReply vs) ∧ NoDup (Path <$> vs) ∧
    ∀ k v, MkValue k v ∈ vs ↔
      v ≠ "" ∧ Lookup k db = v ∧ ∃ es', Forall wf_element es' ∧ k = JoinRegistryPath (es ++ es').
Proof. apply GetValues_run. Qed.

(** C5. Proxied calls are authenticated end to end: after any history of an
    initially empty registry, [Connect] opens a connection only for a caller
    whose common name is "host.<id>" for the one controller ID in its metadata,
    it asks the server for the name "controller.<id>", and the address it dials
    was written under "<id>/address" by the administrator or by that controller.
    Methods of the registry service itself are never forwarded. *)
Theorem Connect_secure (db0 : DB) h db ctx method d :
  db_wf db0 → (∀ k, Lookup k db0 = "") → registry_run db0 h db →
  Connect ctx method db = Ok d →
  HasPrefix method "/oim.v0.Registry/" = false ∧
  ∃ id, getPeer ctx = Ok ("host." +:+ id) ∧
    dial_metadata d !! "controllerid" = Some [id] ∧
    dial_ServerName d = "controller." +:+ id ∧
    WithTransportCredentials ("controller." +:+ id) ∈ dial_opts d ∧
    ∃ rq peer, rq ∈ h ∧ getPeer (req_ctx rq) = Ok peer ∧
      (peer = "user.admin" ∨ peer = "controller." +:+ id) ∧
      SetValue_check (req_ctx rq) (req_set rq) = Ok (id +:+ "/" +:+ RegistryAddress, dial_address d).
Proof.
  intros Hwf Hempty Hrun (Hm & md & id & _ & Hid & Hp & Hl & ->)%Connect_Ok. split; [done|].
  exists id. split_and!; [done..| |].
  { simpl. unfold ChooseDialOpts. apply elem_of_app. right. simpl. right. by left. }
  rewrite (registry_run_last_write db0 h) in Hl |- * by done. simpl.
  apply last_write_in in Hl as (rq & Hin & Hc). pose proof Hc as Hc'.
  apply SetValue_check_Ok in Hc as (path & es & peer & _ & Hes & _ & Hk & Hpr & Ha).
  exists rq, peer. split_and!; [done..| |done].
  apply set_allowed_spec in Ha as [->|(id' & -> & ->)]; [by left|right].
  change (JoinRegistryPath [id'; RegistryAddress]) with (id' +:+ "/" +:+ RegistryAddress) in Hk.
  by rewrite (str_app_cancel_r id id' _ Hk).
Qed.

End Facts.

(** ** Concrete runs *)

Module example.
Definition db0 := memdb.NewMemRegistryDB map_to_list.
Definition from (client : string) : context :=
  RegistryClientContext (MkContext None (Some {["controllerid" := ["foo"]]})) client.
Definition set (k v : string) : SetValueRequest := MkSetValueRequest (Some (MkValue k v)).
Definition rq1 := MkRequest (from "controller.foo") (set "/foo//address/" "tcp://a:1").
Definition rq2 := MkRequest (from "user.admin") (set "foobar/pci" "00:03.0").
Definition rq3 := MkRequest (from "controller.foo") (set "foobar/address" "tcp://evil:1").
Definition db1 := fst (SetValue (req_ctx rq1) (req_set rq1) db0).
Definition db2 := fst (SetValue (req_ctx rq2) (req_set rq2) db1).
End example.

Lemma example_wf : db_wf example.db0.
Proof. by split. Qed.

Lemma example_run : registry_run example.db0 [example.rq1; example.rq2; example.rq3] example.db2.
Proof.
  apply (run_snoc _ [_; _] example.db2 example.rq3 example.db2
    (Err (StatusError PermissionDenied "caller %q not allowed to set %q"
       ["controller.foo"; "foobar/address"]))); [|vm_compute; reflexivity].
  apply (run_snoc _ [_] example.db1 example.rq2 _ (Ok ())); [|vm_compute; reflexivity].
  apply (run_snoc _ [] example.db0 example.rq1 _ (Ok ())); [|vm_compute; reflexivity].
  constructor.
Qed.

Lemma example_wf2 : db_wf example.db2.
Proof. eapply registry_run_wf; [apply example_wf|apply example_run]. Qed.

Lemma SetValue_authority_witness :
  Ok () = Ok () ∧ canonical "foo/address" ∧
  ∃ peer, getPeer (req_ctx example.rq1) = Ok peer ∧
    (peer = "user.admin" ∨
     ∃ id, wf_element id ∧ peer = "controller." +:+ id ∧
       "foo/address" = id +:+ "/" +:+ RegistryAddress).
Proof.
  apply (SetValue_authority (req_ctx example.rq1) (req_set example.rq1) example.db0 example.db1).
  - apply example_wf.
  - vm_compute. reflexivity.
  - vm_compute. discriminate.
Defined.


Lemma GetValues_exact_witness :
  ∃ vs, GetValues (example.from "host.foo") (MkGetValuesRequest "foo/") example.db2 =
      Ok (MkGetValuesReply vs) ∧ NoDup (Path <$> vs) ∧
    ∀ k v, MkValue k v ∈ vs ↔
      v ≠ "" ∧ Lookup k example.db2 = v ∧
      ∃ es', Forall wf_element es' ∧ k = JoinRegistryPath (["foo"] ++ es').
Proof.
  apply (GetValues_exact _ _ _ ["foo"] "host.foo").
  - apply example_wf2.
  - eapply registry_run_canonical; [apply example_wf|done|apply example_run].
  - vm_compute. reflexivity.
  - reflexivity.
Defined.

Lemma Connect_secure_witness :
  ∃ d, Connect (example.from "host.foo") "/oim.v0.Controller/MapVolume" example.db2 = Ok d ∧
    HasPrefix "/oim.v0.Controller/MapVolume" "/oim.v0.Registry/" = false ∧
    ∃ id, getPeer (example.from "host.foo") = Ok ("host." +:+ id) ∧
      dial_metadata d !! "controllerid" = Some [id] ∧
      dial_ServerName d = "controller." +:+ id ∧
      WithTransportCredentials ("controller." +:+ id) ∈ dial_opts d ∧
      ∃ rq peer, rq ∈ [example.rq1; example.rq2; example.rq3] ∧ getPeer (req_ctx rq) = Ok peer ∧
        (peer = "user.admin" ∨ peer = "controller." +:+ id) ∧
        SetValue_check (req_ctx rq) (req_set rq) =
          Ok (id +:+ "/" +:+ RegistryAddress, dial_address d).
Proof.
  eexists. split; [vm_compute; reflexivity|].
  eapply (Connect_secure example.db0 _ example.db2 (example.from "host.foo"));
    [apply example_wf|done|apply example_run|vm_compute; reflexivity].
Defined.
