(* ===== verification/Slices.v ===== *)
(** * Go slices that share their backing arrays

    A slice refers to a backing array, of which it covers the first [s_len] of
    [s_cap] elements.  [append] stores the new element in the backing array when
    there is room for it, so that other slices of the same array see it, and moves
    to a new array otherwise.  How large the new array is depends on the Go
    run-time: [growcap] is the new capacity for a full slice, of which only
    [growcap_grows] is promised.

    [append_elems] says what the new slice holds, [append_keeps] which elements of
    other slices stay as they are, [append_overwrites] that one element of every
    other slice does not that extends further into the same array. *)
From S2P Require Import Prelude.

Class GoRuntime := {
  growcap : nat → nat;
  growcap_grows c : (c < growcap c)%nat
}.

Section Slices.
Context {A : Type} {zero : Inhabited A} {rt : GoRuntime}.

(** The backing arrays, by address, each as long as its capacity. *)
Local Abbreviation memory := (list (list A)).

Record slice := MkSlice { s_array : nat; s_len : nat; s_cap : nat }.

Definition nil_slice : slice := MkSlice 0 0 0.

Definition elems (m : memory) (s : slice) : list A :=
  take (s_len s) (default [] (m !! s_array s)).

Definition append (m : memory) (s : slice) (x : A) : memory * slice :=
  if decide (s_len s < s_cap s)%nat
  then (alter (λ a, <[s_len s := x]> a) (s_array s) m,
        MkSlice (s_array s) (S (s_len s)) (s_cap s))
  else
    let c := growcap (s_cap s) in
    (m ++ [elems m s ++ x :: replicate (c - S (s_len s)) inhabitant],
     MkSlice (length m) (S (s_len s)) c).

Fixpoint append_all (m : memory) (s : slice) (l : list A) : memory * slice :=
  match l with
  | [] => (m, s)
  | x :: l' => let '(m', s') := append m s x in append_all m' s' l'
  end.

Definition valid (m : memory) (s : slice) : Prop :=
  (s_len s ≤ s_cap s)%nat ∧
  (s_cap s = O ∨ ∃ a, m !! s_array s = Some a ∧ length a = s_cap s).

(** Slice [t] goes on in the array of [s] where [s] ends, and [s] has room. *)
Definition shares (s t : slice) : Prop :=
  s_array t = s_array s ∧ (s_len s < s_len t)%nat ∧ (s_len s < s_cap s)%nat.

#[global] Instance shares_dec s t : Decision (shares s t).
Proof. apply _. Defined.

Lemma valid_nil m : valid m nil_slice.
Proof. split; [done|by left]. Qed.

Lemma elems_nil m : elems m nil_slice = [].
Proof. done. Qed.

Lemma elems_length m s : valid m s → length (elems m s) = s_len s.
Proof.
  unfold elems. intros [Hle [Hc|(a & -> & Ha)]]; rewrite length_take; simpl; lia.
Qed.

Lemma valid_array m s : valid m s → s_len s ≠ O → (s_array s < length m)%nat.
Proof. intros [Hle [Hc|(a & Ha & _)]] Hl; [lia|]. by eapply lookup_lt_Some. Qed.

(** A slice keeps its elements where the array keeps them. *)
Lemma elems_lookup m t i : (i < s_len t)%nat → elems m t !! i = default [] (m !! s_array t) !! i.
Proof. intros. unfold elems. by rewrite lookup_take_lt. Qed.

Lemma append_valid m s x t : valid m t → valid (append m s x).1 t.
Proof.
  intros [Hle Ht]. split; [done|]. destruct Ht as [Hc|(a & Ha & Hlen)]; [by left|right].
  unfold append. case_decide; cbn [fst snd].
  - destruct (decide (s_array t = s_array s)) as [He|Hne].
    + exists (<[s_len s := x]> a). rewrite He in Ha |- *.
      rewrite list_lookup_alter_eq, Ha. by rewrite length_insert.
    + exists a. by rewrite list_lookup_alter_ne by done.
  - exists a. split; [by apply lookup_app_l_Some|done].
Qed.

Lemma append_valid_new m s x : valid m s → valid (append m s x).1 (append m s x).2.
Proof.
  intros Hs. pose proof (elems_length m s Hs) as Hlen. destruct (append_valid m s x s Hs) as [_ Hv].
  unfold append in *. case_decide as Hd; cbn [fst snd] in *; (split; simpl; [|]).
  - lia.
  - destruct Hv; [lia|by right].
  - destruct Hs as [? _]. pose proof (growcap_grows (s_cap s)). lia.
  - right. eexists. split; [by apply list_lookup_middle|].
    rewrite length_app. simpl. rewrite length_replicate, Hlen.
    destruct Hs as [? _]. pose proof (growcap_grows (s_cap s)). lia.
Qed.

(** The new slice. *)
Lemma append_elems m s x :
  valid m s → elems (append m s x).1 (append m s x).2 = elems m s ++ [x].
Proof.
  intros Hs. pose proof (elems_length m s Hs) as Hlen. unfold append. case_decide as Hd; cbn [fst snd].
  - destruct Hs as [_ [?|(a & Ha & Hcap)]]; [lia|]. unfold elems. simpl.
    rewrite list_lookup_alter_eq, Ha. simpl. rewrite (take_S_r _ _ x).
    + by rewrite take_insert_ge by lia.
    + apply list_lookup_insert_eq. lia.
  - unfold elems at 1. simpl. rewrite list_lookup_middle by done. simpl.
    rewrite cons_middle, app_assoc. rewrite take_app_le by (rewrite length_app, Hlen; simpl; lia).
    apply take_ge. rewrite length_app, Hlen. simpl. lia.
Qed.

(** Other slices. *)
Lemma append_keeps m s x t i :
  valid m t → (i < s_len t)%nat → s_array t ≠ s_array s ∨ i ≠ s_len s ∨ (s_cap s ≤ s_len s)%nat →
  elems (append m s x).1 t !! i = elems m t !! i.
Proof.
  intros Ht Hi Hor. rewrite !elems_lookup by done. unfold append. case_decide as Hd; cbn [fst snd].
  - destruct (decide (s_array t = s_array s)) as [He|Hne].
    + rewrite He, list_lookup_alter_eq. destruct (m !! s_array s) as [a|]; [|done]. simpl.
      apply list_lookup_insert_ne. destruct Hor as [?|[?|?]]; [done|lia|lia].
    + by rewrite list_lookup_alter_ne by done.
  - rewrite lookup_app_l; [done|]. apply valid_array; [done|lia].
Qed.

Lemma append_frame m s x t :
  valid m t → ¬ shares s t → elems (append m s x).1 t = elems m t.
Proof.
  intros Ht Hs. apply list_eq_same_length with (n := s_len t).
  - by apply elems_length.
  - by apply elems_length, append_valid.
  - intros i y z Hi Hy Hz. rewrite append_keeps in Hy; [congruence|done|done|].
    destruct (decide (s_array t = s_array s)); [|by left].
    destruct (decide (i = s_len s)) as [->|]; [|by right; left].
    right. right. unfold shares in Hs. lia.
Qed.

Lemma append_overwrites m s x t :
  valid m s → valid m t → shares s t → elems (append m s x).1 t !! s_len s = Some x.
Proof.
  intros [_ Hs] Ht (He & Hlt & Hroom). rewrite elems_lookup by done. unfold append.
  rewrite decide_True by done. cbn [fst]. rewrite He, list_lookup_alter_eq.
  destruct Hs as [?|(a & -> & Ha)]; [lia|]. apply list_lookup_insert_eq. lia.
Qed.

(** After an [append] the slice shares no more than before. *)
Lemma append_shares m s x t : valid m t → ¬ shares s t → ¬ shares (append m s x).2 t.
Proof.
  intros Ht Hs. unfold append. case_decide as Hd; simpl; unfold shares in *; simpl; [lia|].
  intros (Ha & Hlt & _). pose proof (valid_array m t Ht). lia.
Qed.

(** The element that was overwritten is not overwritten again. *)
Lemma append_later m s x t : valid m s → valid m t →
  ((s_len s < s_len (append m s x).2)%nat ∧
   (s_array t = s_array (append m s x).2 → s_len t ≠ O → s_array t = s_array s)).
Proof.
  intros Hs Ht. unfold append. case_decide; simpl; [lia|]. split; [lia|].
  intros Ha Hl. pose proof (valid_array m t Ht Hl). lia.
Qed.

(** ** Several elements *)

Lemma append_all_valid m s l t : valid m t → valid (append_all m s l).1 t.
Proof.
  revert m s. induction l as [|x l IH]; intros m s Ht; [done|]. simpl.
  pose proof (append_valid m s x t Ht). destruct (append m s x). by apply IH.
Qed.

Lemma append_all_elems m s l : valid m s →
  valid (append_all m s l).1 (append_all m s l).2 ∧
  elems (append_all m s l).1 (append_all m s l).2 = elems m s ++ l.
Proof.
  revert m s. induction l as [|x l IH]; intros m s Hs; simpl; [by rewrite app_nil_r|].
  pose proof (append_valid_new m s x Hs) as Hv. pose proof (append_elems m s x Hs) as He.
  destruct (append m s x) as [m' s']. simpl in *. destruct (IH m' s' Hv) as [Hv' He'].
  split; [done|]. rewrite He', He. by rewrite <-app_assoc.
Qed.

Lemma append_all_frame m s l t :
  valid m t → ¬ shares s t → elems (append_all m s l).1 t = elems m t.
Proof.
  revert m s. induction l as [|x l IH]; intros m s Ht Hs; simpl; [done|].
  pose proof (append_valid m s x t Ht) as Hv. pose proof (append_frame m s x t Ht Hs) as He.
  pose proof (append_shares m s x t Ht Hs) as Hn. destruct (append m s x) as [m' s']. simpl in *.
  by rewrite IH.
Qed.

Lemma append_all_keeps m s l t i :
  valid m s → valid m t → (i < s_len t)%nat → (i < s_len s)%nat →
  elems (append_all m s l).1 t !! i = elems m t !! i.
Proof.
  revert m s. induction l as [|x l IH]; intros m s Hs Ht Hi Hlt; simpl; [done|].
  pose proof (append_valid m s x t Ht) as Hv. pose proof (append_valid_new m s x Hs) as Hv'.
  assert (elems (append m s x).1 t !! i = elems m t !! i) as He by (apply append_keeps; [done|done|lia]).
  destruct (append_later m s x t Hs Ht) as [Hgt _].
  destruct (append m s x) as [m' s']. simpl in *. rewrite IH; [done..|lia].
Qed.

Lemma append_all_overwrites m s x l t :
  valid m s → valid m t → shares s t → elems (append_all m s (x :: l)).1 t !! s_len s = Some x.
Proof.
  intros Hs Ht Hst. simpl. pose proof (append_overwrites m s x t Hs Ht Hst) as Ho.
  pose proof (append_valid m s x t Ht) as Hv. pose proof (append_valid_new m s x Hs) as Hv'.
  destruct (append_later m s x t Hs Ht) as [Hgt _]. destruct Hst as (_ & Hlt & _).
  destruct (append m s x) as [m' s']. simpl in *. rewrite append_all_keeps; done || lia.
Qed.
End Slices.

Abbreviation memory A := (list (list A)).

(** What the Go run-time does for small slices: it doubles them. *)
Definition double (c : nat) : nat := match c with O => 1 | _ => 2 * c end.

Lemma double_grows c : (c < double c)%nat.
Proof. destruct c; simpl; lia. Qed.

Definition doubling : GoRuntime := {| growcap := double; growcap_grows := double_grows |}.
