(* ===== verification/Level.v ===== *)
(** * Severities: pkg/log/level/level.go

    A [Threshold] is a Go int; only the six named ones have a name.
    [Set_exact] says which texts [Set] accepts, in particular every name in
    any mix of upper and lower case. *)
From S2P Require Import Prelude GoStrings.

(** ** Upper case

    [strings.ToUpper] maps the ASCII letters; the only other runes whose upper
    case is ASCII are U+0131 (bytes C4 B1, to "I") and U+017F (bytes C5 BF, to
    "S").  Bytes of other runes are kept: the code only compares the result with
    ASCII text. *)

Definition upper_byte (c : ascii) : ascii :=
  let n := nat_of_ascii c in
  if (97 <=? n)%nat && (n <=? 122)%nat then ascii_of_nat (n - 32) else c.

Definition upper_rune (c : ascii) (s : string) : ascii * nat :=
  if decide (c = "196"%char ∧ starts_with (λ a, bool_decide (a = "177"%char)) s = true)
  then ("I"%char, 1%nat)
  else if decide (c = "197"%char ∧ starts_with (λ a, bool_decide (a = "191"%char)) s = true)
  then ("S"%char, 1%nat)
  else (upper_byte c, 0%nat).

(** [skip] bytes belong to the rune read last. *)
Fixpoint to_upper (skip : nat) (s : string) : string :=
  match s, skip with
  | EmptyString, _ => ""
  | String _ s', S skip' => to_upper skip' s'
  | String c s', O => let '(u, n) := upper_rune c s' in String u (to_upper n s')
  end.

Definition ToUpper (s : string) : string := to_upper 0 s.

(** ** Thresholds *)

Definition Threshold := Z.

Module level.
Definition Debug : Threshold := 0.
Definition Info : Threshold := 1.
Definition Warn : Threshold := 2.
Definition Error : Threshold := 3.
Definition Fatal : Threshold := 4.
Definition Panic : Threshold := 5.
Definition Min : Threshold := Debug.
Definition Max : Threshold := Panic.
End level.

Definition prefixes : list string := ["DEBUG"; "INFO"; "WARN"; "ERROR"; "FATAL"; "PANIC"].

(** The index expression [prefixes[t]]. *)
Definition Threshold_String (t : Threshold) : result string :=
  if decide (t < 0) then Panic "index out of range"
  else match prefixes !! Z.to_nat t with
       | Some name => Ok name
       | None => Panic "index out of range"
       end.

(** [for i := level.Min; i <= level.Max; i++], with the new value of the threshold. *)
Fixpoint set_loop (upper : string) (l : list Threshold) : result (option Threshold) :=
  match l with
  | [] => Ok None
  | i :: l' =>
      Threshold_String i ≫= λ name,
      if decide (upper = name) then Ok (Some i) else set_loop upper l'
  end.

Definition thresholds : list Threshold := seqZ level.Min (level.Max - level.Min + 1).

Definition Threshold_Set (value : string) (t : Threshold) : Threshold * result () :=
  match set_loop (ToUpper value) thresholds with
  | Ok (Some i) => (i, Ok ())
  | Ok None => (t, Err (Errorf "invalid threshold: %s" [value]))
  | Err e => (t, Err e)
  | Panic why => (t, Panic why)
  end.

(** ** What Set accepts *)

Lemma elem_of_thresholds t : t ∈ thresholds ↔ level.Min ≤ t ≤ level.Max.
Proof. unfold thresholds. rewrite elem_of_seqZ. unfold level.Min, level.Max, level.Debug, level.Panic. lia. Qed.

Lemma Threshold_String_ok t : level.Min ≤ t ≤ level.Max → ∃ name, Threshold_String t = Ok name.
Proof.
  rewrite <-elem_of_thresholds. cbn. intros Ht.
  repeat (apply elem_of_cons in Ht as [->|Ht]; [eexists; reflexivity|]). by apply not_elem_of_nil in Ht.
Qed.

Lemma Threshold_String_inj t t' name :
  Threshold_String t = Ok name → Threshold_String t' = Ok name → t = t'.
Proof.
  unfold Threshold_String. case_decide; [done|]. case_decide; [done|]. intros Ht Ht'.
  destruct (prefixes !! Z.to_nat t) eqn:E; simplify_eq. destruct (prefixes !! Z.to_nat t') eqn:E'; simplify_eq.
  assert (NoDup prefixes) as Hnd by (by apply (bool_decide_unpack _); vm_compute).
  apply (NoDup_lookup prefixes _ _ _ Hnd E) in E'. lia.
Qed.

Lemma set_loop_ok upper l :
  (∀ i, i ∈ l → level.Min ≤ i ≤ level.Max) →
  match set_loop upper l with
  | Ok (Some i) => i ∈ l ∧ Threshold_String i = Ok upper
  | Ok None => ∀ i, i ∈ l → Threshold_String i ≠ Ok upper
  | _ => False
  end.
Proof.
  induction l as [|i l IH]; simpl; [by intros _ i ?%not_elem_of_nil|]. intros Hl.
  destruct (Threshold_String_ok i) as [name Hname]; [apply Hl; left|]. rewrite Hname. simpl.
  case_decide; [subst; split; [by left|done]|].
  assert (∀ i, i ∈ l → level.Min ≤ i ≤ level.Max) as Hl' by (intros j Hj; apply Hl; by right).
  specialize (IH Hl'). destruct (set_loop upper l) as [[j|]| |]; [|..|done|done].
  - destruct IH. split; [by right|done].
  - intros j [->|Hj]%elem_of_cons; [congruence|by apply IH].
Qed.

(** [Set] accepts exactly the names of the severities, without regard to case,
    and is inverse to [String]: it stores the threshold whose name the text is; any
    other text is refused, leaves the threshold as it was and never panics. *)
Theorem Set_exact value t :
  (∀ i, Threshold_Set value t = (i, Ok ()) ↔ level.Min ≤ i ≤ level.Max ∧ Threshold_String i = Ok (ToUpper value)) ∧
  ((∀ i, level.Min ≤ i ≤ level.Max → Threshold_String i ≠ Ok (ToUpper value)) →
   Threshold_Set value t = (t, Err (Errorf "invalid threshold: %s" [value]))).
Proof.
  pose proof (set_loop_ok (ToUpper value) thresholds (λ i, proj1 (elem_of_thresholds i))) as H.
  unfold Threshold_Set. destruct (set_loop _ _) as [[j|]| |]; [| |done|done].
  - destruct H as [Hj%elem_of_thresholds Hname]. split; [|by intros Hno; destruct (Hno j)].
    intros i. split; [by intros [= ->]|]. intros [_ Hi]. by rewrite (Threshold_String_inj i j (ToUpper value)).
  - split; [|done]. intros i. split; [done|]. intros [Hi Hname]. by destruct (H i (proj2 (elem_of_thresholds i) Hi)).
Qed.

Lemma Set_exact_witness : Threshold_Set "wArN" level.Debug = (level.Warn, Ok ()) ∧ Threshold_Set "trace" level.Info = (level.Info, Err (Errorf "invalid threshold: %s" ["trace"])).
Proof.
  split.
  - by apply (proj2 (proj1 (Set_exact "wArN" level.Debug) level.Warn)).
  - apply (proj2 (Set_exact "trace" level.Info)). intros i Hi. apply elem_of_thresholds in Hi.
    revert i Hi. by apply Forall_forall; repeat constructor.
Defined.
