(* ===== verification/Log.v ===== *)
(** * Structured logging: pkg/log

    Fields (fields.go), the text format (formatter.go), the simple logger
    (simple.go), the base of loggers (helper.go) and the global logger with its
    place in contexts (log.go).  [Logger] is the Go interface of the same name.

    A logger keeps its fields in a slice, and slices share memory (Slices.v): the
    state of the program has all backing arrays.  A call of a logger returns or
    ends the program, the goroutine or the normal control flow ([ending]). *)
From S2P Require Import Prelude GoStrings Strconv Errors Slices Level.

(** ** Operands of package fmt *)

(** The dynamic values that are logged: [AStringer] is a value with a method
    String, of which only the text matters. *)
Inductive any :=
| ANil
| AString (s : string)
| ABytes (b : string)
| AInt (z : Z)
| AError (e : error)
| AStringer (text : string).

#[global] Instance any_inhabited : Inhabited any := populate ANil.
#[global] Instance any_eq_dec : EqDecision any.
Proof. solve_decision. Defined.

(** The verb [%s]. *)
Definition fmt_s (a : any) : string :=
  match a with
  | ANil => "%!s(<nil>)"
  | AString s | ABytes s | AStringer s => s
  | AInt z => "%!s(int=" +:+ Itoa z +:+ ")"
  | AError e => Errors.Error e
  end.

Fixpoint bytes_list (b : string) : list string :=
  match b with
  | EmptyString => []
  | String c b' => Itoa (Z.of_nat (nat_of_ascii c)) :: bytes_list b'
  end.

(** The verb [%v], which is also what Print functions use. *)
Definition fmt_v (a : any) : string :=
  match a with
  | ANil => "<nil>"
  | AInt z => Itoa z
  | ABytes b => "[" +:+ Join (bytes_list b) " " +:+ "]"
  | _ => fmt_s a
  end.

Definition fmt_verb (v : ascii) (a : any) : string :=
  if decide (v = "v"%char) then fmt_v a
  else if decide (v = "q"%char) then String "034" (fmt_s a +:+ String "034" "")
  else fmt_s a.

(** [fmt.Sprintf] with the verbs that are in use with loggers, [%s], [%v] and
    [%q] (of texts without characters that need escaping), and as many operands
    as verbs. *)
Fixpoint Sprintf (format : string) (args : list any) : string :=
  match format with
  | EmptyString => ""
  | String "%" (String v rest) =>
      match args with
      | a :: args' => fmt_verb v a +:+ Sprintf rest args'
      | [] => "%!" +:+ String v ("(MISSING)" +:+ Sprintf rest [])
      end
  | String c rest => String c (Sprintf rest args)
  end.

Definition isString (a : any) : bool := match a with AString _ => true | _ => false end.

(** [fmt.Sprint]: a space between operands of which neither is a string. *)
Fixpoint sprint_rest (prevString : bool) (args : list any) : string :=
  match args with
  | [] => ""
  | a :: args' =>
      (if negb (isString a) && negb prevString then " " else "") +:+ fmt_v a +:+ sprint_rest (isString a) args'
  end.

Definition Sprint (args : list any) : string :=
  match args with
  | [] => ""
  | a :: args' => fmt_v a +:+ sprint_rest (isString a) args'
  end.

(** ** Fields *)

Record Field := MkField { Key : any; Value : any }.
#[global] Instance Field_inhabited : Inhabited Field := populate (MkField ANil ANil).
#[global] Instance Field_eq_dec : EqDecision Field.
Proof. solve_decision. Defined.

Definition Field_String (f : Field) : string := Sprintf "%s=%s" [Key f; Value f].

(** The loop [for i := 0; i+1 < len(keysAndValues); i += 2]: a last key without a
    value is dropped. *)
Fixpoint pairs (keysAndValues : list any) : list Field :=
  match keysAndValues with
  | k :: v :: rest => MkField k v :: pairs rest
  | _ => []
  end.

Fixpoint strip_newlines (rev_s : list ascii) : list ascii :=
  match rev_s with
  | c :: rest => if decide (c = "010"%char) then strip_newlines rest else rev_s
  | [] => []
  end.

Definition LineBuffer_String (s : string) : string :=
  String.string_of_list_ascii (rev (strip_newlines (rev (String.list_ascii_of_string s)))).

Definition LineBuffer (s : string) : any := AStringer (LineBuffer_String s).

Section Memory.
Context {rt : GoRuntime}.

Definition Clone (m : memory Field) (f : slice) (keysAndValues : list any) : memory Field * slice :=
  append_all m f (pairs keysAndValues).

(** ** The text format *)

(** What the loop over the fields collects. *)
Record sorted_fields := MkSorted {
  sf_time : string; sf_level : string; sf_at : list string; sf_additional : list (string * string)
}.

Definition sort_field (s : sorted_fields) (f : Field) : sorted_fields :=
  let key := Sprintf "%s" [Key f] in
  let value := Sprintf "%s" [Value f] in
  if decide (key = "time") then MkSorted value (sf_level s) (sf_at s) (sf_additional s)
  else if decide (key = "at") then MkSorted (sf_time s) (sf_level s) (sf_at s ++ [value]) (sf_additional s)
  else if decide (key = "level") then MkSorted (sf_time s) value (sf_at s) (sf_additional s)
  else MkSorted (sf_time s) (sf_level s) (sf_at s) (sf_additional s ++ [(key, value)]).

Definition assemble (s : sorted_fields) (msg : string) : string :=
  let l := if decide (sf_time s = "") then [] else [sf_time s] in
  let l := l ++ [sf_level s] in
  let l := if decide (sf_at s = []) then l else l ++ [Join (sf_at s) "/" +:+ ":"] in
  let l := if decide (msg = "") then l
           else (l ++ [msg]) ++ (if decide (sf_additional s = []) then [] else ["|"]) in
  let l := l ++ flat_map (λ kv : string * string, [kv.1 +:+ ":"; kv.2]) (sf_additional s) in
  Join l " " +:+ String "010" "".

Definition Printw (m : memory Field) (threshold : Threshold) (fields : slice) (msg : string)
    (keysAndValues : list any) : memory Field * result string :=
  let '(m', all) := Clone m fields keysAndValues in
  (m', Threshold_String threshold ≫= λ level,
       mret (assemble (foldl sort_field (MkSorted "" level [] []) (elems m' all)) msg)).

Definition Print_ (m : memory Field) (threshold : Threshold) (fields : slice) (args : list any) :=
  Printw m threshold fields (Sprint args) [].

Definition Printf (m : memory Field) (threshold : Threshold) (fields : slice) (format : string) (args : list any) :=
  Printw m threshold fields (Sprintf format args) [].
End Memory.

(** ** Loggers *)

(** An [io.Writer] is known by a number; the state has what was written. *)
Record SimpleConfig := MkSimpleConfig { Level : Threshold; Output_ : nat }.

(** The base pointers of a [simpleLogger] always point to its own methods, and its
    formatter has no state. *)
Record simpleLogger := MkSimpleLogger { config : SimpleConfig; fields : slice }.

Definition newSimpleLogger (c : SimpleConfig) : simpleLogger := MkSimpleLogger c nil_slice.
Definition NewSimpleLogger (c : SimpleConfig) : simpleLogger := newSimpleLogger c.

(** How a call does not return: [os.Exit], a panic, or the end of the goroutine. *)
Inductive ending := Exit (status : Z) | Panicking (why : string) | Goexit.

Section Loggers.
(** [L] is the type of the values of interface type Logger, [W] the state of the
    rest of the program. *)
Context {rt : GoRuntime} {L W : Type}.

Record lstate := MkLState {
  l_mem : memory Field;             (* backing arrays of fields *)
  l_written : list (nat * string);  (* calls of Write, by writer *)
  l_tests : list (nat * string);    (* calls of testing.T.Log, by test *)
  l_logger : L;                     (* the global variable [logger] *)
  l_std : option L * option Z;      (* output and flags of Go's package log, if set *)
  l_world : W
}.

Definition LM (A : Type) : Type := lstate → lstate * (A + ending).
#[global] Instance LM_ret : MRet LM := λ A a s, (s, inl a).
#[global] Instance LM_bind : MBind LM := λ A B f p s,
  match p s with
  | (s', inl a) => f a s'
  | (s', inr e) => (s', inr e)
  end.

Definition ends {A} (e : ending) : LM A := λ s, (s, inr e).
Definition set_mem (m : memory Field) (s : lstate) : lstate :=
  MkLState m (l_written s) (l_tests s) (l_logger s) (l_std s) (l_world s).
Definition set_logger (l : L) (s : lstate) : lstate :=
  MkLState (l_mem s) (l_written s) (l_tests s) l (l_std s) (l_world s).
Definition write (writer : nat) (line : string) : LM () := λ s,
  (MkLState (l_mem s) (l_written s ++ [(writer, line)]) (l_tests s) (l_logger s) (l_std s) (l_world s), inl ()).

Definition set_std (std : option L * option Z) : LM () := λ s,
  (MkLState (l_mem s) (l_written s) (l_tests s) (l_logger s) std (l_world s), inl ()).

(** A call of the formatter. *)
Definition formatted (f : memory Field → memory Field * result string) : LM string := λ s,
  let '(m, r) := f (l_mem s) in
  (set_mem m s, match r with Ok line => inl line | Err e => inr (Panicking (Errors.Error e)) | Panic why => inr (Panicking why) end).

Definition cloned (f : slice) (keysAndValues : list any) : LM slice := λ s,
  let '(m, f') := Clone (l_mem s) f keysAndValues in (set_mem m s, inl f').

(** *** The interface *)

Class Logger (T : Type) := {
  Logger_Debug : T → list any → LM ();
  Logger_Debugf : T → string → list any → LM ();
  Logger_Debugw : T → string → list any → LM ();
  Logger_Info : T → list any → LM ();
  Logger_Infof : T → string → list any → LM ();
  Logger_Infow : T → string → list any → LM ();
  Logger_Warn : T → list any → LM ();
  Logger_Warnf : T → string → list any → LM ();
  Logger_Warnw : T → string → list any → LM ();
  Logger_Error : T → list any → LM ();
  Logger_Errorf : T → string → list any → LM ();
  Logger_Errorw : T → string → list any → LM ();
  Logger_Fatal : T → list any → LM ();
  Logger_Fatalf : T → string → list any → LM ();
  Logger_Fatalw : T → string → list any → LM ();
  Logger_Panic : T → list any → LM ();
  Logger_Panicf : T → string → list any → LM ();
  Logger_Panicw : T → string → list any → LM ();
  Logger_Output : T → Threshold → list any → LM ();
  Logger_Outputf : T → Threshold → string → list any → LM ();
  Logger_Outputw : T → Threshold → string → list any → LM ();
  Logger_With : T → list any → LM T
}.

(** *** The base of loggers *)

Record LoggerBase := MkLoggerBase {
  lb_Print : Threshold → list any → LM ();
  lb_Printf : Threshold → string → list any → LM ();
  lb_Printw : Threshold → string → list any → LM ()
}.

(** [Init], for the three output functions of a logger. *)
Definition Init (Output : Threshold → list any → LM ())
    (Outputf Outputw : Threshold → string → list any → LM ()) : LoggerBase :=
  MkLoggerBase Output Outputf Outputw.

Definition Debug (lb : LoggerBase) (args : list any) := lb_Print lb level.Debug args.
Definition Debugf (lb : LoggerBase) (format : string) (args : list any) := lb_Printf lb level.Debug format args.
Definition Debugw (lb : LoggerBase) (msg : string) (keysAndValues : list any) := lb_Printw lb level.Debug msg keysAndValues.
Definition Info (lb : LoggerBase) (args : list any) := lb_Print lb level.Info args.
Definition Infof (lb : LoggerBase) (format : string) (args : list any) := lb_Printf lb level.Info format args.
Definition Infow (lb : LoggerBase) (msg : string) (keysAndValues : list any) := lb_Printw lb level.Info msg keysAndValues.
Definition Warn (lb : LoggerBase) (args : list any) := lb_Print lb level.Warn args.
Definition Warnf (lb : LoggerBase) (format : string) (args : list any) := lb_Printf lb level.Warn format args.
Definition Warnw (lb : LoggerBase) (msg : string) (keysAndValues : list any) := lb_Printw lb level.Warn msg keysAndValues.
Definition Error_ (lb : LoggerBase) (args : list any) := lb_Print lb level.Error args.
Definition Errorf_ (lb : LoggerBase) (format : string) (args : list any) := lb_Printf lb level.Error format args.
Definition Errorw (lb : LoggerBase) (msg : string) (keysAndValues : list any) := lb_Printw lb level.Error msg keysAndValues.
Definition Fatal (lb : LoggerBase) (args : list any) := lb_Print lb level.Fatal args.
Definition Fatalf (lb : LoggerBase) (format : string) (args : list any) := lb_Printf lb level.Fatal format args.
Definition Fatalw (lb : LoggerBase) (msg : string) (keysAndValues : list any) := lb_Printw lb level.Fatal msg keysAndValues.
Definition Panic_ (lb : LoggerBase) (args : list any) := lb_Print lb level.Panic args.
Definition Panicf (lb : LoggerBase) (format : string) (args : list any) := lb_Printf lb level.Panic format args.
Definition Panicw (lb : LoggerBase) (msg : string) (keysAndValues : list any) := lb_Printw lb level.Panic msg keysAndValues.

(** *** The simple logger *)

Definition checkThreshold (threshold : Threshold) : LM () :=
  if decide (threshold = level.Fatal) then ends (Exit 1)
  else if decide (threshold = level.Panic) then ends (Panicking "fatal error")
  else mret ().

Definition Output (sl : simpleLogger) (threshold : Threshold) (args : list any) : LM () :=
  (if decide (threshold >= Level (config sl))
   then formatted (λ m, Print_ m threshold (fields sl) args) ≫= write (Output_ (config sl))
   else mret ()) ≫= λ _, checkThreshold threshold.

Definition Outputf (sl : simpleLogger) (threshold : Threshold) (format : string) (args : list any) : LM () :=
  (if decide (threshold >= Level (config sl))
   then formatted (λ m, Printf m threshold (fields sl) format args) ≫= write (Output_ (config sl))
   else mret ()) ≫= λ _, checkThreshold threshold.

Definition Outputw (sl : simpleLogger) (threshold : Threshold) (msg : string) (keysAndValues : list any) : LM () :=
  (if decide (threshold >= Level (config sl))
   then formatted (λ m, Printw m threshold (fields sl) msg keysAndValues) ≫= write (Output_ (config sl))
   else mret ()) ≫= λ _, checkThreshold threshold.

Definition With (sl : simpleLogger) (keysAndValues : list any) : LM simpleLogger :=
  let logger := newSimpleLogger (config sl) in
  cloned (fields sl) keysAndValues ≫= λ f, mret (MkSimpleLogger (config logger) f).

(** Each call of [Write] is one message; it returns the number of bytes. *)
Definition Write_ (sl : simpleLogger) (p : string) : LM Z :=
  Output sl level.Info [LineBuffer p] ≫= λ _, mret (Z.of_nat (String.length p)).

Definition simple_base (sl : simpleLogger) : LoggerBase := Init (Output sl) (Outputf sl) (Outputw sl).

#[global] Instance simpleLogger_Logger : Logger simpleLogger := {|
  Logger_Debug sl := Debug (simple_base sl); Logger_Debugf sl := Debugf (simple_base sl);
  Logger_Debugw sl := Debugw (simple_base sl);
  Logger_Info sl := Info (simple_base sl); Logger_Infof sl := Infof (simple_base sl);
  Logger_Infow sl := Infow (simple_base sl);
  Logger_Warn sl := Warn (simple_base sl); Logger_Warnf sl := Warnf (simple_base sl);
  Logger_Warnw sl := Warnw (simple_base sl);
  Logger_Error sl := Error_ (simple_base sl); Logger_Errorf sl := Errorf_ (simple_base sl);
  Logger_Errorw sl := Errorw (simple_base sl);
  Logger_Fatal sl := Fatal (simple_base sl); Logger_Fatalf sl := Fatalf (simple_base sl);
  Logger_Fatalw sl := Fatalw (simple_base sl);
  Logger_Panic sl := Panic_ (simple_base sl); Logger_Panicf sl := Panicf (simple_base sl);
  Logger_Panicw sl := Panicw (simple_base sl);
  Logger_Output := Output; Logger_Outputf := Outputf; Logger_Outputw := Outputw;
  Logger_With := With
|}.

(** *** The global logger and contexts *)

(** [L_] and [Set_] take the mutex only for the access to the variable, so each is
    one atomic step. *)
Definition L_ : LM L := λ s, (s, inl (l_logger s)).
Definition Set_ (l : L) : LM () := λ s, (set_logger l s, inl ()).

(** [simple] is the conversion of a [simpleLogger] to the interface type. *)
Definition default_logger (simple : simpleLogger → L) (stdout : nat) : L :=
  simple (NewSimpleLogger (MkSimpleConfig level.Warn stdout)).

Definition SetOutput (simple : simpleLogger → L) (writer : nat) : LM () :=
  let l := newSimpleLogger (MkSimpleConfig level.Min writer) in
  Set_ (simple l) ≫= λ _, set_std (Some (simple l), Some 0).

(** A context: values are looked up from the innermost one; only the key of this
    package matters here. *)
Inductive Context_ :=
| Background
| WithValue (parent : Context_) (logKey : bool) (v : option L).

Fixpoint ctx_logger (ctx : Context_) : option L :=
  match ctx with
  | Background => None
  | WithValue parent logKey v => if logKey then v else ctx_logger parent
  end.

Definition FromContext (ctx : Context_) : LM L :=
  match ctx_logger ctx with Some l => mret l | None => L_ end.

Definition FromContextFallback (ctx : Context_) (fallback : L) : L :=
  match ctx_logger ctx with Some l => l | None => fallback end.

Definition WithLogger (ctx : Context_) (logger : L) : Context_ := WithValue ctx true (Some logger).

Definition With_ctx {LL : Logger L} (ctx : Context_) (keysAndValues : list any) : LM Context_ :=
  FromContext ctx ≫= λ l, Logger_With l keysAndValues ≫= λ l, mret (WithValue ctx true (Some l)).
End Loggers.

Arguments lstate : clear implicits.
Arguments LM : clear implicits.
Arguments Context_ : clear implicits.
Arguments Logger : clear implicits.

(** ** Command line flags *)

(** The flags of the program by name, with their usage; the value of the flag is
    the variable [logLevel]. *)
Definition logLevelName : string := "log.level".

(** The loop over the names of all levels. *)
Definition valid_names : result (list string) :=
  foldr (λ i r, Threshold_String i ≫= λ n, r ≫= λ l, Ok (n :: l)) (Ok []) thresholds.

(** What [%s] prints for a level: package fmt catches the panic of its String. *)
Definition level_text (t : Threshold) : string :=
  match Threshold_String t with
  | Ok name => name
  | Err e => Errors.Error e
  | Panic why => "%!s(PANIC=runtime error: " +:+ why +:+ ")"
  end.

Definition InitSimpleFlags (logLevel : Threshold) (flags : gmap string string) : result (gmap string string * bool) :=
  match flags !! logLevelName with
  | Some _ => Ok (flags, true)
  | None =>
      valid_names ≫= λ valid,
      Ok (<[logLevelName :=
             Sprintf "log messages at this or a higher level are printed (default: %s, valid: %s)"
               [AString (level_text logLevel); AString (Join valid "/")]]> flags, true)
  end.

Definition NewSimpleConfig (logLevel : Threshold) (logOutput : nat) : SimpleConfig :=
  MkSimpleConfig logLevel logOutput.
