(* ===== verification/LogFacts.v ===== *)
(** * What loggers write: theorems about pkg/log

    [sort_fields_spec] describes the sorting of fields, [Outputw_spec] the line
    that a message becomes and what a call does besides, [With_spec] the fields of
    the new logger and exactly which other loggers keep theirs.
    [siblings_share_fields] is a concrete run in which they do not. *)
From S2P Require Import Prelude GoStrings Strconv Errors Slices Level Log.

(** ** The text of a line *)

Definition texts (fs : list Field) : list (string * string) :=
  (λ f, (fmt_s (Key f), fmt_s (Value f))) <$> fs.

Definition values (key : string) (kvs : list (string * string)) : list string :=
  (filter (λ kv, kv.1 = key) kvs).*2.

Definition special (key : string) : Prop := key ∈ ["time"; "at"; "level"].

(** The line for a message: the last time and the last level win, all places are
    kept in their order, and so is everything else. *)
Definition render (level : string) (fs : list Field) (msg : string) : string :=
  assemble
    (MkSorted (default "" (last (values "time" (texts fs))))
              (default level (last (values "level" (texts fs))))
              (values "at" (texts fs))
              (filter (λ kv, ¬ special kv.1) (texts fs))) msg.

Lemma values_app key kvs kvs' : values key (kvs ++ kvs') = values key kvs ++ values key kvs'.
Proof. unfold values. by rewrite filter_app, fmap_app. Qed.

Lemma values_one key k v : values key [(k, v)] = if decide (k = key) then [v] else [].
Proof. unfold values. rewrite filter_cons, filter_nil. simpl. by case_decide. Qed.

Lemma Sprintf_s a : Log.Sprintf "%s" [a] = fmt_s a.
Proof. simpl. unfold fmt_verb. rewrite !decide_False by done. apply str_app_nil_r. Qed.

Lemma sort_fields_spec level fs :
  foldl sort_field (MkSorted "" level [] []) fs =
  MkSorted (default "" (last (values "time" (texts fs))))
           (default level (last (values "level" (texts fs))))
           (values "at" (texts fs))
           (filter (λ kv, ¬ special kv.1) (texts fs)).
Proof.
  induction fs as [|f fs IH] using rev_ind; [done|]. rewrite foldl_app. simpl. rewrite IH. clear IH.
  unfold texts. rewrite fmap_app. simpl. rewrite !values_app, filter_app. unfold sort_field.
  rewrite !Sprintf_s, !values_one, filter_cons, filter_nil. simpl.
  assert (special (fmt_s (Key f)) ↔ fmt_s (Key f) = "time" ∨ fmt_s (Key f) = "at" ∨ fmt_s (Key f) = "level") as Hsp.
  { unfold special. rewrite !elem_of_cons, elem_of_nil. tauto. }
  generalize dependent (fmt_s (Key f)). intros k Hsp.
  repeat case_decide; simpl; subst; try tauto; try done; by rewrite ?app_nil_r, ?last_snoc.
Qed.

Section Facts.
Context {rt : GoRuntime} {L W : Type}.
Local Abbreviation lstate := (lstate L W).

Lemma Printw_render m threshold f msg kvs level :
  valid m f → Threshold_String threshold = Ok level →
  Printw m threshold f msg kvs =
  ((Clone m f kvs).1, Ok (render level (elems m f ++ pairs kvs) msg)).
Proof.
  intros Hf Hl. unfold Printw. destruct (append_all_elems m f (pairs kvs) Hf) as [_ He].
  unfold Clone in *. destruct (append_all m f (pairs kvs)) as [m' all]. simpl in *.
  rewrite Hl. simpl. by rewrite He, sort_fields_spec.
Qed.

(** ** Messages *)

(** The fields of a logger in a state. *)
Definition fields_of (s : lstate) (sl : simpleLogger) : list Field := elems (l_mem s) (fields sl).
Definition logger_ok (s : lstate) (sl : simpleLogger) : Prop := valid (l_mem s) (fields sl).

(** How a call at this severity ends. *)
Definition ending_of (threshold : Threshold) : () + ending :=
  if decide (threshold = level.Fatal) then inr (Exit 1)
  else if decide (threshold = level.Panic) then inr (Panicking "fatal error")
  else inl ().

Lemma checkThreshold_run threshold (s : lstate) : checkThreshold threshold s = (s, ending_of threshold).
Proof. unfold checkThreshold, ending_of. by repeat case_decide. Qed.

(** What remains the same in every call of a logger. *)
Definition same_rest (s s' : lstate) : Prop :=
  l_tests s' = l_tests s ∧ l_logger s' = l_logger s ∧ l_std s' = l_std s ∧ l_world s' = l_world s.

Lemma Outputw_run sl threshold msg kvs level (s : lstate) :
  logger_ok s sl → Threshold_String threshold = Ok level →
  Outputw sl threshold msg kvs s =
  (if decide (threshold >= Level (config sl))
   then MkLState (Clone (l_mem s) (fields sl) kvs).1
          (l_written s ++ [(Output_ (config sl), render level (fields_of s sl ++ pairs kvs) msg)])
          (l_tests s) (l_logger s) (l_std s) (l_world s)
   else s, ending_of threshold).
Proof.
  intros Hok Hl. unfold Outputw, mbind, LM_bind. case_decide as Hd; simpl.
  - unfold formatted. rewrite (Printw_render _ _ _ _ _ level Hok Hl). simpl. by rewrite checkThreshold_run.
  - by rewrite checkThreshold_run.
Qed.

Lemma Output_as_Outputw sl threshold args : Output (L:=L) (W:=W) sl threshold args = Outputw sl threshold (Sprint args) [].
Proof. done. Qed.

Lemma Outputf_as_Outputw sl threshold format args :
  Outputf (L:=L) (W:=W) sl threshold format args = Outputw sl threshold (Log.Sprintf format args) [].
Proof. done. Qed.

(** A message at one of the six severities becomes exactly one call of Write with
    the line of its fields, if the severity reaches the level of the logger, and
    none otherwise; in both cases the call then returns, exits the program with
    status 1 (Fatal) or panics (Panic).  Nothing else changes but fields of
    loggers that share memory with this one, and no logger becomes unusable. *)
Theorem Outputw_spec sl threshold msg kvs level (s : lstate) :
  logger_ok s sl → Threshold_String threshold = Ok level →
  ∃ s', Outputw sl threshold msg kvs s = (s', ending_of threshold) ∧
    l_written s' = l_written s ++
      (if decide (Level (config sl) ≤ threshold)
       then [(Output_ (config sl), render level (fields_of s sl ++ pairs kvs) msg)] else []) ∧
    same_rest s s' ∧
    ∀ other, logger_ok s other →
      logger_ok s' other ∧ (¬ shares (fields sl) (fields other) → fields_of s' other = fields_of s other).
Proof.
  intros Hok Hl. rewrite (Outputw_run _ _ _ _ level) by done. eexists. split; [done|].
  destruct (decide (threshold >= Level (config sl))) as [Hd|Hd].
  - rewrite decide_True by lia. split_and!; [done|done|]. intros other Hother. split.
    + by apply append_all_valid.
    + intros Hns. by apply append_all_frame.
  - rewrite decide_False by lia. by rewrite app_nil_r.
Qed.

(** ** New loggers *)

Lemma With_run sl kvs (s : lstate) :
  logger_ok s sl →
  ∃ s' sl', With sl kvs s = (s', inl sl') ∧
    logger_ok s' sl' ∧ config sl' = config sl ∧ fields_of s' sl' = fields_of s sl ++ pairs kvs ∧
    l_written s' = l_written s ∧ same_rest s s' ∧
    ∀ other, logger_ok s other →
      logger_ok s' other ∧
      (¬ shares (fields sl) (fields other) → fields_of s' other = fields_of s other) ∧
      (∀ f rest, shares (fields sl) (fields other) → pairs kvs = f :: rest →
        fields_of s' other !! length (fields_of s sl) = Some f).
Proof.
  intros Hok. unfold With, cloned, mbind, LM_bind. unfold Clone.
  destruct (append_all_elems (l_mem s) (fields sl) (pairs kvs) Hok) as [Hv He].
  destruct (append_all _ _ _) as [m' f'] eqn:E. simpl in *.
  eexists _, _. split; [done|]. split_and!; [done..|]. intros other Hother.
  unfold logger_ok, fields_of. simpl. replace m' with (append_all (l_mem s) (fields sl) (pairs kvs)).1 by (by rewrite E).
  split_and!.
  - by apply append_all_valid.
  - intros Hns. by apply append_all_frame.
  - intros f rest Hs ->. rewrite elems_length by done. by apply append_all_overwrites.
Qed.

(** A message leaves the fields of its own logger as they are. *)
Lemma Clone_own (s : lstate) sl kvs :
  logger_ok s sl →
  valid (Clone (l_mem s) (fields sl) kvs).1 (fields sl) ∧
  elems (Clone (l_mem s) (fields sl) kvs).1 (fields sl) = elems (l_mem s) (fields sl).
Proof.
  intros Hok. split; [by apply append_all_valid|]. apply append_all_frame; [done|]. unfold shares. lia.
Qed.

(** C24. [With] returns a logger with the same configuration, whose fields are those of
    the logger it is called for, followed by the new ones.  It writes nothing.  Every
    other logger keeps its fields unless it extends the same memory beyond the
    fields of this logger; if it does, its first field there is replaced by the new
    one. *)
Theorem With_spec sl kvs (s : lstate) :
  logger_ok s sl →
  ∃ s' sl', With sl kvs s = (s', inl sl') ∧
    logger_ok s' sl' ∧ config sl' = config sl ∧ fields_of s' sl' = fields_of s sl ++ pairs kvs ∧
    l_written s' = l_written s ∧ same_rest s s' ∧
    ∀ other, logger_ok s other →
      logger_ok s' other ∧
      (¬ shares (fields sl) (fields other) → fields_of s' other = fields_of s other) ∧
      (∀ f rest, shares (fields sl) (fields other) → pairs kvs = f :: rest →
        fields_of s' other !! length (fields_of s sl) = Some f).
Proof. apply With_run. Qed.

(** ** The interface *)

(** What the documentation of [Logger] promises of the named methods. *)
Class LoggerLaws (T : Type) {LT : Logger L W T} : Prop := {
  Debug_law (l : T) args : Logger_Debug l args = Logger_Output l level.Debug args;
  Debugf_law (l : T) fmt args : Logger_Debugf l fmt args = Logger_Outputf l level.Debug fmt args;
  Debugw_law (l : T) msg kvs : Logger_Debugw l msg kvs = Logger_Outputw l level.Debug msg kvs;
  Info_law (l : T) args : Logger_Info l args = Logger_Output l level.Info args;
  Infof_law (l : T) fmt args : Logger_Infof l fmt args = Logger_Outputf l level.Info fmt args;
  Infow_law (l : T) msg kvs : Logger_Infow l msg kvs = Logger_Outputw l level.Info msg kvs;
  Warn_law (l : T) args : Logger_Warn l args = Logger_Output l level.Warn args;
  Warnf_law (l : T) fmt args : Logger_Warnf l fmt args = Logger_Outputf l level.Warn fmt args;
  Warnw_law (l : T) msg kvs : Logger_Warnw l msg kvs = Logger_Outputw l level.Warn msg kvs;
  Error_law (l : T) args : Logger_Error l args = Logger_Output l level.Error args;
  Errorf_law (l : T) fmt args : Logger_Errorf l fmt args = Logger_Outputf l level.Error fmt args;
  Errorw_law (l : T) msg kvs : Logger_Errorw l msg kvs = Logger_Outputw l level.Error msg kvs;
  Fatal_law (l : T) args : Logger_Fatal l args = Logger_Output l level.Fatal args;
  Fatalf_law (l : T) fmt args : Logger_Fatalf l fmt args = Logger_Outputf l level.Fatal fmt args;
  Fatalw_law (l : T) msg kvs : Logger_Fatalw l msg kvs = Logger_Outputw l level.Fatal msg kvs;
  Panic_law (l : T) args : Logger_Panic l args = Logger_Output l level.Panic args;
  Panicf_law (l : T) fmt args : Logger_Panicf l fmt args = Logger_Outputf l level.Panic fmt args;
  Panicw_law (l : T) msg kvs : Logger_Panicw l msg kvs = Logger_Outputw l level.Panic msg kvs
}.

#[global] Instance simpleLogger_laws : LoggerLaws simpleLogger.
Proof. by constructor. Qed.

(** The logger of a context is the one stored last; without one it is the global. *)
Lemma FromContext_WithLogger ctx l (s : lstate) : FromContext (WithLogger ctx l) s = (s, inl l).
Proof. done. Qed.

Lemma FromContext_fallback ctx (s : lstate) :
  FromContext ctx s = (s, inl (FromContextFallback ctx (l_logger s))).
Proof. unfold FromContext, FromContextFallback. by destruct (ctx_logger ctx). Qed.
End Facts.

(** ** An example *)

Module log_example.
#[local] Existing Instance doubling.
Definition config0 : SimpleConfig := MkSimpleConfig level.Info 1.
Definition root : simpleLogger := NewSimpleLogger config0.
Definition state0 : lstate simpleLogger () := MkLState [] [] [] root (None, None) ().

Definition three : list any := [AString "at"; AString "node"; AString "pid"; AInt 7; AString "id"; AString "x"].

(** A logger with three fields, a logger derived from it, a message of the first
    with one more field, and then a message of the second. *)
Definition run_siblings : LM simpleLogger () () :=
  With root three ≫= λ parent,
  With parent [AString "volume"; AString "v1"] ≫= λ child,
  Infow (simple_base parent) "ready" [AString "count"; AString "2"] ≫= λ _,
  Info (simple_base child) [AString "mounted"].
End log_example.

(** The message of the derived logger has a field of another message instead of
    its own: [Clone] does not copy. *)
Lemma siblings_share_fields :
  l_written (log_example.run_siblings log_example.state0).1 =
  [(1%nat, "INFO node: ready | pid: %!s(int=7) id: x count: 2" +:+ String "010" "");
   (1%nat, "INFO node: mounted | pid: %!s(int=7) id: x count: 2" +:+ String "010" "")].
Proof. vm_compute. reflexivity. Qed.

Lemma Outputw_spec_witness :
  ∃ s', Outputw (rt:=doubling) log_example.root level.Fatal "gone" [AString "error"; AError (ErrorNew "x")] log_example.state0 = (s', inr (Exit 1)) ∧
    l_written s' = [(1%nat, "FATAL gone | error: x" +:+ String "010" "")].
Proof.
  destruct (Outputw_spec (rt:=doubling) log_example.root level.Fatal "gone" [AString "error"; AError (ErrorNew "x")] "FATAL" log_example.state0)
    as (s' & Hrun & Hw & _); [by apply valid_nil|done|].
  exists s'. split; [exact Hrun|]. rewrite Hw. reflexivity.
Defined.

Lemma With_spec_witness :
  ∃ s' sl', With (rt:=doubling) log_example.root log_example.three log_example.state0 = (s', inl sl') ∧
    fields_of s' sl' = pairs log_example.three ∧ config sl' = log_example.config0.
Proof.
  destruct (With_spec (rt:=doubling) log_example.root log_example.three log_example.state0)
    as (s' & sl' & Hrun & _ & Hc & Hf & _); [by apply valid_nil|].
  exists s', sl'. split; [exact Hrun|]. split; [|exact Hc]. rewrite Hf. reflexivity.
Defined.
