(* ===== verification/TestLog.v ===== *)
(** * The logger for tests: pkg/log/testlog/testlog.go

    It prints everything through the log of a test, which is known by a number.
    Marking functions as helpers (t.Helper) only affects the source lines that the
    testing package shows and has no counterpart here. *)
From S2P Require Import Prelude GoStrings Strconv Errors Slices Level Log LogFacts.

Record testLogger := MkTestLogger { tl_fields : slice; t_ : nat }.

Definition new_ (t : nat) : testLogger := MkTestLogger nil_slice t.
Definition New (t : nat) : testLogger := new_ t.

(** The slice expression [buffer[0 : len(buffer)-1]]. *)
Definition stripLF (buffer : string) : string := String.substring 0 (String.length buffer - 1) buffer.

Section Tests.
Context {rt : GoRuntime} {L W : Type}.
Local Abbreviation LM := (LM L W).

Definition t_Log (t : nat) (text : string) : LM () := λ s,
  (MkLState (l_mem s) (l_written s) (l_tests s ++ [(t, text)]) (l_logger s) (l_std s) (l_world s), inl ()).

Definition t_FailNow : LM () := ends Goexit.

Definition Output (tl : testLogger) (threshold : Threshold) (args : list any) : LM () :=
  formatted (λ m, Print_ m threshold (tl_fields tl) args) ≫= λ line,
  t_Log (t_ tl) (stripLF line) ≫= λ _,
  if decide (threshold >= level.Fatal) then t_FailNow else mret ().

Definition Outputf (tl : testLogger) (threshold : Threshold) (format : string) (args : list any) : LM () :=
  formatted (λ m, Printf m threshold (tl_fields tl) format args) ≫= λ line,
  t_Log (t_ tl) (stripLF line) ≫= λ _,
  if decide (threshold >= level.Fatal) then t_FailNow else mret ().

Definition Outputw (tl : testLogger) (threshold : Threshold) (msg : string) (keysAndValues : list any) : LM () :=
  formatted (λ m, Printw m threshold (tl_fields tl) msg keysAndValues) ≫= λ line,
  t_Log (t_ tl) (stripLF line) ≫= λ _,
  if decide (threshold >= level.Fatal) then t_FailNow else mret ().

Definition With (tl : testLogger) (keysAndValues : list any) : LM testLogger :=
  let tl2 := new_ (t_ tl) in
  cloned (tl_fields tl) keysAndValues ≫= λ f, mret (MkTestLogger f (t_ tl2)).

Definition Debug (tl : testLogger) (args : list any) := Output tl level.Debug args.
Definition Debugf (tl : testLogger) (format : string) (args : list any) := Outputf tl level.Debug format args.
Definition Debugw (tl : testLogger) (msg : string) (keysAndValues : list any) := Outputw tl level.Debug msg keysAndValues.
Definition Info (tl : testLogger) (args : list any) := Output tl level.Info args.
Definition Infof (tl : testLogger) (format : string) (args : list any) := Outputf tl level.Info format args.
Definition Infow (tl : testLogger) (msg : string) (keysAndValues : list any) := Outputw tl level.Info msg keysAndValues.
Definition Warn (tl : testLogger) (args : list any) := Output tl level.Warn args.
Definition Warnf (tl : testLogger) (format : string) (args : list any) := Outputf tl level.Warn format args.
Definition Warnw (tl : testLogger) (msg : string) (keysAndValues : list any) := Outputw tl level.Warn msg keysAndValues.
Definition Error_ (tl : testLogger) (args : list any) := Output tl level.Error args.
Definition Errorf_ (tl : testLogger) (format : string) (args : list any) := Outputf tl level.Error format args.
Definition Errorw (tl : testLogger) (msg : string) (keysAndValues : list any) := Outputw tl level.Error msg keysAndValues.
Definition Fatal (tl : testLogger) (args : list any) := Output tl level.Fatal args.
Definition Fatalf (tl : testLogger) (format : string) (args : list any) := Outputf tl level.Fatal format args.
Definition Fatalw (tl : testLogger) (msg : string) (keysAndValues : list any) := Outputw tl level.Fatal msg keysAndValues.
Definition Panic_ (tl : testLogger) (args : list any) := Output tl level.Panic args.
Definition Panicf (tl : testLogger) (format : string) (args : list any) := Outputf tl level.Panic format args.
Definition Panicw (tl : testLogger) (msg : string) (keysAndValues : list any) := Outputw tl level.Panic msg keysAndValues.

#[global] Instance testLogger_Logger : Logger L W testLogger := {|
  Logger_Debug := Debug; Logger_Debugf := Debugf; Logger_Debugw := Debugw;
  Logger_Info := Info; Logger_Infof := Infof; Logger_Infow := Infow;
  Logger_Warn := Warn; Logger_Warnf := Warnf; Logger_Warnw := Warnw;
  Logger_Error := Error_; Logger_Errorf := Errorf_; Logger_Errorw := Errorw;
  Logger_Fatal := Fatal; Logger_Fatalf := Fatalf; Logger_Fatalw := Fatalw;
  Logger_Panic := Panic_; Logger_Panicf := Panicf; Logger_Panicw := Panicw;
  Logger_Output := Output; Logger_Outputf := Outputf; Logger_Outputw := Outputw;
  Logger_With := With
|}.

#[global] Instance testLogger_laws : LoggerLaws testLogger.
Proof. by constructor. Qed.

(** *** The global logger during a test *)

(** The dynamic type of the argument. *)
Inductive out_arg := OutTest (t : nat) | OutWriter (writer : nat) | OutOther.

(** [simple] and [test] are the conversions to the interface type; the result is
    the function that restores the previous logger. *)
Definition SetGlobal (simple : simpleLogger → L) (test : testLogger → L) (out : out_arg) : LM (LM ()) :=
  L_ ≫= λ old,
  (match out with
   | OutTest t => mret (test (New t))
   | OutWriter writer => mret (simple (NewSimpleLogger (MkSimpleConfig level.Min writer)))
   | OutOther => ends (Panicking "unsupported output type")
   end) ≫= λ new,
  Set_ new ≫= λ _, mret (Set_ old).

Lemma stripLF_line s : stripLF (s +:+ String "010" "") = s.
Proof.
  unfold stripLF. rewrite str_length_app. simpl.
  replace (String.length s + 1 - 1)%nat with (String.length s) by lia.
  induction s as [|c s IH]; simpl; [done|]. by rewrite IH.
Qed.

(** The text that a test shows is the line of the simple logger without its line
    break, whatever the severity. *)
Lemma test_Outputw_run tl threshold msg kvs level (s : lstate L W) :
  valid (l_mem s) (tl_fields tl) → Threshold_String threshold = Ok level →
  ∃ text, render level (elems (l_mem s) (tl_fields tl) ++ pairs kvs) msg = text +:+ String "010" "" ∧
  Outputw tl threshold msg kvs s =
  (MkLState (Clone (l_mem s) (tl_fields tl) kvs).1 (l_written s) (l_tests s ++ [(t_ tl, text)])
     (l_logger s) (l_std s) (l_world s),
   if decide (threshold >= level.Fatal) then inr Goexit else inl ()).
Proof.
  intros Hv Hl. eexists. split; [done|]. unfold Outputw, mbind, LM_bind, formatted.
  rewrite (Printw_render _ _ _ _ _ level Hv Hl). simpl.
  unfold render, assemble. rewrite stripLF_line. by case_decide.
Qed.

(** [defer testlog.SetGlobal(t)()]: the function that is returned puts the logger
    back that was installed before, whatever happened in between. *)
Lemma SetGlobal_restores simple test out (s s1 s2 : lstate L W) restore :
  SetGlobal simple test out s = (s1, inl restore) →
  l_logger (restore s2).1 = l_logger s.
Proof. intros Hrun. destruct out; cbn in Hrun; (discriminate Hrun || by injection Hrun as <- <-). Qed.
End Tests.
