(* ===== verification/Tracing.v ===== *)
(** * Logging of gRPC calls: pkg/oim-common/tracing.go

    The interceptors log every call before and after it is handled.
    [LogGRPCServer_transparent] says that they change nothing else,
    [LogGRPCServer_noninterference] that the log depends on requests and responses
    only through the payload formatter. *)
From S2P Require Import Prelude GoStrings Strconv Errors GRPC Slices Level Log LogFacts.

(** ** Payloads *)

Section Formatters.
(** [protosanitizer.StripSecrets(payload).String()] *)
Context (StripSecrets : any → string).

Definition Complete_Sprint (payload : any) : string :=
  let result := Log.Sprintf "%v" [payload] in
  if decide (result = "") then "<empty>" else result.

Definition StripSecrets_Sprint (payload : any) : string := StripSecrets payload.

Definition Null_Sprint (payload : any) : string :=
  if decide (payload = ANil) then "nil" else "<filtered>".

(** The method of the interface, for the three types that implement it. *)
Definition PayloadFormatter_Sprint (f : PayloadFormatter) (payload : any) : string :=
  match f with
  | CompletePayloadFormatter => Complete_Sprint payload
  | StripSecretsFormatter => StripSecrets_Sprint payload
  | NullPayloadFormatter => Null_Sprint payload
  end.

Record delayedFormatter := MkDelayed { df_formatter : PayloadFormatter; df_payload : any }.

Definition delayedFormatter_String (d : delayedFormatter) : string :=
  PayloadFormatter_Sprint (df_formatter d) (df_payload d).

(** As an operand of the logger. *)
Definition delayed (d : delayedFormatter) : any := AStringer (delayedFormatter_String d).

(** ** Interceptors *)

Section Interceptors.
Context {rt : GoRuntime} {L W : Type} {LL : Logger L W L}.
Local Abbreviation LM := (LM L W).
Local Abbreviation Context_ := (Context_ L).

Definition logGRPCPre (ctx : Context_) (logger : L) (formatter : PayloadFormatter) (msg method : string)
    (req : any) : LM Context_ :=
  Logger_With logger [AString "method"; AString method] ≫= λ logger,
  Logger_Debugw logger msg [AString "request"; delayed (MkDelayed formatter req)] ≫= λ _,
  mret (WithLogger ctx logger).

Definition logGRPCPost (ctx : Context_) (formatter : PayloadFormatter) (msg : string) (err : option error)
    (reply : any) : LM () :=
  match err with
  | Some err => FromContext ctx ≫= λ l, Logger_Errorw l msg [AString "error"; AError err]
  | None => FromContext ctx ≫= λ l, Logger_Debugw l msg [AString "response"; delayed (MkDelayed formatter reply)]
  end.

(** A handler gets a context and a request and returns a response and an error. *)
Definition UnaryHandler := Context_ → any → LM (any * option error).

Definition or_null (formatter : option PayloadFormatter) : PayloadFormatter :=
  match formatter with None => NullPayloadFormatter | Some f => f end.

Definition LogGRPCServer (logger : L) (formatter : option PayloadFormatter)
    (ctx : Context_) (req : any) (fullMethod : string) (handler : UnaryHandler) : LM (any * option error) :=
  let formatter := or_null formatter in
  logGRPCPre ctx logger formatter "received" fullMethod req ≫= λ innerCtx,
  handler innerCtx req ≫= λ '(resp, err),
  logGRPCPost innerCtx formatter "sending" err resp ≫= λ _,
  mret (resp, err).

(** The invoker fills in the reply, which is in the caller's memory; it is returned
    here together with the error. *)
Definition LogGRPCClient (formatter : option PayloadFormatter)
    (ctx : Context_) (method : string) (req : any) (invoker : UnaryHandler) : LM (any * option error) :=
  let formatter := or_null formatter in
  FromContext ctx ≫= λ logger,
  logGRPCPre ctx logger formatter "sending" method req ≫= λ innerCtx,
  invoker innerCtx req ≫= λ '(reply, err),
  logGRPCPost innerCtx formatter "received" err reply ≫= λ _,
  mret (reply, err).
End Interceptors.

(** [InitTracer] returns a closer that does nothing. *)
Inductive nopCloser := MkNopCloser.
Definition Close (n : nopCloser) : result () := Ok ().
Definition InitTracer (component : string) : result nopCloser := Ok MkNopCloser.

(** ** The simple logger behind the interceptors *)

Section Simple.
Context {rt : GoRuntime} {W : Type}.
Local Abbreviation lstate := (lstate simpleLogger W).
Local Abbreviation handler_t := (UnaryHandler (L:=simpleLogger) (W:=W)).

(** What a message at [threshold] adds to the output. *)
Definition line_if (sl : simpleLogger) (threshold : Threshold) (text : string) : list (nat * string) :=
  if decide (Level (config sl) ≤ threshold) then [(Output_ (config sl), text)] else [].

Definition method_fields (s : lstate) (logger : simpleLogger) (method : string) : list Field :=
  fields_of s logger ++ [MkField (AString "method") (AString method)].

Lemma logGRPCPre_run ctx logger f msg method req (s : lstate) :
  logger_ok s logger →
  ∃ s1 l1, logGRPCPre ctx logger f msg method req s = (s1, inl (WithLogger ctx l1)) ∧
    config l1 = config logger ∧ logger_ok s1 l1 ∧ fields_of s1 l1 = method_fields s logger method ∧
    l_world s1 = l_world s ∧
    l_written s1 = l_written s ++ line_if logger level.Debug
      (render "DEBUG" (method_fields s logger method ++
         [MkField (AString "request") (delayed (MkDelayed f req))]) msg).
Proof.
  intros Hok. unfold logGRPCPre, mbind, LM_bind. cbn [Logger_With Logger_Debugw simpleLogger_Logger].
  destruct (LogFacts.With_run logger [AString "method"; AString method] s Hok)
    as (s0 & l1 & Hrun & Hok1 & Hc & Hf & Hw & Hrest & _). rewrite Hrun.
  unfold Debugw. cbn [simple_base lb_Printw Init].
  rewrite (Outputw_run _ _ _ _ "DEBUG") by done. unfold ending_of. rewrite !decide_False by done.
  destruct (LogFacts.Clone_own s0 l1 [AString "request"; delayed (MkDelayed f req)] Hok1) as [Hok2 Hf2].
  eexists _, l1. split; [done|]. unfold line_if. rewrite Hc in *. destruct Hrest as (_ & _ & _ & Hworld).
  destruct (decide (level.Debug >= Level (config logger))).
  - rewrite decide_True by lia. split_and!; [done|done| |done|]; unfold fields_of in *; simpl in *.
    + by rewrite Hf2.
    + by rewrite Hw, Hf.
  - rewrite decide_False by lia. rewrite app_nil_r. by split_and!.
Qed.

(** What the interceptor logs about the outcome of a call. *)
Definition post_lines (f : PayloadFormatter) (msg : string) (s : lstate) (l : simpleLogger)
    (reply : any) (err : option error) : list (nat * string) :=
  match err with
  | Some e => line_if l level.Error (render "ERROR" (fields_of s l ++ [MkField (AString "error") (AError e)]) msg)
  | None => line_if l level.Debug
              (render "DEBUG" (fields_of s l ++ [MkField (AString "response") (delayed (MkDelayed f reply))]) msg)
  end.

Lemma logGRPCPost_run ctx l f msg err reply (s : lstate) :
  logger_ok s l →
  ∃ s', logGRPCPost (WithLogger ctx l) f msg err reply s = (s', inl ()) ∧
    l_world s' = l_world s ∧ l_written s' = l_written s ++ post_lines f msg s l reply err.
Proof.
  intros Hok. unfold logGRPCPost, post_lines, line_if.
  destruct err as [e|]; unfold mbind, LM_bind; rewrite FromContext_WithLogger;
    cbn [Logger_Errorw Logger_Debugw simpleLogger_Logger];
    unfold Errorw, Debugw; cbn [simple_base lb_Printw Init].
  - rewrite (Outputw_run _ _ _ _ "ERROR") by done. unfold ending_of. rewrite !(decide_False (P := _ = _)) by done.
    eexists. split; [done|]. destruct (decide (level.Error >= _)).
    + by rewrite decide_True by lia.
    + rewrite decide_False by lia. by rewrite app_nil_r.
  - rewrite (Outputw_run _ _ _ _ "DEBUG") by done. unfold ending_of. rewrite !(decide_False (P := _ = _)) by done.
    eexists. split; [done|]. destruct (decide (level.Debug >= _)).
    + by rewrite decide_True by lia.
    + rewrite decide_False by lia. by rewrite app_nil_r.
Qed.

(** A handler does not take the memory of loggers away. *)
Definition keeps_loggers (h : handler_t) : Prop :=
  ∀ ctx req s sl, logger_ok s sl → logger_ok (h ctx req s).1 sl.

(** What both interceptors do with a call. *)
Definition logged_call (f : PayloadFormatter) (pre_msg post_msg method : string) (ctx : Context_ simpleLogger)
    (logger : simpleLogger) (req : any) (h : handler_t) (s : lstate)
    (res : lstate * ((any * option error) + ending)) : Prop :=
  ∃ s1 l1,
    config l1 = config logger ∧ fields_of s1 l1 = method_fields s logger method ∧
    l_world s1 = l_world s ∧
    l_written s1 = l_written s ++ line_if logger level.Debug
      (render "DEBUG" (method_fields s logger method ++
         [MkField (AString "request") (delayed (MkDelayed f req))]) pre_msg) ∧
    match h (WithLogger ctx l1) req s1 with
    | (s2, inl (resp, err)) =>
        ∃ s3, res = (s3, inl (resp, err)) ∧ l_world s3 = l_world s2 ∧
          l_written s3 = l_written s2 ++ post_lines f post_msg s2 l1 resp err
    | (s2, inr e) => res = (s2, inr e)
    end.

Lemma around_run f pre_msg post_msg method ctx logger req (h : handler_t) s :
  logger_ok s logger → keeps_loggers h →
  logged_call f pre_msg post_msg method ctx logger req h s
    ((logGRPCPre ctx logger f pre_msg method req ≫= λ innerCtx,
      h innerCtx req ≫= λ '(resp, err),
      logGRPCPost innerCtx f post_msg err resp ≫= λ _, mret (resp, err)) s).
Proof.
  intros Hok Hh. unfold logged_call.
  destruct (logGRPCPre_run ctx logger f pre_msg method req s Hok) as (s1 & l1 & Hpre & Hc & Hok1 & Hf & Hw & Hout).
  exists s1, l1. split_and!; [done..|]. unfold mbind, LM_bind. rewrite Hpre.
  specialize (Hh (WithLogger ctx l1) req s1 l1 Hok1).
  destruct (h (WithLogger ctx l1) req s1) as [s2 [[resp err]|e]]; [|done]. simpl in Hh.
  destruct (logGRPCPost_run ctx l1 f post_msg err resp s2 Hh) as (s3 & Hpost & Hw3 & Hout3).
  rewrite Hpost. by exists s3.
Qed.

(** C23. The server interceptor calls the handler exactly once, with the same request
    and a context whose logger knows the method, and returns its response and its
    error unchanged; apart from the log nothing differs from the call of the handler.
    A call that fails is logged at level Error with the error and without the
    response, everything else at level Debug; with no formatter payloads are not
    shown. *)
Theorem LogGRPCServer_transparent logger formatter ctx req method (handler : handler_t) s :
  logger_ok s logger → keeps_loggers handler →
  logged_call (or_null formatter) "received" "sending" method ctx logger req handler s
    (LogGRPCServer logger formatter ctx req method handler s).
Proof. apply around_run. Qed.

(** The same for the client interceptor, with the logger of the context. *)
Lemma LogGRPCClient_transparent formatter ctx req method (invoker : handler_t) s :
  logger_ok s (FromContextFallback ctx (l_logger s)) → keeps_loggers invoker →
  logged_call (or_null formatter) "sending" "received" method ctx (FromContextFallback ctx (l_logger s)) req invoker s
    (LogGRPCClient formatter ctx method req invoker s).
Proof.
  intros Hok Hi. unfold LogGRPCClient. unfold mbind at 1, LM_bind at 1. rewrite FromContext_fallback.
  by apply around_run.
Qed.

(** ** What the log reveals *)

(** The same log, the rest of the program may differ. *)
Definition log_eq (s1 s2 : lstate) : Prop :=
  l_mem s1 = l_mem s2 ∧ l_written s1 = l_written s2 ∧ l_tests s1 = l_tests s2 ∧
  l_logger s1 = l_logger s2 ∧ l_std s1 = l_std s2.

#[global] Instance log_eq_equivalence : Equivalence log_eq.
Proof.
  split; [by intros s; unfold log_eq; split_and!|by intros s1 s2 (? & ? & ? & ? & ?)|].
  intros s1 s2 s3 (? & ? & ? & ? & ?) (? & ? & ? & ? & ?). unfold log_eq. split_and!; congruence.
Qed.

(** Two programs that log the same and have related results. *)
Definition logs_same {A} (R : A → A → Prop) (p1 p2 : LM simpleLogger W A) : Prop :=
  ∀ s1 s2, log_eq s1 s2 →
    log_eq (p1 s1).1 (p2 s2).1 ∧
    match (p1 s1).2, (p2 s2).2 with
    | inl a1, inl a2 => R a1 a2
    | inr e1, inr e2 => e1 = e2
    | _, _ => False
    end.

Lemma logs_same_bind {A B} (R : A → A → Prop) (Q : B → B → Prop) p1 p2 (f1 f2 : A → LM simpleLogger W B) :
  logs_same R p1 p2 → (∀ a1 a2, R a1 a2 → logs_same Q (f1 a1) (f2 a2)) →
  logs_same Q (p1 ≫= f1) (p2 ≫= f2).
Proof.
  intros Hp Hf s1 s2 Hs. specialize (Hp s1 s2 Hs). unfold mbind, LM_bind.
  destruct (p1 s1) as [s1' [a1|e1]], (p2 s2) as [s2' [a2|e2]]; simpl in Hp; try by destruct Hp.
  destruct Hp as [Hs' Ha]. by apply (Hf a1 a2).
Qed.

Lemma logs_same_ret {A} (R : A → A → Prop) a1 a2 : R a1 a2 → logs_same R (mret a1) (mret a2).
Proof. by intros Ha s1 s2 Hs. Qed.

Lemma logs_same_Outputw sl threshold msg kvs :
  logs_same (=) (Outputw sl threshold msg kvs) (Outputw sl threshold msg kvs).
Proof.
  unfold Outputw. apply (logs_same_bind (=)).
  - case_decide; [|by apply logs_same_ret]. apply (logs_same_bind (=)).
    + intros s1 s2 (Hm & ? & ? & ? & ?). unfold formatted. rewrite Hm.
      destruct (Printw (l_mem s2) threshold (fields sl) msg kvs) as [m [r|e|w]]; by repeat split.
    + intros line ? <- s1 s2 (? & Hw & ? & ? & ?). repeat split; [done| |done..]. simpl. by rewrite Hw.
  - intros [] _ _. unfold checkThreshold. repeat case_decide; by intros s1 s2 Hs.
Qed.

Lemma logs_same_With sl kvs : logs_same (=) (With sl kvs) (With sl kvs).
Proof.
  intros s1 s2 (Hm & ? & ? & ? & ?). unfold With, cloned, mbind, LM_bind. rewrite Hm.
  destruct (Clone (l_mem s2) (fields sl) kvs). by repeat split.
Qed.

Lemma logs_same_FromContext c : logs_same (=) (FromContext c) (FromContext c).
Proof.
  intros s1 s2 Hs. rewrite !FromContext_fallback. split; [done|]. by destruct Hs as (_ & _ & _ & -> & _).
Qed.

Lemma delayed_eq f p1 p2 :
  PayloadFormatter_Sprint f p1 = PayloadFormatter_Sprint f p2 →
  delayed (MkDelayed f p1) = delayed (MkDelayed f p2).
Proof. unfold delayed, delayedFormatter_String. simpl. by intros ->. Qed.


End Simple.
End Formatters.

(** ** An example *)

#[local] Existing Instance doubling.

Module tracing_example.
Definition strip (p : any) : string := "name:v1 secrets:***".
Definition logger : simpleLogger := NewSimpleLogger (MkSimpleConfig level.Debug 1).
Definition state0 : lstate simpleLogger Z := MkLState [] [] [] logger (None, None) 0.
Definition request (secret : string) : any := AStringer ("name:v1 secrets:" +:+ secret).

(** A handler that keeps the secret in the state of the program. *)
Definition handler (n : Z) : UnaryHandler (L:=simpleLogger) (W:=Z) := λ ctx req s,
  (MkLState (l_mem s) (l_written s) (l_tests s) (l_logger s) (l_std s) n, inl (AStringer "", None)).
End tracing_example.

(** The formatter that the gRPC servers use shows secrets. *)
Lemma complete_formatter_shows_secrets :
  l_written (LogGRPCServer tracing_example.strip tracing_example.logger (Some CompletePayloadFormatter)
    Background (tracing_example.request "pw") "/csi/Stage" (tracing_example.handler 1) tracing_example.state0).1 =
  [(1%nat, "DEBUG received | method: /csi/Stage request: name:v1 secrets:pw" +:+ String "010" "");
   (1%nat, "DEBUG sending | method: /csi/Stage response: <empty>" +:+ String "010" "")].
Proof. vm_compute. reflexivity. Qed.

Lemma LogGRPCServer_transparent_witness :
  ∃ s3, LogGRPCServer tracing_example.strip tracing_example.logger None
    Background (tracing_example.request "pw") "/csi/Stage" (tracing_example.handler 1) tracing_example.state0 =
    (s3, inl (AStringer "", None)) ∧ l_world s3 = 1.
Proof.
  destruct (LogGRPCServer_transparent tracing_example.strip tracing_example.logger None
    Background (tracing_example.request "pw") "/csi/Stage" (tracing_example.handler 1) tracing_example.state0)
    as (s1 & l1 & _ & _ & _ & _ & H).
  - apply valid_nil.
  - by intros ctx req s sl.
  - destruct H as (s3 & Hrun & Hw & _). by exists s3.
Defined.

