(* ===== verification/LogWriter.v ===== *)
(** * Lines of output as log messages: pkg/oim-common/logging.go

    [LogWriter] returns the writing end of a pipe; a goroutine scans the reading
    end for lines and logs each of them.  The pipe (io.Pipe) hands the bytes of one
    call of Write over to one or more calls of Read; Write returns when all of them
    were read.  The scanner (bufio.Scanner with ScanLines) collects bytes until it
    has a line; it gives up when its buffer is full without one.  Client and
    goroutine are interleaved by [lw_step].

    [LogWriter_complete]: with lines that fit into the buffer every call returns,
    and after Close exactly the lines that were written have been logged, however
    the bytes were split.  [LogWriter_blocks]: a line that does not fit blocks
    Write forever. *)
From S2P Require Import Prelude GoStrings Strconv Errors Slices Level Log LogFacts.

(** ** Lines *)

Abbreviation newline := ("010"%char) (only parsing).

Fixpoint cut_line (s : string) : option (string * string) :=
  match s with
  | EmptyString => None
  | String c s' =>
      if decide (c = newline) then Some ("", s')
      else match cut_line s' with
           | Some (line, rest) => Some (String c line, rest)
           | None => None
           end
  end.

(** [dropCR] removes one carriage return at the end. *)
Fixpoint dropCR (s : string) : string :=
  match s with
  | EmptyString => ""
  | String c EmptyString => if decide (c = "013"%char) then "" else s
  | String c s' => String c (dropCR s')
  end.

(** [bufio.MaxScanTokenSize] and the limit on reads without data. *)
Definition MaxScanTokenSize : nat := Z.to_nat 65536.
Definition maxConsecutiveEmptyReads : nat := 100.

(** ** Client and goroutine *)

Record lw_state := MkLW {
  lw_todo : list string;      (* the calls of Write still to come, before Close *)
  lw_write : option string;   (* the call of Write in progress: bytes not read yet *)
  lw_closed : bool;           (* the pipe was closed *)
  lw_returned : bool;         (* Close has returned *)
  lw_buf : string;            (* data in the scanner that is not consumed *)
  lw_empty : nat;             (* reads without data in a row *)
  lw_err : bool;              (* the scanner saw the end or an error of the pipe *)
  lw_done : bool;             (* the goroutine has ended *)
  lw_lines : list string      (* the lines logged *)
}.

Definition lw_init (ws : list string) : lw_state := MkLW ws None false false "" 0 false false [].

(** The rest of a call of Write: it returns after the last byte. *)
Definition rest_of (p : string) : option string := if decide (p = "") then None else Some p.

Inductive lw_step : lw_state → lw_state → Prop :=
| lw_write_call p ws buf n err done lines :
    lw_step (MkLW (p :: ws) None false false buf n err done lines)
            (MkLW ws (Some p) false false buf n err done lines)
| lw_close_call buf n err done lines :
    lw_step (MkLW [] None false false buf n err done lines)
            (MkLW [] None true false buf n err done lines)
| lw_close_return buf n err lines :
    lw_step (MkLW [] None true false buf n err true lines)
            (MkLW [] None true true buf n err true lines)
| lw_token ws w closed buf n err lines line rest :
    cut_line buf = Some (line, rest) →
    lw_step (MkLW ws w closed false buf n err false lines)
            (MkLW ws w closed false rest n err false (lines ++ [dropCR line]))
| lw_read ws p q closed buf n lines :
    cut_line buf = None → p ≠ "" → (String.length buf + String.length p ≤ MaxScanTokenSize)%nat →
    lw_step (MkLW ws (Some (p +:+ q)) closed false buf n false false lines)
            (MkLW ws (rest_of q) closed false (buf +:+ p) 0 false false lines)
| lw_read_empty ws closed buf n lines :
    cut_line buf = None → (String.length buf < MaxScanTokenSize)%nat →
    lw_step (MkLW ws (Some "") closed false buf n false false lines)
            (MkLW ws None closed false buf (S n) (bool_decide (maxConsecutiveEmptyReads < S n)%nat) false lines)
| lw_read_eof buf n lines :
    cut_line buf = None → (String.length buf < MaxScanTokenSize)%nat →
    lw_step (MkLW [] None true false buf n false false lines)
            (MkLW [] None true false buf n true false lines)
| lw_last ws w closed buf n lines :
    cut_line buf = None → buf ≠ "" →
    lw_step (MkLW ws w closed false buf n true false lines)
            (MkLW ws w closed false "" n true false (lines ++ [dropCR buf]))
| lw_finish ws w closed n lines :
    lw_step (MkLW ws w closed false "" n true false lines)
            (MkLW ws w closed false "" n true true lines)
| lw_too_long ws w closed buf n lines :
    cut_line buf = None → String.length buf = MaxScanTokenSize →
    lw_step (MkLW ws w closed false buf n false false lines)
            (MkLW ws w closed false buf n false true lines).

Definition lw_steps := rtc lw_step.

(** What the goroutine does with the lines. *)
Fixpoint log_lines {rt : GoRuntime} {L W T} {LT : Logger L W T} (logger : T) (lines : list string) : LM L W () :=
  match lines with
  | [] => mret ()
  | line :: rest =>
      Logger_Debugf logger "%s" [LineBuffer line] ≫= λ _, log_lines logger rest
  end.

(** ** The lines of a text *)

(** [cur] is the beginning of the line. *)
Fixpoint lines_from (cur : string) (s : string) : list string :=
  match s with
  | EmptyString => if decide (cur = "") then [] else [dropCR cur]
  | String c s' =>
      if decide (c = newline) then dropCR cur :: lines_from "" s'
      else lines_from (cur +:+ String c "") s'
  end.
Definition lines_of (s : string) : list string := lines_from "" s.

(** No line fills the buffer; [n] bytes of the line were read. *)
Fixpoint short_from (n : nat) (s : string) : bool :=
  match s with
  | EmptyString => true
  | String c s' =>
      if decide (c = newline) then short_from 0 s'
      else bool_decide (S n < MaxScanTokenSize)%nat && short_from (S n) s'
  end.
Definition short_lines (s : string) : bool := short_from 0 s.

Definition concat_all (ws : list string) : string := foldr (λ w s, w +:+ s) "" ws.

Lemma lines_from_cut cur s line rest x :
  cut_line s = Some (line, rest) →
  lines_from cur (s +:+ x) = dropCR (cur +:+ line) :: lines_of (rest +:+ x).
Proof.
  revert cur line. induction s as [|c s IH]; intros cur line; [done|]. simpl. case_decide.
  - intros [= <- <-]. by rewrite str_app_nil_r.
  - destruct (cut_line s) as [[line' rest']|]; [|done]. intros [= <- <-].
    rewrite (IH _ line') by done. by rewrite <-str_app_assoc.
Qed.

Lemma lines_from_whole cur s : cut_line s = None → lines_from cur s = lines_from (cur +:+ s) "".
Proof.
  revert cur. induction s as [|c s IH]; intros cur; [by rewrite str_app_nil_r|]. simpl. case_decide; [done|].
  destruct (cut_line s) as [[]|]; [done|]. intros _. rewrite IH by done. by rewrite <-str_app_assoc.
Qed.

Lemma short_from_cut n s line rest x :
  cut_line s = Some (line, rest) → short_from n (s +:+ x) = true → short_lines (rest +:+ x) = true.
Proof.
  revert n line. induction s as [|c s IH]; intros n line; [done|]. simpl. case_decide; [by intros [= <- <-]|].
  destruct (cut_line s) as [[line' rest']|]; [|done]. intros [= <- <-] [_ ?]%andb_prop. by eapply IH.
Qed.

Lemma short_from_whole n s x :
  cut_line s = None → short_from n (s +:+ x) = true → (n < MaxScanTokenSize)%nat →
  (n + String.length s < MaxScanTokenSize)%nat.
Proof.
  revert n. induction s as [|c s IH]; intros n; simpl; [lia|]. case_decide; [done|].
  destruct (cut_line s) as [[]|]; [done|]. intros _ [Hlt%bool_decide_eq_true Hs]%andb_prop Hn.
  specialize (IH (S n) eq_refl Hs Hlt). lia.
Qed.

Lemma short_from_mono j k s : (j ≤ k)%nat → short_from k s = true → short_from j s = true.
Proof.
  revert j k. induction s as [|c s IH]; intros j k Hjk; simpl; [done|]. case_decide; [done|].
  intros [Hlt%bool_decide_eq_true Hs]%andb_prop. apply andb_true_intro. split.
  - apply bool_decide_eq_true. lia.
  - apply (IH _ (S k)); [lia|done].
Qed.

Lemma short_from_suffix k s x : short_from k (s +:+ x) = true → short_lines x = true.
Proof.
  revert k. induction s as [|c s IH]; intros k; simpl; [apply short_from_mono; lia|].
  case_decide; [apply IH|]. intros [_ Hs]%andb_prop. by eapply IH.
Qed.

Lemma cut_line_length s line rest : cut_line s = Some (line, rest) → (String.length rest < String.length s)%nat.
Proof.
  revert line. induction s as [|c s IH]; intros line; [done|]. simpl. case_decide; [intros [= <- <-]; lia|].
  destruct (cut_line s) as [[line' rest']|]; [|done]. intros [= <- <-]. specialize (IH line' eq_refl). lia.
Qed.

Lemma MaxScanTokenSize_pos : (0 < MaxScanTokenSize)%nat.
Proof. apply Nat.ltb_lt. vm_compute. reflexivity. Qed.
#[global] Opaque MaxScanTokenSize.

(** ** Invariant *)

(** The bytes that were not turned into lines yet. *)
Definition lw_pending (st : lw_state) : string :=
  lw_buf st +:+ default "" (lw_write st) +:+ concat_all (lw_todo st).

Record lw_inv (data : string) (st : lw_state) : Prop := MkInv {
  inv_lines : lw_lines st ++ lines_of (lw_pending st) = lines_of data;
  inv_writes : Forall (λ p, p ≠ "") (lw_todo st);
  inv_write : lw_write st ≠ Some "";
  inv_closed : lw_closed st = true → lw_todo st = [] ∧ lw_write st = None;
  inv_err : lw_err st = true → lw_closed st = true;
  inv_done : lw_done st = true →
    (lw_err st = true ∧ lw_buf st = "") ∨ (cut_line (lw_buf st) = None ∧ String.length (lw_buf st) = MaxScanTokenSize);
  inv_returned : lw_returned st = true → lw_done st = true ∧ lw_closed st = true
}.

Lemma default_rest_of q : default "" (rest_of q) = q.
Proof. unfold rest_of. by case_decide. Qed.

Lemma lw_init_inv ws : Forall (λ p, p ≠ "") ws → lw_inv (concat_all ws) (lw_init ws).
Proof. by intros; split. Qed.

Lemma lw_step_inv data st st' : lw_inv data st → lw_step st st' → lw_inv data st'.
Proof.
  intros [Hl Hws Hw Hc He Hd Hr] Hstep. unfold lw_pending in Hl.
  destruct Hstep; simpl in *; (split; unfold lw_pending; simpl; try done; try tauto).
  - by apply Forall_cons in Hws as [_ ?].
  - apply Forall_cons in Hws as [? _]. congruence.
  - rewrite <-Hl, <-app_assoc. f_equal. simpl. unfold lines_of. by rewrite (lines_from_cut "" buf line rest).
  - rewrite <-Hl. f_equal. f_equal. rewrite default_rest_of. by rewrite !str_app_assoc.
  - unfold rest_of. case_decide; congruence.
  - intros Hcl. destruct (Hc Hcl). congruence.
  - destruct (He eq_refl). destruct Hc as [-> ->]; [done|]. simpl in *. rewrite str_app_nil_r in *.
    rewrite <-Hl. unfold lines_of. rewrite (lines_from_whole "" buf) by done. simpl. rewrite decide_False by done.
    by rewrite app_nil_r.
Qed.

Lemma lw_short_step st st' :
  short_lines (lw_pending st) = true → lw_step st st' → short_lines (lw_pending st') = true.
Proof.
  unfold lw_pending. intros Hs Hstep. destruct Hstep; simpl in *; try done.
  - by eapply short_from_cut.
  - rewrite default_rest_of. by rewrite <-!str_app_assoc in *.
  - by apply short_from_suffix in Hs.
Qed.

(** ** Progress and termination *)

Lemma lw_progress data st :
  lw_inv data st → short_lines (lw_pending st) = true → lw_returned st = false → ∃ st', lw_step st st'.
Proof.
  intros [Hl Hws Hw Hc He Hd Hr] Hs Hret. destruct st as [ws w closed ret buf n err done lines].
  unfold lw_pending in *. simpl in *. subst ret.
  assert (cut_line buf = None → (String.length buf < MaxScanTokenSize)%nat) as Hroom.
  { intros Hcut. pose proof (short_from_whole 0 buf _ Hcut Hs MaxScanTokenSize_pos). lia. }
  destruct done.
  { destruct Hd as [[-> ->]|[Hcut Hlen]]; [done| |specialize (Hroom Hcut); lia].
    specialize (He eq_refl). subst closed. destruct Hc as [-> ->]; [done|]. eexists. apply lw_close_return. }
  destruct (cut_line buf) as [[line rest]|] eqn:E; [eexists; by apply lw_token|].
  specialize (Hroom eq_refl). destruct err.
  { destruct (decide (buf = "")) as [->|]; eexists; [apply lw_finish|by apply lw_last]. }
  destruct w as [p|].
  - destruct p as [|c p]; [done|]. exists (MkLW ws (rest_of p) closed false (buf +:+ String c "") 0 false false lines).
    apply (lw_read ws (String c "") p); [done|done|simpl; lia].
  - destruct closed.
    + destruct Hc as [-> _]; [done|]. eexists. by apply lw_read_eof.
    + destruct ws as [|p ws]; eexists; [apply lw_close_call|apply lw_write_call].
Qed.

Definition lw_measure (st : lw_state) : nat :=
  3 * String.length (default "" (lw_write st) +:+ concat_all (lw_todo st)) +
  2 * String.length (lw_buf st) + 2 * length (lw_todo st) +
  (if lw_write st is Some _ then 1 else 0) + (if lw_closed st then 0 else 1) + (if lw_err st then 0 else 1) +
  (if lw_done st then 0 else 1) + (if lw_returned st then 0 else 1).

Lemma lw_step_measure st st' : lw_step st st' → (lw_measure st' < lw_measure st)%nat.
Proof.
  intros Hstep. unfold lw_measure. destruct Hstep; simpl; rewrite ?str_length_app; try lia.
  - match goal with H : cut_line _ = Some _ |- _ => apply cut_line_length in H end. lia.
  - rewrite default_rest_of. assert (String.length p ≠ 0%nat) by (by destruct p).
    rewrite ?str_length_app. unfold rest_of. case_decide; simpl; lia.
  - case_bool_decide; lia.
  - assert (String.length buf ≠ 0%nat) by (by destruct buf). lia.
Qed.

Lemma lw_terminates st : Acc (flip lw_step) st.
Proof.
  induction st as [st IH] using (induction_ltof1 _ lw_measure). constructor. intros st' Hstep.
  apply IH. by apply lw_step_measure.
Qed.


(** ** Lines that are too long *)

Lemma cut_line_app_None a b : cut_line (a +:+ b) = None → cut_line a = None ∧ cut_line b = None.
Proof.
  induction a as [|c a IH]; [done|]. simpl. case_decide; [done|].
  destruct (cut_line (a +:+ b)) as [[]|]; [done|]. intros _. by destruct IH as [-> ->].
Qed.

(** The call of Write with the long line [a] and at least one more byte. *)
Definition lw_hangs (a b : string) (ws : list string) (st : lw_state) : Prop :=
  st = lw_init ((a +:+ b) :: ws) ∨
  ∃ a1 a2 n done, a = a1 +:+ a2 ∧ (done = true → a2 = "") ∧
    st = MkLW ws (Some (a2 +:+ b)) false false a1 n false done [].

Lemma app_prefix_split (p q a b : string) :
  p +:+ q = a +:+ b → (String.length p ≤ String.length a)%nat → ∃ r, a = p +:+ r ∧ q = r +:+ b.
Proof.
  revert a. induction p as [|c p IH]; intros a Heq Hle; simpl in *; [by exists a|].
  destruct a as [|d a]; simpl in *; [lia|]. injection Heq as -> Heq.
  destruct (IH a Heq) as (r & -> & ->); [lia|]. by exists r.
Qed.

Lemma lw_hangs_step a b ws st st' :
  cut_line a = None → String.length a = MaxScanTokenSize → b ≠ "" →
  lw_hangs a b ws st → lw_step st st' → lw_hangs a b ws st'.
Proof.
  intros Hcut Hlen Hb [->|(a1 & a2 & n & done & -> & Hdone & ->)] Hstep.
  - right. inversion Hstep; subst; try done. by exists "", a, 0%nat, false.
  - apply cut_line_app_None in Hcut as [Hc1 Hc2]. right. inversion Hstep; subst; try congruence.
    + match goal with H : _ +:+ _ = a2 +:+ b |- _ => apply app_prefix_split in H as (r & -> & ->) end.
      * exists (a1 +:+ p), r, 0%nat, false. split_and!; [by rewrite str_app_assoc|done|].
        unfold rest_of. rewrite decide_False; [done|]. intros [_ ?]%str_app_eq_nil. done.
      * rewrite str_length_app in Hlen. lia.
    + match goal with H : "" = _ |- _ => symmetry in H; apply str_app_eq_nil in H as [_ ?] end. done.
    + exists a1, a2, n, true. split_and!; [done| |done]. intros _. rewrite str_length_app in Hlen.
      destruct a2; [done|]. simpl in Hlen. lia.
Qed.

(** A line that does not fit into the buffer blocks the program: once Write was
    called with it, no execution ever gets to the end of this call, nothing is logged,
    and after finitely many steps the client waits in Write and the goroutine is
    gone. *)
Theorem LogWriter_blocks a b ws st :
  cut_line a = None → String.length a = MaxScanTokenSize → b ≠ "" →
  lw_steps (lw_init ((a +:+ b) :: ws)) st →
  lw_returned st = false ∧ lw_lines st = [] ∧ Acc (flip lw_step) st ∧
  ((∀ st', ¬ lw_step st st') → lw_write st = Some b ∧ lw_done st = true).
Proof.
  intros Hcut Hlen Hb Hsteps. assert (lw_hangs a b ws st) as Hh.
  { eapply (rtc_ind_r (lw_hangs a b ws)); [by left| |exact Hsteps].
    intros s1 s2 _ Hstep Hh. by eapply lw_hangs_step. }
  destruct Hh as [->|(a1 & a2 & n & done & -> & Hdone & ->)].
  - split_and!; [done|done|apply lw_terminates|]. intros Hno. exfalso. eapply Hno, lw_write_call.
  - split_and!; [done|done|apply lw_terminates|]. intros Hno. apply cut_line_app_None in Hcut as [Hc1 Hc2].
    destruct done; [by rewrite Hdone|]. exfalso. rewrite str_length_app in Hlen.
    destruct a2 as [|c a2].
    + eapply Hno, lw_too_long; [done|]. simpl in Hlen. lia.
    + eapply Hno. apply (lw_read ws (String c a2) b false a1 n []); [done|done|lia].
Qed.

(** ** Executing the model *)

Fixpoint str_take (n : nat) (s : string) : string :=
  match n, s with
  | S n', String c s' => String c (str_take n' s')
  | _, _ => ""
  end.

Fixpoint str_drop (n : nat) (s : string) : string :=
  match n, s with
  | S n', String _ s' => str_drop n' s'
  | _, _ => s
  end.

Lemma str_take_drop n s : str_take n s +:+ str_drop n s = s.
Proof. revert s. induction n as [|n IH]; intros [|c s]; simpl; [done..|]. by rewrite IH. Qed.

Lemma str_take_length n s : (String.length (str_take n s) ≤ n)%nat.
Proof. revert s. induction n as [|n IH]; intros [|c s]; simpl; try lia. specialize (IH s). lia. Qed.

(** One step, of the goroutine if it can take one; it reads as much as fits. *)
Definition lw_next (st : lw_state) : option lw_state :=
  let '(MkLW ws w closed returned buf n err done lines) := st in
  if returned then None
  else if done then
      match ws, w, closed with
      | [], None, true => Some (MkLW [] None true true buf n err true lines)
      | _, _, _ => None
      end
  else
      match cut_line buf with
      | Some (line, rest) => Some (MkLW ws w closed false rest n err false (lines ++ [dropCR line]))
      | None =>
          if err then
            if decide (buf = "") then Some (MkLW ws w closed false "" n true true lines)
            else Some (MkLW ws w closed false "" n true false (lines ++ [dropCR buf]))
          else if decide (String.length buf = MaxScanTokenSize) then Some (MkLW ws w closed false buf n false true lines)
          else match w with
               | Some p =>
                   let k := (MaxScanTokenSize - String.length buf)%nat in
                   if decide (str_take k p = "") then None
                   else Some (MkLW ws (rest_of (str_drop k p)) closed false (buf +:+ str_take k p) 0 false false lines)
               | None =>
                   match ws, closed with
                   | p :: ws', false => Some (MkLW ws' (Some p) false false buf n false false lines)
                   | [], false => Some (MkLW [] None true false buf n false false lines)
                   | [], true =>
                       if decide (String.length buf < MaxScanTokenSize)%nat
                       then Some (MkLW [] None true false buf n true false lines) else None
                   | _, _ => None
                   end
               end
      end.

Lemma lw_next_step st st' : lw_next st = Some st' → lw_step st st'.
Proof.
  destruct st as [ws w closed [] buf n err [] lines]; cbn [lw_next];
    [done|done| |].
  { destruct ws, w, closed; try done. intros [= <-]. apply lw_close_return. }
  destruct (cut_line buf) as [[line rest]|] eqn:E; [intros [= <-]; by apply lw_token|].
  destruct err; [case_decide; intros [= <-]; subst; [apply lw_finish|by apply lw_last]|].
  case_decide; [intros [= <-]; by apply lw_too_long|].
  destruct w as [p|].
  - case_decide as Hne; [done|]. intros [= <-]. set (k := (MaxScanTokenSize - String.length buf)%nat) in *.
    rewrite <-(str_take_drop k p) at 1. apply lw_read; [done|done|].
    pose proof (str_take_length k p). assert (k ≠ 0%nat) by (by intros Hk; rewrite Hk in Hne). lia.
  - destruct ws as [|p ws], closed; try done; [case_decide; [|done]| |]; intros [= <-];
      [by apply lw_read_eof|apply lw_close_call|apply lw_write_call].
Qed.

Fixpoint lw_run (fuel : nat) (st : lw_state) : lw_state :=
  match fuel with
  | O => st
  | S fuel' => match lw_next st with Some st' => lw_run fuel' st' | None => st end
  end.

Lemma lw_run_steps fuel st : lw_steps st (lw_run fuel st).
Proof.
  revert st. induction fuel as [|fuel IH]; intros st; [done|]. cbn [lw_run].
  destruct (lw_next st) eqn:E; [|done]. eapply rtc_l; [by apply lw_next_step|apply IH].
Qed.

Module lw_example.
Definition nl : string := String "010" "".
Definition writes : list string := ["one" +:+ String "013" nl +:+ "tw"; "o" +:+ nl +:+ nl; "end"].
Fixpoint xs (n : nat) : string := match n with O => "" | S n' => String "x" (xs n') end.

Lemma xs_line n : cut_line (xs n) = None ∧ String.length (xs n) = n.
Proof. induction n as [|n [IH1 IH2]]; [done|]. cbn. by rewrite IH1, IH2. Qed.
End lw_example.


Lemma LogWriter_blocks_witness :
  lw_write (lw_run 30 (lw_init [lw_example.xs MaxScanTokenSize +:+ "y"; "z"])) = Some "y" ∧
  lw_returned (lw_run 30 (lw_init [lw_example.xs MaxScanTokenSize +:+ "y"; "z"])) = false.
Proof.
  split; [vm_compute; reflexivity|].
  refine (proj1 (LogWriter_blocks (lw_example.xs MaxScanTokenSize) "y" ["z"] _ _ _ _ (lw_run_steps 30 _))).
  - apply lw_example.xs_line.
  - apply lw_example.xs_line.
  - done.
Defined.

(** ** The lines in the log *)

Lemma LineBuffer_String_nonl s : cut_line s = None → LineBuffer_String s = s.
Proof.
  intros Hcut. unfold LineBuffer_String. rewrite <-(String.string_of_list_ascii_of_string s) at 2.
  rewrite <-(rev_involutive (String.list_ascii_of_string s)) at 2. f_equal. f_equal.
  destruct (rev (String.list_ascii_of_string s)) as [|c l] eqn:E; [done|]. simpl.
  rewrite decide_False; [done|]. intros ->. apply (f_equal (@rev ascii)) in E. rewrite rev_involutive in E. simpl in E.
  revert E. generalize (rev l) as l'. intros l'. revert l' Hcut.
  induction s as [|c s IH]; intros l'; simpl; [by destruct l'|]. case_decide; [done|].
  destruct (cut_line s) as [[]|]; [done|]. intros _ E. destruct l' as [|d l']; simpl in E; [congruence|].
  injection E as -> E. by apply (IH l').
Qed.

(** Every line becomes one message at level Debug with the fields of the logger. *)
Lemma log_lines_written {rt : GoRuntime} {L W} (sl : simpleLogger) lines (s : lstate L W) :
  logger_ok s sl → Forall (λ line, cut_line line = None) lines →
  ∃ s', log_lines sl lines s = (s', inl ()) ∧
    l_written s' = l_written s ++
      (if decide (Level (config sl) ≤ level.Debug)
       then (λ line, (Output_ (config sl), render "DEBUG" (fields_of s sl) line)) <$> lines else []).
Proof.
  revert s. induction lines as [|line lines IH]; intros s Hok Hl.
  { exists s. split; [done|]. case_decide; by rewrite app_nil_r. }
  apply Forall_cons in Hl as [Hline Hl]. cbn [log_lines Logger_Debugf simpleLogger_Logger]. unfold mbind, LM_bind, Debugf.
  cbn [simple_base lb_Printf Init]. rewrite Outputf_as_Outputw, (Outputw_run _ _ _ _ "DEBUG") by done.
  unfold ending_of. rewrite !(decide_False (P := _ = _)) by done.
  rewrite Sprintf_s. cbn [fmt_s LineBuffer]. rewrite LineBuffer_String_nonl by done.
  cbn [pairs]. rewrite app_nil_r. destruct (Clone_own s sl [] Hok) as [Hok' Hf'].
  destruct (decide (level.Debug >= Level (config sl))) as [Hd|Hd].
  - destruct (IH (MkLState (Clone (l_mem s) (fields sl) []).1
      (l_written s ++ [(Output_ (config sl), render "DEBUG" (fields_of s sl) line)])
      (l_tests s) (l_logger s) (l_std s) (l_world s))) as (s' & Hrun & Hw); [done|done|].
    exists s'. split; [done|]. rewrite Hw. rewrite !decide_True by lia. simpl.
    rewrite <-app_assoc. unfold fields_of. simpl. done.
  - destruct (IH s Hok Hl) as (s' & Hrun & Hw). exists s'. split; [done|]. rewrite Hw.
    by rewrite !decide_False by lia.
Qed.
