(* ===== verification/CmdMonitor.v ===== *)
(** * Watching a command: pkg/oim-common/cmdmonitor.go

    The command inherits the writing end of a pipe.  A goroutine of the parent
    reads from the pipe and closes the channel when the read returns, which is when
    there is data or when nobody has the writing end any more.

    [Watch_exact]: the channel is closed only if all processes that had the writing
    end have terminated (or closed it), unless one of them wrote to it, and then
    nothing else can delay it.  [descendant_delays_Watch]: a descendant of the
    command that keeps the descriptor counts, too. *)
From S2P Require Import Prelude.

(** ** Preparing the command *)

(** Files are known by a number.  The part of [exec.Cmd] that matters. *)
Record Cmd := MkCmd { ExtraFiles : list nat }.
Record CmdMonitor := MkCmdMonitor { cm_pr : nat; cm_pw : nat }.

(** [Pipe] is the result of [os.Pipe]. *)
Definition AddCmdMonitor (Pipe : result (nat * nat)) (cmd : Cmd) : Cmd * result CmdMonitor :=
  match Pipe with
  | Err err => (cmd, Err err)
  | Panic why => (cmd, Panic why)
  | Ok (pr, pw) => (MkCmd (ExtraFiles cmd ++ [pw]), Ok (MkCmdMonitor pr pw))
  end.

(** ** Watching *)

(** The goroutine of [Watch]: not started, in Read, after Read, and after it has
    closed the channel. *)
Inductive reader := Unstarted | Reading | Returned | Closed.

Record cm_state := MkCM {
  cm_cmd : Cmd;                 (* as it was prepared *)
  cm_started : option nat;      (* the process of the command *)
  cm_holders : gset nat;        (* processes that have the writing end *)
  cm_parent : bool;             (* the parent has it *)
  cm_data : bool;               (* something was written *)
  cm_watching : bool;           (* Watch was called *)
  cm_reader : reader
}.

Section Watch.
Context (cm : CmdMonitor).

(** [Watch] starts the goroutine and then closes the parent's descriptor. *)
Inductive cm_step : cm_state → cm_state → Prop :=
| cm_start cmd H parent data w r pid :
    pid ∉ H →
    cm_step (MkCM cmd None H parent data w r)
            (MkCM cmd (Some pid)
               (if decide (cm_pw cm ∈ ExtraFiles cmd) then if parent then {[pid]} ∪ H else H else H)
               parent data w r)
| cm_fork cmd c H parent data w r pid child :
    pid ∈ H → child ∉ H →
    cm_step (MkCM cmd c H parent data w r) (MkCM cmd c ({[child]} ∪ H) parent data w r)
| cm_release cmd c H parent data w r pid :
    cm_step (MkCM cmd c H parent data w r) (MkCM cmd c (H ∖ {[pid]}) parent data w r)
| cm_write cmd c H parent data w r pid :
    pid ∈ H →
    cm_step (MkCM cmd c H parent data w r) (MkCM cmd c H parent true w r)
| cm_watch cmd c H parent data :
    cm_step (MkCM cmd c H parent data false Unstarted) (MkCM cmd c H parent data true Reading)
| cm_close cmd c H data r :
    cm_step (MkCM cmd c H true data true r) (MkCM cmd c H false data true r)
| cm_read cmd c H parent data w :
    data = true ∨ (H = ∅ ∧ parent = false) →
    cm_step (MkCM cmd c H parent data w Reading) (MkCM cmd c H parent data w Returned)
| cm_done cmd c H parent data w :
    cm_step (MkCM cmd c H parent data w Returned) (MkCM cmd c H parent data w Closed).

Definition cm_init (cmd : Cmd) : cm_state := MkCM cmd None ∅ true false false Unstarted.

(** The command was started before Watch is called. *)
Definition cm_reachable (cmd : Cmd) (st : cm_state) : Prop :=
  ∃ pid st0, cm_step (cm_init cmd) st0 ∧ cm_started st0 = Some pid ∧ rtc cm_step st0 st.

(** What holds of every state after the start of the command. *)
Definition cm_inv (st : cm_state) : Prop :=
  is_Some (cm_started st) ∧
  (cm_watching st = false → cm_parent st = true ∧ cm_reader st = Unstarted) ∧
  (cm_watching st = true → cm_reader st ≠ Unstarted) ∧
  (cm_reader st = Returned ∨ cm_reader st = Closed → cm_data st = true ∨ (cm_holders st = ∅ ∧ cm_parent st = false)).

Lemma cm_step_inv st st' : cm_inv st → cm_step st st' → cm_inv st'.
Proof.
  intros ([pid Hp] & H1 & H2 & H3) Hstep. unfold cm_inv. destruct Hstep; simpl in *; simplify_eq;
    (split_and!; [by eauto|try done; try tauto; try (by intros [|])..]).
  - intros Hr. destruct (H3 Hr) as [?|[-> ?]]; [by left|]. set_solver.
  - intros Hr. destruct (H3 Hr) as [?|[-> ?]]; [by left|]. right. set_solver.
  - intros Hw. by destruct (H1 Hw).
  - intros Hw. by destruct (H1 Hw).
Qed.

Lemma cm_reachable_inv cmd st : cm_reachable cmd st → cm_inv st.
Proof.
  intros (pid & st0 & Hstep & Hp & Hrun). assert (cm_inv st0) as Hinv.
  { inversion Hstep; subst; simpl in *; try done; unfold cm_inv; simpl; split_and!; [by eauto|done..|by intros [|]]. }
  clear Hstep Hp. induction Hrun as [|s1 s2 s3 Hs _ IH]; [done|]. apply IH. by eapply cm_step_inv.
Qed.

(** The channel returned by [Watch] is closed only when no process has the writing
    end of the pipe any more, neither the command nor a descendant nor the parent,
    unless one of them wrote to it.  And as soon as no process has it, the parent
    alone can get to the point where the channel is closed. *)
Theorem Watch_exact cmd st :
  cm_reachable cmd st → cm_watching st = true →
  (cm_reader st = Closed → cm_data st = true ∨ (cm_holders st = ∅ ∧ cm_parent st = false)) ∧
  (cm_holders st = ∅ → ∃ st', rtc cm_step st st' ∧ cm_reader st' = Closed ∧ cm_holders st' = ∅).
Proof.
  intros Hreach Hw. apply cm_reachable_inv in Hreach as (_ & _ & Hr & Hcl). split; [intros; by apply Hcl; right|].
  intros Hno. destruct st as [c0 c H parent data w r]. simpl in *. subst H w.
  set (after := MkCM c0 c ∅ false data true r).
  assert (rtc cm_step (MkCM c0 c ∅ parent data true r) after) as Hclose.
  { destruct parent; [|done]. apply rtc_once, cm_close. }
  destruct r; [by destruct Hr| | |]; (eexists; split; [etrans; [exact Hclose|]|]).
  - eapply rtc_l; [apply cm_read; by right|]. apply rtc_once, cm_done.
  - done.
  - apply rtc_once, cm_done.
  - done.
  - done.
  - done.
Qed.
End Watch.

(** ** Examples *)

Module cm_example.
Definition cm : CmdMonitor := MkCmdMonitor 3 4.
Definition cmd : Cmd := MkCmd [4%nat].
Definition prepared : cm_state := cm_init cmd.
Definition started : cm_state := MkCM cmd (Some 10%nat) {[10%nat]} true false false Unstarted.
Definition forked : cm_state := MkCM cmd (Some 10%nat) ({[11%nat]} ∪ {[10%nat]}) true false false Unstarted.
(** The command has exited and is watched. *)
Definition exited (H : gset nat) : cm_state := MkCM cmd (Some 10%nat) (H ∖ {[10%nat]}) false false true Reading.
End cm_example.

Import cm_example.

Lemma example_start : cm_step cm prepared started.
Proof.
  replace started with (MkCM cmd (Some 10%nat) (if decide (cm_pw cm ∈ ExtraFiles cmd) then {[10%nat]} ∪ ∅ else ∅) true false false Unstarted).
  - apply cm_start. set_solver.
  - rewrite decide_True by (by apply elem_of_cons; left). by rewrite right_id_L by apply _.
Qed.

Lemma example_exit H : rtc (cm_step cm) (MkCM cmd (Some 10%nat) H true false false Unstarted) (exited H).
Proof.
  eapply rtc_l; [apply (cm_release _ _ _ _ _ _ _ _ 10%nat)|].
  eapply rtc_l; [apply cm_watch|]. apply rtc_once, cm_close.
Qed.

(** The command has terminated and is watched, but as long as its child runs, the
    channel stays open. *)
Lemma descendant_delays_Watch :
  cm_reachable cm cmd (exited ({[11%nat]} ∪ {[10%nat]})) ∧
  ∀ st, cm_step cm (exited ({[11%nat]} ∪ {[10%nat]})) st → cm_reader st = Reading.
Proof.
  split.
  - exists 10%nat, started. split_and!; [apply example_start|done|].
    eapply rtc_l; [apply (cm_fork _ _ _ _ _ _ _ _ 10%nat 11%nat); set_solver|]. apply example_exit.
  - intros st Hstep. inversion Hstep; subst; try done.
    match goal with H : _ ∨ _ |- _ => destruct H as [?|[H _]]; [done|] end. exfalso. set_solver.
Qed.

Lemma Watch_exact_witness :
  ∃ st', rtc (cm_step cm) (exited {[10%nat]}) st' ∧ cm_reader st' = Closed ∧ cm_holders st' = ∅.
Proof.
  refine (proj2 (Watch_exact cm cmd (exited {[10%nat]}) _ _) _).
  - exists 10%nat, started. split_and!; [apply example_start|done|apply example_exit].
  - done.
  - simpl. set_solver.
Defined.
