(* ===== verification/Effects.v ===== *)
(** * Effectful Go code: programs, their execution and their interleavings

    A Go function that talks to its environment is a [prog]: a finite tree whose
    nodes are calls to the environment and whose leaves are results.  [run]
    executes a program alone against a state; [step] interleaves a pool of
    threads that share the state and the hashed key mutex
    (k8s.io/utils/keymutex.NewHashed), where [hash] is its hash function modulo
    the number of mutexes.

    [inside] and [outside] are a small program logic for code of the shape
    "LockKey(n); ...; UnlockKey(n)": a thread may assume that what it knows about
    key [n] stays true while it holds the lock, and in turn changes nothing that
    belongs to another key.  [pool_sound] turns this into a statement about every
    interleaving; [pool_progress] and [pool_terminates] exclude deadlocks and
    infinite runs. *)
From S2P Require Import Prelude.

(** ** Programs *)

Inductive prog (E : Type → Type) (A : Type) : Type :=
| Ret (a : A)
| Vis {B : Type} (e : E B) (k : B → prog E A).
Arguments Ret {E A} _.
Arguments Vis {E A B} _ _.

Fixpoint pbind {E A B} (f : A → prog E B) (p : prog E A) : prog E B :=
  match p with
  | Ret a => f a
  | Vis e k => Vis e (λ b, pbind f (k b))
  end.

Definition trigger {E A} (e : E A) : prog E A := Vis e Ret.

(** A Go function with an error result. *)
Definition go (E : Type → Type) (A : Type) : Type := prog E (result A).

#[global] Instance go_ret {E} : MRet (go E) := λ A a, Ret (Ok a).
#[global] Instance go_bind {E} : MBind (go E) := λ A B f p,
  pbind (λ r, match r with Ok a => f a | Err e => Ret (Err e) | Panic w => Ret (Panic w) end) p.

Definition fail {E A} (e : error) : go E A := Ret (Err e).
Definition from_result {E A} (r : result A) : go E A := Ret r.
Definition call {E A} (e : E (result A)) : go E A := trigger e.

(** [v, err := f()]: the error becomes a value, a panic does not. *)
Definition attempt {E A} (p : go E A) : go E (result A) :=
  pbind (λ r, Ret (match r with Panic w => Panic w | _ => Ok r end)) p.

(** [errors.Wrap(err, msg)] applied to the error of a call. *)
Definition wrap_err {E A} (msg : string) (p : go E A) : go E A :=
  pbind (λ r, Ret (match r with Err e => Err (Wrap e msg) | _ => r end)) p.

(** A loop whose body may return early with an error. *)
Fixpoint for_each {E X} (l : list X) (body : X → go E ()) : go E () :=
  match l with
  | [] => mret ()
  | x :: l' => body x ≫= λ _, for_each l' body
  end.

(** Execution alone. *)
Fixpoint run {E S A} (serve : ∀ B, E B → S → S * B) (p : prog E A) (s : S) : S * A :=
  match p with
  | Ret a => (s, a)
  | Vis e k => let '(s', b) := serve _ e s in run serve (k b) s'
  end.

(** The calls of an execution alone, with their answers. *)
Record io (E : Type → Type) := Io { io_type : Type; io_call : E io_type; io_answer : io_type }.
Arguments Io {E io_type} _ _ : rename.

Fixpoint trace {E S A} (serve : ∀ B, E B → S → S * B) (p : prog E A) (s : S) : list (io E) :=
  match p with
  | Ret _ => []
  | Vis e k => let '(s', b) := serve _ e s in Io e b :: trace serve (k b) s'
  end.

(** Every call that a program may make, whatever the answers are. *)
Fixpoint all_calls {E A} (P : ∀ B, E B → Prop) (p : prog E A) : Prop :=
  match p with
  | Ret _ => True
  | Vis e k => P _ e ∧ ∀ b, all_calls P (k b)
  end.

(** ** The key mutex *)

Inductive locked (F : Type → Type) : Type → Type :=
| LockKey (key : string) : locked F ()
| UnlockKey (key : string) : locked F ()
| Do {B} (e : F B) : locked F B.
Arguments LockKey {F} _.
Arguments UnlockKey {F} _.
Arguments Do {F B} _.

(** The calls of a program that knows nothing about locks. *)
Fixpoint lift {F A} (p : prog F A) : prog (locked F) A :=
  match p with
  | Ret a => Ret a
  | Vis e k => Vis (Do e) (λ b, lift (k b))
  end.

(** [LockKey(key); defer UnlockKey(key); body]: the deferred call runs whether
    the body returns a value, returns an error or panics. *)
Definition with_lock {F A} (key : string) (body : prog F A) : prog (locked F) A :=
  Vis (LockKey key) (λ _,
    pbind (λ r, Vis (UnlockKey key) (λ _, Ret r)) (lift body)).

(** A program run alone sees every lock free. *)
Definition serve_locked {F S} (serve : ∀ B, F B → S → S * B) :
    ∀ B, locked F B → S → S * B := λ B e,
  match e in locked _ B return S → S * B with
  | LockKey _ | UnlockKey _ => λ s, (s, ())
  | Do e => serve _ e
  end.

(** ** Interleavings *)

Section Pool.
Context {F : Type → Type} {S R : Type}.
Context (serve : ∀ B, F B → S → S * B) (hash : string → nat).

Abbreviation thread := (prog (locked F) R).

Record config := MkConfig {
  cfg_state : S;
  cfg_locks : gset nat;
  cfg_threads : list thread
}.

(** One step of one thread.  A lock request waits until the mutex is free. *)
Inductive thread_step : S → gset nat → thread → S → gset nat → thread → Prop :=
| step_lock s L key k :
    hash key ∉ L → thread_step s L (Vis (LockKey key) k) s ({[hash key]} ∪ L) (k ())
| step_unlock s L key k :
    thread_step s L (Vis (UnlockKey key) k) s (L ∖ {[hash key]}) (k ())
| step_do s L B (e : F B) k s' b :
    serve B e s = (s', b) → thread_step s L (Vis (Do e) k) s' L (k b).

Inductive step : config → config → Prop :=
| step_thread s L ts i t s' L' t' :
    ts !! i = Some t → thread_step s L t s' L' t' →
    step (MkConfig s L ts) (MkConfig s' L' (<[i:=t']> ts)).

(** The same, executable: the step a thread takes, unless it waits or is done. *)
Definition try_step (s : S) (L : gset nat) (t : thread) : option (S * gset nat * thread) :=
  match t with
  | Ret _ => None
  | Vis e k =>
      match e in locked _ B return (B → thread) → option (S * gset nat * thread) with
      | LockKey key => λ k, if decide (hash key ∈ L) then None else Some (s, {[hash key]} ∪ L, k ())
      | UnlockKey key => λ k, Some (s, L ∖ {[hash key]}, k ())
      | Do e => λ k, let '(s', b) := serve _ e s in Some (s', L, k b)
      end k
  end.

(** Up to [fuel] steps of thread [i]. *)
Fixpoint advance (fuel : nat) (i : nat) (c : config) : config :=
  match fuel with
  | O => c
  | Datatypes.S fuel' =>
      match cfg_threads c !! i with
      | Some t =>
          match try_step (cfg_state c) (cfg_locks c) t with
          | Some (s', L', t') => advance fuel' i (MkConfig s' L' (<[i:=t']> (cfg_threads c)))
          | None => c
          end
      | None => c
      end
  end.

Definition can_step (i : nat) (c : config) : bool :=
  match cfg_threads c !! i with
  | Some t => match try_step (cfg_state c) (cfg_locks c) t with Some _ => true | None => false end
  | None => false
  end.

(** New calls may arrive at any time. *)
Inductive pool_run (handlers : thread → Prop) : config → config → Prop :=
| pool_refl c : pool_run handlers c c
| pool_step c c' c'' : pool_run handlers c c' → step c' c'' → pool_run handlers c c''
| pool_spawn c s L ts t :
    pool_run handlers c (MkConfig s L ts) → handlers t →
    pool_run handlers c (MkConfig s L (ts ++ [t])).

Definition finished (t : thread) : Prop := ∃ r, t = Ret r.

#[global] Instance finished_dec t : Decision (finished t).
Proof. destruct t as [r|B e k]; [left; by exists r|right; by intros [r ?]]. Defined.

(** A thread after one step of a thread; a pool after one step of one thread. *)
Definition subthread (t' t : thread) : Prop :=
  match t with Ret _ => False | Vis e k => ∃ b, t' = k b end.
Definition subthreads (ts' ts : list thread) : Prop :=
  ∃ i t t', ts !! i = Some t ∧ subthread t' t ∧ ts' = <[i:=t']> ts.

(** ** A logic for code that holds the lock of one key *)

(** [view n s] is the part of the state that belongs to key [n]; [vok] is what
    every reachable state satisfies for a key; [post] is what a call promises
    about its result and its key when it releases the lock. *)
Context {V : Type} (view : string → S → V) (swf : S → Prop).
Context (vok : string → V → Prop) (post : string → R → V → Prop).

(** One call made on behalf of key [n] in view [v] touches nothing of another
    key and ends in a good view, from where [after] holds. *)
Definition call_ok {B} (n : string) (e : F B) (v : V) (after : B → V → Prop) : Prop :=
  ∀ s s' b, swf s → view n s = v → serve B e s = (s', b) →
    swf s' ∧ vok n (view n s') ∧ (∀ m, m ≠ n → view m s' = view m s) ∧ after b (view n s').

(** [inside n p v]: [p] holds the lock of [n], whose view is [v]. *)
Fixpoint inside (n : string) (p : thread) (v : V) {struct p} : Prop :=
  match p with
  | Ret _ => False
  | Vis e k =>
      match e in locked _ B return (B → V → Prop) → (B → thread) → Prop with
      | LockKey _ => λ _ _, False
      | UnlockKey m => λ _ k, m = n ∧ ∃ r, k () = Ret r ∧ post n r v
      | Do e => λ after _, call_ok n e v after
      end (λ b, inside n (k b)) k
  end.

Definition outside (p : thread) : Prop :=
  match p with
  | Ret _ => True
  | Vis e k =>
      match e in locked _ B return (B → thread) → Prop with
      | LockKey n => λ k, ∀ v, vok n v → inside n (k ()) v
      | _ => λ _, False
      end k
  end.

(** The same for the code between the two lock calls. *)
Fixpoint wp {A} (n : string) (p : prog F A) (v : V) (Q : A → V → Prop) : Prop :=
  match p with
  | Ret a => Q a v
  | Vis e k => call_ok n e v (λ b v', wp n (k b) v' Q)
  end.

(** What holds of every reachable configuration: [owners] says which key, if
    any, each thread has locked. *)
Definition pool_inv (c : config) : Prop :=
  swf (cfg_state c) ∧ (∀ n, vok n (view n (cfg_state c))) ∧
  ∃ owners : list (option string),
    Forall2 (λ t o, match o with
                    | None => outside t
                    | Some n => inside n t (view n (cfg_state c))
                    end) (cfg_threads c) owners ∧
    (∀ h, h ∈ cfg_locks c ↔ ∃ i n, owners !! i = Some (Some n) ∧ hash n = h) ∧
    (∀ i j n m, owners !! i = Some (Some n) → owners !! j = Some (Some m) →
       hash n = hash m → i = j).
End Pool.

Arguments config {F} S R : rename.

(** ** Lemmas *)

Lemma run_bind {E S A B} (serve : ∀ B, E B → S → S * B) (f : A → prog E B) p s :
  run serve (pbind f p) s = let '(s', a) := run serve p s in run serve (f a) s'.
Proof.
  revert s. induction p as [a|C e k IH]; intros s; simpl; [done|].
  destruct (serve C e s) as [s' b]. apply IH.
Qed.

Lemma trace_bind {E S A B} (serve : ∀ B, E B → S → S * B) (f : A → prog E B) p s :
  trace serve (pbind f p) s =
    trace serve p s ++ let '(s', a) := run serve p s in trace serve (f a) s'.
Proof.
  revert s. induction p as [a|C e k IH]; intros s; simpl; [done|].
  destruct (serve C e s) as [s' b]. simpl. by rewrite IH.
Qed.

Lemma trace_go_bind {E S A B} (serve : ∀ B, E B → S → S * B) (f : A → go E B) (p : go E A) s :
  trace serve (p ≫= f) s =
    trace serve p s ++
    let '(s', r) := run serve p s in match r with Ok a => trace serve (f a) s' | _ => [] end.
Proof.
  unfold mbind, go_bind. rewrite trace_bind. destruct (run serve p s) as [s' [a|e|w]]; done.
Qed.

Lemma trace_attempt {E S A} (serve : ∀ B, E B → S → S * B) (p : go E A) s :
  trace serve (attempt p) s = trace serve p s.
Proof. unfold attempt. rewrite trace_bind. destruct (run serve p s). apply app_nil_r. Qed.

Lemma all_calls_mono {E A} (P Q : ∀ B, E B → Prop) (p : prog E A) :
  (∀ B e, P B e → Q B e) → all_calls P p → all_calls Q p.
Proof. intros HPQ. induction p as [a|B e k IH]; [done|]. intros [He Hk]. split; auto. Qed.

Lemma all_calls_bind {E A B} (P : ∀ B, E B → Prop) (f : A → prog E B) p :
  all_calls P p → (∀ a, all_calls P (f a)) → all_calls P (pbind f p).
Proof. intros Hp Hf. induction p as [a|C e k IH]; simpl; [apply Hf|]. destruct Hp as [He Hk]. split; [done|]. auto. Qed.

Lemma all_calls_go_bind {E A B} (P : ∀ B, E B → Prop) (f : A → go E B) (p : go E A) :
  all_calls P p → (∀ a, all_calls P (f a)) → all_calls P (p ≫= f).
Proof. intros Hp Hf. apply all_calls_bind; [done|]. intros [a|e|w]; [apply Hf|done..]. Qed.

Lemma all_calls_attempt {E A} (P : ∀ B, E B → Prop) (p : go E A) : all_calls P p → all_calls P (attempt p).
Proof. intros Hp. by apply all_calls_bind. Qed.

Lemma all_calls_wrap_err {E A} (P : ∀ B, E B → Prop) msg (p : go E A) : all_calls P p → all_calls P (wrap_err msg p).
Proof. intros Hp. by apply all_calls_bind. Qed.

Lemma all_calls_for_each {E X} (P : ∀ B, E B → Prop) (l : list X) (body : X → go E ()) :
  (∀ x, all_calls P (body x)) → all_calls P (for_each l body).
Proof. intros H. induction l as [|x l IH]; [done|]. by apply all_calls_go_bind. Qed.

(** All calls of a program without loops; [tac] unfolds its parts. *)
Ltac calls_with tac :=
  repeat first
    [ exact I
    | progress intros
    | tac
    | apply all_calls_go_bind | apply all_calls_bind | apply all_calls_attempt | apply all_calls_wrap_err
    | apply all_calls_for_each
    | progress unfold call, trigger, from_result, fail
    | match goal with
      | |- all_calls _ (Ret _) => exact I
      | |- all_calls _ (mret _) => exact I
      | |- all_calls _ (Vis _ _) => split; [done|]
      | |- all_calls _ (let '(_, _) := ?x in _) => destruct x
      | |- all_calls _ (match ?x with _ => _ end) => destruct x
      | |- all_calls _ (if ?x then _ else _) => destruct x
      | |- all_calls _ (default _ ?x) => destruct x
      end ].

Lemma all_calls_trace {E S A} (P : ∀ B, E B → Prop) (serve : ∀ B, E B → S → S * B) (p : prog E A) s :
  all_calls P p → Forall (λ i, P _ (io_call _ i)) (trace serve p s).
Proof.
  revert s. induction p as [a|B e k IH]; intros s; simpl; [done|]. intros [He Hk].
  destruct (serve B e s) as [s' b]. constructor; [done|]. by apply IH.
Qed.

(** What every call preserves, the program preserves. *)
Lemma run_invariant {E S A} (P : ∀ B, E B → Prop) (I : S → Prop) (serve : ∀ B, E B → S → S * B) (p : prog E A) s :
  all_calls P p → (∀ B (e : E B) s, P B e → I s → I (serve B e s).1) → I s → I (run serve p s).1.
Proof.
  intros Hp Hserve. revert s. induction p as [a|B e k IH]; intros s Hs; [done|]. cbn [run]. destruct Hp as [He Hk].
  pose proof (Hserve B e s He Hs) as Hs'. destruct (serve B e s) as [s' b]. by apply IH.
Qed.

Lemma run_lift {F S A} (serve : ∀ B, F B → S → S * B) (p : prog F A) s :
  run (serve_locked serve) (lift p) s = run serve p s.
Proof.
  revert s. induction p as [a|C e k IH]; intros s; simpl; [done|].
  destruct (serve C e s) as [s' b]. apply IH.
Qed.

Lemma run_with_lock {F S A} (serve : ∀ B, F B → S → S * B) key (p : prog F A) s :
  run (serve_locked serve) (with_lock key p) s = run serve p s.
Proof. simpl. rewrite run_bind, run_lift. by destruct (run serve p s). Qed.

Lemma run_go_bind {E S A B} (serve : ∀ B, E B → S → S * B) (f : A → go E B) (p : go E A) s :
  run serve (p ≫= f) s =
    let '(s', r) := run serve p s in
    match r with Ok a => run serve (f a) s' | Err e => (s', Err e) | Panic w => (s', Panic w) end.
Proof.
  unfold mbind, go_bind. rewrite run_bind. destruct (run serve p s) as [s' [a|e|w]]; done.
Qed.

Lemma run_attempt {E S A} (serve : ∀ B, E B → S → S * B) (p : go E A) s :
  run serve (attempt p) s =
    let '(s', r) := run serve p s in (s', match r with Panic w => Panic w | _ => Ok r end).
Proof. unfold attempt. rewrite run_bind. by destruct (run serve p s). Qed.

Lemma run_wrap_err {E S A} (serve : ∀ B, E B → S → S * B) msg (p : go E A) s :
  run serve (wrap_err msg p) s =
    let '(s', r) := run serve p s in (s', match r with Err e => Err (Wrap e msg) | _ => r end).
Proof. unfold wrap_err. rewrite run_bind. by destruct (run serve p s). Qed.

Section PoolFacts.
Context {F : Type → Type} {S R V : Type}.
Context (serve : ∀ B, F B → S → S * B) (hash : string → nat).
Context (view : string → S → V) (swf : S → Prop) (vok : string → V → Prop).
Context (post : string → R → V → Prop).

Lemma try_step_spec s L (t : prog (locked F) R) s' L' t' :
  try_step serve hash s L t = Some (s', L', t') → thread_step serve hash s L t s' L' t'.
Proof.
  destruct t as [r|B e k]; [done|]. destruct e as [key|key|B e]; simpl.
  - case_decide; [done|]. intros [= <- <- <-]. by constructor.
  - intros [= <- <- <-]. constructor.
  - destruct (serve B e s) as [s1 b] eqn:He. intros [= <- <- <-]. by constructor.
Qed.

Lemma advance_one (c : config S R) i :
  can_step serve hash i c = true → step serve hash c (advance serve hash 1 i c).
Proof.
  unfold can_step. destruct c as [s L ts]. cbn [advance cfg_threads cfg_state cfg_locks].
  destruct (ts !! i) as [t|] eqn:Hi; [|done]. destruct (try_step _ _ s L t) as [[[s' L'] t']|] eqn:Ht; [|done].
  intros _. econstructor; [done|]. by apply try_step_spec.
Qed.

Lemma advance_run handlers (c0 c : config S R) fuel i :
  pool_run serve hash handlers c0 c → pool_run serve hash handlers c0 (advance serve hash fuel i c).
Proof.
  revert c. induction fuel as [|fuel IH]; intros c Hc; [done|]. cbn [advance].
  destruct (cfg_threads c !! i) as [t|] eqn:Hi; [|done].
  destruct (try_step _ _ _ _ t) as [[[s' L'] t']|] eqn:Ht; [|done].
  apply IH. eapply pool_step; [done|]. destruct c as [s L ts]. simpl in *.
  econstructor; [done|]. by apply try_step_spec.
Qed.

Lemma call_ok_mono {B} n (e : F B) v (P Q : B → V → Prop) :
  call_ok serve view swf vok n e v P → (∀ b v', vok n v' → P b v' → Q b v') →
  call_ok serve view swf vok n e v Q.
Proof. intros H HPQ s s' b Hs Hv He. destruct (H s s' b Hs Hv He) as (? & ? & ? & ?). auto. Qed.

Lemma wp_mono {A} n (p : prog F A) v (P Q : A → V → Prop) :
  vok n v → wp serve view swf vok n p v P → (∀ a v', vok n v' → P a v' → Q a v') →
  wp serve view swf vok n p v Q.
Proof.
  revert v. induction p as [a|B e k IH]; simpl; intros v Hv Hp HPQ; [auto|].
  eapply call_ok_mono; [done|]. eauto.
Qed.

Lemma wp_bind {A B} n (p : prog F A) (f : A → prog F B) v Q :
  wp serve view swf vok n p v (λ a v', wp serve view swf vok n (f a) v' Q) →
  wp serve view swf vok n (pbind f p) v Q.
Proof.
  revert v. induction p as [a|C e k IH]; simpl; intros v Hp; [done|].
  eapply call_ok_mono; [done|]. eauto.
Qed.

(** The logic speaks about executions alone, too. *)
Lemma wp_run {A} n (p : prog F A) Q s s' a :
  wp serve view swf vok n p (view n s) Q → swf s → vok n (view n s) → run serve p s = (s', a) →
  swf s' ∧ vok n (view n s') ∧ (∀ m, m ≠ n → view m s' = view m s) ∧ Q a (view n s').
Proof.
  revert s. induction p as [x|B e k IH]; intros s Hp Hs Hv Hrun.
  - simpl in *. by injection Hrun as <- <-.
  - simpl in Hrun. destruct (serve B e s) as [s1 b] eqn:He.
    destruct (Hp s s1 b Hs eq_refl He) as (Hs1 & Hv1 & Hf1 & Hp1).
    destruct (IH b s1) as (? & ? & Hf & ?); [done..|]. split_and!; [done..| |done].
    intros m Hm. by rewrite Hf, Hf1.
Qed.

Lemma lift_inside {A} n (f : A → R) (p : prog F A) v :
  wp serve view swf vok n p v (λ a, post n (f a)) →
  inside serve view swf vok post n
    (pbind (λ a, Ret (f a)) (pbind (λ a, Vis (UnlockKey n) (λ _, Ret a)) (lift p))) v.
Proof.
  revert v. induction p as [a|B e k IH]; simpl; intros v Hp; [eauto|].
  eapply call_ok_mono; [done|]. eauto.
Qed.

Lemma with_lock_outside {A} n (f : A → R) (p : prog F A) :
  (∀ v, vok n v → wp serve view swf vok n p v (λ a, post n (f a))) →
  outside serve view swf vok post (pbind (λ a, Ret (f a)) (with_lock n p)).
Proof. intros H v Hv. by apply lift_inside, H. Qed.

Abbreviation outside_ := (outside serve view swf vok post).
Abbreviation inside_ := (inside serve view swf vok post).
Abbreviation pool_inv_ := (pool_inv serve hash view swf vok post).

Lemma Forall2_insert_l {X Y} (P P' : X → Y → Prop) xs ys i x' y' :
  Forall2 P xs ys → (i < length xs)%nat → P' x' y' →
  (∀ j x y, j ≠ i → xs !! j = Some x → ys !! j = Some y → P x y → P' x y) →
  Forall2 P' (<[i:=x']> xs) (<[i:=y']> ys).
Proof.
  intros HP Hi Hxy Hj. pose proof (Forall2_length _ _ _ HP) as Hlen. apply Forall2_same_length_lookup_2.
  { by rewrite !length_insert. }
  intros j x y Hx Hy. destruct (decide (i = j)) as [<-|Hij].
  - rewrite list_lookup_insert_eq in Hx by lia. rewrite list_lookup_insert_eq in Hy by lia. by simplify_eq.
  - rewrite list_lookup_insert_ne in Hx by done. rewrite list_lookup_insert_ne in Hy by done. eapply Hj; [done..|].
    by eapply Forall2_lookup_lr.
Qed.

Lemma pool_inv_thread s L ts i t s' L' t' :
  pool_inv_ (MkConfig s L ts) → ts !! i = Some t →
  thread_step serve hash s L t s' L' t' → pool_inv_ (MkConfig s' L' (<[i:=t']> ts)).
Proof.
  intros (Hs & Hok & owners & Hts & HL & Huniq) Hi Hstep. simpl in *.
  pose proof (lookup_lt_Some _ _ _ Hi) as Hlt.
  destruct (Forall2_lookup_l _ _ _ _ _ Hts Hi) as (o & Ho & Ht).
  pose proof (lookup_lt_Some _ _ _ Ho) as Hlto.
  destruct Hstep as [s L n k Hfree|s L n k|s L B e k s' b He]; destruct o as [m|]; simpl in Ht; try done.
  - split_and!; [done..|]. exists (<[i:=Some n]> owners). simpl. split_and!.
    + eapply Forall2_insert_l; [done..|by apply Ht|done].
    + intros h. rewrite elem_of_union, elem_of_singleton, HL. split.
      * intros [->|(j & m & Hj & <-)]; [exists i, n; by rewrite list_lookup_insert_eq|].
        exists j, m. rewrite list_lookup_insert_ne; [done|]. intros <-. congruence.
      * intros (j & m & Hj & <-). apply list_lookup_insert_Some in Hj as [(-> & [= ->] & _)|[_ Hj]];
          [by left|right; eauto].
    + intros j1 j2 n1 n2 H1 H2 Hh.
      apply list_lookup_insert_Some in H1 as [(-> & [= ->] & _)|[? H1]];
        apply list_lookup_insert_Some in H2 as [(-> & [= ->] & _)|[? H2]]; [done| | |eauto].
      * destruct Hfree. apply HL. eauto.
      * destruct Hfree. apply HL. eauto.
  - destruct Ht as (<- & r & -> & Hpost). split_and!; [done..|].
    exists (<[i:=None]> owners). simpl. split_and!.
    + eapply Forall2_insert_l; [done..|]. done.
    + intros h. rewrite elem_of_difference, elem_of_singleton, HL. split.
      * intros ((j & m & Hj & <-) & Hne). exists j, m. split; [|done].
        rewrite list_lookup_insert_ne; [done|]. intros <-. congruence.
      * intros (j & m & Hj & <-). apply list_lookup_insert_Some in Hj as [(_ & ? & _)|[Hne Hj]]; [done|].
        split; [eauto|]. intros Hh. apply Hne. eauto.
    + intros j1 j2 n1 n2 H1 H2. apply list_lookup_insert_Some in H1 as [(_ & ? & _)|[_ H1]]; [done|].
      apply list_lookup_insert_Some in H2 as [(_ & ? & _)|[_ H2]]; [done|eauto].
  - destruct (Ht s s' b Hs eq_refl He) as (Hs' & Hok' & Hframe & Hin). split_and!; [done| |].
    { intros n. destruct (decide (n = m)) as [->|Hn]; [done|]. simpl. by rewrite Hframe. }
    exists owners. simpl. rewrite <-(list_insert_id owners i (Some m)) at 1 by done.
    split_and!; [|done..]. eapply Forall2_insert_l; [done..|].
    intros j x [n|] Hj Hx Hy; [|done]. rewrite Hframe; [done|]. intros ->. eauto.
Qed.

Lemma pool_sound handlers c0 c :
  pool_inv_ c0 → (∀ t, handlers t → outside_ t) → pool_run serve hash handlers c0 c → pool_inv_ c.
Proof.
  intros Hinit Hh. induction 1 as [|c c' c'' _ IH Hstep|c s L ts t _ IH Ht]; [done| |].
  - specialize (IH Hinit). destruct Hstep. by eapply pool_inv_thread.
  - destruct (IH Hinit) as (Hs & Hok & owners & Hts & HL & Huniq). split_and!; [done..|].
    assert (∀ i n, (owners ++ [None]) !! i = Some (Some n) → owners !! i = Some (Some n)) as Happ.
    { intros i n [?|[_ H]]%lookup_app_Some; [done|].
      by apply list_lookup_singleton_Some in H as [_ ?]. }
    exists (owners ++ [None]). split_and!; simpl in *.
    + apply Forall2_app; [done|]. constructor; [by apply Hh|done].
    + intros h. rewrite HL. split; intros (i & n & Hi & Hn); exists i, n; split; auto.
      by apply lookup_app_l_Some.
    + eauto.
Qed.

Lemma pool_init (s : S) : swf s → (∀ n, vok n (view n s)) → pool_inv_ (MkConfig s ∅ []).
Proof.
  intros. split_and!; [done..|]. exists []. split_and!; simpl; [done| |].
  - intros h. split; [set_solver|]. intros (i & n & Hi & _). by rewrite lookup_nil in Hi.
  - intros i j n m Hi. by rewrite lookup_nil in Hi.
Qed.

(** What belongs to a key changes only while its mutex is held. *)
Lemma pool_isolated c c' m :
  pool_inv_ c → step serve hash c c' →
  view m (cfg_state c') ≠ view m (cfg_state c) → hash m ∈ cfg_locks c.
Proof.
  intros (Hs & _ & owners & Hts & HL & _) Hstep Hne. destruct Hstep as [s L ts i t s' L' t' Hi Ht]; simpl in *.
  destruct (Forall2_lookup_l _ _ _ _ _ Hts Hi) as (o & Ho & Hin).
  destruct Ht as [s L n k Hfree|s L n k|s L B e k s' b He]; [done..|].
  destruct o as [n|]; simpl in Hin; [|done]. destruct (Hin s s' b Hs eq_refl He) as (_ & _ & Hframe & _).
  destruct (decide (m = n)) as [->|Hmn]; [|by rewrite Hframe in Hne]. apply HL. eauto.
Qed.

(** A thread that is about to release its lock keeps its promise. *)
Lemma pool_post c i n k :
  pool_inv_ c → cfg_threads c !! i = Some (Vis (UnlockKey n) k) →
  ∃ r, k () = Ret r ∧ post n r (view n (cfg_state c)).
Proof.
  intros (_ & _ & owners & Hts & _) Hi. destruct (Forall2_lookup_l _ _ _ _ _ Hts Hi) as (o & _ & Ht).
  destruct o as [m|]; simpl in Ht; [|done]. by destruct Ht as (<- & ?).
Qed.

(** No deadlock: unless every call has returned, some thread can step. *)
Lemma pool_progress c :
  pool_inv_ c → Forall finished (cfg_threads c) ∨ ∃ c', step serve hash c c'.
Proof.
  intros (Hs & Hok & owners & Hts & HL & Huniq). destruct c as [s L ts]; simpl in *.
  destruct (set_choose_or_empty L) as [[h Hh]|HLe].
  - right. apply HL in Hh as (i & n & Hi & _).
    destruct (Forall2_lookup_r _ _ _ _ _ Hts Hi) as (t & Hti & Ht).
    destruct t as [r|B e k]; simpl in Ht; [done|]. destruct e as [m|m|B e]; [done|..].
    + eexists. econstructor; [done|]. constructor.
    + destruct (serve B e s) as [s' b] eqn:He. eexists. econstructor; [done|]. by econstructor.
  - assert (∀ i n, owners !! i ≠ Some (Some n)) as Hno.
    { intros i n Hi. assert (hash n ∈ L) by (apply HL; eauto). set_solver. }
    destruct (decide (Forall finished ts)) as [|Hnf]; [by left|right].
    apply not_Forall_Exists in Hnf; [|apply _]. apply Exists_exists in Hnf as (t & Ht & Hnf).
    apply list_elem_of_lookup in Ht as [i Hi].
    destruct (Forall2_lookup_l _ _ _ _ _ Hts Hi) as (o & Ho & Hout).
    destruct o as [n|]; [by destruct (Hno i n)|].
    destruct t as [r|B e k]; [destruct Hnf; by exists r|]. destruct e as [n|n|B e]; [|done..].
    eexists. econstructor; [done|]. constructor. set_solver.
Qed.

Lemma thread_step_sub s L (t : prog (locked F) R) s' L' t' :
  thread_step serve hash s L t s' L' t' → subthread t' t.
Proof. destruct 1; by eexists. Qed.

Lemma subthread_Acc (t : prog (locked F) R) : Acc subthread t.
Proof.
  induction t as [r|B e k IH]; constructor; [done|].
  intros t' [b ->]. apply IH.
Qed.

Lemma subthreads_Acc (ts : list (prog (locked F) R)) : Acc subthreads ts.
Proof.
  induction ts as [|t ts IHts].
  - constructor. intros ts' (i & t & t' & Hi & _). by rewrite lookup_nil in Hi.
  - revert ts IHts. induction (subthread_Acc t) as [t _ IHt]. intros ts IHts.
    induction IHts as [ts Hts IHts]. constructor. intros ts' ([|i] & t1 & t2 & Hi & Hsub & ->).
    + injection Hi as ->. simpl. apply IHt; [done|by constructor].
    + simpl. apply IHts. by exists i, t1, t2.
Qed.

(** Every run of the calls that are in the pool is finite. *)
Lemma pool_terminates (c : config S R) : Acc (λ c' c, step serve hash c c') c.
Proof.
  destruct c as [s L ts]. revert s L. induction (subthreads_Acc ts) as [ts _ IH]. intros s L.
  constructor. intros c' Hstep. inversion Hstep as [? ? ? i t s' L' t' Hi Ht]; subst.
  apply IH. exists i, t, t'. split_and!; [done| |done]. by eapply thread_step_sub.
Qed.
End PoolFacts.
