(* ===== verification/Json.v ===== *)
(** * JSON values and encoding/json

    [json] is a JSON text after parsing: members of an object in the order of the
    text, numbers as decimal literals.  [iface] is what [encoding/json] makes of it
    when it decodes into an [interface{}]: numbers become float64, objects become
    maps (the list of entries stands for the order in which a [range] statement
    visits them).  Decoders for struct fields follow the rules of [json.Unmarshal]:
    null leaves the destination alone, unknown members are ignored, member names
    match up to case, later members overwrite earlier ones. *)
From S2P Require Import Prelude GoStrings.

(** ** Values *)

Inductive json :=
| JNull
| JBool (b : bool)
| JNum (m : Z) (e : option Z)   (* m, or m * 10^e when written with fraction or exponent *)
| JStr (s : string)
| JArr (l : list json)
| JObj (members : list (string * json)).

(** float64: [man * 2^exp]. *)
Record float64 := MkFloat { man : Z; exp : Z }.

Inductive iface :=
| INil
| IBool (b : bool)
| IFloat (f : float64)
| IString (s : string)
| ISlice (l : list iface)
| IMap (entries : list (string * iface)).

(** ** float64 *)

Definition round_div (a b : Z) : Z :=
  let q := a / b in
  match 2 * (a mod b) ?= b with
  | Lt => q
  | Gt => q + 1
  | Eq => if Z.even q then q else q + 1
  end.

(** The float64 nearest to [num / den], [den > 0]; [None] on overflow. *)
Definition to_float64 (num den : Z) : option float64 :=
  if decide (num = 0) then Some (MkFloat 0 0)
  else
    let a := Z.abs num in
    let x0 := Z.log2 a - Z.log2 den - 52 in
    let x1 := if a * 2 ^ Z.max (- x0) 0 <? 2 ^ 52 * (den * 2 ^ Z.max x0 0) then x0 - 1 else x0 in
    let x := Z.max x1 (-1074) in
    let m := round_div (a * 2 ^ Z.max (- x) 0) (den * 2 ^ Z.max x 0) in
    if 1024 <=? Z.log2 m + x then None else Some (MkFloat (Z.sgn num * m) x).

Definition number (m : Z) (e : option Z) : option float64 :=
  let e := default 0 e in to_float64 (m * 10 ^ Z.max e 0) (10 ^ Z.max (- e) 0).

(** Conversions of a float64 to integer types truncate towards zero.  Values out
    of range are left to the implementation by the language; on amd64 the
    conversion goes through int64, where they become the smallest integer. *)
Definition trunc (f : float64) : Z :=
  if 0 <=? exp f then man f * 2 ^ exp f else Z.quot (man f) (2 ^ (- exp f)).
Definition float_to_int (f : float64) : Z :=
  let z := trunc f in if decide (- 2 ^ 63 ≤ z < 2 ^ 63) then z else - 2 ^ 63.
Definition float_to_int32 (f : float64) : Z := int32 (float_to_int f).
Definition float_to_uint32 (f : float64) : Z := uint32 (float_to_int f).

#[global] Arguments number : simpl never.
#[global] Arguments float_to_int32 : simpl never.
#[global] Arguments float_to_uint32 : simpl never.
#[global] Arguments float_to_int : simpl never.

(** ** Decoding into an interface *)

(** [m[k] = v] *)
Fixpoint map_set {A} (k : string) (v : A) (m : list (string * A)) : list (string * A) :=
  match m with
  | [] => [(k, v)]
  | (k', v') :: m' => if decide (k = k') then (k, v) :: m' else (k', v') :: map_set k v m'
  end.

Fixpoint map_get {A} (k : string) (m : list (string * A)) : option A :=
  match m with
  | [] => None
  | (k', v) :: m' => if decide (k = k') then Some v else map_get k m'
  end.

Fixpoint to_iface (j : json) : option iface :=
  match j with
  | JNull => Some INil
  | JBool b => Some (IBool b)
  | JNum m e => IFloat <$> number m e
  | JStr s => Some (IString s)
  | JArr l =>
      ISlice <$> (fix go l := match l with
                  | [] => Some []
                  | j :: l' => x ← to_iface j; xs ← go l'; Some (x :: xs)
                  end) l
  | JObj ms =>
      IMap <$> (fix go ms m := match ms with
                | [] => Some m
                | (k, j) :: ms' => x ← to_iface j; go ms' (map_set k x m)
                end) ms []
  end.

(** ** Decoding into Go variables *)

(** A decoder updates the variable it is given. *)
Definition decoder (A : Type) := json → A → result A.

Definition type_error {A} : result A := Err (ErrorNew "json: cannot unmarshal value").

Definition dec_string : decoder string := λ j cur,
  match j with JStr s => Ok s | JNull => Ok cur | _ => type_error end.

Definition dec_bool : decoder bool := λ j cur,
  match j with JBool b => Ok b | JNull => Ok cur | _ => type_error end.

Definition dec_int64 : decoder Z := λ j cur,
  match j with
  | JNum m None => if decide (- 2 ^ 63 ≤ m < 2 ^ 63) then Ok m else type_error
  | JNull => Ok cur
  | _ => type_error
  end.

Definition dec_uint64 : decoder Z := λ j cur,
  match j with
  | JNum m None => if decide (0 ≤ m < 2 ^ 64) then Ok m else type_error
  | JNull => Ok cur
  | _ => type_error
  end.

Definition dec_iface : decoder iface := λ j cur,
  match to_iface j with Some v => Ok v | None => type_error end.

(** [map[string]interface{}] *)
Definition dec_map : decoder (list (string * iface)) := λ j cur,
  match j with
  | JObj _ => match to_iface j with Some (IMap m) => Ok m | _ => type_error end
  | JNull => Ok []
  | _ => type_error
  end.

(** [*json.RawMessage] *)
Definition dec_raw : decoder (option json) := λ j cur,
  match j with JNull => Ok None | _ => Ok (Some j) end.

Fixpoint dec_elems {A} (dec : decoder A) (zero : A) (l : list json) : result (list A) :=
  match l with
  | [] => mret []
  | j :: l' => x ← dec j zero; xs ← dec_elems dec zero l'; mret (x :: xs)
  end.

Definition dec_slice {A} (dec : decoder A) (zero : A) : decoder (list A) := λ j cur,
  match j with
  | JArr l => dec_elems dec zero l
  | JNull => Ok []
  | _ => type_error
  end.

(** Member names match struct fields up to simple case folding: ASCII letters,
    and the two other characters that fold to an ASCII letter, U+017F (long s)
    and U+212A (Kelvin sign). *)
Definition fold_byte (c : ascii) : ascii :=
  if bool_decide (65 ≤ byte_val c ≤ 90)
  then ascii_of_nat (Z.to_nat (byte_val c + 32)) else c.

Fixpoint fold_key (s : string) : string :=
  match s with
  | String "197" (String "191" s') => String "s" (fold_key s')
  | String "226" (String "132" (String "170" s')) => String "k" (fold_key s')
  | String c s' => String (fold_byte c) (fold_key s')
  | EmptyString => EmptyString
  end.

(** The fields of a struct: the names of the tags and how to decode into each. *)
Definition fields (A : Type) := list (string * decoder A).

Fixpoint dec_members {A} (fs : fields A) (ms : list (string * json)) (cur : A) : result A :=
  match ms with
  | [] => Ok cur
  | (k, j) :: ms' =>
      cur' ← match map_get (fold_key k) fs with
             | Some dec => dec j cur
             | None => Ok cur
             end;
      dec_members fs ms' cur'
  end.

Definition dec_struct {A} (fs : fields A) : decoder A := λ j cur,
  match j with
  | JObj ms => dec_members fs ms cur
  | JNull => Ok cur
  | _ => type_error
  end.

(** ** Encoding *)

Definition enc_int (z : Z) : json := JNum z None.
(** A member with the option "omitempty". *)
Definition omitempty (name value : string) : list (string * json) :=
  if decide (value = "") then [] else [(name, JStr value)].

(** ** Lemmas *)

Lemma map_get_set {A} k (v : A) m k' :
  map_get k' (map_set k v m) = if decide (k = k') then Some v else map_get k' m.
Proof.
  induction m as [|[k1 v1] m IH]; simpl; [repeat case_decide; congruence|].
  repeat case_decide; simpl; repeat case_decide; congruence.
Qed.

Lemma map_set_fresh {A} k (v : A) m : k ∉ m.*1 → map_set k v m = m ++ [(k, v)].
Proof.
  induction m as [|[k1 v1] m IH]; simpl; [done|]. rewrite not_elem_of_cons. intros [? ?].
  rewrite decide_False by done. by rewrite IH.
Qed.

Lemma map_get_elem {A} k (v : A) m : NoDup m.*1 → (k, v) ∈ m ↔ map_get k m = Some v.
Proof.
  induction m as [|[k1 v1] m IH]; simpl; [by rewrite elem_of_nil|].
  rewrite NoDup_cons, elem_of_cons. intros [Hk Hm]. specialize (IH Hm). case_decide as E; subst.
  - split; [|intros [= ->]; by left]. intros [[= ->]|Hin]; [done|].
    destruct Hk. by apply (list_elem_of_fmap_2 fst) in Hin.
  - rewrite IH. split; [intros [[= -> ->]|?]; [done|done]|by right].
Qed.

Lemma map_get_None {A} k (m : list (string * A)) : map_get k m = None ↔ k ∉ m.*1.
Proof.
  induction m as [|[k1 v1] m IH]; simpl; [split; [intros _; apply not_elem_of_nil|done]|].
  rewrite not_elem_of_cons. case_decide; naive_solver.
Qed.

Lemma map_get_Permutation {A} k (m m' : list (string * A)) :
  NoDup m.*1 → m ≡ₚ m' → map_get k m = map_get k m'.
Proof.
  intros Hnd Hp. assert (NoDup m'.*1) as Hnd' by (by rewrite <-Hp).
  destruct (map_get k m') as [v|] eqn:E.
  - apply map_get_elem; [done|]. rewrite Hp. by apply map_get_elem.
  - apply map_get_None. rewrite Hp. by apply map_get_None.
Qed.

Lemma map_get_here {A} k (v : A) m : map_get k ((k, v) :: m) = Some v.
Proof. simpl. by rewrite decide_True. Qed.

Lemma map_get_there {A} k k' (v : A) m r : k ≠ k' → map_get k m = r → map_get k ((k', v) :: m) = r.
Proof. intros. simpl. by rewrite decide_False. Qed.

Lemma dec_members_some {A} (fs : fields A) k k' j ms cur dec cur' :
  fold_key k = k' → map_get k' fs = Some dec → dec j cur = Ok cur' →
  dec_members fs ((k, j) :: ms) cur = dec_members fs ms cur'.
Proof. intros <- H1 H2. simpl. rewrite H1. simpl. by rewrite H2. Qed.

Lemma dec_members_none {A} (fs : fields A) k k' j ms cur :
  fold_key k = k' → map_get k' fs = None →
  dec_members fs ((k, j) :: ms) cur = dec_members fs ms cur.
Proof. intros <- H1. simpl. by rewrite H1. Qed.

Lemma dec_int64_ok z cur : - 2 ^ 63 ≤ z < 2 ^ 63 → dec_int64 (JNum z None) cur = Ok z.
Proof. intros Hz. unfold dec_int64. by rewrite decide_True. Qed.

(** Integers of fewer than 54 bits survive the trip through float64. *)
Lemma trunc_number z : - 2 ^ 53 < z < 2 ^ 53 → ∃ f, number z None = Some f ∧ trunc f = z.
Proof.
  intros Hz. unfold number. simpl. rewrite Z.mul_1_r. unfold to_float64.
  case_decide as H0; [subst; by eexists|]. simpl.
  set (a := Z.abs z). set (l := Z.log2 a).
  assert (0 < a) as Ha by lia. pose proof (Z.log2_spec a Ha) as [Hl1 Hl2]. fold l in Hl1, Hl2.
  assert (0 ≤ l) as Hl by apply Z.log2_nonneg.
  assert (l ≤ 52) as Hl52.
  { apply Z.lt_succ_r. apply (Z.pow_lt_mono_r_iff 2); lia. }
  replace (Z.max (- (l - 0 - 52)) 0) with (52 - l) by lia.
  replace (Z.max (l - 0 - 52) 0) with 0 by lia. rewrite !Z.mul_1_l, Z.pow_0_r, Z.mul_1_r.
  assert (2 ^ 52 ≤ a * 2 ^ (52 - l)) as H52.
  { replace 52 with (l + (52 - l)) at 1 by lia. rewrite Z.pow_add_r by lia.
    apply Z.mul_le_mono_nonneg_r; lia. }
  destruct (Z.ltb_spec (a * 2 ^ (52 - l)) (2 ^ 52)); [lia|].
  replace (Z.max (l - 0 - 52) (-1074)) with (l - 52) by lia.
  replace (Z.max (- (l - 52)) 0) with (52 - l) by lia.
  replace (Z.max (l - 52) 0) with 0 by lia. rewrite Z.pow_0_r.
  unfold round_div. rewrite Z.mod_1_r, Z.div_1_r. change (2 * 0 ?= 1) with Lt. cbv iota.
  destruct (Z.leb_spec 1024 (Z.log2 (a * 2 ^ (52 - l)) + (l - 52))) as [Hbig|_].
  { rewrite Z.log2_mul_pow2 in Hbig by lia. fold l in Hbig. lia. }
  eexists. split; [done|]. unfold trunc. simpl. destruct (Z.leb_spec 0 (l - 52)).
  - replace (52 - l) with 0 by lia. replace (l - 52) with 0 by lia. rewrite Z.pow_0_r. lia.
  - replace (- (l - 52)) with (52 - l) by lia.
    replace (Z.sgn z * (a * 2 ^ (52 - l))) with (z * 2 ^ (52 - l)) by (unfold a; lia).
    apply Z.quot_mul. lia.
Qed.

(** Finds the field of a name; decodes the members of an object one by one,
    where [tac] settles a value that does not decode by computation. *)
Ltac find_field :=
  lazymatch goal with
  | |- map_get _ [] = None => reflexivity
  | |- map_get ?k ((?k, _) :: _) = Some _ => apply map_get_here
  | |- map_get _ (_ :: _) = _ => apply map_get_there; [discriminate|find_field]
  | |- map_get _ ?fs = _ => unfold fs; find_field
  end.

Ltac dec_object tac :=
  repeat first
    [ erewrite dec_members_some; [|vm_compute; reflexivity|find_field
                                 |cbn -[dec_int64 dec_struct dec_members]; first [reflexivity | tac]]
    | erewrite dec_members_none; [|vm_compute; reflexivity|find_field] ].
