(* ===== verification/SPDKClient.v ===== *)
(** * SPDK client codec: pkg/spdk/client.go

    The JSON-RPC codec below [net/rpc]: how requests are written, how responses
    are matched to requests, and how the error object of SPDK is squeezed through
    the error string of [net/rpc] and recognized again by [IsJSONError]. *)
From S2P Require Import Prelude GoStrings Strconv Errors Regex Json.

Definition ERROR_PARSE_ERROR : Z := -32700.
Definition ERROR_INVALID_REQUEST : Z := -32600.
Definition ERROR_METHOD_NOT_FOUND : Z := -32601.
Definition ERROR_INVALID_PARAMS : Z := -32602.
Definition ERROR_INTERNAL_ERROR : Z := -32603.
Definition ERROR_INVALID_STATE : Z := -1.

(** [.]: any character but a newline. *)
Definition not_newline (c : ascii) : bool := negb (bool_decide (c = "010"%char)).

(** ^code: (-?\d+) msg: (.* )$, without the blank *)
Definition jsonError : re :=
  RText "code: " (
  RGroup 1 (ROpt (RChar "-") ;;; RClass (is_digit 10) 1 None) ;;;
  RText " msg: " (
  RGroup 2 (RClass not_newline 0 None) ;;; REnd)).

Definition IsJSONError (err : error) (code : Z) : bool :=
  match FindAnchored jsonError (Error err) with
  | None => false
  | Some (_, m) =>
      match Atoi (group 1 m) with
      | None => false
      | Some errorCode => bool_decide (code = 0) || bool_decide (errorCode = code)
      end
  end.

(** ** The codec *)

Record clientResponse := MkClientResponse {
  resp_ID : Z; resp_Result : option json; resp_Error : iface
}.

Definition reset : clientResponse := MkClientResponse 0 None INil.

Record clientCodec := MkCodec { pending : gmap Z string; resp : clientResponse }.

Definition newClientCodec : clientCodec := MkCodec ∅ reset.

(** What [net/rpc] passes to and expects from a codec. *)
Record rpc_Request := MkRequest { req_ServiceMethod : string; req_Seq : Z }.
Record rpc_Response := MkResponse {
  rsp_ServiceMethod : string; rsp_Seq : Z; rsp_Error : string
}.

(** A request as it is written; [Params] is left out if nil. *)
Record clientRequest := MkClientRequest {
  creq_Version : string; creq_Method : string; creq_Params : option json; creq_ID : Z
}.

Definition enc_request (q : clientRequest) : json :=
  JObj ([("jsonrpc", JStr (creq_Version q)); ("method", JStr (creq_Method q))] ++
        match creq_Params q with Some p => [("params", p)] | None => [] end ++
        [("id", JNum (creq_ID q) None)]).

(** The new state and the message that is written.  The work space [req] of the codec
    is not part of the state: its version is set once, and a call overwrites the
    rest of it. *)
Definition WriteRequest (c : clientCodec) (r : rpc_Request) (param : option json) : clientCodec * json :=
  (MkCodec (<[req_Seq r := req_ServiceMethod r]> (pending c)) (resp c),
   enc_request (MkClientRequest "2.0" (req_ServiceMethod r) param (req_Seq r))).

Definition clientResponse_fields : fields clientResponse := [
  ("id", λ j r, x ← dec_uint64 j (resp_ID r); mret (MkClientResponse x (resp_Result r) (resp_Error r)));
  ("result", λ j r, x ← dec_raw j (resp_Result r); mret (MkClientResponse (resp_ID r) x (resp_Error r)));
  ("error", λ j r, x ← dec_iface j (resp_Error r); mret (MkClientResponse (resp_ID r) (resp_Result r) x))].

(** The text for the error member of a response. *)
Definition response_error (e : iface) : result string :=
  match e with
  | IMap m =>
      match map_get "code" m, map_get "message" m with
      | Some code, Some message =>
          match code, message with
          | IFloat f, IString messageVal =>
              Ok ("code: " +:+ Itoa (float_to_int f) +:+ " msg: " +:+ messageVal)
          | _, _ => Err (ErrorNew "invalid error content %v")
          end
      | _, _ => Err (ErrorNew "invalid error %v")
      end
  | IString x => Ok (if decide (x = "") then "unspecified error" else x)
  | _ => Err (ErrorNew "invalid error %v")
  end.

Definition is_nil (v : iface) : bool := match v with INil => true | _ => false end.

(** [msg] is the JSON value that was read from the connection. *)
Definition ReadResponseHeader (c : clientCodec) (msg : json) : clientCodec * result rpc_Response :=
  match dec_struct clientResponse_fields msg reset with
  | Err e => (MkCodec (pending c) reset, Err e)
  | Panic w => (MkCodec (pending c) reset, Panic w)
  | Ok rsp =>
      let method := default "" (pending c !! resp_ID rsp) in
      let c' := MkCodec (delete (resp_ID rsp) (pending c)) rsp in
      if negb (is_nil (resp_Error rsp)) || bool_decide (resp_Result rsp = None)
      then (c', text ← response_error (resp_Error rsp); mret (MkResponse method (resp_ID rsp) text))
      else (c', mret (MkResponse method (resp_ID rsp) ""))
  end.

(** [x] is the decoder for the reply variable, if there is one. *)
Definition ReadResponseBody {A} (c : clientCodec) (x : option (decoder A * A)) : result (option A) :=
  match x with
  | None => Ok None
  | Some (dec, cur) =>
      match resp_Result (resp c) with
      | None => Panic "nil pointer dereference: c.resp.Result"
      | Some j => v ← dec j cur; mret (Some v)
      end
  end.

(** ** Matching error texts *)

Definition num_char (c : ascii) : bool := is_digit 10 c || bool_decide (c = "-"%char).

Lemma jsonError_sound t w c u :
  (w, c, u) ∈ matches jsonError t →
  ∃ num msg, t = "code: " +:+ num +:+ " msg: " +:+ msg ∧ c = [(1%nat, num); (2%nat, msg)] ∧
    string_all num_char num = true ∧ string_all not_newline msg = true ∧ w = t.
Proof.
  unfold jsonError. intros (w1 & t1 & -> & -> & H)%matches_RText.
  apply elem_of_matches_cat in H as (num & c1 & t2 & w2 & c2 & H1 & H2 & -> & ->).
  apply elem_of_matches_group in H1 as (c3 & H1 & ->).
  apply elem_of_matches_cat in H1 as (wo & co & t3 & wd & cd & Ho & Hd & -> & ->).
  apply elem_of_matches_class in Hd as (-> & -> & Hd & _).
  apply matches_RText in H2 as (w3 & t4 & -> & -> & H2). re_inv H2.
  assert (string_all num_char wd = true) as Hd'.
  { eapply string_all_impl; [|done]. intros a Ha. unfold num_char. by rewrite Ha. }
  lazymatch goal with Hx : string_all not_newline ?x = true |- _ => exists (wo +:+ wd), x end.
  apply elem_of_matches_opt in Ho as [Ho|(-> & -> & <-)]; [apply elem_of_matches_char in Ho as (-> & -> & ->)|];
    rewrite !str_app_nil_r; simpl in *; by split_and!.
Qed.

Lemma jsonError_complete num msg :
  (∃ ds, (num = ds ∨ num = String "-" ds) ∧ ds ≠ "" ∧ string_all (is_digit 10) ds = true) →
  string_all not_newline msg = true →
  let t := "code: " +:+ num +:+ " msg: " +:+ msg in
  (t, [(1%nat, num); (2%nat, msg)], "") ∈ matches jsonError t.
Proof.
  intros (ds & Hnum & Hne & Hds) Hmsg t. unfold jsonError. apply matches_RText.
  exists (num +:+ " msg: " +:+ msg), (num +:+ " msg: " +:+ msg). split_and!; [done..|].
  apply elem_of_matches_cat. exists num, [(1%nat, num)], (" msg: " +:+ msg), (" msg: " +:+ msg), [(2%nat, msg)].
  split_and!; [| |done..].
  - apply elem_of_matches_group. exists []. split; [|done]. apply elem_of_matches_cat.
    assert (1 ≤ String.length ds)%nat by (destruct ds; simpl; [done|lia]).
    destruct Hnum as [->| ->].
    + exists "", [], (ds +:+ " msg: " +:+ msg), ds, []. split_and!; [|by apply elem_of_matches_class|done..].
      apply elem_of_matches_opt. by right.
    + exists "-", [], (ds +:+ " msg: " +:+ msg), ds, []. split_and!; [|by apply elem_of_matches_class|done..].
      apply elem_of_matches_opt. left. by apply elem_of_matches_char.
  - apply matches_RText. exists msg, msg. split_and!; [done..|]. apply matches_cat_group.
    exists msg, "", "", []. rewrite str_app_nil_r. split_and!; [done..|lia|done|]. by apply elem_of_matches_end.
Qed.

Lemma Itoa_digits n :
  ∃ ds, (Itoa n = ds ∨ Itoa n = String "-" ds) ∧ ds ≠ "" ∧ string_all (is_digit 10) ds = true.
Proof.
  unfold Itoa. destruct (Z.ltb_spec n 0).
  - exists (FormatUint 10 (- n)). split_and!; [by right|by apply FormatUint_nonempty|].
    apply FormatUint_all; lia.
  - exists (FormatUint 10 n). split_and!; [by left|by apply FormatUint_nonempty|].
    apply FormatUint_all; lia.
Qed.

Lemma num_char_Itoa n : string_all num_char (Itoa n) = true.
Proof.
  destruct (Itoa_digits n) as (ds & Hn & _ & Hds).
  assert (string_all num_char ds = true) as H.
  { eapply string_all_impl; [|done]. intros a Ha. unfold num_char. by rewrite Ha. }
  destruct Hn as [->| ->]; [done|]. simpl. by rewrite H.
Qed.

(** The only way in which the expression can match an encoded error. *)
Lemma jsonError_unique n msg w c u :
  (w, c, u) ∈ matches jsonError ("code: " +:+ Itoa n +:+ " msg: " +:+ msg) →
  string_all not_newline msg = true ∧ c = [(1%nat, Itoa n); (2%nat, msg)] ∧
  w = "code: " +:+ Itoa n +:+ " msg: " +:+ msg.
Proof.
  intros (num & msg' & Heq & -> & Hnum & Hmsg & ->)%jsonError_sound.
  injection Heq as Heq. apply (span_unique_char num_char) in Heq as (Hn & _ & Heq);
    [|apply num_char_Itoa|done..]. injection Heq as ->. by rewrite Hn.
Qed.

Lemma IsJSONError_text n msg code :
  - 2 ^ 63 ≤ n < 2 ^ 63 →
  IsJSONError (ServerError ("code: " +:+ Itoa n +:+ " msg: " +:+ msg)) code =
    string_all not_newline msg && (bool_decide (code = 0) || bool_decide (n = code)).
Proof.
  intros Hn. unfold IsJSONError. cbn [Error].
  destruct (string_all not_newline msg) eqn:Hmsg.
  - erewrite FindAnchored_unique; cycle 1.
    + exists "". apply jsonError_complete; [apply Itoa_digits|done].
    + intros [w c] u H. by apply jsonError_unique in H as (_ & -> & ->).
    + cbn [group]. rewrite decide_True by done. by rewrite Atoi_Itoa.
  - assert (FindAnchored jsonError ("code: " +:+ Itoa n +:+ " msg: " +:+ msg) = None) as ->; [|done].
    apply FindAnchored_None. intros [w c] u H. apply jsonError_unique in H as (? & _). congruence.
Qed.

(** The error response of SPDK (spdk_jsonrpc_send_error_response). *)
Definition error_response (id code : Z) (message : string) : json :=
  JObj [("jsonrpc", JStr "2.0"); ("id", JNum id None);
        ("error", JObj [("code", JNum code None); ("message", JStr message)])].

Definition error_text (code : Z) (message : string) : string :=
  "code: " +:+ Itoa code +:+ " msg: " +:+ message.

Lemma ReadResponseHeader_error c id code message :
  0 ≤ id < 2 ^ 64 → - 2 ^ 31 ≤ code < 2 ^ 31 →
  ∃ r, ReadResponseHeader c (error_response id code message) =
    (MkCodec (delete id (pending c)) r,
     Ok (MkResponse (default "" (pending c !! id)) id (error_text code message))).
Proof.
  intros Hid Hcode. destruct (trunc_number code) as (f & Hf & Ht); [lia|].
  assert (float_to_int f = code) as Hfc.
  { unfold float_to_int. rewrite Ht. rewrite decide_True; [done|lia]. }
  unfold ReadResponseHeader, error_response. cbn [dec_struct].
  assert (dec_members clientResponse_fields
    [("jsonrpc", JStr "2.0"); ("id", JNum id None);
     ("error", JObj [("code", JNum code None); ("message", JStr message)])] reset =
    Ok (MkClientResponse id None (IMap [("code", IFloat f); ("message", IString message)]))) as ->.
  { rewrite (dec_members_none _ _ "jsonrpc"); [|vm_compute; reflexivity|find_field].
    erewrite (dec_members_some _ _ "id"); [|vm_compute; reflexivity|find_field|].
    2:{ unfold dec_uint64. rewrite decide_True by done. reflexivity. }
    erewrite (dec_members_some _ _ "error"); [|vm_compute; reflexivity|find_field|].
    2:{ unfold dec_iface. cbn [to_iface]. rewrite Hf. reflexivity. }
    reflexivity. }
  eexists. decide_consts. rewrite Hfc. reflexivity.
Qed.

(** A response with a result. *)
Definition result_response (id : Z) (j : json) : json :=
  JObj [("jsonrpc", JStr "2.0"); ("id", JNum id None); ("result", j)].

Lemma ReadResponseHeader_result c id j :
  0 ≤ id < 2 ^ 64 → j ≠ JNull →
  ReadResponseHeader c (result_response id j) =
    (MkCodec (delete id (pending c)) (MkClientResponse id (Some j) INil),
     Ok (MkResponse (default "" (pending c !! id)) id "")).
Proof.
  intros Hid Hj. unfold ReadResponseHeader, result_response. cbn [dec_struct].
  assert (dec_members clientResponse_fields
    [("jsonrpc", JStr "2.0"); ("id", JNum id None); ("result", j)] reset =
    Ok (MkClientResponse id (Some j) INil)) as ->; [|done].
  rewrite (dec_members_none _ _ "jsonrpc"); [|vm_compute; reflexivity|find_field].
  erewrite (dec_members_some _ _ "id"); [|vm_compute; reflexivity|find_field|].
  2:{ unfold dec_uint64. rewrite decide_True by done. reflexivity. }
  erewrite (dec_members_some _ _ "result"); [|vm_compute; reflexivity|find_field|].
  2:{ cbv beta. assert (∀ x, dec_raw j x = Ok (Some j)) as -> by (by destruct j). reflexivity. }
  reflexivity.
Qed.

(** C28. SPDK's error codes survive [net/rpc]: for every error response, with any
    code of 32 bits, the header that the codec hands to [net/rpc] names the pending
    method and sequence number and carries a text from which [IsJSONError]
    recovers the code exactly, provided that the message has no line break; a
    message with a line break is never recognized. *)
Theorem spdk_error_code_roundtrip c id code message :
  0 ≤ id < 2 ^ 64 → - 2 ^ 31 ≤ code < 2 ^ 31 →
  ∃ c' text, ReadResponseHeader c (error_response id code message) =
      (c', Ok (MkResponse (default "" (pending c !! id)) id text)) ∧
    pending c' = delete id (pending c) ∧
    ∀ x, IsJSONError (ServerError text) x =
      string_all not_newline message && (bool_decide (x = 0) || bool_decide (code = x)).
Proof.
  intros Hid Hcode. destruct (ReadResponseHeader_error c id code message Hid Hcode) as [r Hr].
  eexists _, _. split_and!; [exact Hr|done|]. intros x. apply IsJSONError_text. lia.
Qed.

Lemma spdk_error_code_roundtrip_witness :
  ∃ c' text, ReadResponseHeader (MkCodec {[7 := "get_bdevs"]} reset)
      (error_response 7 (-32602) "Invalid parameters") = (c', Ok (MkResponse "get_bdevs" 7 text)) ∧
    IsJSONError (ServerError text) ERROR_INVALID_PARAMS = true ∧
    IsJSONError (ServerError text) ERROR_INVALID_STATE = false.
Proof.
  destruct (spdk_error_code_roundtrip (MkCodec {[7 := "get_bdevs"]} reset) 7 (-32602) "Invalid parameters")
    as (c' & text & H1 & _ & H2); [lia|lia|].
  exists c', text. split; [exact H1|]. rewrite !H2. split; reflexivity.
Defined.
