(* ===== verification/RPC.v ===== *)
(** * Concurrent calls to SPDK: net/rpc on the codec of pkg/spdk/client.go

    All handlers of a controller share one [Client].  [net/rpc] numbers their calls,
    writes the requests in that order and hands every response to the call that has
    its number; SPDK answers in any order.  [send], [input], [terminate] and
    [rpc_Close] are what package net/rpc does with the methods of the codec, [link_step] lets the calls of any
    number of goroutines, SPDK and the reading goroutine run in any order.

    [responses_match_calls] says that the call gets the answer to its own request,
    or an error because the connection broke, and that no call is forgotten. *)
From S2P Require Import Prelude GoStrings Strconv Errors Json SPDKClient.

(** ** Package net/rpc *)

(** A call: [call_reply] is nil if the caller wants no result; otherwise it says
    with which error a result cannot be decoded. *)
Record rpc_call := MkCall {
  call_method : string;
  call_args : option json;
  call_reply : option (json → option error)
}.

Record rpc_Client := MkClient {
  cl_seq : Z;
  cl_pending : gmap Z rpc_call;
  cl_codec : clientCodec;
  cl_closing : bool;
  cl_shutdown : bool
}.

Definition NewClientWithCodec (codec : clientCodec) : rpc_Client := MkClient 0 ∅ codec false false.

Definition ErrShutdown : error := ErrorNew "connection is shut down".
Definition EOF : error := ErrorNew "EOF".
Definition ErrUnexpectedEOF : error := ErrorNew "unexpected EOF".

(** What a step of the client does to the outside: the message it writes and the
    calls that return. *)
Definition finished := list (Z * result json).

(** [send]: [werr] is the error of the connection when the request is written.  A
    client that is shut down answers without a sequence number. *)
Definition send (cl : rpc_Client) (c : rpc_call) (werr : option error) :
    rpc_Client * option json * (finished + error) :=
  if cl_shutdown cl || cl_closing cl then (cl, None, inr ErrShutdown)
  else
    let seq := cl_seq cl in
    let '(codec, m) := WriteRequest (cl_codec cl) (MkRequest (call_method c) seq) (call_args c) in
    match werr with
    | None => (MkClient (uint64 (seq + 1)) (<[seq := c]> (cl_pending cl)) codec false false, Some m, inl [])
    | Some e => (MkClient (uint64 (seq + 1)) (delete seq (cl_pending cl)) codec false false, None, inl [(seq, Err e)])
    end.

(** The argument of [ReadResponseBody]: the variable for the reply. *)
Definition reply_var (c : rpc_call) : option (decoder json * json) :=
  (λ accepts, (λ j _, match accepts j with None => Ok j | Some e => Err e end, JNull)) <$> call_reply c.

(** One round of the loop of [input] for a message that was read, with the result
    that ends the loop unless it is [Ok]. *)
Definition input (cl : rpc_Client) (msg : json) : rpc_Client * finished * result () :=
  let with_codec codec pending := MkClient (cl_seq cl) pending codec (cl_closing cl) (cl_shutdown cl) in
  match ReadResponseHeader (cl_codec cl) msg with
  | (codec, Err e) => (with_codec codec (cl_pending cl), [], Err e)
  | (codec, Panic w) => (with_codec codec (cl_pending cl), [], Panic w)
  | (codec, Ok r) =>
      let seq := rsp_Seq r in
      let cl' := with_codec codec (delete seq (cl_pending cl)) in
      match cl_pending cl !! seq with
      | None => (cl', [], Ok ())
      | Some c =>
          if decide (rsp_Error r = "") then
            match ReadResponseBody codec (reply_var c) with
            | Ok v => (cl', [(seq, Ok (default JNull v))], Ok ())
            | Err e => (cl', [(seq, Err (Errorf "reading body %s" [Error e]))], Err e)
            | Panic w => (cl', [], Panic w)
            end
          else (cl', [(seq, Err (ServerError (rsp_Error r)))], Ok ())
      end
  end.

(** The end of [input]: all pending calls fail. *)
Definition terminate (cl : rpc_Client) (err : error) : rpc_Client * finished :=
  let err := if decide (err = EOF) then if cl_closing cl then ErrShutdown else ErrUnexpectedEOF else err in
  (MkClient (cl_seq cl) (cl_pending cl) (cl_codec cl) (cl_closing cl) true,
   (λ seq, (seq, Err err)) <$> (map_to_list (cl_pending cl)).*1).

(** [Client.Close] and the [Close] of the codec, whose result is that of the
    connection. *)
Definition codec_Close (conn_Close : result ()) : result () := conn_Close.

Definition rpc_Close (cl : rpc_Client) (conn_Close : result ()) : rpc_Client * result () :=
  if cl_closing cl then (cl, Err ErrShutdown)
  else (MkClient (cl_seq cl) (cl_pending cl) (cl_codec cl) true (cl_shutdown cl), codec_Close conn_Close).

(** Errors of the connection and of package json are not errors of the server. *)
Definition conn_error (e : error) : Prop := match e with ServerError _ => False | _ => True end.

Definition wf_call (c : rpc_call) : Prop :=
  ∀ accepts j e, call_reply c = Some accepts → accepts j = Some e → conn_error e.

(** ** The connection *)

Record link := MkLink {
  lk_client : rpc_Client;
  lk_count : Z;                     (* how many calls were numbered *)
  lk_made : gmap Z rpc_call;        (* these calls *)
  lk_requests : list json;          (* written, but not answered *)
  lk_responses : list json;         (* sent, but not read *)
  lk_answers : list (json * json);  (* the requests and SPDK's answers *)
  lk_finished : finished            (* what the calls returned *)
}.

Definition link_init : link := MkLink (NewClientWithCodec newClientCodec) 0 ∅ [] [] [] [].

(** The message for a call. *)
Definition request_message (seq : Z) (c : rpc_call) : json :=
  (WriteRequest newClientCodec (MkRequest (call_method c) seq) (call_args c)).2.

(** SPDK answers with the number of the request: a result (never null) or an error. *)
Inductive answer (seq : Z) : json → Prop :=
| answer_result j : j ≠ JNull → answer seq (result_response seq j)
| answer_error code message : - 2 ^ 31 ≤ code < 2 ^ 31 → answer seq (error_response seq code message).

Inductive link_step : link → link → Prop :=
| link_call cl n made reqs rsps ans fin c cl' m :
    wf_call c → send cl c None = (cl', Some m, inl []) →
    link_step (MkLink cl n made reqs rsps ans fin)
              (MkLink cl' (n + 1) (<[cl_seq cl := c]> made) (reqs ++ [m]) rsps ans fin)
| link_call_fails cl n made reqs rsps ans fin c e cl' fin' :
    wf_call c → conn_error e → send cl c (Some e) = (cl', None, inl fin') →
    link_step (MkLink cl n made reqs rsps ans fin)
              (MkLink cl' (n + 1) (<[cl_seq cl := c]> made) reqs rsps ans (fin ++ fin'))
| link_answer cl n made reqs1 reqs2 rsps ans fin seq c rsp :
    answer seq rsp →
    link_step (MkLink cl n made (reqs1 ++ request_message seq c :: reqs2) rsps ans fin)
              (MkLink cl n made (reqs1 ++ reqs2) (rsps ++ [rsp]) (ans ++ [(request_message seq c, rsp)]) fin)
| link_input cl n made reqs rsp rsps ans fin cl' fin' :
    cl_shutdown cl = false → input cl rsp = (cl', fin', Ok ()) →
    link_step (MkLink cl n made reqs (rsp :: rsps) ans fin)
              (MkLink cl' n made reqs rsps ans (fin ++ fin'))
| link_input_fails cl n made reqs rsp rsps ans fin cl' fin' e cl'' fin'' :
    cl_shutdown cl = false → input cl rsp = (cl', fin', Err e) → terminate cl' e = (cl'', fin'') →
    link_step (MkLink cl n made reqs (rsp :: rsps) ans fin)
              (MkLink cl'' n made reqs rsps ans (fin ++ fin' ++ fin''))
| link_broken cl n made reqs rsps ans fin e cl' fin' :
    cl_shutdown cl = false → conn_error e → terminate cl e = (cl', fin') →
    link_step (MkLink cl n made reqs rsps ans fin)
              (MkLink cl' n made reqs rsps ans (fin ++ fin'))
| link_close cl n made reqs rsps ans fin r cl' r' :
    rpc_Close cl r = (cl', r') →
    link_step (MkLink cl n made reqs rsps ans fin) (MkLink cl' n made reqs rsps ans fin).

(** ** What a call returns *)

(** The outcome of a call for an answer of SPDK. *)
Inductive returned (seq : Z) (c : rpc_call) : json → result json → Prop :=
| returned_nothing j :
    call_reply c = None → returned seq c (result_response seq j) (Ok JNull)
| returned_result accepts j :
    call_reply c = Some accepts → accepts j = None → returned seq c (result_response seq j) (Ok j)
| returned_undecodable accepts j e :
    call_reply c = Some accepts → accepts j = Some e →
    returned seq c (result_response seq j) (Err (Errorf "reading body %s" [Error e]))
| returned_error code message :
    returned seq c (error_response seq code message) (Err (ServerError (error_text code message))).

(** A result that only reports a problem of the connection. *)
Definition connection_failed (v : result json) : Prop := ∃ e, v = Err e ∧ conn_error e.

Lemma input_answer cl seq c rsp :
  0 ≤ seq < 2 ^ 64 → answer seq rsp → cl_pending cl !! seq = Some c → wf_call c →
  ∃ codec v r,
    input cl rsp = (MkClient (cl_seq cl) (delete seq (cl_pending cl)) codec (cl_closing cl) (cl_shutdown cl), [(seq, v)], r) ∧
    returned seq c rsp v ∧ (r = Ok () ∨ ∃ e, r = Err e ∧ conn_error e).
Proof.
  intros Hseq [j Hj|code message Hcode] Hc Hwf; unfold input.
  - rewrite (ReadResponseHeader_result _ _ _ Hseq Hj). cbn [rsp_Seq rsp_Error]. rewrite Hc.
    rewrite decide_True by done. unfold reply_var, ReadResponseBody. cbn [resp resp_Result].
    destruct (call_reply c) as [accepts|] eqn:E; simpl.
    + destruct (accepts j) as [e|] eqn:Ea; simpl; eexists _, _, _; (split; [done|]).
      * split; [by eapply returned_undecodable|]. right. exists e. split; [done|]. by eapply Hwf.
      * split; [by eapply returned_result|by left].
    + eexists _, _, _. split; [done|]. split; [by constructor|by left].
  - destruct (ReadResponseHeader_error (cl_codec cl) seq code message Hseq Hcode) as [r ->].
    cbn [rsp_Seq rsp_Error]. rewrite Hc, decide_False by done.
    eexists _, _, _. split; [done|]. split; [constructor|by left].
Qed.

Lemma request_message_inj seq c seq' c' : request_message seq c = request_message seq' c' → seq = seq'.
Proof.
  unfold request_message, WriteRequest, enc_request.
  cbn [snd req_Seq req_ServiceMethod creq_Version creq_Method creq_Params creq_ID]. rewrite !app_assoc.
  intros H%(f_equal (λ j, match j with JObj l => last l | _ => None end)).
  rewrite !last_snoc in H. congruence.
Qed.

(** ** Invariant *)

Section Invariant.
Context (st : link).
Local Abbreviation cl := (lk_client st).

Definition explained (seq : Z) (v : result json) : Prop :=
  ∃ c, lk_made st !! seq = Some c ∧
    (connection_failed v ∨ ∃ rsp, (request_message seq c, rsp) ∈ lk_answers st ∧ returned seq c rsp v).

(** The numbers [ws] of the requests that wait for SPDK and [rs] of the responses
    that wait to be read. *)
Record in_transit (ws rs : list Z) : Prop := MkTransit {
  tr_requests : Forall2 (λ seq m, ∃ c, lk_made st !! seq = Some c ∧ m = request_message seq c) ws (lk_requests st);
  tr_responses : Forall2 (λ seq rsp, answer seq rsp ∧
      ∃ c, lk_made st !! seq = Some c ∧ (request_message seq c, rsp) ∈ lk_answers st) rs (lk_responses st);
  tr_distinct : NoDup (ws ++ rs);
  tr_pending : ∀ seq, is_Some (cl_pending cl !! seq) ↔ seq ∈ ws ++ rs
}.

Record link_inv : Prop := MkLinkInv {
  li_seq : 0 ≤ lk_count st ∧ cl_seq cl = uint64 (lk_count st);
  li_made : ∀ seq, is_Some (lk_made st !! seq) ↔ 0 ≤ seq < lk_count st;
  li_wf : ∀ seq c, lk_made st !! seq = Some c → wf_call c;
  li_once : NoDup (lk_finished st).*1;
  li_explained : ∀ seq v, (seq, v) ∈ lk_finished st → explained seq v;
  li_open : cl_shutdown cl = false →
    (∀ seq c, cl_pending cl !! seq = Some c ↔ lk_made st !! seq = Some c ∧ seq ∉ (lk_finished st).*1) ∧
    ∃ ws rs, in_transit ws rs;
  li_shutdown : cl_shutdown cl = true → ∀ seq, is_Some (lk_made st !! seq) → seq ∈ (lk_finished st).*1
}.
End Invariant.

Lemma link_init_inv : link_inv link_init.
Proof.
  split; simpl; try done.
  - intros seq. rewrite lookup_empty. split; [by intros [? ?]|lia].
  - constructor.
  - by intros seq v ?%elem_of_nil.
  - intros _. split; [by intros; rewrite lookup_empty; naive_solver|]. exists [], []. split; simpl; [constructor..|].
    intros seq. rewrite lookup_empty. split; [by intros [? ?]|by intros ?%elem_of_nil].
Qed.

Lemma explained_mono st st' seq v :
  lk_made st ⊆ lk_made st' → lk_answers st ⊆ lk_answers st' → explained st seq v → explained st' seq v.
Proof.
  intros Hm Ha (c & Hc & Hor). exists c. split; [by eapply lookup_weaken|].
  destruct Hor as [?|(rsp & Hin & Hr)]; [by left|right]. exists rsp. split; [by apply Ha|done].
Qed.

Lemma uint64_small n : 0 ≤ n < 2 ^ 64 → uint64 n = n.
Proof. apply wrap_unsigned_small. Qed.

(** The number of a new call is new. *)
Lemma new_seq st : link_inv st → lk_count st + 1 ≤ 2 ^ 64 →
  cl_seq (lk_client st) = lk_count st ∧ lk_made st !! lk_count st = None ∧ lk_count st ∉ (lk_finished st).*1.
Proof.
  intros [[Hn Hseq] Hmade _ _ Hex _ _] Hle. rewrite Hseq, uint64_small by lia.
  assert (lk_made st !! lk_count st = None) as Hnone.
  { destruct (lk_made st !! lk_count st) eqn:E; [|done]. assert (is_Some (lk_made st !! lk_count st)) as H by (by rewrite E).
    apply Hmade in H. lia. }
  split_and!; [done..|]. intros ([seq v] & Heq & Hin)%list_elem_of_fmap. simpl in Heq.
  apply Hex in Hin as (c & Hc & _). congruence.
Qed.

Lemma made_insert st c seq : link_inv st → lk_count st + 1 ≤ 2 ^ 64 →
  is_Some (<[lk_count st := c]> (lk_made st) !! seq) ↔ 0 ≤ seq < lk_count st + 1.
Proof.
  intros [[Hn _] Hmade _ _ _ _ _] Hle. destruct (decide (seq = lk_count st)) as [->|Hne].
  - rewrite lookup_insert_eq. split; [lia|by eauto].
  - rewrite lookup_insert_ne by done. rewrite Hmade. lia.
Qed.

(** A new call keeps everything that was in transit. *)
Lemma transit_insert st ws rs n (c : rpc_call) P :
  lk_made st !! n = None →
  Forall2 (λ seq m, ∃ c, lk_made st !! seq = Some c ∧ P seq c m) ws rs →
  Forall2 (λ seq m, ∃ c', <[n := c]> (lk_made st) !! seq = Some c' ∧ P seq c' m) ws (rs : list json).
Proof.
  intros Hn Hall. eapply Forall2_impl; [exact Hall|]. intros seq m (c' & Hc' & HP). exists c'. split; [|done].
  rewrite lookup_insert_ne; [done|congruence].
Qed.

Lemma link_call_inv st c cl' m :
  link_inv st → lk_count st + 1 ≤ 2 ^ 64 → wf_call c →
  send (lk_client st) c None = (cl', Some m, inl []) →
  link_inv (MkLink cl' (lk_count st + 1) (<[cl_seq (lk_client st) := c]> (lk_made st))
              (lk_requests st ++ [m]) (lk_responses st) (lk_answers st) (lk_finished st)).
Proof.
  intros Hinv Hle Hwf Hsend. destruct (new_seq st Hinv Hle) as (Hseq & Hnew & Hfin).
  pose proof (made_insert st c) as Hmade'. pose proof Hinv as [[Hn Hs] Hmade Hw Honce Hex Hopen Hshut].
  unfold send in Hsend. destruct (cl_shutdown (lk_client st)) eqn:Esh; [done|]. destruct (cl_closing _); [done|].
  simpl in Hsend. injection Hsend as <- <-. rewrite Hseq in *. destruct (Hopen eq_refl) as (Hpend & ws & rs & Htr).
  destruct Htr as [Hreq Hrsp Hnd Hids].
  assert (lk_count st ∉ ws ++ rs) as Hfresh.
  { intros [c' Hc']%Hids. apply Hpend in Hc' as [Hc' _]. congruence. }
  split; simpl.
  - split; [lia|done].
  - intros seq. by apply Hmade'.
  - intros seq c' [[<- <-]|[_ ?]]%lookup_insert_Some; [done|by eapply Hw].
  - done.
  - intros seq v Hin. eapply explained_mono; [..|by apply Hex]; simpl; [by apply insert_subseteq|done].
  - intros _. split.
    + intros seq c'. destruct (decide (seq = lk_count st)) as [->|Hne].
      * rewrite !lookup_insert_eq. naive_solver.
      * rewrite !lookup_insert_ne by done. apply Hpend.
    + exists (ws ++ [lk_count st]), rs. split; simpl.
      * apply Forall2_app; [by apply (transit_insert st _ _ _ _ (λ seq c m, m = request_message seq c))|].
        constructor; [|done]. exists c. by rewrite lookup_insert_eq.
      * eapply Forall2_impl; [exact Hrsp|]. intros seq rsp (Ha & c' & Hc' & Hin). split; [done|]. exists c'.
        split; [|done]. rewrite lookup_insert_ne; [done|congruence].
      * rewrite <-app_assoc. apply NoDup_app. simpl. apply NoDup_app in Hnd as (? & Hd & ?). split_and!; [done| |].
        -- intros x Hx [->|Hx']%elem_of_cons; [apply Hfresh, elem_of_app; by left|by eapply Hd].
        -- constructor; [|done]. intros ?. apply Hfresh, elem_of_app. by right.
      * intros seq. destruct (decide (seq = lk_count st)) as [->|Hne].
        -- rewrite lookup_insert_eq. split; [intros _|by eauto]. set_solver.
        -- rewrite lookup_insert_ne by done. rewrite Hids. set_solver.
  - done.
Qed.

Lemma link_call_fails_inv st c e cl' fin' :
  link_inv st → lk_count st + 1 ≤ 2 ^ 64 → wf_call c → conn_error e →
  send (lk_client st) c (Some e) = (cl', None, inl fin') →
  link_inv (MkLink cl' (lk_count st + 1) (<[cl_seq (lk_client st) := c]> (lk_made st))
              (lk_requests st) (lk_responses st) (lk_answers st) (lk_finished st ++ fin')).
Proof.
  intros Hinv Hle Hwf He Hsend. destruct (new_seq st Hinv Hle) as (Hseq & Hnew & Hfin).
  pose proof (made_insert st c) as Hmade'. pose proof Hinv as [[Hn Hs] Hmade Hw Honce Hex Hopen Hshut].
  unfold send in Hsend. destruct (cl_shutdown (lk_client st)) eqn:Esh; [done|]. destruct (cl_closing _); [done|].
  simpl in Hsend. injection Hsend as <- <-. rewrite Hseq in *. destruct (Hopen eq_refl) as (Hpend & ws & rs & Htr).
  destruct Htr as [Hreq Hrsp Hnd Hids].
  assert (cl_pending (lk_client st) !! lk_count st = None) as Hnp.
  { destruct (cl_pending (lk_client st) !! lk_count st) as [c'|] eqn:E; [|done]. apply Hpend in E as [E _]. congruence. }
  rewrite (delete_id _ _ Hnp). split; simpl.
  - split; [lia|done].
  - intros seq. by apply Hmade'.
  - intros seq c' [[<- <-]|[_ ?]]%lookup_insert_Some; [done|by eapply Hw].
  - rewrite fmap_app. apply NoDup_app. split_and!; [done| |by repeat constructor; apply not_elem_of_nil].
    intros x Hx [->|[]%elem_of_nil]%elem_of_cons. done.
  - intros seq v [Hin|[[= -> ->]|[]%elem_of_nil]%elem_of_cons]%elem_of_app.
    + eapply explained_mono; [..|by apply Hex]; simpl; [by apply insert_subseteq|done].
    + exists c. simpl. rewrite lookup_insert_eq. split; [done|]. left. by exists e.
  - intros _. split.
    + intros seq c'. rewrite fmap_app, elem_of_app, Hpend. simpl. rewrite list_elem_of_singleton.
      destruct (decide (seq = lk_count st)) as [->|Hne].
      * rewrite lookup_insert_eq, Hnew. naive_solver.
      * rewrite lookup_insert_ne by done. naive_solver.
    + exists ws, rs. split; simpl; [|..|done|done].
      * by apply (transit_insert st _ _ _ _ (λ seq c m, m = request_message seq c)).
      * eapply Forall2_impl; [exact Hrsp|]. intros seq rsp (Ha & c' & Hc' & Hin). split; [done|]. exists c'.
        split; [|done]. rewrite lookup_insert_ne; [done|congruence].
  - done.
Qed.

Lemma link_answer_inv st reqs1 reqs2 seq c rsp :
  link_inv st → lk_requests st = reqs1 ++ request_message seq c :: reqs2 → answer seq rsp →
  link_inv (MkLink (lk_client st) (lk_count st) (lk_made st) (reqs1 ++ reqs2) (lk_responses st ++ [rsp])
              (lk_answers st ++ [(request_message seq c, rsp)]) (lk_finished st)).
Proof.
  intros [Hs Hmade Hw Honce Hex Hopen Hshut] Hreqs Hans. split; simpl; try done.
  - intros s v Hin. eapply explained_mono; [..|by apply Hex]; simpl; [done|set_solver].
  - intros Hsd. destruct (Hopen Hsd) as (Hpend & ws & rs & [Hreq Hrsp Hnd Hids]). split; [done|].
    rewrite Hreqs in Hreq. apply Forall2_app_inv_r in Hreq as (ws1 & ws2' & H1 & H2 & ->).
    apply Forall2_cons_inv_r in H2 as (seq' & ws2 & (c' & Hc' & Hm) & H2 & ->).
    assert (seq' = seq) as -> by (symmetry; by eapply request_message_inj).
    exists (ws1 ++ ws2), (rs ++ [seq]). split; simpl.
    + by apply Forall2_app.
    + apply Forall2_app.
      * eapply Forall2_impl; [exact Hrsp|]. intros s r (Ha & c0 & Hc0 & Hin). split; [done|]. exists c0. set_solver.
      * constructor; [|done]. split; [done|]. exists c'. rewrite <-Hm. set_solver.
    + assert ((ws1 ++ ws2) ++ rs ++ [seq] ≡ₚ (ws1 ++ seq :: ws2) ++ rs) as -> by solve_Permutation. done.
    + intros s. rewrite Hids. set_solver.
Qed.

(** The first response: its call is pending, and returns. *)
Lemma input_inv st rsp rsps cl' fin' r :
  link_inv st → lk_count st ≤ 2 ^ 64 → lk_responses st = rsp :: rsps →
  cl_shutdown (lk_client st) = false → input (lk_client st) rsp = (cl', fin', r) →
  link_inv (MkLink cl' (lk_count st) (lk_made st) (lk_requests st) rsps (lk_answers st) (lk_finished st ++ fin')) ∧
  cl_shutdown cl' = false ∧ (r = Ok () ∨ ∃ e, r = Err e ∧ conn_error e).
Proof.
  intros [Hs Hmade Hw Honce Hex Hopen Hshut] Hle Hrsps Hsd Hin.
  destruct (Hopen Hsd) as (Hpend & ws & rs & [Hreq Hrsp Hnd Hids]).
  rewrite Hrsps in Hrsp. apply Forall2_cons_inv_r in Hrsp as (seq & rs' & (Hans & c & Hc & Hlog) & Hrsp & ->).
  assert (is_Some (cl_pending (lk_client st) !! seq)) as [c' Hc'] by (apply Hids; set_solver).
  pose proof Hc' as [Hc2 Hnf]%Hpend. simplify_eq.
  destruct (input_answer (lk_client st) seq c rsp) as (codec & v & r' & Hrun & Hret & Hr);
    [assert (is_Some (lk_made st !! seq)) as Hb%Hmade by (by rewrite Hc); lia|done|done|by eapply Hw|].
  rewrite Hrun in Hin. injection Hin as <- <- <-. split; [|done]. split; simpl; try done.
  - rewrite fmap_app. apply NoDup_app. split_and!; [done| |by repeat constructor; apply not_elem_of_nil].
    intros x Hx [->|[]%elem_of_nil]%elem_of_cons. done.
  - intros s v' [Hin|[[= -> ->]|[]%elem_of_nil]%elem_of_cons]%elem_of_app; [by apply Hex|].
    exists c. simpl. split; [done|]. right. by exists rsp.
  - intros _. split.
    + intros s c'. rewrite fmap_app, elem_of_app. simpl. rewrite list_elem_of_singleton, lookup_delete_Some, Hpend.
      naive_solver.
    + exists ws, rs'. split; simpl; [done|done| |].
      * rewrite <-Permutation_middle in Hnd. by apply NoDup_cons in Hnd as [_ ?].
      * intros s. rewrite <-Permutation_middle in Hnd. apply NoDup_cons in Hnd as [Hno _].
        destruct (decide (s = seq)) as [->|Hne].
        -- rewrite lookup_delete_eq. split; [by intros [? ?]|done].
        -- rewrite lookup_delete_ne by done. rewrite Hids. set_solver.
  - by rewrite Hsd.
Qed.

Lemma terminate_inv st e cl' fin' :
  link_inv st → cl_shutdown (lk_client st) = false → conn_error e →
  terminate (lk_client st) e = (cl', fin') →
  link_inv (MkLink cl' (lk_count st) (lk_made st) (lk_requests st) (lk_responses st) (lk_answers st)
              (lk_finished st ++ fin')).
Proof.
  intros [Hs Hmade Hw Honce Hex Hopen Hshut] Hsd He Hterm.
  destruct (Hopen Hsd) as (Hpend & _). unfold terminate in Hterm. injection Hterm as <- <-.
  set (err := if decide (e = EOF) then _ else e).
  assert (conn_error err) as Herr by (unfold err; case_decide; [by destruct (cl_closing _)|done]).
  assert (∀ s, s ∈ (map_to_list (cl_pending (lk_client st))).*1 ↔ is_Some (cl_pending (lk_client st) !! s)) as Hkeys.
  { intros s. rewrite list_elem_of_fmap. split.
    - intros ([s' c] & -> & Hin%elem_of_map_to_list). by eexists.
    - intros [c Hc%elem_of_map_to_list]. by exists (s, c). }
  assert (((λ seq : Z, (seq, Err err : result json)) <$> (map_to_list (cl_pending (lk_client st))).*1).*1 =
    (map_to_list (cl_pending (lk_client st))).*1) as Hfst.
  { rewrite <-list_fmap_compose. simpl. apply list_fmap_id. }
  split; simpl; try done.
  - rewrite fmap_app, Hfst. apply NoDup_app. split_and!; [done| |apply NoDup_fst_map_to_list].
    intros s Hs1 [c Hc]%Hkeys. by apply Hpend in Hc as [_ ?].
  - intros s v [Hin|Hin]%elem_of_app; [by apply Hex|].
    apply list_elem_of_fmap in Hin as (s' & [= -> ->] & [c Hc]%Hkeys). apply Hpend in Hc as [Hc _].
    exists c. split; [done|]. left. by exists err.
  - intros _ s [c Hc]. rewrite fmap_app, Hfst, elem_of_app, Hkeys.
    destruct (decide (s ∈ (lk_finished st).*1)); [by left|right]. exists c. by apply Hpend.
Qed.

(** ** Every execution *)

Lemma link_count_mono st st' : link_step st st' → lk_count st ≤ lk_count st'.
Proof. destruct 1; simpl; lia. Qed.

Lemma link_step_inv st st' :
  link_inv st → lk_count st' ≤ 2 ^ 64 → link_step st st' → link_inv st'.
Proof.
  intros Hinv Hle Hstep. destruct Hstep; cbn [lk_count] in Hle.
  - by apply (link_call_inv _ c cl' m Hinv).
  - by apply (link_call_fails_inv _ c e cl' fin' Hinv).
  - by apply (link_answer_inv _ reqs1 reqs2 seq c rsp Hinv).
  - by apply (input_inv _ rsp rsps cl' fin' (Ok ()) Hinv).
  - destruct (input_inv _ rsp rsps cl' fin' (Err e) Hinv) as (Hinv' & Hsd' & [?|(e' & [= <-] & He)]); [done..|].
    rewrite app_assoc. by apply (terminate_inv _ e _ _ Hinv').
  - by apply (terminate_inv _ e cl' fin' Hinv).
  - destruct Hinv as [H1 H2 H3 H4 H5 H6 H7]. unfold rpc_Close in *. destruct (cl_closing cl); simplify_eq; [by split|].
    split; simpl in *; try done. intros Hsd. destruct (H6 Hsd) as (Hp & ws & rs & [? ? ? ?]).
    split; [done|]. exists ws, rs. by split.
Qed.

Lemma link_reachable_inv st : rtc link_step link_init st → lk_count st ≤ 2 ^ 64 → link_inv st.
Proof.
  intros Hrun. eapply (rtc_ind_r (λ st, lk_count st ≤ 2 ^ 64 → link_inv st)); [intros _; apply link_init_inv| |exact Hrun].
  intros s1 s2 _ Hstep IH Hle. pose proof (link_count_mono _ _ Hstep). apply (link_step_inv s1 s2); [apply IH; lia|done|done].
Qed.

(** C13. However the calls of any number of goroutines, the answers of SPDK and the
    failures of the connection interleave (up to 2^64 calls): every call returns at most
    once; what it returns is SPDK's answer to its own request or reports a problem of
    the connection; a call that has not returned is waiting for SPDK or has its answer
    on the way, on a connection that is open; and the reading goroutine can always go
    on with the next answer. *)
Theorem responses_match_calls st :
  rtc link_step link_init st → lk_count st ≤ 2 ^ 64 →
  NoDup (lk_finished st).*1 ∧
  (∀ seq v, (seq, v) ∈ lk_finished st →
    ∃ c, lk_made st !! seq = Some c ∧
      (connection_failed v ∨ ∃ rsp, (request_message seq c, rsp) ∈ lk_answers st ∧ returned seq c rsp v)) ∧
  (∀ seq c, lk_made st !! seq = Some c → seq ∉ (lk_finished st).*1 →
    cl_shutdown (lk_client st) = false ∧
    (request_message seq c ∈ lk_requests st ∨
     ∃ rsp, rsp ∈ lk_responses st ∧ answer seq rsp ∧ (request_message seq c, rsp) ∈ lk_answers st)) ∧
  (∀ rsp rsps, lk_responses st = rsp :: rsps → cl_shutdown (lk_client st) = false →
    ∃ st', link_step st st' ∧ lk_responses st' = rsps).
Proof.
  intros Hrun Hle. pose proof (link_reachable_inv st Hrun Hle) as Hinv.
  pose proof Hinv as [Hs Hmade Hw Honce Hex Hopen Hshut]. split_and!; [done|exact Hex| |].
  - intros seq c Hc Hnf. destruct (cl_shutdown (lk_client st)) eqn:Esd.
    { destruct Hnf. apply Hshut; [done|by eexists]. }
    split; [done|]. destruct (Hopen eq_refl) as (Hpend & ws & rs & [Hreq Hrsp _ Hids]).
    assert (seq ∈ ws ++ rs) as [(i & Hi)%list_elem_of_lookup|(i & Hi)%list_elem_of_lookup]%elem_of_app
      by (apply Hids; exists c; by apply Hpend).
    + destruct (Forall2_lookup_l _ _ _ _ _ Hreq Hi) as (m & Hm & c' & Hc' & ->).
      left. apply list_elem_of_lookup. exists i. by simplify_eq.
    + destruct (Forall2_lookup_l _ _ _ _ _ Hrsp Hi) as (rsp & Hm & Ha & c' & Hc' & Hlog).
      right. exists rsp. simplify_eq. split_and!; [|done|done]. apply list_elem_of_lookup. by exists i.
  - intros rsp rsps Hrsps Hsd. destruct (input (lk_client st) rsp) as [[cl' fin'] r] eqn:Ein.
    destruct (input_inv st rsp rsps cl' fin' r) as (_ & _ & Hr); [done..|].
    destruct st as [cl n made reqs rsps0 ans fin]. simpl in *. subst rsps0. destruct Hr as [->|(e & -> & He)].
    + eexists. split; [by eapply link_input|done].
    + destruct (terminate cl' e) as [cl'' fin''] eqn:Et. eexists. split; [by eapply link_input_fails|done].
Qed.

(** ** An example: two calls, answered in the other order *)

Module rpc_example.
Definition c0 : rpc_call := MkCall "get_bdevs" None (Some (λ _, None)).
Definition c1 : rpc_call := MkCall "delete_bdev" (Some (JObj [("name", JStr "v")])) None.
Definition first : link := MkLink (send (lk_client link_init) c0 None).1.1 1 {[0 := c0]} [request_message 0 c0] [] [] [].
Definition second : link :=
  MkLink (send (lk_client first) c1 None).1.1 2 (<[1 := c1]> {[0 := c0]}) [request_message 0 c0; request_message 1 c1] [] [] [].
Definition r0 : json := result_response 0 (JArr []).
Definition r1 : json := error_response 1 (-32602) "Invalid parameters".
Definition answered : link :=
  MkLink (lk_client second) 2 (lk_made second) [] [r1; r0] [(request_message 1 c1, r1); (request_message 0 c0, r0)] [].
Definition read1 : link :=
  MkLink (input (lk_client answered) r1).1.1 2 (lk_made second) [] [r0] (lk_answers answered) (input (lk_client answered) r1).1.2.
Definition read2 : link :=
  MkLink (input (lk_client read1) r0).1.1 2 (lk_made second) [] [] (lk_answers answered)
    (lk_finished read1 ++ (input (lk_client read1) r0).1.2).
End rpc_example.
Import rpc_example.

Lemma rpc_example_calls : link_step link_init first ∧ link_step first second.
Proof.
  split.
  - refine (link_call (lk_client link_init) 0 ∅ [] [] [] [] c0 (lk_client first) (request_message 0 c0) _ _);
      [by intros ? ? ? [= <-]|reflexivity].
  - refine (link_call (lk_client first) 1 {[0 := c0]} [request_message 0 c0] [] [] [] c1 (lk_client second) (request_message 1 c1) _ _);
      [done|reflexivity].
Qed.

Lemma rpc_example_run : rtc link_step link_init read2.
Proof.
  destruct rpc_example_calls as [H1 H2]. eapply rtc_l; [exact H1|]. eapply rtc_l; [exact H2|].
  eapply rtc_l; [apply (link_answer _ _ _ [request_message 0 c0] [] [] [] [] 1 c1 r1), answer_error; lia|].
  eapply rtc_l; [apply (link_answer _ _ _ [] [] [r1] _ _ 0 c0 r0), answer_result; done|].
  eapply rtc_l; [apply (link_input _ _ _ _ r1 [r0] _ [] (lk_client read1) (lk_finished read1)); [done|vm_compute; reflexivity]|].
  apply rtc_once. apply (link_input _ _ _ _ r0 [] _ _ (lk_client read2) (input (lk_client read1) r0).1.2); [done|vm_compute; reflexivity].
Qed.

Lemma responses_match_calls_witness :
  lk_finished read2 = [(1, Err (ServerError "code: -32602 msg: Invalid parameters")); (0, Ok (JArr []))] ∧
  ∃ rsp, (request_message 0 c0, rsp) ∈ lk_answers read2 ∧ returned 0 c0 rsp (Ok (JArr [])).
Proof.
  assert (lk_finished read2 = [(1, Err (ServerError "code: -32602 msg: Invalid parameters")); (0, Ok (JArr []))]) as Hf
    by (vm_compute; reflexivity).
  split; [exact Hf|].
  destruct (responses_match_calls read2 rpc_example_run) as (_ & H & _ & _); [by vm_compute|].
  destruct (H 0 (Ok (JArr []))) as (c & Hc & [(e & [=] & _)|Hr]).
  - rewrite Hf. right. left.
  - assert (lk_made read2 !! 0 = Some c0) as Hc0 by reflexivity. assert (c = c0) as -> by congruence. exact Hr.
Defined.

(** A result that is null is taken for an invalid error: the client shuts the
    connection down, and all other calls fail, too. *)
Lemma null_result_breaks_connection cl seq :
  0 ≤ seq < 2 ^ 64 →
  ∃ cl', input cl (result_response seq JNull) = (cl', [], Err (ErrorNew "invalid error %v")) ∧
    cl_pending cl' = cl_pending cl ∧ cl_shutdown (terminate cl' (ErrorNew "invalid error %v")).1 = true.
Proof.
  intros Hseq. unfold input, ReadResponseHeader, result_response. cbn [dec_struct].
  assert (dec_members clientResponse_fields
    [("jsonrpc", JStr "2.0"); ("id", JNum seq None); ("result", JNull)] reset =
    Ok (MkClientResponse seq None INil)) as ->; [|by eexists].
  rewrite (dec_members_none _ _ "jsonrpc"); [|vm_compute; reflexivity|find_field].
  erewrite (dec_members_some _ _ "id"); [|vm_compute; reflexivity|find_field|].
  2:{ unfold dec_uint64. rewrite decide_True by done. reflexivity. }
  erewrite (dec_members_some _ _ "result"); [|vm_compute; reflexivity|find_field|reflexivity]. reflexivity.
Qed.
