(* ===== verification/SPDKConn.v ===== *)
(** * The connection to SPDK: the rest of pkg/spdk/client.go

    [New] dials SPDK and wraps the connection such that all traffic is logged;
    [logConn_transparent] says that the wrapper changes nothing else.  The client on
    top of it is that of net/rpc (RPC.v). *)
From S2P Require Import Prelude GoStrings Strconv Errors Json SPDKClient RPC Slices Level Log LogFacts.

Section Conn.
Context {L W : Type} {LL : Logger L W L}.
Local Abbreviation LM := (LM L W).

(** The methods of a [net.Conn]: bytes read (for a buffer of the given size) or the
    number of bytes written, with an error. *)
Record net_Conn := MkConn {
  Conn_Read : nat → LM (string * option error);
  Conn_Write : string → LM (Z * option error);
  Conn_Close : LM (result ())
}.

Record logConn := MkLogConn { lc_Conn : net_Conn; lc_logger : L }.

Definition logConn_Read (lc : logConn) (size : nat) : LM (string * option error) :=
  Conn_Read (lc_Conn lc) size ≫= λ '(b, err),
  (match err with
   | None => Logger_Debugw (lc_logger lc) "read" [AString "data"; LineBuffer b]
   | Some e => if decide (e = EOF) then mret ()
               else Logger_Errorw (lc_logger lc) "read error" [AString "error"; AError e]
   end) ≫= λ _, mret (b, err).

Definition logConn_Write (lc : logConn) (b : string) : LM (Z * option error) :=
  Logger_Debugw (lc_logger lc) "write" [AString "data"; LineBuffer b] ≫= λ _,
  Conn_Write (lc_Conn lc) b ≫= λ '(n, err),
  (match err with
   | None => mret ()
   | Some e => Logger_Errorw (lc_logger lc) "write error" [AString "error"; AError e]
   end) ≫= λ _, mret (n, err).

(** The [Client]: what net/rpc keeps, and the connection. *)
Record Client := MkSPDKClient { client : rpc_Client; client_conn : logConn }.

(** [Dial] is [net.Dial]. *)
Definition New (Dial : string → string → LM (result net_Conn)) (path : string) : LM (result Client) :=
  Dial "unix" path ≫= λ r,
  match r with
  | Err err => mret (Err err)
  | Panic why => mret (Panic why)
  | Ok conn =>
      L_ ≫= λ l, Logger_With l [AString "at"; AString "spdk-rpc"] ≫= λ l,
      mret (Ok (MkSPDKClient (NewClientWithCodec newClientCodec) (MkLogConn conn l)))
  end.

(** [Close]: the connection is closed unless that was done before. *)
Definition Close (c : Client) : LM (Client * result ()) :=
  (if cl_closing (client c) then mret (Ok ()) else Conn_Close (lc_Conn (client_conn c))) ≫= λ r,
  let '(cl, r) := rpc_Close (client c) r in mret (MkSPDKClient cl (client_conn c), r).

(** [Invoke] starts the call; net/rpc returns from it when the call is finished. *)
Definition Client_Invoke (c : Client) (method : string) (args : option json)
    (reply : option (json → option error)) (werr : option error) : Client * option json * (finished + error) :=
  let '(cl, m, r) := send (client c) (MkCall method args reply) werr in
  (MkSPDKClient cl (client_conn c), m, r).
End Conn.

(** A program that only logs and then continues. *)
Definition only_logs {W} (p : LM simpleLogger W ()) (s : lstate simpleLogger W) : Prop :=
  ∃ s', p s = (s', inl ()) ∧ l_world s' = l_world s.

Lemma Debugw_only_logs {rt : GoRuntime} {W} (sl : simpleLogger) msg kvs (s : lstate simpleLogger W) :
  logger_ok s sl → only_logs (Logger_Debugw sl msg kvs) s ∧ only_logs (Logger_Errorw sl msg kvs) s.
Proof.
  intros Hok. unfold only_logs. cbn [Logger_Debugw Logger_Errorw simpleLogger_Logger]. unfold Debugw, Errorw.
  cbn [simple_base lb_Printw Init].
  rewrite (Outputw_run _ _ _ _ "DEBUG"), (Outputw_run _ _ _ _ "ERROR") by done. unfold ending_of.
  rewrite !(decide_False (P := _ = _)) by done. split; eexists; (split; [done|]); by case_decide.
Qed.

(** Reading through the wrapper has the result and the effect of the connection. *)
Lemma logConn_transparent {rt : GoRuntime} {W} (lc : logConn (L:=simpleLogger) (W:=W)) size s s1 b err :
  Conn_Read (lc_Conn lc) size s = (s1, inl (b, err)) → logger_ok s1 (lc_logger lc) →
  ∃ s2, logConn_Read lc size s = (s2, inl (b, err)) ∧ l_world s2 = l_world s1.
Proof.
  intros Hread Hok. unfold logConn_Read, mbind, LM_bind. rewrite Hread.
  destruct (Debugw_only_logs (lc_logger lc) "read" [AString "data"; LineBuffer b] s1 Hok) as [(s2 & Hd & Hw) _].
  destruct err as [e|]; [|rewrite Hd; by exists s2]. case_decide; [by exists s1|].
  destruct (Debugw_only_logs (lc_logger lc) "read error" [AString "error"; AError e] s1 Hok) as [_ (s3 & He & Hw3)].
  rewrite He. by exists s3.
Qed.
