(* ===== verification/SPDK.v ===== *)
(** * SPDK bindings: pkg/spdk/spdk.go

    Each binding marshals its arguments, performs one [Invoke] and decodes the
    reply; [getSCSIBackendSpecific] interprets the part of the reply to
    get_vhost_controllers that is decoded without a type. *)
From S2P Require Import Prelude GoStrings Json Effects.

(** The one way to reach the SPDK daemon: [Client.Invoke]. *)
Inductive spdkE : Type → Type :=
| Invoke (method : string) (args : option json) : spdkE (result json).

Definition invoke {A} (method : string) (args : option json) (dec : decoder A) (zero : A) :
    go spdkE A :=
  j ← call (Invoke method args);
  from_result (match dec j zero with Err e => Err (Wrap e "reading body") | r => r end).

(** A call with [reply == nil]: the result is not looked at. *)
Definition invoke_ (method : string) (args : option json) : go spdkE () :=
  _ ← call (Invoke method args); mret ().

(** ** BDevs *)

Record GetBDevsArgs := MkGetBDevsArgs { GetBDevs_Name : string }.

Record SupportedIOTypes := MkSupportedIOTypes {
  Read : bool; Write : bool; Unmap : bool; WriteZeros : bool;
  Flush : bool; Reset : bool; NVMEAdmin : bool; NVMEIO : bool
}.

Record BDev := MkBDev {
  Name : string; ProductName : string; UUID : string;
  BlockSize : Z; NumBlocks : Z; Claimed : bool; IOTypes : SupportedIOTypes
}.

Definition zero_SupportedIOTypes : SupportedIOTypes :=
  MkSupportedIOTypes false false false false false false false false.
Definition zero_BDev : BDev := MkBDev "" "" "" 0 0 false zero_SupportedIOTypes.

Definition SupportedIOTypes_fields : fields SupportedIOTypes := [
  ("read", λ j t, b ← dec_bool j (Read t);
     mret (MkSupportedIOTypes b (Write t) (Unmap t) (WriteZeros t) (Flush t) (Reset t) (NVMEAdmin t) (NVMEIO t)));
  ("write", λ j t, b ← dec_bool j (Write t);
     mret (MkSupportedIOTypes (Read t) b (Unmap t) (WriteZeros t) (Flush t) (Reset t) (NVMEAdmin t) (NVMEIO t)));
  ("unmap", λ j t, b ← dec_bool j (Unmap t);
     mret (MkSupportedIOTypes (Read t) (Write t) b (WriteZeros t) (Flush t) (Reset t) (NVMEAdmin t) (NVMEIO t)));
  ("write_zeroes", λ j t, b ← dec_bool j (WriteZeros t);
     mret (MkSupportedIOTypes (Read t) (Write t) (Unmap t) b (Flush t) (Reset t) (NVMEAdmin t) (NVMEIO t)));
  ("flush", λ j t, b ← dec_bool j (Flush t);
     mret (MkSupportedIOTypes (Read t) (Write t) (Unmap t) (WriteZeros t) b (Reset t) (NVMEAdmin t) (NVMEIO t)));
  ("reset", λ j t, b ← dec_bool j (Reset t);
     mret (MkSupportedIOTypes (Read t) (Write t) (Unmap t) (WriteZeros t) (Flush t) b (NVMEAdmin t) (NVMEIO t)));
  ("nvme_admin", λ j t, b ← dec_bool j (NVMEAdmin t);
     mret (MkSupportedIOTypes (Read t) (Write t) (Unmap t) (WriteZeros t) (Flush t) (Reset t) b (NVMEIO t)));
  ("nvme_io", λ j t, b ← dec_bool j (NVMEIO t);
     mret (MkSupportedIOTypes (Read t) (Write t) (Unmap t) (WriteZeros t) (Flush t) (Reset t) (NVMEAdmin t) b))].

Definition BDev_fields : fields BDev := [
  ("name", λ j b, x ← dec_string j (Name b);
     mret (MkBDev x (ProductName b) (UUID b) (BlockSize b) (NumBlocks b) (Claimed b) (IOTypes b)));
  ("product_name", λ j b, x ← dec_string j (ProductName b);
     mret (MkBDev (Name b) x (UUID b) (BlockSize b) (NumBlocks b) (Claimed b) (IOTypes b)));
  ("uuid", λ j b, x ← dec_string j (UUID b);
     mret (MkBDev (Name b) (ProductName b) x (BlockSize b) (NumBlocks b) (Claimed b) (IOTypes b)));
  ("block_size", λ j b, x ← dec_int64 j (BlockSize b);
     mret (MkBDev (Name b) (ProductName b) (UUID b) x (NumBlocks b) (Claimed b) (IOTypes b)));
  ("num_blocks", λ j b, x ← dec_int64 j (NumBlocks b);
     mret (MkBDev (Name b) (ProductName b) (UUID b) (BlockSize b) x (Claimed b) (IOTypes b)));
  ("claimed", λ j b, x ← dec_bool j (Claimed b);
     mret (MkBDev (Name b) (ProductName b) (UUID b) (BlockSize b) (NumBlocks b) x (IOTypes b)));
  ("supported_io_types", λ j b, x ← dec_struct SupportedIOTypes_fields j (IOTypes b);
     mret (MkBDev (Name b) (ProductName b) (UUID b) (BlockSize b) (NumBlocks b) (Claimed b) x))].

Definition GetBDevs (args : GetBDevsArgs) : go spdkE (list BDev) :=
  invoke "get_bdevs" (Some (JObj (omitempty "name" (GetBDevs_Name args))))
    (dec_slice (dec_struct BDev_fields) zero_BDev) [].

Record DeleteBDevArgs := MkDeleteBDevArgs { DeleteBDev_Name : string }.

Definition DeleteBDev (args : DeleteBDevArgs) : go spdkE () :=
  invoke_ "delete_bdev" (Some (JObj [("name", JStr (DeleteBDev_Name args))])).

Record ConstructBDevArgs := MkConstructBDevArgs {
  Construct_NumBlocks : Z; Construct_BlockSize : Z; Construct_Name : string; Construct_UUID : string
}.

Definition ConstructMallocBDev (args : ConstructBDevArgs) : go spdkE string :=
  invoke "construct_malloc_bdev"
    (Some (JObj ([("num_blocks", enc_int (Construct_NumBlocks args));
                  ("block_size", enc_int (Construct_BlockSize args))] ++
                 omitempty "name" (Construct_Name args) ++
                 omitempty "uuid" (Construct_UUID args))))
    dec_string "".

Record ConstructRBDBDevArgs := MkConstructRBDBDevArgs {
  RBD_BlockSize : Z; RBD_Name : string; RBD_UserID : string;
  RBD_PoolName : string; RBD_RBDName : string; RBD_Config : list (string * string)
}.

(** encoding/json writes the entries of a map sorted by key. *)
Fixpoint insert_sorted (kv : string * string) (l : list (string * string)) : list (string * string) :=
  match l with
  | [] => [kv]
  | kv' :: l' => if String.leb (fst kv) (fst kv') then kv :: l else kv' :: insert_sorted kv l'
  end.
Definition enc_map (m : list (string * string)) : json :=
  JObj ((λ '(k, v), (k, JStr v)) <$> foldr insert_sorted [] m).

Definition ConstructRBDBDev (args : ConstructRBDBDevArgs) : go spdkE string :=
  invoke "construct_rbd_bdev"
    (Some (JObj ([("block_size", enc_int (RBD_BlockSize args))] ++
                 omitempty "name" (RBD_Name args) ++
                 omitempty "user_id" (RBD_UserID args) ++
                 [("pool_name", JStr (RBD_PoolName args)); ("rbd_name", JStr (RBD_RBDName args))] ++
                 (if decide (RBD_Config args = []) then []
                  else [("config", enc_map (RBD_Config args))]))))
    dec_string "".

(** ** NBD disks *)

Record StartNBDDiskArgs := MkStartNBDDiskArgs { NBD_BDevName : string; NBD_NBDDevice : string }.

Definition StartNBDDisk (args : StartNBDDiskArgs) : go spdkE () :=
  invoke_ "start_nbd_disk"
    (Some (JObj [("bdev_name", JStr (NBD_BDevName args)); ("nbd_device", JStr (NBD_NBDDevice args))])).

Definition StartNBDDiskArgs_fields : fields StartNBDDiskArgs := [
  ("bdev_name", λ j a, x ← dec_string j (NBD_BDevName a); mret (MkStartNBDDiskArgs x (NBD_NBDDevice a)));
  ("nbd_device", λ j a, x ← dec_string j (NBD_NBDDevice a); mret (MkStartNBDDiskArgs (NBD_BDevName a) x))].

Definition GetNBDDisks : go spdkE (list StartNBDDiskArgs) :=
  invoke "get_nbd_disks" None (dec_slice (dec_struct StartNBDDiskArgs_fields) (MkStartNBDDiskArgs "" "")) [].

Record StopNBDDiskArgs := MkStopNBDDiskArgs { Stop_NBDDevice : string }.

Definition StopNBDDisk (args : StopNBDDiskArgs) : go spdkE () :=
  invoke_ "stop_nbd_disk" (Some (JObj [("nbd_device", JStr (Stop_NBDDevice args))])).

(** ** VHost controllers *)

Record ConstructVHostSCSIControllerArgs := MkConstructVHostSCSIControllerArgs {
  VHost_CPUMask : string; VHost_Controller : string
}.

Definition ConstructVHostSCSIController (args : ConstructVHostSCSIControllerArgs) : go spdkE () :=
  invoke_ "construct_vhost_scsi_controller"
    (Some (JObj (omitempty "cpumask" (VHost_CPUMask args) ++ [("ctrlr", JStr (VHost_Controller args))]))).

Record AddVHostSCSILUNArgs := MkAddVHostSCSILUNArgs {
  Add_Controller : string; Add_SCSITargetNum : Z; Add_BDevName : string
}.

Definition AddVHostSCSILUN (args : AddVHostSCSILUNArgs) : go spdkE () :=
  invoke_ "add_vhost_scsi_lun"
    (Some (JObj [("ctrlr", JStr (Add_Controller args));
                 ("scsi_target_num", enc_int (Add_SCSITargetNum args));
                 ("bdev_name", JStr (Add_BDevName args))])).

Record RemoveVHostSCSITargetArgs := MkRemoveVHostSCSITargetArgs {
  Remove_Controller : string; Remove_SCSITargetNum : Z
}.

Definition RemoveVHostSCSITarget (args : RemoveVHostSCSITargetArgs) : go spdkE () :=
  invoke_ "remove_vhost_scsi_target"
    (Some (JObj [("ctrlr", JStr (Remove_Controller args));
                 ("scsi_target_num", enc_int (Remove_SCSITargetNum args))])).

Record RemoveVHostControllerArgs := MkRemoveVHostControllerArgs { RemoveCtrl_Controller : string }.

Definition RemoveVHostController (args : RemoveVHostControllerArgs) : go spdkE () :=
  invoke_ "remove_vhost_controller" (Some (JObj [("ctrlr", JStr (RemoveCtrl_Controller args))])).

Record SCSIControllerLUN := MkLUN { LUN : Z; BDevName : string }.

Record SCSIControllerTarget := MkTarget {
  TargetName : string; LUNs : list SCSIControllerLUN; ID : Z; SCSIDevNum : Z
}.

(** A value of [BackendSpecificType]: interpreted, or as decoded. *)
Inductive specific :=
| SCSIControllerSpecific (targets : list SCSIControllerTarget)
| Uninterpreted (v : iface).

Record Controller := MkController {
  Controller_ : string; CPUMask : string; BackendSpecific : list (string * specific)
}.

(** The body of the innermost loop: [for key, value := range hash]. *)
Definition set_lun (l : SCSIControllerLUN) (kv : string * iface) : SCSIControllerLUN :=
  let '(key, value) := kv in
  if decide (key = "id") then
    match value with IFloat id => MkLUN (float_to_int32 id) (BDevName l) | _ => l end
  else if decide (key = "bdev_name") then
    match value with IString name => MkLUN (LUN l) name | _ => l end
  else l.

Definition get_lun (lun : iface) : SCSIControllerLUN :=
  match lun with
  | IMap hash => foldl set_lun (MkLUN 0 "") hash
  | _ => MkLUN 0 ""
  end.

(** The body of the loop over the entries of a target. *)
Definition set_target (t : SCSIControllerTarget) (kv : string * iface) : SCSIControllerTarget :=
  let '(key, value) := kv in
  if decide (key = "target_name") then
    match value with
    | IString name => MkTarget name (LUNs t) (ID t) (SCSIDevNum t)
    | _ => t
    end
  else if decide (key = "id") then
    match value with
    | IFloat id => MkTarget (TargetName t) (LUNs t) (float_to_int32 id) (SCSIDevNum t)
    | _ => t
    end
  else if decide (key = "scsi_dev_num") then
    match value with
    | IFloat devNum => MkTarget (TargetName t) (LUNs t) (ID t) (float_to_uint32 devNum)
    | _ => t
    end
  else if decide (key = "luns") then
    match value with
    | ISlice luns => MkTarget (TargetName t) (LUNs t ++ (get_lun <$> luns)) (ID t) (SCSIDevNum t)
    | _ => t
    end
  else t.

Fixpoint get_targets (l : list iface) : list SCSIControllerTarget :=
  match l with
  | [] => []
  | IMap hash :: l' => foldl set_target (MkTarget "" [] 0 0) hash :: get_targets l'
  | _ :: l' => get_targets l'
  end.

Definition getSCSIBackendSpecific (in_ : iface) : list SCSIControllerTarget :=
  match in_ with
  | ISlice l => get_targets l
  | _ => []
  end.

(** The entries of the map are interpreted in place. *)
Definition interpret_specific (kv : string * specific) : string * specific :=
  let '(backend, value) := kv in
  if decide (backend = "scsi") then
    (backend, SCSIControllerSpecific
       (getSCSIBackendSpecific match value with Uninterpreted v => v | _ => INil end))
  else kv.

Definition interpret_controller (c : Controller) : Controller :=
  MkController (Controller_ c) (CPUMask c) (interpret_specific <$> BackendSpecific c).

(** Decoding into a map adds to the entries it has; null makes it nil. *)
Definition dec_backend : decoder (list (string * specific)) := λ j cur,
  match j with
  | JNull => Ok []
  | _ => m ← dec_map j []; mret (foldl (λ acc '(k, v), map_set k (Uninterpreted v) acc) cur m)
  end.

Definition Controller_fields : fields Controller := [
  ("ctrlr", λ j c, x ← dec_string j (Controller_ c); mret (MkController x (CPUMask c) (BackendSpecific c)));
  ("cpumask", λ j c, x ← dec_string j (CPUMask c); mret (MkController (Controller_ c) x (BackendSpecific c)));
  ("backend_specific", λ j c, x ← dec_backend j (BackendSpecific c);
     mret (MkController (Controller_ c) (CPUMask c) x))].

Definition GetVHostControllers : go spdkE (list Controller) :=
  response ← invoke "get_vhost_controllers" None
               (dec_slice (dec_struct Controller_fields) (MkController "" "" [])) [];
  mret (interpret_controller <$> response).

(** ** What the daemon writes

    The replies of the daemon, member by member in the order of its C code
    (spdk_vhost_scsi_dump_info_json, _spdk_rpc_get_vhost_controller and
    spdk_rpc_dump_bdev_info of the vendored SPDK). *)

Record scsi_target := MkSCSITarget {
  dev_num : Z; dev_id : Z; dev_name : string; dev_luns : list (Z * string)
}.

Inductive backend :=
| Scsi (targets : list scsi_target)
| OtherBackend (kind : string) (info : json).

Record vhost := MkVhost {
  vh_name : string; vh_cpumask : string; vh_delay : Z; vh_iops : Z; vh_socket : string;
  vh_backend : backend
}.

Record bdev := MkBdev {
  b_product : string; b_block_size : Z; b_num_blocks : Z; b_uuid : option string;
  b_claimed : bool; b_io : SupportedIOTypes; b_driver : json
}.

Definition dump_lun (l : Z * string) : json :=
  JObj [("id", JNum (fst l) None); ("bdev_name", JStr (snd l))].

Definition dump_target (t : scsi_target) : json :=
  JObj [("scsi_dev_num", JNum (dev_num t) None); ("id", JNum (dev_id t) None);
        ("target_name", JStr (dev_name t)); ("luns", JArr (dump_lun <$> dev_luns t))].

Definition dump_backend (b : backend) : json :=
  match b with
  | Scsi ts => JObj [("scsi", JArr (dump_target <$> ts))]
  | OtherBackend kind info => JObj [(kind, info)]
  end.

Definition dump_vhost (v : vhost) : json :=
  JObj [("ctrlr", JStr (vh_name v)); ("cpumask", JStr (vh_cpumask v));
        ("delay_base_us", JNum (vh_delay v) None); ("iops_threshold", JNum (vh_iops v) None);
        ("socket", JStr (vh_socket v)); ("backend_specific", dump_backend (vh_backend v))].

Definition dump_io (t : SupportedIOTypes) : json :=
  JObj [("read", JBool (Read t)); ("write", JBool (Write t)); ("unmap", JBool (Unmap t));
        ("write_zeroes", JBool (WriteZeros t)); ("flush", JBool (Flush t));
        ("reset", JBool (Reset t)); ("nvme_admin", JBool (NVMEAdmin t)); ("nvme_io", JBool (NVMEIO t))].

Definition dump_bdev (name : string) (b : bdev) : json :=
  JObj ([("name", JStr name); ("aliases", JArr []); ("product_name", JStr (b_product b));
         ("block_size", JNum (b_block_size b) None); ("num_blocks", JNum (b_num_blocks b) None)] ++
        match b_uuid b with Some u => [("uuid", JStr u)] | None => [] end ++
        [("assigned_rate_limits", JObj []); ("claimed", JBool (b_claimed b));
         ("supported_io_types", dump_io (b_io b)); ("driver_specific", b_driver b)]).

(** Ranges of the numbers: uint32 and int32 in C. *)
Definition lun_wf (l : Z * string) : Prop := - 2 ^ 31 ≤ fst l < 2 ^ 31.
Definition target_wf (t : scsi_target) : Prop :=
  0 ≤ dev_num t < 2 ^ 32 ∧ - 2 ^ 31 ≤ dev_id t < 2 ^ 31 ∧ Forall lun_wf (dev_luns t).
Definition vhost_wf (v : vhost) : Prop :=
  match vh_backend v with
  | Scsi ts => Forall target_wf ts
  | OtherBackend kind info => kind ≠ "scsi" ∧ is_Some (to_iface info)
  end.
Definition bdev_wf (b : bdev) : Prop :=
  0 ≤ b_block_size b < 2 ^ 32 ∧ 0 ≤ b_num_blocks b < 2 ^ 63.

(** What the Go structs say about the same objects. *)
Definition as_LUN (l : Z * string) : SCSIControllerLUN := MkLUN (fst l) (snd l).
Definition as_Target (t : scsi_target) : SCSIControllerTarget :=
  MkTarget (dev_name t) (as_LUN <$> dev_luns t) (dev_id t) (dev_num t).
Definition as_Controller (v : vhost) : Controller :=
  MkController (vh_name v) (vh_cpumask v)
    match vh_backend v with
    | Scsi ts => [("scsi", SCSIControllerSpecific (as_Target <$> ts))]
    | OtherBackend kind info =>
        match to_iface info with Some x => [(kind, Uninterpreted x)] | None => [] end
    end.
Definition as_BDev (name : string) (b : bdev) : BDev :=
  MkBDev name (b_product b) (default "" (b_uuid b)) (b_block_size b) (b_num_blocks b)
    (b_claimed b) (b_io b).

(** Two decoded values that differ only in the order in which the entries of
    their maps are visited. *)
Inductive same_iface : iface → iface → Prop :=
| same_refl v : same_iface v v
| same_slice l l' : Forall2 same_iface l l' → same_iface (ISlice l) (ISlice l')
| same_map m m1 m' :
    NoDup m.*1 → Forall2 (λ x y, fst x = fst y ∧ same_iface (snd x) (snd y)) m m1 →
    m1 ≡ₚ m' → same_iface (IMap m) (IMap m').

(** ** Decoded maps by key *)

Lemma set_lun_get hash a b :
  NoDup hash.*1 →
  foldl set_lun (MkLUN a b) hash =
    MkLUN (match map_get "id" hash with Some (IFloat f) => float_to_int32 f | _ => a end)
          (match map_get "bdev_name" hash with Some (IString s) => s | _ => b end).
Proof.
  revert a b. induction hash as [|[k v] hash IH]; intros a b; [done|].
  rewrite fmap_cons, NoDup_cons. intros [Hk Hnd]. apply map_get_None in Hk. cbn [foldl set_lun map_get fst] in *.
  repeat case_decide; try congruence; subst; try (destruct v; rewrite IH by done; by rewrite ?Hk).
Qed.

Lemma set_target_get hash n ls i d :
  NoDup hash.*1 →
  foldl set_target (MkTarget n ls i d) hash =
    MkTarget (match map_get "target_name" hash with Some (IString s) => s | _ => n end)
             (match map_get "luns" hash with Some (ISlice l) => ls ++ (get_lun <$> l) | _ => ls end)
             (match map_get "id" hash with Some (IFloat f) => float_to_int32 f | _ => i end)
             (match map_get "scsi_dev_num" hash with Some (IFloat f) => float_to_uint32 f | _ => d end).
Proof.
  revert n ls i d. induction hash as [|[k v] hash IH]; intros n ls i d; [done|].
  rewrite fmap_cons, NoDup_cons. intros [Hk Hnd]. apply map_get_None in Hk.
  cbn [foldl set_target map_get fst TargetName LUNs ID SCSIDevNum] in *.
  repeat case_decide; try congruence; subst; try (destruct v; rewrite IH by done; by rewrite ?Hk).
Qed.

Lemma same_map_keys m m1 (P : iface → iface → Prop) :
  Forall2 (λ x y : string * iface, fst x = fst y ∧ P (snd x) (snd y)) m m1 → m.*1 = m1.*1.
Proof. induction 1 as [|x y m m1 [H _] _ IH]; csimpl; [done|]. by rewrite H, IH. Qed.

Lemma same_map_get m m1 (P : iface → iface → Prop) k :
  Forall2 (λ x y : string * iface, fst x = fst y ∧ P (snd x) (snd y)) m m1 →
  option_Forall2 P (map_get k m) (map_get k m1).
Proof.
  induction 1 as [|[k1 v1] [k2 v2] m m1 [H HP] _ IH]; simpl in *; [constructor|].
  subst. case_decide; [by constructor|done].
Qed.

(** Equal lookups up to visiting order. *)
Lemma same_map_lookup m m' k :
  same_iface (IMap m) (IMap m') → NoDup m.*1 → option_Forall2 same_iface (map_get k m) (map_get k m').
Proof.
  intros Hs Hnd. inversion Hs as [|? ?|? m1 ? _ Hf Hp]; subst.
  - destruct (map_get k m'); constructor. constructor.
  - rewrite <-(map_get_Permutation k m1 m'); [by apply same_map_get| |done].
    by rewrite <-(same_map_keys _ _ _ Hf).
Qed.

Lemma same_map_NoDup m m' : same_iface (IMap m) (IMap m') → NoDup m.*1 → NoDup m'.*1.
Proof.
  intros Hs Hnd. inversion Hs as [|? ?|? m1 ? _ Hf Hp]; subst; [done|].
  rewrite <-Hp. by rewrite <-(same_map_keys _ _ _ Hf).
Qed.

(** Inversion of [same_iface] on the shape of its first argument. *)
Lemma same_iface_inv v v' :
  same_iface v v' →
  match v with
  | ISlice l => ∃ l', v' = ISlice l' ∧ Forall2 same_iface l l'
  | IMap m => ∃ m', v' = IMap m' ∧ (v' = v ∨ NoDup m.*1)
  | _ => v' = v
  end.
Proof.
  intros H. inversion H; subst; [|by eexists|naive_solver].
  destruct v'; try done; [|eauto]. eexists. split; [done|]. apply Forall_Forall2_diag, Forall_true. constructor.
Qed.

Lemma get_lun_same v v' : same_iface v v' → get_lun v = get_lun v'.
Proof.
  intros H. pose proof (same_iface_inv _ _ H) as Hi.
  destruct v as [| | | |l|m]; try (by subst); [by destruct Hi as (? & -> & _)|].
  destruct Hi as (m' & -> & [[= ->]|Hnd]); [done|]. simpl.
  pose proof (same_map_NoDup _ _ H Hnd) as Hnd'.
  rewrite !set_lun_get by done.
  pose proof (same_map_lookup _ _ "id" H Hnd) as H1. pose proof (same_map_lookup _ _ "bdev_name" H Hnd) as H2.
  f_equal.
  - destruct H1 as [x y Hxy%same_iface_inv|]; [|done]. destruct x; naive_solver.
  - destruct H2 as [x y Hxy%same_iface_inv|]; [|done]. destruct x; naive_solver.
Qed.

Lemma target_same m m' t0 :
  same_iface (IMap m) (IMap m') → foldl set_target t0 m = foldl set_target t0 m'.
Proof.
  intros H. pose proof (same_iface_inv _ _ H) as (? & [= <-] & [[= ->]|Hnd]); [done|].
  pose proof (same_map_NoDup _ _ H Hnd) as Hnd'. destruct t0 as [n ls i d].
  rewrite !set_target_get by done.
  pose proof (λ k, same_map_lookup _ _ k H Hnd) as Hk. f_equal.
  - destruct (Hk "target_name") as [x y Hxy%same_iface_inv|]; [|done]. destruct x; naive_solver.
  - destruct (Hk "luns") as [x y Hxy%same_iface_inv|]; [|done].
    destruct x; try naive_solver. destruct Hxy as (l' & -> & Hl). f_equal.
    induction Hl; csimpl; [done|]. f_equal; [by apply get_lun_same|done].
  - destruct (Hk "id") as [x y Hxy%same_iface_inv|]; [|done]. destruct x; naive_solver.
  - destruct (Hk "scsi_dev_num") as [x y Hxy%same_iface_inv|]; [|done]. destruct x; naive_solver.
Qed.

Lemma getSCSIBackendSpecific_same v v' :
  same_iface v v' → getSCSIBackendSpecific v = getSCSIBackendSpecific v'.
Proof.
  intros H. apply same_iface_inv in H. destruct v as [| | | |l|m]; try (by subst).
  - destruct H as (l' & -> & Hl). simpl. induction Hl as [|x y l l' Hxy Hl IH]; [done|].
    pose proof (same_iface_inv _ _ Hxy) as Hi. destruct x; try (subst; simpl; by rewrite IH).
    + destruct Hi as (? & -> & _). simpl. by rewrite IH.
    + destruct Hi as (m' & -> & _). simpl. rewrite IH. f_equal. by apply target_same.
  - destruct H as (? & -> & _). done.
Qed.

#[export] Instance getSCSIBackendSpecific_Proper :
  Proper (same_iface ==> eq) getSCSIBackendSpecific.
Proof. intros v v' H. by apply getSCSIBackendSpecific_same. Qed.

(** ** Decoding what the daemon writes *)

Lemma number_int32 z : - 2 ^ 31 ≤ z < 2 ^ 31 → ∃ f, number z None = Some f ∧ float_to_int32 f = z.
Proof.
  intros Hz. destruct (trunc_number z) as (f & Hf & Ht); [lia|]. exists f. split; [done|].
  unfold float_to_int32, float_to_int. rewrite Ht, decide_True by lia. by apply wrap_signed_small.
Qed.

Lemma number_uint32 z : 0 ≤ z < 2 ^ 32 → ∃ f, number z None = Some f ∧ float_to_uint32 f = z.
Proof.
  intros Hz. destruct (trunc_number z) as (f & Hf & Ht); [lia|]. exists f. split; [done|].
  unfold float_to_uint32, float_to_int. rewrite Ht, decide_True by lia. by apply wrap_unsigned_small.
Qed.

Lemma to_iface_list l vs :
  Forall2 (λ j v, to_iface j = Some v) l vs → to_iface (JArr l) = Some (ISlice vs).
Proof.
  induction 1 as [|j v l vs Hj _ IH]; [done|]. cbn [to_iface] in *. rewrite Hj.
  match type of IH with fmap _ ?x = _ => destruct x as [xs|] end; [|done].
  by injection IH as ->.
Qed.

Lemma dump_lun_iface l : lun_wf l → ∃ v, to_iface (dump_lun l) = Some v ∧ get_lun v = as_LUN l.
Proof.
  intros Hl. destruct (number_int32 (fst l) Hl) as (f & Hf & Hz).
  eexists. split; [cbn [dump_lun to_iface]; rewrite Hf; reflexivity|].
  decide_consts. by rewrite Hz.
Qed.

Lemma dump_list_iface {A B} (dump : A → json) (as_ : A → B) (get : iface → B) (wf : A → Prop) l :
  (∀ x, wf x → ∃ v, to_iface (dump x) = Some v ∧ get v = as_ x) → Forall wf l →
  ∃ vs, to_iface (JArr (dump <$> l)) = Some (ISlice vs) ∧ get <$> vs = as_ <$> l ∧
    Forall2 (λ x v, to_iface (dump x) = Some v) l vs.
Proof.
  intros Hd Hl. assert (∃ vs, Forall2 (λ x v, to_iface (dump x) = Some v) l vs ∧ get <$> vs = as_ <$> l)
    as (vs & Hvs & Hget).
  { induction Hl as [|x l Hx _ (vs & IH1 & IH2)]; [by exists []|].
    destruct (Hd x Hx) as (v & Hv & Hg). exists (v :: vs). csimpl. split; [by constructor|by rewrite Hg, IH2]. }
  exists vs. split_and!; [|done..]. apply to_iface_list. by apply Forall2_fmap_l.
Qed.

Lemma dump_target_iface t :
  target_wf t → ∃ m, to_iface (dump_target t) = Some (IMap m) ∧
    foldl set_target (MkTarget "" [] 0 0) m = as_Target t.
Proof.
  intros (Hn & Hi & Hl). destruct (number_uint32 _ Hn) as (fn & Hfn & Hzn).
  destruct (number_int32 _ Hi) as (fi & Hfi & Hzi).
  destruct (dump_list_iface dump_lun as_LUN get_lun lun_wf _ dump_lun_iface Hl) as (vs & Hvs & Hg & _).
  eexists. split.
  - unfold dump_target. remember (JArr (dump_lun <$> dev_luns t)) as ja.
    cbn [to_iface]. rewrite Hfn, Hfi, Hvs. reflexivity.
  - decide_consts. by rewrite Hzn, Hzi, Hg.
Qed.

Lemma dump_targets_specific ts :
  Forall target_wf ts →
  ∃ v, to_iface (JArr (dump_target <$> ts)) = Some v ∧ getSCSIBackendSpecific v = as_Target <$> ts.
Proof.
  intros Hts. assert (∃ vs, Forall2 (λ t v, to_iface (dump_target t) = Some v) ts vs ∧
    get_targets vs = as_Target <$> ts) as (vs & Hvs & Hg).
  { induction Hts as [|t ts Ht _ (vs & IH1 & IH2)]; [by exists []|].
    destruct (dump_target_iface t Ht) as (m & Hm & Hg). exists (IMap m :: vs). csimpl.
    split; [by constructor|by rewrite Hg, IH2]. }
  exists (ISlice vs). split; [|done]. apply to_iface_list. by apply Forall2_fmap_l.
Qed.

Lemma to_iface_one k j v : to_iface j = Some v → to_iface (JObj [(k, j)]) = Some (IMap [(k, v)]).
Proof. intros H. cbn [to_iface]. by rewrite H. Qed.

Lemma dec_backend_dump b :
  match b with
  | Scsi ts => Forall target_wf ts
  | OtherBackend kind info => kind ≠ "scsi" ∧ is_Some (to_iface info)
  end →
  ∃ m, dec_backend (dump_backend b) [] = Ok m ∧
    interpret_specific <$> m =
      match b with
      | Scsi ts => [("scsi", SCSIControllerSpecific (as_Target <$> ts))]
      | OtherBackend kind info =>
          match to_iface info with Some x => [(kind, Uninterpreted x)] | None => [] end
      end.
Proof.
  destruct b as [ts|kind info]; cbn [dump_backend].
  - intros Hts. destruct (dump_targets_specific ts Hts) as (v & Hv & Hg).
    exists [("scsi", Uninterpreted v)]. unfold dec_backend, dec_map.
    rewrite (to_iface_one _ _ _ Hv). split; [done|]. decide_consts. by rewrite Hg.
  - intros [Hk [v Hv]]. exists [(kind, Uninterpreted v)]. unfold dec_backend, dec_map.
    rewrite (to_iface_one _ _ _ Hv), Hv. split; [done|]. cbn. by rewrite decide_False.
Qed.

Lemma dec_vhost v :
  vhost_wf v → ∃ c, dec_struct Controller_fields (dump_vhost v) (MkController "" "" []) = Ok c ∧
    interpret_controller c = as_Controller v.
Proof.
  intros Hv. destruct (dec_backend_dump (vh_backend v) Hv) as (m & Hm & Hi).
  exists (MkController (vh_name v) (vh_cpumask v) m). split.
  - unfold dump_vhost. generalize dependent (dump_backend (vh_backend v)). intros jb Hm.
    cbn [dec_struct]. dec_object ltac:(fold (dec_backend jb []); rewrite Hm; reflexivity). done.
  - unfold interpret_controller, as_Controller. simpl. by rewrite Hi.
Qed.

Lemma dec_vhosts vs :
  Forall vhost_wf vs →
  ∃ cs, dec_slice (dec_struct Controller_fields) (MkController "" "" []) (JArr (dump_vhost <$> vs)) [] = Ok cs ∧
    interpret_controller <$> cs = as_Controller <$> vs.
Proof.
  induction 1 as [|v vs Hv _ (cs & IH1 & IH2)]; [by exists []|].
  destruct (dec_vhost v Hv) as (c & Hc & Hi). exists (c :: cs). rewrite !fmap_cons. split.
  - cbn [dec_slice dec_elems] in *. rewrite Hc. cbn [mbind result_mbind result_bind]. by rewrite IH1.
  - by rewrite Hi, IH2.
Qed.

Lemma dec_io t0 t : dec_struct SupportedIOTypes_fields (dump_io t) t0 = Ok t.
Proof. destruct t. unfold dump_io. cbn [dec_struct]. dec_object ltac:(idtac; discriminate). done. Qed.

Lemma dec_bdev n b :
  bdev_wf b → dec_struct BDev_fields (dump_bdev n b) zero_BDev = Ok (as_BDev n b).
Proof.
  intros [Hb Hn]. unfold dump_bdev, as_BDev. pose proof (λ t, dec_io t (b_io b)) as Hio.
  generalize dependent (dump_io (b_io b)). intros jio Hio.
  destruct (b_uuid b) as [u|]; cbn [dec_struct app];
    dec_object ltac:(first [rewrite dec_int64_ok by lia; cbn; reflexivity | rewrite Hio; cbn; reflexivity]); done.
Qed.

(** ** Replies of the bindings *)

Section Replies.
Context {S : Type} (serve : ∀ B, spdkE B → S → S * B).

Lemma run_invoke {A} method args (dec : decoder A) zero s s' j a :
  serve _ (Invoke method args) s = (s', Ok j) → dec j zero = Ok a →
  run serve (invoke method args dec zero) s = (s', Ok a).
Proof. intros H1 H2. unfold invoke. simpl. rewrite H1. simpl. by rewrite H2. Qed.
End Replies.

(** ** Properties *)

(** [getSCSIBackendSpecific] inverts the daemon's
    spdk_vhost_scsi_dump_info_json: for all SCSI targets with numbers in their C
    ranges, the untyped value that encoding/json makes of the dump (numbers as
    float64, objects as maps) is turned back into exactly these targets and LUNs,
    in whatever order the runtime visits the entries of the maps. *)
Theorem getSCSIBackendSpecific_inverts_dump ts v v' :
  Forall target_wf ts → to_iface (JArr (dump_target <$> ts)) = Some v → same_iface v v' →
  getSCSIBackendSpecific v' = as_Target <$> ts.
Proof.
  intros Hts Hv Hs. destruct (dump_targets_specific ts Hts) as (v1 & Hv1 & Hg).
  rewrite Hv in Hv1. injection Hv1 as <-. by rewrite Hs in Hg.
Qed.

Lemma getSCSIBackendSpecific_inverts_dump_witness :
  let f z := IFloat (default (MkFloat 0 0) (number z None)) in
  getSCSIBackendSpecific
    (ISlice [IMap [("luns", ISlice [IMap [("bdev_name", IString "vol"); ("id", f 0)]]);
                   ("target_name", IString "Target 3"); ("id", f (-1)); ("scsi_dev_num", f 3)]]) =
  as_Target <$> [MkSCSITarget 3 (-1) "Target 3" [(0, "vol")]].
Proof.
  intros f.
  apply (getSCSIBackendSpecific_inverts_dump [MkSCSITarget 3 (-1) "Target 3" [(0, "vol")]]
    (ISlice [IMap [("scsi_dev_num", f 3); ("id", f (-1)); ("target_name", IString "Target 3");
                   ("luns", ISlice [IMap [("id", f 0); ("bdev_name", IString "vol")]])]])).
  - repeat constructor; simpl; lia.
  - vm_compute. reflexivity.
  - constructor. constructor; [|constructor].
    apply (same_map _ [("scsi_dev_num", f 3); ("id", f (-1)); ("target_name", IString "Target 3");
                       ("luns", ISlice [IMap [("bdev_name", IString "vol"); ("id", f 0)]])]).
    + repeat constructor; set_solver.
    + repeat (constructor; [split; [done|repeat constructor]|]). 2: constructor.
      * apply (same_map _ [("id", f 0); ("bdev_name", IString "vol")]); [repeat constructor; set_solver| |].
        -- repeat constructor.
        -- apply (Permutation_rev [_; _]).
    + apply (Permutation_rev [_; _; _; _]).
Defined.
