(* ===== verification/Daemon.v ===== *)
(** * What the SPDK daemon promises

    The daemon is a separate program reached through [Invoke]; the controller and
    the CSI driver rely on the behaviour of its JSON-RPC methods stated here.
    [SPDKSound] says what a reply means and what a failed call leaves alone; every
    call may fail.  [SPDKReliable] adds which calls succeed.  [refd] is a small
    daemon with one vhost controller that has both properties. *)
From S2P Require Import Prelude GoStrings Json Effects SPDK.

(** A place where a BDev can be attached: vhost controller and target number. *)
Abbreviation place := (string * Z)%type.

Definition vhost_targets (v : vhost) : list scsi_target :=
  match vh_backend v with Scsi ts => ts | OtherBackend _ _ => [] end.

(** Where a BDev is attached, in the order of the daemon's reply. *)
Definition places_list (n : string) (vs : list vhost) : list place :=
  v ← vs; t ← vhost_targets v; l ← dev_luns t;
  if decide (snd l = n) then [(vh_name v, dev_num t)] else [].

Class SPDKDaemon (D : Type) := {
  rpc : string → option json → D → D * result json;
  bdevs : D → gmap string bdev;
  vhosts : D → list vhost
}.

Section Interface.
Context {D : Type} `{SPDKDaemon D}.

Definition places (n : string) (d : D) : gset place := list_to_set (places_list n (vhosts d)).

Definition spdk_serve : ∀ B, spdkE B → D → D * B := λ B e,
  match e in spdkE B return D → D * B with Invoke method args => rpc method args end.

(** One LUN per target, one target per number; an attached BDev exists. *)
Record daemon_wf (d : D) : Prop := {
  wf_vhosts : Forall vhost_wf (vhosts d);
  wf_bdevs : map_Forall (λ _ b, bdev_wf b) (bdevs d);
  wf_places n : NoDup (places_list n (vhosts d));
  wf_targets n m p : p ∈ places n d → p ∈ places m d → n = m;
  wf_attached n p : p ∈ places n d → is_Some (bdevs d !! n)
}.

Definition unchanged (d d' : D) : Prop := bdevs d' = bdevs d ∧ vhosts d' = vhosts d.

Definition has_scsi (c : string) (d : D) : Prop :=
  ∃ v ts, v ∈ vhosts d ∧ vh_name v = c ∧ vh_backend v = Scsi ts.
End Interface.

Class SPDKSound (D : Type) `{SPDKDaemon D} := {
  rpc_wf method args d : daemon_wf d → daemon_wf (rpc method args d).1;
  rpc_no_panic method args d w : (rpc method args d).2 ≠ Panic w;

  get_bdevs_sound n d d' r :
    n ≠ "" → daemon_wf d → rpc "get_bdevs" (Some (JObj [("name", JStr n)])) d = (d', r) →
    unchanged d d' ∧ ∀ j, r = Ok j → ∃ b, bdevs d !! n = Some b ∧ j = JArr [dump_bdev n b];

  (** Deleting a BDev also detaches it everywhere. *)
  delete_bdev_sound n d d' r :
    daemon_wf d → rpc "delete_bdev" (Some (JObj [("name", JStr n)])) d = (d', r) →
    unchanged d d' ∨
    bdevs d' = delete n (bdevs d) ∧ ∀ m, places m d' = if decide (m = n) then ∅ else places m d;

  construct_malloc_sound n nb bs d d' r :
    n ≠ "" → daemon_wf d →
    rpc "construct_malloc_bdev"
      (Some (JObj [("num_blocks", JNum nb None); ("block_size", JNum bs None); ("name", JStr n)])) d = (d', r) →
    (unchanged d d' ∧ ∀ j, r ≠ Ok j) ∨
    r = Ok (JStr n) ∧ bdevs d !! n = None ∧ vhosts d' = vhosts d ∧
      ∃ b, b_product b = "Malloc disk" ∧ b_num_blocks b = nb ∧ b_block_size b = bs ∧
        bdevs d' = <[n:=b]> (bdevs d);

  (** Any members may follow the name (user, pool, image, configuration). *)
  construct_rbd_sound n bs rest d d' r :
    n ≠ "" → daemon_wf d →
    rpc "construct_rbd_bdev"
      (Some (JObj (("block_size", JNum bs None) :: ("name", JStr n) :: rest))) d = (d', r) →
    (unchanged d d' ∧ ∀ j, r ≠ Ok j) ∨
    r = Ok (JStr n) ∧ bdevs d !! n = None ∧ vhosts d' = vhosts d ∧
      ∃ b, b_product b ≠ "Malloc disk" ∧ bdevs d' = <[n:=b]> (bdevs d);

  get_vhost_controllers_sound d d' r :
    daemon_wf d → rpc "get_vhost_controllers" None d = (d', r) →
    unchanged d d' ∧ ∀ j, r = Ok j → j = JArr (dump_vhost <$> vhosts d);

  add_vhost_scsi_lun_sound c t n d d' r :
    daemon_wf d →
    rpc "add_vhost_scsi_lun"
      (Some (JObj [("ctrlr", JStr c); ("scsi_target_num", JNum t None); ("bdev_name", JStr n)])) d = (d', r) →
    (unchanged d d' ∧ ∀ j, r ≠ Ok j) ∨
    (∃ j, r = Ok j) ∧ is_Some (bdevs d !! n) ∧ (∀ m, (c, t) ∉ places m d) ∧
      bdevs d' = bdevs d ∧
      ∀ m, places m d' = if decide (m = n) then {[(c, t)]} ∪ places m d else places m d;

  remove_vhost_scsi_target_sound c t d d' r :
    daemon_wf d →
    rpc "remove_vhost_scsi_target"
      (Some (JObj [("ctrlr", JStr c); ("scsi_target_num", JNum t None)])) d = (d', r) →
    (unchanged d d' ∧ ∀ j, r ≠ Ok j) ∨
    (∃ j, r = Ok j) ∧ bdevs d' = bdevs d ∧ ∀ m, places m d' = places m d ∖ {[(c, t)]}
}.

(** Which calls succeed. *)
Class SPDKReliable (D : Type) `{SPDKDaemon D} := {
  get_bdevs_ok n d :
    n ≠ "" → daemon_wf d → is_Some (bdevs d !! n) →
    is_ok (rpc "get_bdevs" (Some (JObj [("name", JStr n)])) d).2 = true;
  delete_bdev_ok n d :
    daemon_wf d → is_Some (bdevs d !! n) →
    bdevs (rpc "delete_bdev" (Some (JObj [("name", JStr n)])) d).1 !! n = None;
  get_vhost_controllers_ok d :
    daemon_wf d → is_ok (rpc "get_vhost_controllers" None d).2 = true;
  add_vhost_scsi_lun_ok c t n d :
    daemon_wf d → has_scsi c d → 0 ≤ t < 8 → is_Some (bdevs d !! n) →
    (∀ m, (c, t) ∉ places m d) →
    is_ok (rpc "add_vhost_scsi_lun"
      (Some (JObj [("ctrlr", JStr c); ("scsi_target_num", JNum t None); ("bdev_name", JStr n)])) d).2 = true;
  remove_vhost_scsi_target_ok c t n d :
    daemon_wf d → (c, t) ∈ places n d →
    is_ok (rpc "remove_vhost_scsi_target"
      (Some (JObj [("ctrlr", JStr c); ("scsi_target_num", JNum t None)])) d).2 = true;
  (** Only one method removes controllers. *)
  rpc_keeps_controllers method args c d :
    method ≠ "remove_vhost_controller" → has_scsi c d → has_scsi c (rpc method args d).1
}.

(** ** A daemon with one vhost controller *)

Record refd := MkRefd { rb : gmap string bdev; rl : gmap Z string }.

Definition ref_target (x : Z * string) : scsi_target :=
  MkSCSITarget (fst x) (fst x) "Target" [(0, snd x)].

Definition ref_vhosts (d : refd) : list vhost :=
  [MkVhost "vhost.0" "0x1" 0 60000 "/var/tmp/vhost.0" (Scsi (ref_target <$> map_to_list (rl d)))].

Definition invalid_params : result json := Err (ServerError "code: -32602 msg: Invalid parameters").

Definition str_arg (args : option json) (k : string) : option string :=
  match args with
  | Some (JObj ms) => match map_get k ms with Some (JStr s) => Some s | _ => None end
  | _ => None
  end.
Definition int_arg (args : option json) (k : string) : option Z :=
  match args with
  | Some (JObj ms) => match map_get k ms with Some (JNum z None) => Some z | _ => None end
  | _ => None
  end.

Definition ref_rpc (method : string) (args : option json) (d : refd) : refd * result json :=
  let fail := (d, invalid_params) in
  if decide (method = "get_bdevs") then
    match str_arg args "name" ≫= λ n, (λ b, dump_bdev n b) <$> rb d !! n with
    | Some j => (d, Ok (JArr [j]))
    | None => fail
    end
  else if decide (method = "delete_bdev") then
    match str_arg args "name" with
    | Some n =>
        if decide (is_Some (rb d !! n))
        then (MkRefd (delete n (rb d)) (filter (λ kv, kv.2 ≠ n) (rl d)), Ok (JBool true))
        else fail
    | None => fail
    end
  else if decide (method = "construct_malloc_bdev") then
    match str_arg args "name", int_arg args "num_blocks", int_arg args "block_size" with
    | Some n, Some nb, Some bs =>
        if decide (rb d !! n = None ∧ 0 < nb < 2 ^ 63 ∧ 0 < bs < 2 ^ 32)
        then (MkRefd (<[n:=MkBdev "Malloc disk" bs nb None false zero_SupportedIOTypes JNull]> (rb d)) (rl d),
              Ok (JStr n))
        else fail
    | _, _, _ => fail
    end
  else if decide (method = "construct_rbd_bdev") then
    match str_arg args "name" with
    | Some n =>
        if decide (rb d !! n = None)
        then (MkRefd (<[n:=MkBdev "Ceph Rbd Disk" 512 2048 None false zero_SupportedIOTypes JNull]> (rb d)) (rl d),
              Ok (JStr n))
        else fail
    | None => fail
    end
  else if decide (method = "get_vhost_controllers") then (d, Ok (JArr (dump_vhost <$> ref_vhosts d)))
  else if decide (method = "add_vhost_scsi_lun") then
    match str_arg args "ctrlr", int_arg args "scsi_target_num", str_arg args "bdev_name" with
    | Some c, Some t, Some n =>
        if decide (c = "vhost.0" ∧ 0 ≤ t < 8 ∧ is_Some (rb d !! n) ∧ rl d !! t = None)
        then (MkRefd (rb d) (<[t:=n]> (rl d)), Ok (JBool true))
        else fail
    | _, _, _ => fail
    end
  else if decide (method = "remove_vhost_scsi_target") then
    match str_arg args "ctrlr", int_arg args "scsi_target_num" with
    | Some c, Some t =>
        if decide (c = "vhost.0" ∧ is_Some (rl d !! t))
        then (MkRefd (rb d) (delete t (rl d)), Ok (JBool true))
        else fail
    | _, _ => fail
    end
  else fail.

#[export] Instance refd_daemon : SPDKDaemon refd := {
  rpc := ref_rpc; bdevs := rb; vhosts := ref_vhosts
}.

(** ** Lemmas on places *)

Lemma elem_of_places_list n vs c t :
  (c, t) ∈ places_list n vs ↔
    ∃ v x i, v ∈ vs ∧ x ∈ vhost_targets v ∧ (i, n) ∈ dev_luns x ∧ c = vh_name v ∧ t = dev_num x.
Proof.
  unfold places_list. setoid_rewrite list_elem_of_bind. setoid_rewrite list_elem_of_bind.
  setoid_rewrite list_elem_of_bind. split.
  - intros (v & (x & ([i m] & Hl & Hi) & Hx) & Hv). simpl in Hl. case_decide; [subst|by apply elem_of_nil in Hl].
    apply list_elem_of_singleton in Hl as [= -> ->]. by exists v, x, i.
  - intros (v & x & i & Hv & Hx & Hi & -> & ->). exists v. split; [|done]. exists x. split; [|done].
    exists (i, n). simpl. rewrite decide_True by done. split; [by left|done].
Qed.

Lemma ref_places_list n (d : refd) :
  places_list n (ref_vhosts d) =
    (λ x, ("vhost.0", fst x)) <$> filter (λ x, snd x = n) (map_to_list (rl d)).
Proof.
  unfold places_list, ref_vhosts. simpl. rewrite app_nil_r. unfold vhost_targets. simpl.
  induction (map_to_list (rl d)) as [|[t m] l IH]; [done|]. rewrite filter_cons. csimpl.
  case_decide; csimpl; by rewrite IH.
Qed.

Lemma ref_places n (d : refd) c t : (c, t) ∈ places n d ↔ c = "vhost.0" ∧ rl d !! t = Some n.
Proof.
  unfold places. change (vhosts d) with (ref_vhosts d).
  rewrite elem_of_list_to_set, ref_places_list, list_elem_of_fmap. split.
  - intros ([t' m] & [= -> ->] & [Hm Hin]%list_elem_of_filter). simpl in *. subst m.
    split; [done|by apply elem_of_map_to_list].
  - intros [-> Ht]. exists (t, n). split; [done|]. apply list_elem_of_filter.
    split; [done|by apply elem_of_map_to_list].
Qed.

Lemma ref_wf (d : refd) :
  daemon_wf d ↔
    map_Forall (λ _ b, bdev_wf b) (rb d) ∧
    map_Forall (λ t n, 0 ≤ t < 2 ^ 31 ∧ is_Some (rb d !! n)) (rl d).
Proof.
  split.
  - intros [Hv Hb Hp Ht Ha]. split; [done|]. intros t n Hn.
    assert (("vhost.0", t) ∈ places n d) as Hin by (by apply ref_places).
    split; [|by eapply Ha]. unfold vhosts in Hv; cbn [refd_daemon] in Hv; unfold ref_vhosts in Hv.
    rewrite Forall_singleton in Hv.
    change (Forall target_wf (ref_target <$> map_to_list (rl d))) in Hv.
    rewrite Forall_fmap, Forall_forall in Hv.
    destruct (Hv (t, n)) as (? & ? & _); [by apply elem_of_map_to_list|]. simpl in *. lia.
  - intros [Hb Hl]. split.
    + apply Forall_singleton. 
      change (Forall target_wf (ref_target <$> map_to_list (rl d))).
      rewrite Forall_fmap. apply Forall_forall.
      intros [t n] Hin%elem_of_map_to_list. destruct (Hl _ _ Hin) as [? _].
      split_and!; simpl; [lia..|]. constructor; [|done]. unfold lun_wf. simpl. lia.
    + done.
    + intros n. change (vhosts d) with (ref_vhosts d). rewrite ref_places_list. apply (NoDup_fmap_1 snd).
      rewrite <-list_fmap_compose. simpl.
      change (NoDup (filter (λ x, snd x = n) (map_to_list (rl d))).*1).
      apply NoDup_fst_filter, NoDup_fst_map_to_list.
    + intros n m [c t] H1 H2. apply ref_places in H1 as [_ H1], H2 as [_ H2]. congruence.
    + intros n [c t] [_ H]%ref_places. by apply Hl in H as [_ ?].
Qed.

(** The five ways in which a call can change the reference daemon. *)
Inductive ref_change (d : refd) : refd → Prop :=
| ref_same : ref_change d d
| ref_deleted n : ref_change d (MkRefd (delete n (rb d)) (filter (λ kv, kv.2 ≠ n) (rl d)))
| ref_constructed n b : bdev_wf b → ref_change d (MkRefd (<[n:=b]> (rb d)) (rl d))
| ref_added t n : 0 ≤ t < 8 → is_Some (rb d !! n) → ref_change d (MkRefd (rb d) (<[t:=n]> (rl d)))
| ref_removed t : ref_change d (MkRefd (rb d) (delete t (rl d))).

Lemma ref_rpc_change method args d : ref_change d (ref_rpc method args d).1.
Proof.
  unfold ref_rpc.
  repeat match goal with
  | |- context [match ?x with _ => _ end] => destruct x; try (simpl; constructor; fail)
  end; simpl; constructor; try naive_solver.
  - split; simpl; lia.
  - split; simpl; lia.
Qed.

Lemma ref_change_wf d d' : ref_change d d' → daemon_wf d → daemon_wf d'.
Proof.
  intros Hc. rewrite !ref_wf. intros [Hb Hl]. destruct Hc as [|n|n b Hwf|t n Ht Hn|t]; simpl; [done|..].
  - split; [by apply map_Forall_delete|]. intros t m [Hm Hne]%map_lookup_filter_Some. simpl in Hne.
    rewrite lookup_delete_ne by done. by apply Hl in Hm.
  - split; [by apply map_Forall_insert_2|]. intros t m Hm. destruct (Hl t m Hm) as [? [b' Hb']].
    split; [done|]. rewrite lookup_insert. case_decide; eauto.
  - split; [done|]. apply map_Forall_insert_2; [|done]. split; [lia|done].
  - split; [done|]. by apply map_Forall_delete.
Qed.

Lemma ref_str_arg ms k s : map_get k ms = Some (JStr s) → str_arg (Some (JObj ms)) k = Some s.
Proof. intros H. simpl. by rewrite H. Qed.
Lemma ref_int_arg ms k z : map_get k ms = Some (JNum z None) → int_arg (Some (JObj ms)) k = Some z.
Proof. intros H. simpl. by rewrite H. Qed.

#[export] Program Instance refd_sound : SPDKSound refd.
Next Obligation. intros method args d. apply ref_change_wf, ref_rpc_change. Qed.
Next Obligation.
  intros method args d w. change (rpc (D := refd)) with ref_rpc. unfold ref_rpc.
  repeat match goal with
  | |- context [match ?x with _ => _ end] => destruct x; try (simpl; discriminate)
  end.
Qed.
Next Obligation.
  intros n d d' r Hn Hwf H. change (ref_rpc "get_bdevs" (Some (JObj [("name", JStr n)])) d = (d', r)) in H.
  unfold ref_rpc in H. rewrite decide_True in H by done.
  rewrite (ref_str_arg _ _ n) in H by done. simpl in H. change (bdevs d) with (rb d).
  destruct (rb d !! n) as [b|] eqn:Hb; simpl in H; injection H as <- <-; (split; [done|]); [|done].
  intros j [= <-]. by exists b.
Qed.
Next Obligation.
  intros n d d' r Hwf H. change (ref_rpc "delete_bdev" (Some (JObj [("name", JStr n)])) d = (d', r)) in H.
  unfold ref_rpc in H. rewrite decide_False, decide_True in H by done.
  rewrite (ref_str_arg _ _ n) in H by done. case_decide; injection H as <- <-; [right|by left].
  split; [done|]. intros m. apply set_eq. intros [c t]. rewrite ref_places. simpl.
  rewrite map_lookup_filter_Some. simpl. case_decide; [set_solver|]. rewrite ref_places. naive_solver.
Qed.
Next Obligation.
  intros n nb bs d d' r Hn Hwf H.
  change (ref_rpc "construct_malloc_bdev" (Some (JObj [("num_blocks", JNum nb None);
    ("block_size", JNum bs None); ("name", JStr n)])) d = (d', r)) in H.
  unfold ref_rpc in H. do 2 rewrite decide_False in H by done. rewrite decide_True in H by done.
  rewrite (ref_str_arg _ _ n), (ref_int_arg _ _ nb), (ref_int_arg _ _ bs) in H by done.
  case_decide as Hc; injection H as <- <-; [right|by left].
  destruct Hc as [Hfresh _]. split_and!; [done..|]. eexists. by split_and!; [| | |reflexivity].
Qed.
Next Obligation.
  intros n bs rest d d' r Hn Hwf H.
  change (ref_rpc "construct_rbd_bdev" (Some (JObj (("block_size", JNum bs None) ::
    ("name", JStr n) :: rest))) d = (d', r)) in H.
  unfold ref_rpc in H. do 3 rewrite decide_False in H by done. rewrite decide_True in H by done.
  rewrite (ref_str_arg _ _ n) in H by done.
  case_decide as Hc; injection H as <- <-; [right|by left].
  split_and!; [done..|]. eexists. by split; [|reflexivity].
Qed.
Next Obligation.
  intros d d' r Hwf H. change (ref_rpc "get_vhost_controllers" None d = (d', r)) in H.
  unfold ref_rpc in H. do 4 rewrite decide_False in H by done. rewrite decide_True in H by done.
  injection H as <- <-. split; [done|]. by intros j [= <-].
Qed.
Next Obligation.
  intros c t n d d' r Hwf H.
  change (ref_rpc "add_vhost_scsi_lun" (Some (JObj [("ctrlr", JStr c); ("scsi_target_num", JNum t None);
    ("bdev_name", JStr n)])) d = (d', r)) in H.
  unfold ref_rpc in H. do 5 rewrite decide_False in H by done. rewrite decide_True in H by done.
  rewrite (ref_str_arg _ _ c), (ref_str_arg _ _ n), (ref_int_arg _ _ t) in H by done.
  case_decide as Hc; injection H as <- <-; [right|by left].
  destruct Hc as (-> & Ht & Hn & Hfree). split_and!; [by eexists|done| |done|].
  - intros m [_ Hm]%ref_places. congruence.
  - intros m. apply set_eq. intros [c' t']. rewrite ref_places. simpl. rewrite lookup_insert.
    case_decide as Htt; subst; case_decide as Hm; subst; rewrite ?elem_of_union, ?elem_of_singleton, !ref_places;
      naive_solver.
Qed.
Next Obligation.
  intros c t d d' r Hwf H.
  change (ref_rpc "remove_vhost_scsi_target" (Some (JObj [("ctrlr", JStr c); ("scsi_target_num", JNum t None)])) d
    = (d', r)) in H.
  unfold ref_rpc in H. do 6 rewrite decide_False in H by done. rewrite decide_True in H by done.
  rewrite (ref_str_arg _ _ c), (ref_int_arg _ _ t) in H by done.
  case_decide as Hc; injection H as <- <-; [right|by left].
  destruct Hc as (-> & Ht). split_and!; [by eexists|done|].
  intros m. apply set_eq. intros [c' t']. rewrite ref_places. simpl.
  rewrite elem_of_difference, elem_of_singleton, ref_places, lookup_delete. case_decide; naive_solver.
Qed.

(** The call that the laws of [SPDKReliable] are about, as a test on its arguments. *)
#[export] Program Instance refd_reliable : SPDKReliable refd.
Next Obligation.
  intros n d Hn Hwf [b Hb]. change (rb d !! n = Some b) in Hb.
  change (rpc (D := refd)) with ref_rpc. unfold ref_rpc. rewrite decide_True by done.
  rewrite (ref_str_arg _ _ n) by done. simpl. by rewrite Hb.
Qed.
Next Obligation.
  intros n d Hwf Hn. change (rpc (D := refd)) with ref_rpc. unfold ref_rpc.
  rewrite decide_False, decide_True by done. rewrite (ref_str_arg _ _ n) by done.
  rewrite decide_True by done. simpl. apply lookup_delete_eq.
Qed.
Next Obligation. done. Qed.
Next Obligation.
  intros c t n d Hwf (v & ts & Hv & <- & _) Ht Hn Hfree.
  apply list_elem_of_singleton in Hv as ->. change (rpc (D := refd)) with ref_rpc.
  unfold ref_rpc. do 5 rewrite decide_False by done. rewrite decide_True by done.
  erewrite (ref_str_arg _ "ctrlr"), (ref_str_arg _ "bdev_name"), (ref_int_arg _ _ t) by done.
  rewrite decide_True; [done|]. split_and!; [done|lia|lia|done|].
  destruct (rl d !! t) as [m|] eqn:Hm; [|done]. destruct (Hfree m). by apply ref_places.
Qed.
Next Obligation.
  intros c t n d Hwf [-> Hp]%ref_places. change (rpc (D := refd)) with ref_rpc.
  unfold ref_rpc. do 6 rewrite decide_False by done. rewrite decide_True by done.
  erewrite (ref_str_arg _ "ctrlr"), (ref_int_arg _ _ t) by done. rewrite decide_True; [done|].
  rewrite Hp. by split; [|eexists].
Qed.
Next Obligation.
  intros method args c d _ (v & ts & Hv & <- & _). apply list_elem_of_singleton in Hv as ->.
  eexists _, _. split; [by left|done].
Qed.
