(* ===== verification/Controller.v ===== *)
(** * OIM controller: pkg/oim-controller/controller.go

    The handlers of the gRPC service as programs over SPDK calls, each under the
    lock of its volume, and the construction of a controller.  [Registration.v]
    has the self-registration loop.

    The theorems about handlers are of two sorts.  Safety holds for every daemon
    that is [SPDKSound], for any number of concurrent calls: no volume is ever
    attached twice, no call disturbs another volume, and a successful reply tells
    the truth at the moment the lock is released.  Functional behaviour of one call
    at a time is proved for daemons that are also [SPDKReliable]. *)
From S2P Require Import Prelude GoStrings Strconv Errors Json Messages PCI GRPC Effects SPDK Daemon.

Module oimcontroller.

(** The connection to SPDK, made in [New]. *)
Record Client := MkClient { client_path : string }.

(** ** The controller and its options *)

Section Controller.
Context {Creds : Type}.

Record Controller := MkController {
  creds : option Creds;
  registryAddress : string;
  registryDelay : Z;
  controllerID : string;
  controllerAddr : string;
  spdkPath : string;
  SPDK : option Client;
  vhostSCSI : string;
  vhostDev : option PCIAddress
}.

Definition Option_ := Controller → result Controller.

Definition WithRegistry (address : string) : Option_ := λ c,
  Ok (MkController (creds c) address (registryDelay c) (controllerID c) (controllerAddr c)
        (spdkPath c) (SPDK c) (vhostSCSI c) (vhostDev c)).
Definition WithRegistryDelay (delay : Z) : Option_ := λ c,
  Ok (MkController (creds c) (registryAddress c) delay (controllerID c) (controllerAddr c)
        (spdkPath c) (SPDK c) (vhostSCSI c) (vhostDev c)).
Definition WithCreds (x : option Creds) : Option_ := λ c,
  Ok (MkController x (registryAddress c) (registryDelay c) (controllerID c) (controllerAddr c)
        (spdkPath c) (SPDK c) (vhostSCSI c) (vhostDev c)).
Definition WithControllerAddress (address : string) : Option_ := λ c,
  Ok (MkController (creds c) (registryAddress c) (registryDelay c) (controllerID c) address
        (spdkPath c) (SPDK c) (vhostSCSI c) (vhostDev c)).
Definition WithControllerID (id : string) : Option_ := λ c,
  Ok (MkController (creds c) (registryAddress c) (registryDelay c) id (controllerAddr c)
        (spdkPath c) (SPDK c) (vhostSCSI c) (vhostDev c)).
Definition WithSPDK (path : string) : Option_ := λ c,
  Ok (MkController (creds c) (registryAddress c) (registryDelay c) (controllerID c) (controllerAddr c)
        path (SPDK c) (vhostSCSI c) (vhostDev c)).
Definition WithVHostController (vhost : string) : Option_ := λ c,
  Ok (MkController (creds c) (registryAddress c) (registryDelay c) (controllerID c) (controllerAddr c)
        (spdkPath c) (SPDK c) vhost (vhostDev c)).
Definition WithVHostDev (dev : string) : Option_ := λ c,
  d ← ParseBDFString dev;
  Ok (MkController (creds c) (registryAddress c) (registryDelay c) (controllerID c) (controllerAddr c)
        (spdkPath c) (SPDK c) (vhostSCSI c) (Some d)).

Fixpoint apply_options (options : list Option_) (c : Controller) : result Controller :=
  match options with
  | [] => Ok c
  | op :: options' => c' ← op c; apply_options options' c'
  end.

(** [time.Minute], in nanoseconds. *)
Definition Minute : Z := 60 * 10 ^ 9.

(** [spdk_New] is [spdk.New], which dials the socket. *)
Definition New (spdk_New : string → result Client) (options : list Option_) : result Controller :=
  c ← apply_options options
        (MkController None "" Minute "unset-controller-id" "" "" None "" None);
  c ← (if decide (spdkPath c = "") then Ok c
       else client ← spdk_New (spdkPath c);
            Ok (MkController (creds c) (registryAddress c) (registryDelay c) (controllerID c)
                  (controllerAddr c) (spdkPath c) (Some client) (vhostSCSI c) (vhostDev c)));
  if decide (registryAddress c ≠ "" ∧ (controllerID c = "" ∨ controllerAddr c = ""))
  then Err (ErrorNew "need both controller ID and external controller address for registering  with the OIM registry")
  else match creds c with
       | None => Err (ErrorNew "transport credentials missing")
       | Some _ => Ok c
       end.

(** ** Handlers *)

(** The hits of the nested loops over controllers, backends, targets and LUNs:
    controller name and target number for each LUN of the volume, in loop order. *)
Definition scsi_hits (volumeID : string) (controllers : list SPDK.Controller) : list place :=
  controller ← controllers;
  kv ← BackendSpecific controller;
  if decide (fst kv = "scsi") then
    match snd kv with
    | SCSIControllerSpecific scsi =>
        target ← scsi; lun ← LUNs target;
        if decide (BDevName lun = volumeID)
        then [(Controller_ controller, SCSIDevNum target)] else []
    | Uninterpreted _ => []
    end
  else [].

Definition mapCeph (c : Controller) (volumeID : string) (cephParams : option CephParams) : go spdkE () :=
  match SPDK c with
  | None => fail (ErrorNew "not connected to SPDK")
  | Some _ =>
      match cephParams with
      | None => from_result (Panic "nil pointer dereference: cephParams")
      | Some p =>
          _ ← wrap_err (Sprintf "ConstructRBDBDev %q for RBD pool %q and image %q, monitors %q"
                         [volumeID; Pool p; Image p; Monitors p])
                (ConstructRBDBDev (MkConstructRBDBDevArgs 512 volumeID (UserId p) (Pool p) (Image p)
                   [("mon_host", Monitors p); ("key", Secret p)]));
          mret ()
      end
  end.

(** The loop over target numbers; it runs at least once, so [last] is always the
    error of a call. *)
Fixpoint try_targets (vhost volumeID : string) (targets : list Z) (last : error) : go spdkE Z :=
  match targets with
  | [] => fail (Wrap last "AddVHostSCSILUN failed for all LUNs, last error")
  | target :: targets' =>
      r ← attempt (AddVHostSCSILUN (MkAddVHostSCSILUNArgs vhost target volumeID));
      match r with
      | Err err => try_targets vhost volumeID targets' err
      | _ => mret target
      end
  end.

Definition target_numbers : list Z := [0; 1; 2; 3; 4; 5; 6; 7].

Definition map_reply (c : Controller) (target : Z) : MapVolumeReply :=
  MkMapVolumeReply (vhostDev c) (Some (MkSCSIDisk target 0)).

(** [MapVolume] after the lock was taken. *)
Definition MapVolume_locked (c : Controller) (volumeID : string) (in_ : MapVolumeRequest) :
    go spdkE MapVolumeReply :=
  r ← attempt (GetBDevs (MkGetBDevsArgs volumeID));
  _ ← match r with
      | Ok _ => mret ()
      | _ =>
          match Params in_ with
          | Some MapVolumeRequest_Malloc =>
              fail (Errorf "no existing MallocBDev with name %s found" [volumeID])
          | Some (MapVolumeRequest_Ceph x) => mapCeph c volumeID x
          | None => fail (ErrorNew "missing volume parameters")
          end
      end;
  controllers ← wrap_err "GetVHostControllers" GetVHostControllers;
  match scsi_hits volumeID controllers with
  | (_, target) :: _ => mret (map_reply c target)
  | [] =>
      target ← try_targets (vhostSCSI c) volumeID target_numbers (ErrorNew "");
      mret (map_reply c target)
  end.

Definition MapVolume (c : Controller) (in_ : MapVolumeRequest) : go (locked spdkE) MapVolumeReply :=
  let volumeID := Map_VolumeId in_ in
  if decide (volumeID = "") then fail (ErrorNew "empty volume ID")
  else if decide (SPDK c = None) then fail (ErrorNew "not connected to SPDK")
  else if decide (vhostSCSI c = "") then fail (ErrorNew "no VHost SCSI controller configured")
  else if decide (vhostDev c = None) then fail (ErrorNew "no PCI BDF configured")
  else with_lock volumeID (MapVolume_locked c volumeID in_).

Definition UnmapVolume_locked (volumeID : string) : go spdkE () :=
  controllers ← wrap_err "GetVHostControllers" GetVHostControllers;
  _ ← for_each (scsi_hits volumeID controllers) (λ '(controller, target),
        wrap_err "RemoveVHostSCSITarget"
          (RemoveVHostSCSITarget (MkRemoveVHostSCSITargetArgs controller target)));
  r ← attempt (GetBDevs (MkGetBDevsArgs volumeID));
  match r with
  | Ok (bdev :: _) =>
      if decide (ProductName bdev = "Malloc disk") then mret ()
      else _ ← attempt (DeleteBDev (MkDeleteBDevArgs volumeID)); mret ()
  | _ => mret ()
  end.

Definition UnmapVolume (c : Controller) (in_ : UnmapVolumeRequest) : go (locked spdkE) () :=
  let volumeID := Unmap_VolumeId in_ in
  if decide (volumeID = "") then fail (ErrorNew "empty volume ID")
  else if decide (SPDK c = None) then fail (ErrorNew "not connected to SPDK")
  else with_lock volumeID (UnmapVolume_locked volumeID).

Definition ProvisionMallocBDev_locked (bdevName : string) (size : Z) : go spdkE () :=
  if decide (size = 0) then
    _ ← attempt (DeleteBDev (MkDeleteBDevArgs bdevName)); mret ()
  else
    r ← attempt (GetBDevs (MkGetBDevsArgs bdevName));
    match r with
    | Ok [bdev] =>
        let actualSize := int64 (NumBlocks bdev * BlockSize bdev) in
        if decide (actualSize = size) then mret ()
        else fail (StatusError AlreadyExists "Existing BDev %s has wrong size %d" [bdevName; Itoa actualSize])
    | _ =>
        _ ← wrap_err "ConstructMallocBDev"
              (ConstructMallocBDev (MkConstructBDevArgs (Z.quot size 512) 512 bdevName ""));
        mret ()
    end.

Definition ProvisionMallocBDev (c : Controller) (in_ : ProvisionMallocBDevRequest) :
    go (locked spdkE) () :=
  let bdevName := Provision_BdevName in_ in
  if decide (bdevName = "") then fail (ErrorNew "empty BDev name")
  else if decide (SPDK c = None) then fail (ErrorNew "not connected to SPDK")
  else with_lock bdevName (ProvisionMallocBDev_locked bdevName (Size_ in_)).

Definition CheckMallocBDev_locked (bdevName : string) : go spdkE () :=
  r ← attempt (GetBDevs (MkGetBDevsArgs bdevName));
  match r with
  | Ok [_] => mret ()
  | _ => fail (StatusError NotFound "" [])
  end.

Definition CheckMallocBDev (c : Controller) (in_ : CheckMallocBDevRequest) : go (locked spdkE) () :=
  let bdevName := Check_BdevName in_ in
  if decide (bdevName = "") then fail (ErrorNew "empty BDev name")
  else if decide (SPDK c = None) then fail (ErrorNew "not connected to SPDK")
  else with_lock bdevName (CheckMallocBDev_locked bdevName).

(** ** The service: one thread per call *)

Inductive ctl_request :=
| ReqMap (in_ : MapVolumeRequest)
| ReqUnmap (in_ : UnmapVolumeRequest)
| ReqProvision (in_ : ProvisionMallocBDevRequest)
| ReqCheck (in_ : CheckMallocBDevRequest).

(** A reply, with the request it answers. *)
Inductive ctl_reply :=
| RepMap (in_ : MapVolumeRequest) (r : result MapVolumeReply)
| RepUnmap (in_ : UnmapVolumeRequest) (r : result ())
| RepProvision (in_ : ProvisionMallocBDevRequest) (r : result ())
| RepCheck (in_ : CheckMallocBDevRequest) (r : result ()).

Definition handle (c : Controller) (rq : ctl_request) : prog (locked spdkE) ctl_reply :=
  match rq with
  | ReqMap in_ => pbind (λ r, Ret (RepMap in_ r)) (MapVolume c in_)
  | ReqUnmap in_ => pbind (λ r, Ret (RepUnmap in_ r)) (UnmapVolume c in_)
  | ReqProvision in_ => pbind (λ r, Ret (RepProvision in_ r)) (ProvisionMallocBDev c in_)
  | ReqCheck in_ => pbind (λ r, Ret (RepCheck in_ r)) (CheckMallocBDev c in_)
  end.

(** ** The server *)

Definition Server (endpoint : string) : NonBlockingGRPCServer * string :=
  (MkServer endpoint [GRPC.Creds] None None false, "oim.v0.Controller").
End Controller.
Arguments Controller : clear implicits.

(** ** What a call may assume and must ensure about its volume *)

(** The daemon as seen by one volume. *)
Record volume := MkVolume { vol_bdev : option bdev; vol_places : gset place }.

Definition view {D} `{SPDKDaemon D} (n : string) (d : D) : volume :=
  MkVolume (bdevs d !! n) (places n d).

Section Spec.
Context {Creds : Type} (c : Controller Creds).

(** A volume is attached at most once, to the controller's own vhost, at a target
    number below 8. *)
Definition vol_ok (n : string) (v : volume) : Prop :=
  (∀ p q, p ∈ vol_places v → q ∈ vol_places v → p = q) ∧
  ∀ p, p ∈ vol_places v → fst p = vhostSCSI c ∧ 0 ≤ snd p < 8.

(** The size in bytes that the code computes for a BDev. *)
Definition bdev_size (b : bdev) : Z := int64 (b_num_blocks b * b_block_size b).

(** What a successful reply says about the volume when the lock is released. *)
Definition reply_ok (n : string) (rep : ctl_reply) (v : volume) : Prop :=
  match rep with
  | RepMap in_ (Ok reply) =>
      n = Map_VolumeId in_ ∧ is_Some (vol_bdev v) ∧
      ∃ t, reply = MkMapVolumeReply (vhostDev c) (Some (MkSCSIDisk t 0)) ∧ vol_places v = {[(vhostSCSI c, t)]}
  | RepUnmap in_ (Ok _) => n = Unmap_VolumeId in_ ∧ vol_places v = ∅
  | RepProvision in_ (Ok _) =>
      n = Provision_BdevName in_ ∧
      (Size_ in_ ≠ 0 → ∃ b, vol_bdev v = Some b ∧
         (bdev_size b = Size_ in_ ∨ bdev_size b = int64 (512 * Z.quot (Size_ in_) 512)))
  | RepCheck in_ (Ok _) => n = Check_BdevName in_ ∧ is_Some (vol_bdev v)
  | _ => True
  end.
End Spec.
End oimcontroller.
Import oimcontroller.

(** ** The loops of the code find what the daemon reports *)

Lemma scsi_hits_places n vs : scsi_hits n (as_Controller <$> vs) = places_list n vs.
Proof.
  unfold scsi_hits, places_list. induction vs as [|v vs IH]; [done|].
  rewrite fmap_cons. cbn [mbind list_bind]. rewrite IH. f_equal.
  unfold as_Controller, vhost_targets. cbn [BackendSpecific Controller_].
  destruct (vh_backend v) as [ts|kind info].
  - cbn [mbind list_bind fst snd]. rewrite decide_True, app_nil_r by done.
    induction ts as [|t ts IHts]; [done|]. rewrite fmap_cons. cbn [mbind list_bind]. f_equal; [|done].
    clear. unfold as_Target. simpl. induction (dev_luns t) as [|[i m] l IHl]; [done|].
    rewrite fmap_cons. cbn [mbind list_bind]. by f_equal.
  - destruct (to_iface info); [|done]. cbn [mbind list_bind fst snd]. by case_decide.
Qed.

(** ** Calls of SPDK on behalf of one volume *)

Section Safety.
Context {Creds D : Type} {SD : SPDKDaemon D} {SDS : SPDKSound D} (c : Controller Creds).

Abbreviation WP := (wp (spdk_serve (D := D)) view daemon_wf (vol_ok c)).

Lemma wp_go_bind {A B} n (p : go spdkE A) (f : A → go spdkE B) v Q :
  WP n p v (λ r v', match r with
                    | Ok a => WP n (f a) v' Q
                    | Err e => Q (Err e) v'
                    | Panic w => Q (Panic w) v'
                    end) →
  vol_ok c n v → WP n (p ≫= f) v Q.
Proof.
  intros Hp Hv. apply wp_bind. eapply wp_mono; [done..|]. by intros [a|e|w] v' _.
Qed.

Lemma wp_attempt {A} n (p : go spdkE A) v Q :
  WP n p v (λ r v', match r with Panic w => Q (Panic w) v' | _ => Q (Ok r) v' end) →
  vol_ok c n v → WP n (attempt p) v Q.
Proof. intros Hp Hv. apply wp_bind. eapply wp_mono; [done..|]. by intros [a|e|w] v' _. Qed.

Lemma wp_wrap_err {A} n msg (p : go spdkE A) v Q :
  WP n p v (λ r v', match r with Err e => Q (Err (Wrap e msg)) v' | _ => Q r v' end) →
  vol_ok c n v → WP n (wrap_err msg p) v Q.
Proof. intros Hp Hv. apply wp_bind. eapply wp_mono; [done..|]. by intros [a|e|w] v' _. Qed.

Lemma unchanged_view (d d' : D) : unchanged d d' → ∀ n, view n d' = view n d.
Proof. intros [Hb Hv] n. unfold view, places. by rewrite Hb, Hv. Qed.

(** One call, given what the daemon promises about it. *)
Lemma wp_call n method args v (Q : result json → volume → Prop) :
  (∀ d d' r, daemon_wf d → view n d = v → rpc method args d = (d', r) → (∀ w, r ≠ Panic w) →
     vol_ok c n (view n d') ∧ (∀ m, m ≠ n → view m d' = view m d) ∧ Q r (view n d')) →
  WP n (call (Invoke method args)) v Q.
Proof.
  intros HQ d d' r Hd Hv Hr. simpl in Hr.
  destruct (HQ d d' r Hd Hv Hr) as (H1 & H2 & H3).
  { intros w. pose proof (rpc_no_panic method args d w) as Hp. by rewrite Hr in Hp. }
  split_and!; [|done..]. pose proof (rpc_wf method args d Hd) as Hwf. by rewrite Hr in Hwf.
Qed.

Lemma wp_GetBDevs n v Q :
  n ≠ "" → vol_ok c n v →
  (∀ b, vol_bdev v = Some b → bdev_wf b → Q (Ok [as_BDev n b]) v) → (∀ e, Q (Err e) v) →
  WP n (GetBDevs (MkGetBDevsArgs n)) v Q.
Proof.
  intros Hn Hv HOk HErr. unfold GetBDevs, invoke. apply wp_go_bind; [|done]. apply wp_call.
  intros d d' r Hd <- Hr Hnp. unfold omitempty in Hr. rewrite decide_False in Hr by done.
  apply get_bdevs_sound in Hr as [Hu Hj]; [|done..]. rewrite (unchanged_view _ _ Hu).
  split_and!; [done|by intros; apply unchanged_view|].
  destruct r as [j|e|w]; [|done|by destruct (Hnp w)]. destruct (Hj j eq_refl) as (b & Hb & ->).
  assert (bdev_wf b) as Hbwf by (by eapply wf_bdevs).
  cbn -[dec_struct dump_bdev]. rewrite (dec_bdev n b) by done. simpl. by apply HOk.
Qed.

Lemma wp_GetVHostControllers n v Q :
  vol_ok c n v →
  (∀ cs, NoDup (scsi_hits n cs) → list_to_set (scsi_hits n cs) = vol_places v → Q (Ok cs) v) →
  (∀ e, Q (Err e) v) →
  WP n GetVHostControllers v Q.
Proof.
  intros Hv HOk HErr. unfold GetVHostControllers, invoke. apply wp_go_bind; [|done].
  apply wp_go_bind; [|done]. apply wp_call. intros d d' r Hd <- Hr Hnp.
  apply get_vhost_controllers_sound in Hr as [Hu Hj]; [|done]. rewrite (unchanged_view _ _ Hu).
  split_and!; [done|by intros; apply unchanged_view|].
  destruct r as [j|e|w]; [|done|by destruct (Hnp w)]. rewrite (Hj j eq_refl).
  destruct (dec_vhosts (vhosts d) (wf_vhosts d Hd)) as (cs & Hcs & Hi).
  cbn -[dec_struct dec_slice dump_vhost interpret_controller]. rewrite Hcs.
  cbn -[interpret_controller]. apply HOk; rewrite Hi, scsi_hits_places; [by apply wf_places|done].
Qed.

Lemma wp_AddVHostSCSILUN n t v Q :
  vol_ok c n v → vol_places v = ∅ → 0 ≤ t < 8 →
  (is_Some (vol_bdev v) → Q (Ok ()) (MkVolume (vol_bdev v) {[(vhostSCSI c, t)]})) →
  (∀ e, Q (Err e) v) →
  WP n (AddVHostSCSILUN (MkAddVHostSCSILUNArgs (vhostSCSI c) t n)) v Q.
Proof.
  intros Hv He Ht HOk HErr. unfold AddVHostSCSILUN, invoke_. apply wp_go_bind; [|done]. apply wp_call.
  intros d d' r Hd <- Hr Hnp. apply add_vhost_scsi_lun_sound in Hr; [|done].
  destruct Hr as [[Hu Hj]|([j ->] & Hb & Hfree & Hbd & Hpl)].
  - rewrite (unchanged_view _ _ Hu). split_and!; [done|by intros; apply unchanged_view|].
    destruct r as [j|e|w]; [by destruct (Hj j)|done|by destruct (Hnp w)].
  - assert (view n d' = MkVolume (bdevs d !! n) {[(vhostSCSI c, t)]}) as ->.
    { unfold view. simpl in He. rewrite Hbd, Hpl, decide_True by done. f_equal. rewrite He. set_solver. }
    split_and!; [split; set_solver by lia| |by apply HOk].
    + intros m Hm. unfold view. by rewrite Hbd, Hpl, decide_False.
Qed.

Lemma wp_RemoveVHostSCSITarget n cc t v Q :
  vol_ok c n v → (cc, t) ∈ vol_places v →
  Q (Ok ()) (MkVolume (vol_bdev v) (vol_places v ∖ {[(cc, t)]})) → (∀ e, Q (Err e) v) →
  WP n (RemoveVHostSCSITarget (MkRemoveVHostSCSITargetArgs cc t)) v Q.
Proof.
  intros Hv Hin HOk HErr. unfold RemoveVHostSCSITarget, invoke_. apply wp_go_bind; [|done]. apply wp_call.
  intros d d' r Hd <- Hr Hnp. apply remove_vhost_scsi_target_sound in Hr; [|done].
  destruct Hr as [[Hu Hj]|([j ->] & Hbd & Hpl)].
  - rewrite (unchanged_view _ _ Hu). split_and!; [done|by intros; apply unchanged_view|].
    destruct r as [j|e|w]; [by destruct (Hj j)|done|by destruct (Hnp w)].
  - assert (view n d' = MkVolume (bdevs d !! n) (places n d ∖ {[(cc, t)]})) as ->.
    { unfold view. by rewrite Hbd, Hpl. }
    split_and!; [|intros m Hm|by apply HOk].
    + destruct Hv as [H1 H2]. simpl in *. split; simpl; [set_solver|]. intros p Hp. apply H2. set_solver.
    + unfold view. rewrite Hbd, Hpl. f_equal. simpl in Hin.
      assert ((cc, t) ∉ places m d); [|set_solver]. intros Hm'. by destruct Hm; eapply wf_targets.
Qed.

Lemma wp_DeleteBDev n v Q :
  vol_ok c n v →
  (∀ r, (∀ w, r ≠ Panic w) → Q r v) → (∀ r, (∀ w, r ≠ Panic w) → Q r (MkVolume None ∅)) →
  WP n (DeleteBDev (MkDeleteBDevArgs n)) v Q.
Proof.
  intros Hv HQ1 HQ2. unfold DeleteBDev, invoke_. apply wp_go_bind; [|done]. apply wp_call.
  intros d d' r Hd <- Hr Hnp. apply delete_bdev_sound in Hr; [|done]. destruct Hr as [Hu|[Hbd Hpl]].
  - rewrite (unchanged_view _ _ Hu). split_and!; [done|by intros; apply unchanged_view|].
    destruct r as [j|e|w]; [by apply HQ1|by apply HQ1|by destruct (Hnp w)].
  - assert (view n d' = MkVolume None ∅) as ->.
    { unfold view. by rewrite Hbd, Hpl, lookup_delete_eq, decide_True. }
    split_and!; [split; set_solver| |].
    + intros m Hm. unfold view. by rewrite Hbd, Hpl, lookup_delete_ne, decide_False.
    + destruct r as [j|e|w]; [by apply HQ2|by apply HQ2|by destruct (Hnp w)].
Qed.

Lemma wp_constructed n (d d' : D) b :
  vol_ok c n (view n d) → vhosts d' = vhosts d → bdevs d' = <[n:=b]> (bdevs d) →
  view n d' = MkVolume (Some b) (places n d) ∧ vol_ok c n (view n d') ∧
  ∀ m, m ≠ n → view m d' = view m d.
Proof.
  intros Hv Hvh Hb.
  assert (view n d' = MkVolume (Some b) (places n d)) as Hview.
  { unfold view, places. by rewrite Hb, Hvh, lookup_insert_eq. }
  split_and!; [done|by rewrite Hview|]. intros m Hm. unfold view, places.
  by rewrite Hb, Hvh, lookup_insert_ne.
Qed.

Lemma wp_ConstructMallocBDev n nb bs v Q :
  n ≠ "" → vol_ok c n v →
  (∀ b, b_num_blocks b = nb → b_block_size b = bs → Q (Ok n) (MkVolume (Some b) (vol_places v))) →
  (∀ e, Q (Err e) v) →
  WP n (ConstructMallocBDev (MkConstructBDevArgs nb bs n "")) v Q.
Proof.
  intros Hn Hv HOk HErr. unfold ConstructMallocBDev, invoke. apply wp_go_bind; [|done]. apply wp_call.
  intros d d' r Hd <- Hr Hnp. unfold omitempty in Hr. cbn -[decide] in Hr.
  rewrite decide_False, decide_True in Hr by done.
  apply construct_malloc_sound in Hr as [[Hu Hj]|(-> & _ & Hvh & b & _ & Hnb & Hbs & Hbd)]; [| |done..].
  - rewrite (unchanged_view _ _ Hu). split_and!; [done|by intros; apply unchanged_view|].
    destruct r as [j|e|w]; [by destruct (Hj j)|done|by destruct (Hnp w)].
  - destruct (wp_constructed n d d' b) as (Hview & ? & ?); [done..|].
    split_and!; [done..|]. rewrite Hview. by apply HOk.
Qed.

Lemma wp_mapCeph n p v Q :
  n ≠ "" → vol_ok c n v →
  (∀ b, Q (Ok ()) (MkVolume (Some b) (vol_places v))) → (∀ e, Q (Err e) v) → (∀ w, Q (Panic w) v) →
  WP n (mapCeph c n p) v Q.
Proof.
  intros Hn Hv HOk HErr HP. unfold mapCeph. destruct (SPDK c) as [cl|]; [|by apply HErr].
  destruct p as [p|]; [|by apply HP]. apply wp_go_bind; [|done]. apply wp_wrap_err; [|done].
  unfold ConstructRBDBDev, invoke. apply wp_go_bind; [|done]. apply wp_call.
  intros d d' r Hd <- Hr Hnp. unfold omitempty in Hr at 1. cbn -[decide omitempty] in Hr.
  rewrite decide_False in Hr by done.
  apply construct_rbd_sound in Hr as [[Hu Hj]|(-> & _ & Hvh & b & _ & Hbd)]; [| |done..].
  - rewrite (unchanged_view _ _ Hu). split_and!; [done|by intros; apply unchanged_view|].
    destruct r as [j|e|w]; [by destruct (Hj j)|by apply HErr|by destruct (Hnp w)].
  - destruct (wp_constructed n d d' b) as (Hview & ? & ?); [done..|].
    split_and!; [done..|]. rewrite Hview. by apply HOk.
Qed.

(** ** Loops *)

Lemma wp_try_targets n ts last v Q :
  vol_ok c n v → vol_places v = ∅ → Forall (λ t, 0 ≤ t < 8) ts →
  (∀ t, is_Some (vol_bdev v) → Q (Ok t) (MkVolume (vol_bdev v) {[(vhostSCSI c, t)]})) →
  (∀ e, Q (Err e) v) →
  WP n (try_targets (vhostSCSI c) n ts last) v Q.
Proof.
  intros Hv He Hts HOk HErr. revert last. induction Hts as [|t ts Ht _ IH]; intros last; [apply HErr|].
  cbn [try_targets]. apply wp_go_bind; [|done]. apply wp_attempt; [|done].
  apply wp_AddVHostSCSILUN; [done..| |]; [intros Hb; by apply HOk|]. intros e. apply IH.
Qed.

Lemma wp_remove_all n l v Q :
  vol_ok c n v → NoDup l → (∀ p, p ∈ l → p ∈ vol_places v) →
  (∀ v', vol_ok c n v' → vol_bdev v' = vol_bdev v → vol_places v' = vol_places v ∖ list_to_set l →
     Q (Ok ()) v') →
  (∀ e v', Q (Err e) v') →
  WP n (for_each l (λ '(controller, target),
          wrap_err "RemoveVHostSCSITarget"
            (RemoveVHostSCSITarget (MkRemoveVHostSCSITargetArgs controller target)))) v Q.
Proof.
  intros Hv Hnd. revert v Hv. induction Hnd as [|[cc t] l Hnin Hnd IH]; intros v Hv Hin HOk HErr.
  - cbn [for_each]. apply HOk; [done..|]. simpl. set_solver.
  - cbn [for_each]. apply wp_go_bind; [|done]. apply wp_wrap_err; [|done].
    apply wp_RemoveVHostSCSITarget; [done|apply Hin; by left| |done].
    apply IH; simpl; [|set_solver| |done].
    + destruct Hv as [H1 H2]. split; simpl; [set_solver|]. intros p Hp. apply H2. set_solver.
    + intros v' Hv' Hb Hp. apply HOk; [done..|]. rewrite Hp. simpl. set_solver.
Qed.

(** ** Every handler keeps its promise *)

Lemma MapVolume_safe n in_ v :
  n ≠ "" → n = Map_VolumeId in_ → vol_ok c n v →
  WP n (MapVolume_locked c n in_) v (λ r, reply_ok c n (RepMap in_ r)).
Proof.
  intros Hn Hin Hv. unfold MapVolume_locked.
  (* the part after the BDev is known to exist *)
  assert (∀ v, vol_ok c n v → is_Some (vol_bdev v) → WP n
    (controllers ← wrap_err "GetVHostControllers" GetVHostControllers;
     match scsi_hits n controllers with
     | (_, target) :: _ => mret (map_reply c target)
     | [] =>
         target ← try_targets (vhostSCSI c) n target_numbers (ErrorNew "");
         mret (map_reply c target)
     end) v (λ r, reply_ok c n (RepMap in_ r))) as Hrest.
  { clear v Hv. intros v Hv Hb. apply wp_go_bind; [|done]. apply wp_wrap_err; [|done].
    apply wp_GetVHostControllers; [done| |done]. intros cs Hnd Hset.
    destruct (scsi_hits n cs) as [|[cc t] hits].
    - simpl in Hset. apply wp_go_bind; [|done]. apply wp_try_targets; [done..| | |done].
      + repeat constructor; lia.
      + intros t _. simpl. split_and!; [done..|]. by exists t.
    - simpl. split_and!; [done..|]. exists t. split; [done|]. destruct Hv as [Huniq Hvh].
      assert ((cc, t) ∈ vol_places v) as Hct by set_solver. destruct (Hvh _ Hct) as [Hc _]. simpl in Hc. subst cc.
      apply set_eq. intros p. rewrite elem_of_singleton. split; [by intros; apply Huniq|by intros ->]. }
  apply wp_go_bind; [|done]. apply wp_attempt; [|done]. apply wp_GetBDevs; [done..| |].
  - intros b Hb _. apply wp_go_bind; [|done]. simpl. apply Hrest; [done|by rewrite Hb].
  - intros e. apply wp_go_bind; [|done]. destruct (Params in_) as [[|x]|]; simpl; [done| |done].
    apply wp_mapCeph; [done..| |done|done]. intros b. apply Hrest; [done|by eexists].
Qed.

Lemma UnmapVolume_safe n in_ v :
  n ≠ "" → n = Unmap_VolumeId in_ → vol_ok c n v →
  WP n (UnmapVolume_locked n) v (λ r, reply_ok c n (RepUnmap in_ r)).
Proof.
  intros Hn Hin Hv. unfold UnmapVolume_locked. apply wp_go_bind; [|done]. apply wp_wrap_err; [|done].
  apply wp_GetVHostControllers; [done| |done]. intros cs Hnd Hset. apply wp_go_bind; [|done].
  apply wp_remove_all; [done..|set_solver| |done]. intros v' Hv' Hb Hp.
  assert (vol_places v' = ∅) as He by set_solver. clear Hp Hset Hnd.
  apply wp_go_bind; [|done]. apply wp_attempt; [|done]. apply wp_GetBDevs; [done..| |done].
  intros b Hb' _. case_decide; [done|]. apply wp_go_bind; [|done]. apply wp_attempt; [|done].
  apply wp_DeleteBDev; [done|..].
  - intros r Hr. destruct r; done.
  - intros r Hr. destruct r; done.
Qed.

Lemma bdev_size_512 nb b : b_num_blocks b = nb → b_block_size b = 512 → bdev_size b = int64 (512 * nb).
Proof. intros <- H. unfold bdev_size. by rewrite H, Z.mul_comm. Qed.

Lemma ProvisionMallocBDev_safe n in_ v :
  n ≠ "" → n = Provision_BdevName in_ → vol_ok c n v →
  WP n (ProvisionMallocBDev_locked n (Size_ in_)) v (λ r, reply_ok c n (RepProvision in_ r)).
Proof.
  intros Hn Hin Hv. unfold ProvisionMallocBDev_locked. case_decide as Hs.
  - apply wp_go_bind; [|done]. apply wp_attempt; [|done].
    apply wp_DeleteBDev; [done|intros r Hr; by destruct r..].
  - apply wp_go_bind; [|done]. apply wp_attempt; [|done]. apply wp_GetBDevs; [done..| |].
    + intros b Hb _. case_decide as Hsz; simpl; [|done]. split; [done|]. intros _. exists b. split; [done|].
      by left.
    + intros e. apply wp_go_bind; [|done]. apply wp_wrap_err; [|done].
      apply wp_ConstructMallocBDev; [done..| |done]. intros b Hnb Hbs. simpl. split; [done|]. intros _.
      exists b. split; [done|]. right. by apply bdev_size_512.
Qed.

Lemma CheckMallocBDev_safe n in_ v :
  n ≠ "" → n = Check_BdevName in_ → vol_ok c n v →
  WP n (CheckMallocBDev_locked n) v (λ r, reply_ok c n (RepCheck in_ r)).
Proof.
  intros Hn Hin Hv. unfold CheckMallocBDev_locked. apply wp_go_bind; [|done]. apply wp_attempt; [|done].
  apply wp_GetBDevs; [done..| |done]. intros b Hb _. simpl. split; [done|]. by rewrite Hb.
Qed.

Abbreviation outside_ := (outside (spdk_serve (D := D)) view daemon_wf (vol_ok c) (reply_ok c)).

Lemma handle_outside rq : outside_ (handle c rq).
Proof.
  destruct rq as [in_|in_|in_|in_]; simpl.
  - unfold MapVolume. repeat (case_decide; [done|]). apply with_lock_outside. intros v Hv.
    by apply MapVolume_safe.
  - unfold UnmapVolume. repeat (case_decide; [done|]). apply with_lock_outside. intros v Hv.
    by apply UnmapVolume_safe.
  - unfold ProvisionMallocBDev. repeat (case_decide; [done|]). apply with_lock_outside. intros v Hv.
    by apply ProvisionMallocBDev_safe.
  - unfold CheckMallocBDev. repeat (case_decide; [done|]). apply with_lock_outside. intros v Hv.
    by apply CheckMallocBDev_safe.
Qed.

(** ** Concurrent calls *)

Context (hash : string → nat).
Abbreviation ctl_config := (config (F := spdkE) D ctl_reply).
Abbreviation ctl_step := (step (R := ctl_reply) (spdk_serve (D := D)) hash).

(** The configurations the service reaches from an idle start: calls arrive at
    any time, and the steps of those in progress interleave. *)
Definition ctl_run (d0 : D) (cfg : ctl_config) : Prop :=
  pool_run spdk_serve hash (λ t, ∃ rq, t = handle c rq) (MkConfig d0 ∅ []) cfg.

Definition good_start (d0 : D) : Prop := daemon_wf d0 ∧ ∀ n, vol_ok c n (view n d0).

Lemma ctl_run_inv d0 cfg :
  good_start d0 → ctl_run d0 cfg →
  pool_inv spdk_serve hash view daemon_wf (vol_ok c) (reply_ok c) cfg.
Proof.
  intros [Hd Hok] Hrun. eapply pool_sound; [by apply pool_init| |done].
  intros t [rq ->]. apply handle_outside.
Qed.

(** C1. Mutual exclusion pays off: in every state the service can reach, with any
    number of MapVolume, UnmapVolume, ProvisionMallocBDev and CheckMallocBDev
    calls in progress and interleaved in any way, with any collisions of the
    hashed key mutex and with SPDK calls failing at any point, each volume is
    attached to at most one SCSI target, at the configured vhost controller and
    with a target number below 8. *)
Theorem volumes_attached_at_most_once d0 cfg n p q :
  good_start d0 → ctl_run d0 cfg →
  p ∈ places n (cfg_state cfg) → q ∈ places n (cfg_state cfg) →
  p = q ∧ fst p = vhostSCSI c ∧ 0 ≤ snd p < 8.
Proof.
  intros Hd Hrun Hp Hq. destruct (ctl_run_inv _ _ Hd Hrun) as (_ & Hok & _).
  destruct (Hok n) as [H1 H2]. split; [by apply H1|by apply H2].
Qed.

(** C2. Replies tell the truth: when a call is about to release its lock, what it
    is going to answer holds of the daemon at that moment, despite all concurrent
    calls.  A successful MapVolume names the one target at which the volume's BDev
    is attached; a successful UnmapVolume means that it is attached nowhere; a
    successful ProvisionMallocBDev means that a BDev of the requested size (rounded
    down to blocks of 512 bytes if new) exists; CheckMallocBDev that it exists. *)
Theorem replies_hold_under_concurrency d0 cfg i n k :
  good_start d0 → ctl_run d0 cfg → cfg_threads cfg !! i = Some (Vis (UnlockKey n) k) →
  ∃ rep, k () = Ret rep ∧ reply_ok c n rep (view n (cfg_state cfg)).
Proof. intros Hd Hrun Hi. eapply pool_post; [by eapply ctl_run_inv|done]. Qed.

(** C6. The service cannot get stuck: in every reachable state either all calls
    have returned or one of them can take a step, and every execution of the calls
    that are in progress is finite. *)
Theorem service_never_stuck d0 cfg :
  good_start d0 → ctl_run d0 cfg →
  (Forall finished (cfg_threads cfg) ∨ ∃ cfg', ctl_step cfg cfg') ∧
  Acc (λ c' c, ctl_step c c') cfg.
Proof.
  intros Hd Hrun. split; [|apply pool_terminates]. eapply pool_progress. by eapply ctl_run_inv.
Qed.

(** C7. Isolation: whatever a call does, a step of the service changes what SPDK
    holds for a volume (its BDev and where it is attached) only while that
    volume's mutex is taken; calls for other volumes never disturb it. *)
Theorem volume_isolation d0 cfg cfg' m :
  good_start d0 → ctl_run d0 cfg → ctl_step cfg cfg' →
  view m (cfg_state cfg') ≠ view m (cfg_state cfg) → hash m ∈ cfg_locks cfg.
Proof. intros Hd Hrun Hstep. eapply pool_isolated; [by eapply ctl_run_inv|done]. Qed.
End Safety.
