(* ===== verification/ControllerSeq.v ===== *)
(** * Functional behaviour of the controller's handlers, one call at a time

    What each handler does on its branches when it runs alone against a daemon
    whose calls succeed when they should ([SPDKReliable]): which target a volume
    gets, idempotency, the way back, and the errors. *)
From S2P Require Import Prelude GoStrings Strconv Json Messages PCI Effects SPDK Daemon Controller.
Import oimcontroller.

Section Sequential.
Context {Creds D : Type} {SD : SPDKDaemon D} {SDS : SPDKSound D} {SDR : SPDKReliable D}.
Context (c : Controller Creds).

(** One call of the service, alone. *)
Definition serve1 {A} (p : go (locked spdkE) A) (d : D) : D * result A :=
  run (serve_locked spdk_serve) p d.

(** The configuration that MapVolume asks for. *)
Definition configured : Prop := SPDK c ≠ None ∧ vhostSCSI c ≠ "" ∧ vhostDev c ≠ None.

Definition occupied (d : D) (t : Z) : Prop := ∃ m, (vhostSCSI c, t) ∈ places m d.

(** ** Executions of the bindings *)

Abbreviation run1 := (run (spdk_serve (D := D))).

Lemma run_call method args d : run1 (call (Invoke method args)) d = rpc method args d.
Proof. simpl. by destruct (rpc method args d). Qed.

Lemma unchanged_refl (d : D) : unchanged d d.
Proof. done. Qed.
Lemma unchanged_trans (d d' d'' : D) : unchanged d d' → unchanged d' d'' → unchanged d d''.
Proof. intros [? ?] [? ?]. split; congruence. Qed.
Lemma unchanged_places (d d' : D) n : unchanged d d' → places n d' = places n d.
Proof. intros [_ H]. unfold places. by rewrite H. Qed.

Lemma rpc_no_panic' method args d d' r w : rpc method args d = (d', r) → r ≠ @Panic json w.
Proof. intros H. pose proof (rpc_no_panic method args d w) as Hp. by rewrite H in Hp. Qed.
Lemma rpc_wf' method args (d d' : D) r : rpc method args d = (d', r) → daemon_wf d → daemon_wf d'.
Proof. intros H Hd. pose proof (rpc_wf method args d Hd) as Hp. by rewrite H in Hp. Qed.

Lemma run_GetBDevs n d :
  n ≠ "" → daemon_wf d →
  ∃ d' r, run1 (GetBDevs (MkGetBDevsArgs n)) d = (d', r) ∧ daemon_wf d' ∧ unchanged d d' ∧
    match bdevs d !! n with Some b => r = Ok [as_BDev n b] | None => ∃ e, r = Err e end.
Proof.
  intros Hn Hd. unfold GetBDevs, invoke, omitempty. cbn [GetBDevs_Name]. rewrite decide_False by done.
  rewrite run_go_bind, run_call. destruct (rpc "get_bdevs" _ d) as [d' r] eqn:Hr.
  pose proof (rpc_wf' _ _ _ _ _ Hr Hd) as Hd'. assert (∀ w, r ≠ Panic w) as Hnp by (by intros w; eapply rpc_no_panic').
  pose proof (get_bdevs_sound n d d' r Hn Hd Hr) as [Hu Hj].
  destruct (bdevs d !! n) as [b|] eqn:Hb.
  - pose proof (get_bdevs_ok n d Hn Hd (ex_intro _ b Hb)) as Hok. rewrite Hr in Hok.
    destruct r as [j| |]; [|done..]. destruct (Hj j eq_refl) as (b' & Hb' & ->).
    injection Hb' as <-. eexists d', _. split_and!; [|done..].
    assert (bdev_wf b) as Hbwf by (by eapply (wf_bdevs d)). cbn -[dec_struct dump_bdev].
    by rewrite (dec_bdev n b).
  - destruct r as [j|e|w]; [by destruct (Hj j eq_refl) as (? & ? & _)| |by destruct (Hnp w)].
    eexists d', _. split_and!; [done..|by eexists].
Qed.

Lemma run_GetVHostControllers d :
  daemon_wf d →
  ∃ d' cs, run1 GetVHostControllers d = (d', Ok cs) ∧ daemon_wf d' ∧ unchanged d d' ∧
    ∀ n, scsi_hits n cs = places_list n (vhosts d).
Proof.
  intros Hd. unfold GetVHostControllers, invoke. rewrite !run_go_bind, run_call.
  destruct (rpc "get_vhost_controllers" None d) as [d' r] eqn:Hr.
  pose proof (rpc_wf' _ _ _ _ _ Hr Hd) as Hd'.
  pose proof (get_vhost_controllers_sound d d' r Hd Hr) as [Hu Hj].
  pose proof (get_vhost_controllers_ok d Hd) as Hok. rewrite Hr in Hok. destruct r as [j| |]; [|done..].
  rewrite (Hj j eq_refl). destruct (dec_vhosts (vhosts d) (wf_vhosts d Hd)) as (cs & Hcs & Hi).
  eexists d', _. split_and!; [|done..|]; cycle 1.
  - intros n. rewrite <-scsi_hits_places, <-Hi. reflexivity.
  - cbn -[dec_struct dec_slice dump_vhost interpret_controller]. by rewrite Hcs.
Qed.

Definition add_lun (t : Z) (n : string) : go spdkE () :=
  AddVHostSCSILUN (MkAddVHostSCSILUNArgs (vhostSCSI c) t n).

(** A target number that is taken, or free. *)
Lemma run_add_occupied n t d :
  daemon_wf d → occupied d t →
  ∃ d' e, run1 (add_lun t n) d = (d', Err e) ∧ daemon_wf d' ∧ unchanged d d'.
Proof.
  intros Hd [m Hm]. unfold add_lun, AddVHostSCSILUN, invoke_. rewrite run_go_bind, run_call. unfold enc_int. cbn -[rpc].
  destruct (rpc "add_vhost_scsi_lun" _ d) as [d' r] eqn:Hr.
  pose proof (rpc_wf' _ _ _ _ _ Hr Hd) as Hd'.
  assert (∀ w, r ≠ Panic w) as Hnp by (by intros w; eapply rpc_no_panic').
  apply add_vhost_scsi_lun_sound in Hr as [[Hu Hj]|(_ & _ & Hfree & _)]; [|by destruct (Hfree m)|done].
  destruct r as [j|e|w]; [by destruct (Hj j)| |by destruct (Hnp w)]. by exists d', e.
Qed.

Lemma run_add_free n t d :
  daemon_wf d → has_scsi (vhostSCSI c) d → 0 ≤ t < 8 → is_Some (bdevs d !! n) → ¬ occupied d t →
  ∃ d', run1 (add_lun t n) d = (d', Ok ()) ∧ daemon_wf d' ∧ bdevs d' = bdevs d ∧
    ∀ m, places m d' = if decide (m = n) then {[(vhostSCSI c, t)]} ∪ places m d else places m d.
Proof.
  intros Hd Hs Ht Hb Hfree. unfold add_lun, AddVHostSCSILUN, invoke_. rewrite run_go_bind, run_call.
  unfold enc_int. cbn -[rpc].
  pose proof (add_vhost_scsi_lun_ok (vhostSCSI c) t n d Hd Hs Ht Hb) as Hok.
  destruct (rpc "add_vhost_scsi_lun" _ d) as [d' r] eqn:Hr.
  pose proof (rpc_wf' _ _ _ _ _ Hr Hd) as Hd'. specialize (Hok (λ m Hm, Hfree (ex_intro _ m Hm))).
  destruct r as [j| |]; [|done..].
  apply add_vhost_scsi_lun_sound in Hr as [[_ Hj]|(_ & _ & _ & Hbd & Hpl)]; [by destruct (Hj j)| |done].
  by exists d'.
Qed.

Lemma run_try_targets n pre t post last d :
  daemon_wf d → has_scsi (vhostSCSI c) d → 0 ≤ t < 8 → is_Some (bdevs d !! n) →
  Forall (occupied d) pre → ¬ occupied d t →
  ∃ d', run1 (try_targets (vhostSCSI c) n (pre ++ t :: post) last) d = (d', Ok t) ∧ daemon_wf d' ∧
    bdevs d' = bdevs d ∧
    ∀ m, places m d' = if decide (m = n) then {[(vhostSCSI c, t)]} ∪ places m d else places m d.
Proof.
  revert last d. induction pre as [|t0 pre IH]; intros last d Hd Hs Ht Hb Hpre Hfree.
  - cbn [app try_targets]. rewrite run_go_bind, run_attempt. fold (add_lun t n).
    destruct (run_add_free n t d) as (d' & Hrun & ? & ? & ?); [done..|]. rewrite Hrun. by exists d'.
  - apply Forall_cons in Hpre as [Ht0 Hpre]. cbn [app try_targets].
    rewrite run_go_bind, run_attempt. fold (add_lun t0 n).
    destruct (run_add_occupied n t0 d) as (d' & e & Hrun & Hd' & Hu); [done..|]. rewrite Hrun.
    assert (∀ x, occupied d' x ↔ occupied d x) as Hocc.
    { intros x. unfold occupied. by setoid_rewrite (unchanged_places d d' _ Hu). }
    destruct (IH e d') as (d'' & Hrun' & Hd'' & Hbd & Hpl).
    + done.
    + unfold has_scsi. destruct Hu as [_ Hu]. by rewrite Hu.
    + done.
    + destruct Hu as [Hu _]. by rewrite Hu.
    + eapply Forall_impl; [done|]. intros x. apply Hocc.
    + by rewrite Hocc.
    + exists d''. split_and!; [done..| |].
      * rewrite Hbd. by destruct Hu.
      * intros m. by rewrite Hpl, (unchanged_places d d' m Hu).
Qed.

Lemma run_try_full n ts last d :
  daemon_wf d → Forall (occupied d) ts →
  ∃ d' e, run1 (try_targets (vhostSCSI c) n ts last) d = (d', Err e) ∧ daemon_wf d' ∧ unchanged d d'.
Proof.
  revert last d. induction ts as [|t ts IH]; intros last d Hd Hocc.
  - by exists d, (Wrap last "AddVHostSCSILUN failed for all LUNs, last error").
  - apply Forall_cons in Hocc as [Ht Hts]. cbn [try_targets]. rewrite run_go_bind, run_attempt. fold (add_lun t n).
    destruct (run_add_occupied n t d) as (d' & e & Hrun & Hd' & Hu); [done..|]. rewrite Hrun.
    destruct (IH e d') as (d'' & e' & Hrun' & Hd'' & Hu'); [done| |].
    + eapply Forall_impl; [done|]. intros x. unfold occupied.
      by setoid_rewrite (unchanged_places d d' _ Hu).
    + exists d'', e'. split_and!; [done..|]. by eapply unchanged_trans.
Qed.

(** Whatever the daemon answers, an error leaves it alone. *)
Lemma run_add n t d :
  daemon_wf d →
  ∃ d' r, run1 (add_lun t n) d = (d', r) ∧ daemon_wf d' ∧ bdevs d' = bdevs d ∧
    match r with Ok _ => True | Err _ => unchanged d d' | Panic _ => False end.
Proof.
  intros Hd. unfold add_lun, AddVHostSCSILUN, invoke_. rewrite run_go_bind, run_call. unfold enc_int. cbn -[rpc].
  destruct (rpc "add_vhost_scsi_lun" _ d) as [d' r] eqn:Hr. pose proof (rpc_wf' _ _ _ _ _ Hr Hd) as Hd'.
  assert (∀ w, r ≠ Panic w) as Hnp by (by intros w; eapply rpc_no_panic').
  apply add_vhost_scsi_lun_sound in Hr as [[[Hb Hv] Hj]|([j ->] & _ & _ & Hb & _)]; [| |done].
  - destruct r as [j|e|w]; [by destruct (Hj j)|by exists d', (Err e)|by destruct (Hnp w)].
  - by exists d', (Ok ()).
Qed.

Lemma run_try_bdevs n ts last d d' r :
  daemon_wf d → run1 (try_targets (vhostSCSI c) n ts last) d = (d', r) → bdevs d' = bdevs d.
Proof.
  revert last d. induction ts as [|t ts IH]; intros last d Hd; [by intros [= <- _]|].
  cbn [try_targets]. rewrite run_go_bind, run_attempt. fold (add_lun t n).
  destruct (run_add n t d Hd) as (d1 & r1 & -> & Hd1 & Hb & Hr). rewrite <-Hb.
  destruct r1 as [u|e|w]; [by intros [= <- _]| |done]. by apply IH.
Qed.

(** The loop succeeds if one of its numbers is free. *)
Lemma run_try_ok n ts t last d :
  daemon_wf d → has_scsi (vhostSCSI c) d → is_Some (bdevs d !! n) → t ∈ ts → 0 ≤ t < 8 → ¬ occupied d t →
  ∃ d' t', run1 (try_targets (vhostSCSI c) n ts last) d = (d', Ok t') ∧ bdevs d' = bdevs d.
Proof.
  revert last d. induction ts as [|t0 ts IH]; intros last d Hd Hs Hb Hin Ht Hfree; [by apply elem_of_nil in Hin|].
  cbn [try_targets]. rewrite run_go_bind, run_attempt. fold (add_lun t0 n). destruct (decide (t0 = t)) as [->|Hne].
  - destruct (run_add_free n t d) as (d' & -> & _ & Hb' & _); [done..|]. by exists d', t.
  - destruct (run_add n t0 d Hd) as (d' & r & -> & Hd' & Hb' & Hr). destruct r as [u|e|w]; [by exists d', t0| |done].
    apply elem_of_cons in Hin as [->|Hin]; [done|].
    destruct (IH e d') as (d2 & t2 & -> & Hb2); [done| |by rewrite Hb'|done..| |].
    + unfold has_scsi. by destruct Hr as [_ ->].
    + unfold occupied. by setoid_rewrite (unchanged_places d d' _ Hr).
    + exists d2, t2. by rewrite Hb2.
Qed.

(** The eight target numbers in order. *)
Lemma target_numbers_split t :
  0 ≤ t < 8 → ∃ pre post, pre ++ t :: post = target_numbers ∧ Forall (λ t', 0 ≤ t' < t) pre.
Proof.
  intros Ht. exists (seqZ 0 t), (seqZ (t + 1) (7 - t)). split; [|apply Forall_seqZ; lia].
  assert (t = 0 ∨ t = 1 ∨ t = 2 ∨ t = 3 ∨ t = 4 ∨ t = 5 ∨ t = 6 ∨ t = 7) as Hcases by lia.
  by destruct_or! Hcases; subst t.
Qed.

(** ** MapVolume *)

Lemma serve1_MapVolume in_ d :
  configured → Map_VolumeId in_ ≠ "" →
  serve1 (MapVolume c in_) d = run1 (MapVolume_locked c (Map_VolumeId in_) in_) d.
Proof.
  intros (? & ? & ?) ?. unfold serve1, MapVolume. cbv zeta. do 4 rewrite decide_False by done. apply run_with_lock.
Qed.

(** The part of MapVolume that follows the search for the BDev. *)
Lemma run_MapVolume_existing in_ d :
  let n := Map_VolumeId in_ in
  n ≠ "" → daemon_wf d → is_Some (bdevs d !! n) →
  ∃ d', daemon_wf d' ∧ unchanged d d' ∧
    run1 (MapVolume_locked c n in_) d =
      run1 (match places_list n (vhosts d) with
            | (_, target) :: _ => mret (map_reply c target)
            | [] =>
                target ← try_targets (vhostSCSI c) n target_numbers (ErrorNew "");
                mret (map_reply c target)
            end : go spdkE MapVolumeReply) d'.
Proof.
  intros n Hn Hd [b Hb]. unfold MapVolume_locked. rewrite run_go_bind, run_attempt.
  destruct (run_GetBDevs n d Hn Hd) as (d1 & r & Hrun & Hd1 & Hu1 & Hr). rewrite Hb in Hr.
  rewrite Hrun, Hr. cbn iota beta. rewrite run_go_bind. cbn iota beta. change (run1 (mret ()) d1) with (d1, Ok ()). cbn iota beta.
  rewrite run_go_bind, run_wrap_err.
  destruct (run_GetVHostControllers d1 Hd1) as (d2 & cs & Hrun2 & Hd2 & Hu2 & Hhits). rewrite Hrun2.
  exists d2. split_and!; [done|by eapply unchanged_trans|]. rewrite Hhits. destruct Hu1 as [_ Hv]. by rewrite Hv.
Qed.

Lemma places_list_empty n (d : D) : places n d = ∅ → places_list n (vhosts d) = [].
Proof.
  unfold places. intros H. destruct (places_list n (vhosts d)) as [|p l]; [done|]. set_solver.
Qed.

Lemma serve1_Map_configured in_ d d' rep :
  serve1 (MapVolume c in_) d = (d', Ok rep) → configured ∧ Map_VolumeId in_ ≠ "".
Proof.
  unfold serve1, MapVolume. cbv zeta. repeat (case_decide; [done|]). intros _. done.
Qed.

(** A successful MapVolume leaves the volume attached at the place it names. *)
Lemma serve1_Map_Ok in_ d d' rep :
  let n := Map_VolumeId in_ in
  good_start c d → serve1 (MapVolume c in_) d = (d', Ok rep) →
  good_start c d' ∧ (∀ m, m ≠ n → view m d' = view m d) ∧ is_Some (bdevs d' !! n) ∧
  ∃ t, rep = MkMapVolumeReply (vhostDev c) (Some (MkSCSIDisk t 0)) ∧ places n d' = {[(vhostSCSI c, t)]}.
Proof.
  intros n [Hd Hok] Hrun. destruct (serve1_Map_configured _ _ _ _ Hrun) as [Hc Hn].
  rewrite serve1_MapVolume in Hrun by done.
  apply (wp_run spdk_serve view daemon_wf (vol_ok c) n _ (λ r, reply_ok c n (RepMap in_ r))) in Hrun
    as (Hd' & Hv' & Hframe & _ & Hb & t & -> & Hp); [|by apply MapVolume_safe|done..].
  split_and!; [split; [done|]|done|done|by exists t].
  intros m. destruct (decide (m = n)) as [->|Hm]; [done|]. by rewrite Hframe.
Qed.

(** There is a target number for the volume: its own, or a free one. *)
Definition room (n : string) (d : D) : Prop := places n d ≠ ∅ ∨ ∃ t, 0 ≤ t < 8 ∧ ¬ occupied d t.

Lemma serve1_Map_succeeds in_ d :
  let n := Map_VolumeId in_ in
  configured → n ≠ "" → daemon_wf d → has_scsi (vhostSCSI c) d → is_Some (bdevs d !! n) → room n d →
  ∃ d' rep, serve1 (MapVolume c in_) d = (d', Ok rep) ∧ bdevs d' = bdevs d.
Proof.
  intros n Hc Hn Hd Hs Hb Hroom. rewrite serve1_MapVolume by done.
  destruct (run_MapVolume_existing in_ d) as (d1 & Hd1 & Hu & ->); [done..|]. fold n.
  destruct (places_list n (vhosts d)) as [|[cc t] l] eqn:Hl; [|by exists d1, (map_reply c t); destruct Hu].
  destruct Hroom as [Hp|(t & Ht & Hfree)]; [destruct Hp; unfold places; by rewrite Hl|].
  rewrite run_go_bind. pose proof (λ m, unchanged_places d d1 m Hu) as Hpl. destruct Hu as [Hub Huv].
  destruct (run_try_ok n target_numbers t (ErrorNew "") d1) as (d2 & t2 & -> & Hb2).
  - done.
  - unfold has_scsi. by rewrite Huv.
  - by rewrite Hub.
  - destruct (target_numbers_split t Ht) as (pre & post & <- & _). apply elem_of_app. right. by left.
  - done.
  - unfold occupied. by setoid_rewrite Hpl.
  - exists d2, (map_reply c t2). by rewrite Hb2.
Qed.

(** A Malloc volume that is not there. *)
Lemma serve1_Map_missing in_ d :
  let n := Map_VolumeId in_ in
  configured → n ≠ "" → daemon_wf d → bdevs d !! n = None → Params in_ = Some MapVolumeRequest_Malloc →
  ∃ d' e, serve1 (MapVolume c in_) d = (d', Err e) ∧ unchanged d d'.
Proof.
  intros n Hc Hn Hd Hb Hp. rewrite serve1_MapVolume by done. unfold MapVolume_locked.
  rewrite run_go_bind, run_attempt.
  destruct (run_GetBDevs n d Hn Hd) as (d1 & r & Hrun & _ & Hu & Hr). fold n. rewrite Hb in Hr. destruct Hr as [e ->].
  rewrite Hrun, Hp. by eexists d1, _.
Qed.

(** ** UnmapVolume *)

Lemma run_remove_all n l d :
  daemon_wf d → NoDup l → (∀ p, p ∈ l → p ∈ places n d) →
  ∃ d', run1 (for_each l (λ '(controller, target),
      wrap_err "RemoveVHostSCSITarget"
        (RemoveVHostSCSITarget (MkRemoveVHostSCSITargetArgs controller target)))) d = (d', Ok ()) ∧
    daemon_wf d' ∧ bdevs d' = bdevs d ∧ ∀ m, places m d' = places m d ∖ list_to_set l.
Proof.
  intros Hd Hnd. revert d Hd. induction Hnd as [|[cc t] l Hnin _ IH]; intros d Hd Hin.
  - exists d. split_and!; [done..|]. intros m. set_solver.
  - cbn [for_each]. rewrite run_go_bind, run_wrap_err.
    unfold RemoveVHostSCSITarget, invoke_. rewrite run_go_bind, run_call. unfold enc_int. cbn -[rpc for_each].
    assert ((cc, t) ∈ places n d) as Hct by (apply Hin; by left).
    pose proof (remove_vhost_scsi_target_ok cc t n d Hd Hct) as Hok.
    destruct (rpc "remove_vhost_scsi_target" _ d) as [d1 r] eqn:Hr.
    pose proof (rpc_wf' _ _ _ _ _ Hr Hd) as Hd1. destruct r as [j| |]; [|done..].
    apply remove_vhost_scsi_target_sound in Hr as [[_ Hj]|(_ & Hb & Hp)]; [by destruct (Hj j)| |done].
    destruct (IH d1) as (d' & Hrun & Hd' & Hb' & Hp'); [done| |].
    + intros p Hpl. rewrite Hp. set_solver.
    + exists d'. split_and!; [done..|by rewrite Hb'|]. intros m. rewrite Hp', Hp. set_solver.
Qed.

(** A BDev that does not exist is attached nowhere. *)
Lemma places_no_bdev n (d : D) : daemon_wf d → bdevs d !! n = None → places n d = ∅.
Proof.
  intros Hd Hb. apply set_eq. intros p. split; [|set_solver]. intros Hp%(wf_attached d Hd).
  rewrite Hb in Hp. by apply is_Some_None in Hp.
Qed.

(** Whether or not there is such a BDev, afterwards there is none. *)
Lemma run_DeleteBDev n d :
  daemon_wf d →
  ∃ d' r, run1 (DeleteBDev (MkDeleteBDevArgs n)) d = (d', r) ∧ (∀ w, r ≠ Panic w) ∧ daemon_wf d' ∧
    bdevs d' = delete n (bdevs d) ∧ ∀ m, places m d' = if decide (m = n) then ∅ else places m d.
Proof.
  intros Hd. unfold DeleteBDev, invoke_. rewrite run_go_bind, run_call. cbn -[rpc].
  pose proof (delete_bdev_ok n d Hd) as Hok.
  destruct (rpc "delete_bdev" _ d) as [d' r] eqn:Hr. pose proof (rpc_wf' _ _ _ _ _ Hr Hd) as Hd'.
  assert (∀ w, r ≠ Panic w) as Hnp by (by intros w; eapply rpc_no_panic'). simpl in Hok.
  assert (bdevs d' = delete n (bdevs d) ∧ ∀ m, places m d' = if decide (m = n) then ∅ else places m d) as Hpost.
  { apply delete_bdev_sound in Hr as [Hu|[Hbd Hp]]; [|done..].
    destruct (bdevs d !! n) as [b|] eqn:Hb.
    { specialize (Hok (ex_intro _ b eq_refl)). destruct Hu as [Hu _]. rewrite Hu in Hok. congruence. }
    split; [destruct Hu as [-> _]; by rewrite delete_id|]. intros m.
    rewrite (unchanged_places d d' m Hu). case_decide as Hm; [|done]. subst m. by apply places_no_bdev. }
  destruct r as [j|e|w]; [|..|by destruct (Hnp w)].
  - by exists d', (Ok ()).
  - by exists d', (Err e).
Qed.

Lemma serve1_UnmapVolume in_ d :
  let n := Unmap_VolumeId in_ in
  n ≠ "" → SPDK c ≠ None → daemon_wf d →
  ∃ d', serve1 (UnmapVolume c in_) d = (d', Ok ()) ∧ daemon_wf d' ∧
    view n d' = MkVolume (match bdevs d !! n with
                          | Some b => if decide (b_product b = "Malloc disk") then Some b else None
                          | None => None
                          end) ∅ ∧
    ∀ m, m ≠ n → view m d' = view m d.
Proof.
  intros n Hn Hc Hd. unfold serve1, UnmapVolume. cbv zeta. do 2 rewrite decide_False by done.
  rewrite run_with_lock. fold n. unfold UnmapVolume_locked. rewrite run_go_bind, run_wrap_err.
  destruct (run_GetVHostControllers d Hd) as (d1 & cs & -> & Hd1 & Hu1 & Hhits). cbn iota beta.
  rewrite run_go_bind, Hhits. destruct Hu1 as [Hub Huv]. rewrite <-Huv.
  destruct (run_remove_all n (places_list n (vhosts d1)) d1) as (d2 & -> & Hd2 & Hb2 & Hp2).
  { done. } { by apply wf_places. } { intros p. unfold places. by rewrite elem_of_list_to_set. }
  cbn iota beta. rewrite run_go_bind, run_attempt.
  destruct (run_GetBDevs n d2 Hn Hd2) as (d3 & r & -> & Hd3 & Hu3 & Hr). rewrite Hb2, Hub in Hr.
  assert (∀ m, m ≠ n → view m d3 = view m d) as Hframe.
  { intros m Hm. rewrite (unchanged_view d2 d3 Hu3). unfold view. rewrite Hb2, Hub, Hp2. f_equal.
    unfold places. rewrite <-Huv. apply set_eq. intros p. rewrite elem_of_difference, !elem_of_list_to_set.
    split; [by intros [? _]|]. intros Hp. split; [done|]. intros Hp'. destruct Hm.
    apply (wf_targets d1 Hd1 _ _ p); by apply elem_of_list_to_set. }
  assert (bdevs d3 !! n = bdevs d !! n) as Hb3 by (by destruct Hu3 as [-> _]; rewrite Hb2, Hub).
  assert (places n d3 = ∅) as Hp3.
  { rewrite (unchanged_places d2 d3 n Hu3), Hp2. unfold places. set_solver. }
  destruct (bdevs d !! n) as [b|] eqn:Hb; [|destruct Hr as [e Hr]]; rewrite Hr; cbn iota beta.
  - cbn [as_BDev ProductName]. case_decide as Hmalloc.
    + exists d3. split_and!; [done..| |done]. unfold view. by rewrite Hb3, Hp3.
    + rewrite run_go_bind, run_attempt.
      destruct (run_DeleteBDev n d3) as (d4 & r4 & -> & Hnp & Hd4 & Hb4 & Hp4); [done|].
      exists d4. split_and!; [|done| |].
      * destruct r4 as [j|e|w]; [done..|by destruct (Hnp w)].
      * unfold view. by rewrite Hb4, Hp4, lookup_delete_eq, decide_True.
      * intros m Hm. rewrite <-(Hframe m Hm). unfold view. by rewrite Hb4, Hp4, lookup_delete_ne, decide_False.
  - exists d3. split_and!; [done..| |done]. unfold view. by rewrite Hb3, Hp3.
Qed.

(** Neither handler removes a vhost controller. *)
Definition keeps_controllers : ∀ B, spdkE B → Prop := λ B e,
  match e with Invoke method _ => method ≠ "remove_vhost_controller" end.

Lemma run_keeps_scsi {A} (p : go spdkE A) cc d :
  all_calls keeps_controllers p → has_scsi cc d → has_scsi cc (run1 p d).1.
Proof.
  intros Hp. apply (run_invariant keeps_controllers); [done|]. intros B [method args] d' He Hd.
  by apply rpc_keeps_controllers.
Qed.

Lemma try_targets_keeps vhost n ts last : all_calls keeps_controllers (try_targets vhost n ts last).
Proof.
  revert last. induction ts as [|t ts IH]; intros last; [done|]. cbn [try_targets].
  apply all_calls_go_bind; [by calls_with ltac:(progress unfold AddVHostSCSILUN, invoke_)|].
  intros [u|e|w]; [done|apply IH|done].
Qed.

Lemma serve1_Map_keeps in_ d cc :
  configured → Map_VolumeId in_ ≠ "" → has_scsi cc d → has_scsi cc (serve1 (MapVolume c in_) d).1.
Proof.
  intros. rewrite serve1_MapVolume by done. apply run_keeps_scsi; [|done]. unfold MapVolume_locked, mapCeph.
  calls_with ltac:(first [apply try_targets_keeps
    | progress unfold GetBDevs, ConstructRBDBDev, GetVHostControllers, invoke, invoke_]).
Qed.

Lemma serve1_Unmap_keeps in_ d cc :
  Unmap_VolumeId in_ ≠ "" → SPDK c ≠ None → has_scsi cc d → has_scsi cc (serve1 (UnmapVolume c in_) d).1.
Proof.
  intros. unfold serve1, UnmapVolume. cbv zeta. do 2 rewrite decide_False by done. rewrite run_with_lock.
  apply run_keeps_scsi; [|done]. unfold UnmapVolume_locked.
  calls_with ltac:(progress unfold RemoveVHostSCSITarget, DeleteBDev, GetBDevs, GetVHostControllers, invoke, invoke_).
Qed.

(** ** ProvisionMallocBDev *)

Lemma run_ConstructMallocBDev n nb d :
  n ≠ "" → daemon_wf d →
  ∃ d' r, run1 (ConstructMallocBDev (MkConstructBDevArgs nb 512 n "")) d = (d', r) ∧ daemon_wf d' ∧
    match r with
    | Ok _ => vhosts d' = vhosts d ∧ bdevs d !! n = None ∧
        ∃ b, b_num_blocks b = nb ∧ b_block_size b = 512 ∧ bdevs d' = <[n:=b]> (bdevs d)
    | Err _ => unchanged d d'
    | Panic _ => False
    end.
Proof.
  intros Hn Hd. unfold ConstructMallocBDev, invoke, omitempty, enc_int.
  cbn [Construct_NumBlocks Construct_BlockSize Construct_Name Construct_UUID].
  rewrite decide_False, decide_True by done. cbn [app]. rewrite run_go_bind, run_call.
  destruct (rpc "construct_malloc_bdev" _ d) as [d' r] eqn:Hr. pose proof (rpc_wf' _ _ _ _ _ Hr Hd) as Hd'.
  assert (∀ w, r ≠ Panic w) as Hnp by (by intros w; eapply rpc_no_panic').
  apply construct_malloc_sound in Hr as [[Hu Hj]|(-> & Hfresh & Hv & b & _ & Hnb & Hbs & Hb)]; [| |done..].
  - destruct r as [j|e|w]; [by destruct (Hj j)| |by destruct (Hnp w)]. by exists d', (Err e).
  - exists d', (Ok n). split_and!; [done..|]. by exists b.
Qed.

Lemma serve1_Provision in_ d :
  SPDK c ≠ None → Provision_BdevName in_ ≠ "" →
  serve1 (ProvisionMallocBDev c in_) d =
    run1 (ProvisionMallocBDev_locked (Provision_BdevName in_) (Size_ in_)) d.
Proof.
  intros. unfold serve1, ProvisionMallocBDev. cbv zeta. do 2 rewrite decide_False by done. apply run_with_lock.
Qed.

(** Provisioning a name that is in use compares sizes and changes nothing. *)
Lemma serve1_Provision_existing in_ d b :
  let n := Provision_BdevName in_ in
  SPDK c ≠ None → n ≠ "" → Size_ in_ ≠ 0 → daemon_wf d → bdevs d !! n = Some b →
  ∃ d' r, serve1 (ProvisionMallocBDev c in_) d = (d', r) ∧ daemon_wf d' ∧ unchanged d d' ∧
    if decide (bdev_size b = Size_ in_) then r = Ok ()
    else ∃ e, r = Err e ∧ status_code e = AlreadyExists.
Proof.
  intros n Hc Hn Hs Hd Hb. rewrite serve1_Provision by done. fold n. unfold ProvisionMallocBDev_locked.
  rewrite decide_False by done. rewrite run_go_bind, run_attempt.
  destruct (run_GetBDevs n d Hn Hd) as (d1 & r & -> & Hd1 & Hu & Hr). rewrite Hb in Hr. rewrite Hr.
  cbn iota beta. cbn [as_BDev NumBlocks BlockSize]. fold (bdev_size b).
  case_decide; eexists d1, _; split_and!; try done. by eexists.
Qed.

(** A successful call with a size that is no multiple of 512, repeated. *)
Lemma serve1_Provision_new in_ d d' :
  let n := Provision_BdevName in_ in
  daemon_wf d → bdevs d !! n = None → Size_ in_ ≠ 0 →
  serve1 (ProvisionMallocBDev c in_) d = (d', Ok ()) →
  SPDK c ≠ None ∧ n ≠ "" ∧ daemon_wf d' ∧ vhosts d' = vhosts d ∧
  ∃ b, bdevs d' = <[n:=b]> (bdevs d) ∧ b_num_blocks b = Z.quot (Size_ in_) 512 ∧ b_block_size b = 512.
Proof.
  intros n Hd Hfresh Hs Hrun.
  assert (SPDK c ≠ None ∧ n ≠ "") as [Hc Hn].
  { unfold serve1, ProvisionMallocBDev in Hrun. cbv zeta in Hrun. fold n in Hrun.
    repeat (case_decide; [done|]). done. }
  rewrite serve1_Provision in Hrun by done. fold n in Hrun. unfold ProvisionMallocBDev_locked in Hrun.
  rewrite decide_False in Hrun by done. rewrite run_go_bind, run_attempt in Hrun.
  destruct (run_GetBDevs n d Hn Hd) as (d1 & r & Hr1 & Hd1 & [Hub Huv] & Hr). rewrite Hr1 in Hrun.
  rewrite Hfresh in Hr. destruct Hr as [e ->]. cbn iota beta in Hrun.
  rewrite run_go_bind, run_wrap_err in Hrun.
  destruct (run_ConstructMallocBDev n (Z.quot (Size_ in_) 512) d1 Hn Hd1) as (d2 & r2 & Hr2 & Hd2 & Hm).
  rewrite Hr2 in Hrun. destruct r2 as [x|e2|w]; [|done..]. cbn iota beta in Hrun.
  injection Hrun as <-. destruct Hm as (Hv & _ & b & Hnb & Hbs & Hb).
  split_and!; [done..|by rewrite Hv|]. exists b. by rewrite Hb, Hub.
Qed.

(** Provisioning a new name either adds one BDev or fails and changes nothing. *)
Lemma serve1_Provision_fresh in_ d :
  let n := Provision_BdevName in_ in
  SPDK c ≠ None → n ≠ "" → daemon_wf d → bdevs d !! n = None → Size_ in_ ≠ 0 →
  ∃ d' r, serve1 (ProvisionMallocBDev c in_) d = (d', r) ∧ daemon_wf d' ∧
    match r with
    | Ok _ => vhosts d' = vhosts d ∧ ∃ b, bdevs d' = <[n:=b]> (bdevs d) ∧
        b_num_blocks b = Z.quot (Size_ in_) 512 ∧ b_block_size b = 512
    | Err _ => unchanged d d'
    | Panic _ => False
    end.
Proof.
  intros n Hc Hn Hd Hfresh Hs. rewrite serve1_Provision by done. fold n. unfold ProvisionMallocBDev_locked.
  rewrite decide_False by done. rewrite run_go_bind, run_attempt.
  destruct (run_GetBDevs n d Hn Hd) as (d1 & r1 & -> & Hd1 & Hu & Hr). rewrite Hfresh in Hr. destruct Hr as [e ->].
  rewrite run_go_bind, run_wrap_err.
  destruct (run_ConstructMallocBDev n (Z.quot (Size_ in_) 512) d1 Hn Hd1) as (d2 & r2 & -> & Hd2 & Hm).
  destruct r2 as [x|e2|w]; [| |done]; (eexists d2, _; split; [done|]; split; [done|]).
  - destruct Hm as (Hv & _ & b & Hnb & Hbs & Hb), Hu as [Hub Huv]. split; [congruence|]. exists b. by rewrite Hb, Hub.
  - by eapply unchanged_trans.
Qed.

(** Deleting succeeds whether or not there is something to delete. *)
Lemma serve1_Provision_delete in_ d :
  let n := Provision_BdevName in_ in
  SPDK c ≠ None → n ≠ "" → Size_ in_ = 0 → daemon_wf d →
  ∃ d', serve1 (ProvisionMallocBDev c in_) d = (d', Ok ()) ∧ daemon_wf d' ∧ bdevs d' = delete n (bdevs d) ∧
    ∀ m, places m d' = if decide (m = n) then ∅ else places m d.
Proof.
  intros n Hc Hn Hs Hd. rewrite serve1_Provision by done. fold n. unfold ProvisionMallocBDev_locked.
  rewrite decide_True by done. rewrite run_go_bind, run_attempt.
  destruct (run_DeleteBDev n d Hd) as (d' & r & -> & Hnp & Hd' & Hb & Hp).
  exists d'. split_and!; [|done..]. destruct r as [x|e|w]; [done..|by destruct (Hnp w)].
Qed.

(** ** Properties *)

(** C26. MapVolume attaches an existing, unattached BDev at the lowest free target
    number of the configured vhost controller and says so in its reply; the set of
    BDevs and the attachments of all other volumes stay as they are. *)
Theorem MapVolume_first_free_target in_ d t :
  let n := Map_VolumeId in_ in
  configured → n ≠ "" → daemon_wf d → has_scsi (vhostSCSI c) d →
  is_Some (bdevs d !! n) → places n d = ∅ →
  0 ≤ t < 8 → (∀ t', 0 ≤ t' < t → occupied d t') → ¬ occupied d t →
  ∃ d', serve1 (MapVolume c in_) d = (d', Ok (MkMapVolumeReply (vhostDev c) (Some (MkSCSIDisk t 0)))) ∧
    daemon_wf d' ∧ bdevs d' = bdevs d ∧
    places n d' = {[(vhostSCSI c, t)]} ∧ ∀ m, m ≠ n → places m d' = places m d.
Proof.
  intros n Hc Hn Hd Hs Hb He Hrange Hbelow Hfree. rewrite serve1_MapVolume by done.
  destruct (target_numbers_split t Hrange) as (pre & post & Ht & Hlow).
  assert (Forall (occupied d) pre) as Hpre by (eapply Forall_impl; [exact Hlow|exact Hbelow]).
  destruct (run_MapVolume_existing in_ d) as (d1 & Hd1 & Hu & ->); [done..|]. fold n.
  rewrite places_list_empty by done. rewrite run_go_bind, <-Ht.
  pose proof (λ m, unchanged_places d d1 m Hu) as Hpl. destruct Hu as [Hub Huv].
  destruct (run_try_targets n pre t post (ErrorNew "") d1) as (d2 & -> & Hd2 & Hb2 & Hp2).
  - done.
  - unfold has_scsi. by rewrite Huv.
  - done.
  - by rewrite Hub.
  - eapply Forall_impl; [done|]. intros x. unfold occupied. by setoid_rewrite Hpl.
  - unfold occupied. by setoid_rewrite Hpl.
  - exists d2. split_and!; [done..|by rewrite Hb2| |].
    + rewrite Hp2, decide_True, Hpl, He by done. set_solver.
    + intros m Hm. by rewrite Hp2, decide_False, Hpl.
Qed.

(** When all eight target numbers are taken by other volumes, MapVolume fails
    and the daemon is unchanged. *)
Theorem MapVolume_no_free_target in_ d :
  let n := Map_VolumeId in_ in
  configured → n ≠ "" → daemon_wf d → is_Some (bdevs d !! n) → places n d = ∅ →
  (∀ t, 0 ≤ t < 8 → occupied d t) →
  ∃ d' e, serve1 (MapVolume c in_) d = (d', Err e) ∧ unchanged d d'.
Proof.
  intros n Hc Hn Hd Hb He Hall. rewrite serve1_MapVolume by done.
  assert (Forall (occupied d) target_numbers) as Hocc by (repeat constructor; apply Hall; lia).
  destruct (run_MapVolume_existing in_ d) as (d1 & Hd1 & Hu & ->); [done..|]. fold n.
  rewrite places_list_empty by done. rewrite run_go_bind.
  destruct (run_try_full n target_numbers (ErrorNew "") d1) as (d2 & e & -> & Hd2 & Hu2); [done| |].
  - eapply Forall_impl; [done|]. intros x. unfold occupied.
    by setoid_rewrite (unchanged_places d d1 _ Hu).
  - exists d2, e. split; [done|]. by eapply unchanged_trans.
Qed.

(** MapVolume is idempotent: repeating a call that succeeded gives the same
    reply and changes nothing, even if the request now has other parameters. *)
Theorem MapVolume_idempotent in_ in2 d d1 rep :
  good_start c d → serve1 (MapVolume c in_) d = (d1, Ok rep) → Map_VolumeId in2 = Map_VolumeId in_ →
  ∃ d2, serve1 (MapVolume c in2) d1 = (d2, Ok rep) ∧ unchanged d1 d2.
Proof.
  intros Hd Hrun Hsame. destruct (serve1_Map_configured _ _ _ _ Hrun) as [Hc Hn].
  destruct (serve1_Map_Ok _ _ _ _ Hd Hrun) as ([Hd1 _] & _ & Hb & t & -> & Hp).
  rewrite <-Hsame in *. rewrite serve1_MapVolume by done.
  destruct (run_MapVolume_existing in2 d1) as (d2 & _ & Hu & ->); [done..|].
  exists d2. split; [|done]. unfold places in Hp.
  destruct (places_list (Map_VolumeId in2) (vhosts d1)) as [|[cc t'] l]; [set_solver|].
  assert ((cc, t') ∈ ({[(vhostSCSI c, t)]} : gset place)) as Ht by (rewrite <-Hp; set_solver).
  by apply elem_of_singleton in Ht as [= -> ->].
Qed.

(** C27. UnmapVolume succeeds whether or not the volume is mapped: afterwards it is
    attached nowhere, its BDev is gone unless it is a Malloc BDev (which is kept),
    and no other volume has changed. *)
Theorem UnmapVolume_spec in_ d :
  let n := Unmap_VolumeId in_ in
  n ≠ "" → SPDK c ≠ None → daemon_wf d →
  ∃ d', serve1 (UnmapVolume c in_) d = (d', Ok ()) ∧ places n d' = ∅ ∧
    (bdevs d' !! n = match bdevs d !! n with
                     | Some b => if decide (b_product b = "Malloc disk") then Some b else None
                     | None => None
                     end) ∧
    ∀ m, m ≠ n → bdevs d' !! m = bdevs d !! m ∧ places m d' = places m d.
Proof.
  intros n Hn Hc Hd. destruct (serve1_UnmapVolume in_ d) as (d' & Hrun & _ & Hv & Hf); [done..|].
  exists d'. injection Hv as Hb Hp. split_and!; [done..|]. intros m Hm. by injection (Hf m Hm).
Qed.

(** The way back: mapping a Malloc volume that was not attached and unmapping
    it again restores what the daemon holds for every volume. *)
Theorem map_unmap_roundtrip in_ d d1 rep b :
  let n := Map_VolumeId in_ in
  good_start c d → places n d = ∅ → bdevs d !! n = Some b → b_product b = "Malloc disk" →
  serve1 (MapVolume c in_) d = (d1, Ok rep) →
  ∃ d2, serve1 (UnmapVolume c (MkUnmapVolumeRequest n)) d1 = (d2, Ok ()) ∧
    ∀ m, bdevs d2 !! m = bdevs d !! m ∧ places m d2 = places m d.
Proof.
  intros n Hd He Hb Hmalloc Hrun. destruct (serve1_Map_configured _ _ _ _ Hrun) as [Hc Hn].
  destruct (serve1_Map_Ok _ _ _ _ Hd Hrun) as ([Hd1 _] & Hframe & _ & _).
  destruct (serve1_UnmapVolume (MkUnmapVolumeRequest n) d1) as (d2 & Hrun2 & _ & Hv & Hf);
    [done|by destruct Hc|done|]. simpl in Hv, Hf. exists d2. split; [done|]. intros m.
  destruct (decide (m = n)) as [->|Hm]; [|by injection (eq_trans (Hf m Hm) (Hframe m Hm))].
  assert (bdevs d1 !! n = Some b) as Hb1.
  { rewrite serve1_MapVolume in Hrun by done.
    destruct (run_MapVolume_existing in_ d) as (d' & Hd' & [Hu _] & Heq);
      [done|by destruct Hd|by eexists|]. fold n in Heq, Hrun.
    rewrite Heq, places_list_empty, run_go_bind in Hrun by done.
    destruct (run1 (try_targets _ _ _ _) d') as [d3 r3] eqn:Hrun3.
    apply run_try_bdevs in Hrun3; [|done]. assert (d1 = d3) as -> by (by destruct r3; injection Hrun).
    by rewrite Hrun3, Hu. }
  injection Hv as Hv1 Hv2. by rewrite Hv1, Hv2, He, Hb, Hb1, decide_True.
Qed.

(** Repeating ProvisionMallocBDev: after a call that created a BDev of the
    requested size, the same call changes nothing; it succeeds if the size is a
    multiple of 512, and otherwise fails with AlreadyExists, because the BDev that
    the first call made is smaller than requested. *)
Theorem ProvisionMallocBDev_repeated in_ d d1 :
  let n := Provision_BdevName in_ in
  daemon_wf d → bdevs d !! n = None → Size_ in_ ≠ 0 → in_int64 (Size_ in_) →
  serve1 (ProvisionMallocBDev c in_) d = (d1, Ok ()) →
  ∃ d2 r, serve1 (ProvisionMallocBDev c in_) d1 = (d2, r) ∧ unchanged d1 d2 ∧
    if decide (Z.rem (Size_ in_) 512 = 0) then r = Ok ()
    else ∃ e, r = Err e ∧ status_code e = AlreadyExists.
Proof.
  intros n Hd Hfresh Hs Hrange Hrun.
  destruct (serve1_Provision_new in_ d d1) as (Hc & Hn & Hd1 & _ & b & Hb & Hnb & Hbs); [done..|].
  destruct (serve1_Provision_existing in_ d1 b) as (d2 & r & Hrun2 & _ & Hu & Hr);
    [done..|by rewrite Hb, lookup_insert_eq|]. exists d2, r. split_and!; [done..|].
  assert (bdev_size b = Size_ in_ - Z.rem (Size_ in_) 512) as Hsz.
  { rewrite (bdev_size_512 _ _ Hnb Hbs). unfold in_int64 in Hrange.
    pose proof (Z.quot_rem' (Size_ in_) 512). pose proof (Z.rem_bound_abs (Size_ in_) 512).
    pose proof (Z.rem_sign_mul (Size_ in_) 512). rewrite wrap_signed_small; simpl; lia. }
  rewrite Hsz in Hr. repeat case_decide; try done; lia.
Qed.

(** CheckMallocBDev answers exactly whether the BDev exists: success if so, a
    NotFound status if not; it changes nothing. *)
Theorem CheckMallocBDev_spec in_ d :
  let n := Check_BdevName in_ in
  n ≠ "" → SPDK c ≠ None → daemon_wf d →
  ∃ d' r, serve1 (CheckMallocBDev c in_) d = (d', r) ∧ unchanged d d' ∧
    match bdevs d !! n with
    | Some _ => r = Ok ()
    | None => ∃ e, r = Err e ∧ status_code e = NotFound
    end.
Proof.
  intros n Hn Hc Hd. unfold serve1, CheckMallocBDev. cbv zeta. do 2 rewrite decide_False by done.
  rewrite run_with_lock. fold n. unfold CheckMallocBDev_locked. rewrite run_go_bind, run_attempt.
  destruct (run_GetBDevs n d Hn Hd) as (d' & r & -> & _ & Hu & Hr).
  destruct (bdevs d !! n) as [b|]; [rewrite Hr|destruct Hr as [e ->]]; eexists d', _; split_and!; try done.
  by eexists.
Qed.

(** Provisioning with size zero deletes: the call succeeds whether or not the
    BDev exists, and afterwards it does not; other volumes are not affected. *)
Theorem ProvisionMallocBDev_delete in_ d :
  let n := Provision_BdevName in_ in
  n ≠ "" → SPDK c ≠ None → Size_ in_ = 0 → daemon_wf d →
  ∃ d', serve1 (ProvisionMallocBDev c in_) d = (d', Ok ()) ∧ bdevs d' = delete n (bdevs d) ∧
    places n d' = ∅ ∧ ∀ m, m ≠ n → places m d' = places m d.
Proof.
  intros n Hn Hc Hs Hd. destruct (serve1_Provision_delete in_ d) as (d' & Hrun & _ & Hb & Hp); [done..|].
  exists d'. split_and!; [done..|by rewrite Hp, decide_True|]. intros m Hm. by rewrite Hp, decide_False.
Qed.
End Sequential.

(** ** Concrete runs against the reference daemon *)

Module seq_example.
Definition malloc (nb : Z) : bdev := MkBdev "Malloc disk" 512 nb None false zero_SupportedIOTypes JNull.
Definition ctl : Controller () :=
  oimcontroller.MkController (Some ()) "" Minute "host-0" "" "/var/tmp/spdk.sock"
    (Some (MkClient "/var/tmp/spdk.sock")) "vhost.0" (Some (MkPCIAddress 0 0 3 0)).
(** Volume "a" is attached at target 0, volume "b" is not attached. *)
Definition d0 : refd := MkRefd {["a" := malloc 2048; "b" := malloc 1024]} {[0 := "a"]}.
Definition full : refd :=
  MkRefd {["a" := malloc 2048; "b" := malloc 1024]}
    (list_to_map ((λ t, (t, "a")) <$> target_numbers)).
Definition map_b := MkMapVolumeRequest "b" (Some MapVolumeRequest_Malloc).
Definition d1 : refd := MkRefd (rb d0) {[0 := "a"; 1 := "b"]}.
Definition provision (size : Z) := MkProvisionMallocBDevRequest "c" size.
End seq_example.
Import seq_example.

Lemma malloc_wf nb : 0 ≤ nb < 2 ^ 63 → bdev_wf (malloc nb).
Proof. intros. split; simpl; lia. Qed.

Lemma d0_bdevs_wf : map_Forall (λ _ b, bdev_wf b) (rb d0).
Proof.
  apply map_Forall_insert_2; [apply malloc_wf; lia|]. apply map_Forall_singleton, malloc_wf. lia.
Qed.

Lemma d0_wf : daemon_wf d0.
Proof.
  apply ref_wf. split; [apply d0_bdevs_wf|]. apply map_Forall_singleton. split; [lia|]. by eexists.
Qed.

Lemma full_lookup t n : rl full !! t = Some n → n = "a" ∧ 0 ≤ t < 8.
Proof.
  intros H%elem_of_list_to_map_2. apply list_elem_of_fmap in H as (t' & [= <- ->] & Ht).
  split; [done|]. unfold target_numbers in Ht. rewrite !elem_of_cons, elem_of_nil in Ht. lia.
Qed.

Lemma full_wf : daemon_wf full.
Proof.
  apply ref_wf. split; [apply d0_bdevs_wf|]. intros t n [-> Ht]%full_lookup. split; [lia|]. by eexists.
Qed.

Lemma d0_lookup t n : rl d0 !! t = Some n → t = 0 ∧ n = "a".
Proof.
  change (rl d0) with ({[0 := "a"]} : gmap Z string). by intros [<- <-]%lookup_singleton_Some.
Qed.

Lemma d0_good : good_start ctl d0.
Proof.
  split; [apply d0_wf|]. intros n.
  assert (∀ p, p ∈ places n d0 → p = ("vhost.0", 0)) as Hp.
  { intros [cc t] [-> Ht]%ref_places. by apply d0_lookup in Ht as [-> _]. }
  split; simpl.
  - intros p q Hpp Hq. by rewrite (Hp p), (Hp q).
  - intros p Hpp. rewrite (Hp p Hpp). simpl. split; [done|lia].
Qed.

Lemma places_b_empty (d : refd) : (∀ t, rl d !! t ≠ Some "b") → places "b" d = ∅.
Proof.
  intros H. apply set_eq. intros [cc t]. split; [|set_solver]. intros [_ Ht]%ref_places. by destruct (H t).
Qed.

Lemma d0_b_free : places "b" d0 = ∅.
Proof. apply places_b_empty. by intros t [_ ?]%d0_lookup. Qed.

Lemma ctl_configured : configured ctl.
Proof. by split_and!. Qed.

Lemma MapVolume_first_free_target_witness :
  ∃ d', serve1 (MapVolume ctl map_b) d0 = (d', Ok (MkMapVolumeReply (vhostDev ctl) (Some (MkSCSIDisk 1 0)))) ∧
    daemon_wf d' ∧ bdevs d' = bdevs d0 ∧ places "b" d' = {[("vhost.0", 1)]} ∧
    ∀ m, m ≠ "b" → places m d' = places m d0.
Proof.
  apply (MapVolume_first_free_target ctl map_b d0 1).
  - apply ctl_configured.
  - done.
  - apply d0_wf.
  - eexists _, _. split; [by left|done].
  - by eexists.
  - apply d0_b_free.
  - lia.
  - intros t' Ht'. assert (t' = 0) as -> by lia. exists "a". by apply ref_places.
  - intros [m [_ Hm]%ref_places]. by apply d0_lookup in Hm as [? _].
Defined.

Lemma MapVolume_no_free_target_witness :
  ∃ d' e, serve1 (MapVolume ctl map_b) full = (d', Err e) ∧ unchanged full d'.
Proof.
  apply (MapVolume_no_free_target ctl map_b full).
  - apply ctl_configured.
  - done.
  - apply full_wf.
  - by eexists.
  - apply places_b_empty. by intros t [? _]%full_lookup.
  - intros t Ht. exists "a". apply ref_places. split; [done|].
    assert (t = 0 ∨ t = 1 ∨ t = 2 ∨ t = 3 ∨ t = 4 ∨ t = 5 ∨ t = 6 ∨ t = 7) as Hcases by lia.
    destruct_or! Hcases; subst t; vm_compute; reflexivity.
Defined.

Lemma MapVolume_idempotent_witness :
  ∃ d2, serve1 (MapVolume ctl (MkMapVolumeRequest "b" None)) d1 = (d2, Ok (map_reply ctl 1)) ∧ unchanged d1 d2.
Proof.
  apply (MapVolume_idempotent ctl map_b (MkMapVolumeRequest "b" None) d0 d1 (map_reply ctl 1)).
  - apply d0_good.
  - vm_compute. reflexivity.
  - done.
Defined.

Lemma UnmapVolume_spec_witness :
  ∃ d', serve1 (UnmapVolume ctl (MkUnmapVolumeRequest "b")) d1 = (d', Ok ()) ∧ places "b" d' = ∅ ∧
    (bdevs d' !! "b" = match bdevs d1 !! "b" with
                       | Some b => if decide (b_product b = "Malloc disk") then Some b else None
                       | None => None
                       end) ∧
    ∀ m, m ≠ "b" → bdevs d' !! m = bdevs d1 !! m ∧ places m d' = places m d1.
Proof.
  apply (UnmapVolume_spec ctl (MkUnmapVolumeRequest "b") d1); [done..|].
  apply ref_wf. split; [apply d0_bdevs_wf|].
  apply map_Forall_insert_2; [split; [lia|by eexists]|]. apply map_Forall_singleton.
  split; [lia|by eexists].
Defined.

Lemma map_unmap_roundtrip_witness :
  ∃ d2, serve1 (UnmapVolume ctl (MkUnmapVolumeRequest "b")) d1 = (d2, Ok ()) ∧
    ∀ m, bdevs d2 !! m = bdevs d0 !! m ∧ places m d2 = places m d0.
Proof.
  apply (map_unmap_roundtrip ctl map_b d0 d1 (map_reply ctl 1) (malloc 1024)).
  - apply d0_good.
  - apply d0_b_free.
  - vm_compute. reflexivity.
  - done.
  - vm_compute. reflexivity.
Defined.

Lemma ProvisionMallocBDev_repeated_witness :
  ∃ d1, serve1 (ProvisionMallocBDev ctl (provision 1000)) d0 = (d1, Ok ()) ∧
  ∃ d2 r, serve1 (ProvisionMallocBDev ctl (provision 1000)) d1 = (d2, r) ∧ unchanged d1 d2 ∧
    if decide (Z.rem 1000 512 = 0) then r = Ok () else ∃ e, r = Err e ∧ status_code e = AlreadyExists.
Proof.
  eexists. split; [vm_compute; reflexivity|].
  eapply (ProvisionMallocBDev_repeated ctl (provision 1000) d0).
  - apply d0_wf.
  - vm_compute. reflexivity.
  - done.
  - unfold in_int64. simpl. lia.
  - vm_compute. reflexivity.
Defined.

Lemma CheckMallocBDev_spec_witness :
  ∃ d' r, serve1 (CheckMallocBDev ctl (MkCheckMallocBDevRequest "zz")) d0 = (d', r) ∧ unchanged d0 d' ∧
    match bdevs d0 !! "zz" with
    | Some _ => r = Ok ()
    | None => ∃ e, r = Err e ∧ status_code e = NotFound
    end.
Proof. apply (CheckMallocBDev_spec ctl (MkCheckMallocBDevRequest "zz") d0); [done..|apply d0_wf]. Defined.

Lemma ProvisionMallocBDev_delete_witness :
  ∃ d', serve1 (ProvisionMallocBDev ctl (MkProvisionMallocBDevRequest "a" 0)) d0 = (d', Ok ()) ∧
    bdevs d' = delete "a" (bdevs d0) ∧ places "a" d' = ∅ ∧ ∀ m, m ≠ "a" → places m d' = places m d0.
Proof.
  apply (ProvisionMallocBDev_delete ctl (MkProvisionMallocBDevRequest "a" 0) d0); [done..|apply d0_wf].
Defined.

(** ** Concrete interleavings *)

(** Two calls for volume "b" and one for "a": the first has run up to the release
    of its lock, the second waits for it, the third runs in between. *)
Module pool_example.
Definition hash1 (s : string) : nat := match s with String c _ => nat_of_ascii c | EmptyString => 0 end.
Definition unmap_a := MkUnmapVolumeRequest "a".
Abbreviation cfg_ := (config (F := spdkE) refd ctl_reply).
Definition spawned : cfg_ :=
  MkConfig d0 ∅ [handle ctl (ReqMap map_b); handle ctl (ReqMap map_b); handle ctl (ReqUnmap unmap_a)].
Definition adv (fuel i : nat) (cfg : cfg_) : cfg_ := advance spdk_serve hash1 fuel i cfg.
(** Thread 0 takes the lock and looks for the BDev, thread 2 detaches "a" from
    target 0, thread 1 is blocked, then thread 0 attaches "b". *)
Definition before_add : cfg_ := adv 9 1 (adv 4 2 (adv 3 0 spawned)).
Definition reached : cfg_ := adv 1 0 before_add.
End pool_example.
Import pool_example.

Lemma spawned_run : ctl_run ctl hash1 d0 spawned.
Proof.
  unfold ctl_run, spawned.
  apply (pool_spawn spdk_serve hash1 _ _ d0 ∅ [_; _]); [|by eexists].
  apply (pool_spawn spdk_serve hash1 _ _ d0 ∅ [_]); [|by eexists].
  apply (pool_spawn spdk_serve hash1 _ _ d0 ∅ []); [|by eexists]. constructor.
Qed.

Lemma before_add_run : ctl_run ctl hash1 d0 before_add.
Proof. do 3 apply advance_run. apply spawned_run. Qed.

Lemma reached_run : ctl_run ctl hash1 d0 reached.
Proof. apply advance_run, before_add_run. Qed.

Lemma volumes_attached_at_most_once_witness :
  ("vhost.0", 0) ∈ places "b" (cfg_state reached) ∧
  ("vhost.0", 0) = ("vhost.0", 0) ∧ fst ("vhost.0", 0) = vhostSCSI ctl ∧ 0 ≤ snd ("vhost.0", 0) < 8.
Proof.
  assert (("vhost.0", 0) ∈ places "b" (cfg_state reached)) as Hin.
  { apply ref_places. split; [done|]. vm_compute. reflexivity. }
  split; [exact Hin|].
  apply (volumes_attached_at_most_once ctl hash1 d0 reached "b");
    [apply d0_good|apply reached_run|exact Hin|exact Hin].
Defined.

Lemma replies_hold_under_concurrency_witness :
  ∃ k rep, cfg_threads reached !! 0%nat = Some (Vis (UnlockKey "b") k) ∧ k () = Ret rep ∧
    reply_ok ctl "b" rep (view "b" (cfg_state reached)).
Proof.
  assert (∃ k, cfg_threads reached !! 0%nat = Some (Vis (UnlockKey "b") k)) as [k Hk].
  { eexists. vm_compute. reflexivity. }
  destruct (replies_hold_under_concurrency ctl hash1 d0 reached 0 "b" k) as (rep & H1 & H2);
    [apply d0_good|apply reached_run|exact Hk|].
  exists k, rep. split; [exact Hk|]. split; [exact H1|exact H2].
Defined.

Lemma service_never_stuck_witness :
  (Forall finished (cfg_threads reached) ∨
   ∃ cfg', step (R := ctl_reply) (spdk_serve (D := refd)) hash1 reached cfg') ∧
  Acc (λ c' c, step (R := ctl_reply) (spdk_serve (D := refd)) hash1 c c') reached.
Proof. apply (service_never_stuck ctl hash1 d0); [apply d0_good|apply reached_run]. Defined.

Lemma volume_isolation_witness : hash1 "b" ∈ cfg_locks before_add.
Proof.
  apply (volume_isolation ctl hash1 d0 before_add reached "b").
  - apply d0_good.
  - apply before_add_run.
  - apply advance_one. vm_compute. reflexivity.
  - intros H. apply (f_equal vol_places) in H. simpl in H.
    assert (("vhost.0", 0) ∈ places "b" (cfg_state before_add)) as Hin.
    { change (("vhost.0", 0) ∈ vol_places (view "b" (cfg_state before_add))). simpl. rewrite <-H.
      apply ref_places. split; [done|]. vm_compute. reflexivity. }
    apply ref_places in Hin as [_ Hin]. vm_compute in Hin. discriminate.
Defined.
