(* ===== verification/Registration.v ===== *)
(** * Self-registration of the controller: Start, register and Close

    pkg/oim-controller/controller.go: a goroutine with a select loop, one more
    goroutine per registration, and two channels.  The goroutines are a step
    relation; a registration itself is a program that dials and calls SetValue. *)
From S2P Require Import Prelude GoStrings Errors Messages RegistryPath GRPC Registry Effects Controller.
Import oimcontroller.

(** ** One registration *)

Inductive regE : Type → Type :=
| DialRegistry (address : string) : regE (result ())
| SetValue_ (in_ : SetValueRequest) : regE (result ())
| CloseRegistry : regE ().

(** After a failed [grpc.DialContext] the code goes on with a nil connection. *)
Definition register {Creds} (c : Controller Creds) : go regE () :=
  pbind (λ r, match r with
    | Ok _ =>
        Vis (SetValue_ (MkSetValueRequest
               (Some (MkValue (controllerID c +:+ "/" +:+ RegistryAddress) (controllerAddr c))))) (λ _,
          Vis CloseRegistry (λ _, Ret (Ok ())))
    | Err _ => Ret (Panic "nil pointer dereference: conn")
    | Panic w => Ret (Panic w)
    end) (trigger (DialRegistry (registryAddress c))).

(** ** The goroutines *)

(** A goroutine that registers is in the call, or waits to send on [done]. *)
Inductive reg_call := Calling | Sending.

Record reg_state := MkRegState {
  again : bool;             (** the timer is set, and its event was not taken yet *)
  calls_ : list reg_call;   (** goroutines that register *)
  stopped : bool;           (** the channel [stop] is closed *)
  looping : bool;           (** the select loop has not returned *)
  registered : nat          (** calls of [register] that returned *)
}.

(** [Start]: nothing without a registry, otherwise the first timer fires at once. *)
Definition Start_ {Creds} (c : Controller Creds) : option reg_state :=
  if decide (registryAddress c = "") then None else Some (MkRegState true [] false true 0).

(** What the program does by itself. *)
Inductive reg_step : reg_state → reg_state → Prop :=
| reg_stop cs a n : (** case <-stop *)
    reg_step (MkRegState a cs true true n) (MkRegState a cs true false n)
| reg_again cs st n : (** case <-again: a goroutine starts *)
    reg_step (MkRegState true cs st true n) (MkRegState false (cs ++ [Calling]) st true n)
| reg_called pre post a st l n : (** [register] returns *)
    reg_step (MkRegState a (pre ++ Calling :: post) st l n) (MkRegState a (pre ++ Sending :: post) st l (S n))
| reg_done pre post a st n : (** case <-done: the timer is set again *)
    reg_step (MkRegState a (pre ++ Sending :: post) st true n) (MkRegState true (pre ++ post) st true n).

(** [Close] closes the channel. *)
Inductive reg_close : reg_state → reg_state → Prop :=
| reg_close_ a cs l n : reg_close (MkRegState a cs false l n) (MkRegState a cs true l n).

(** The second half of [Close] waits for the loop. *)
Definition closed (s : reg_state) : Prop := stopped s = true ∧ looping s = false.

Inductive reg_reach (s0 : reg_state) : reg_state → Prop :=
| reach_refl : reg_reach s0 s0
| reach_step s s' : reg_reach s0 s → reg_step s s' → reg_reach s0 s'
| reach_close s s' : reg_reach s0 s → reg_close s s' → reg_reach s0 s'.

(** ** Invariant *)

Definition reg_inv (s : reg_state) : Prop :=
  (if again s then calls_ s = [] else ∃ c, calls_ s = [c]) ∧ (stopped s = false → looping s = true).

Lemma singleton_middle {A} (pre post : list A) x c : pre ++ x :: post = [c] → pre = [] ∧ post = [] ∧ x = c.
Proof. destruct pre as [|y [|z pre]]; [intros [= -> ->]; done|done|done]. Qed.

Lemma reg_inv_step s s' : reg_inv s → reg_step s s' → reg_inv s'.
Proof.
  intros [Ha Hs] Hstep. destruct Hstep as [cs a n|cs st n|pre post a st l n|pre post a st n]; unfold reg_inv in *; cbn in *.
  - done.
  - subst cs. split; [by exists Calling|done].
  - destruct a; [by destruct pre|]. destruct Ha as [c Hc]. apply singleton_middle in Hc as (-> & -> & _).
    split; [by exists Sending|done].
  - destruct a; [by destruct pre|]. destruct Ha as [c Hc]. by apply singleton_middle in Hc as (-> & -> & _).
Qed.

Lemma reg_reach_inv {Creds} (c : Controller Creds) s0 s : Start_ c = Some s0 → reg_reach s0 s → reg_inv s.
Proof.
  unfold Start_. case_decide; [done|]. intros [= <-]. induction 1 as [|s s' _ IH Hstep|s s' _ IH Hclose].
  - done.
  - by eapply reg_inv_step.
  - destruct Hclose. destruct IH as [Ha _]. split; done.
Qed.

Lemma reg_inv_progress s : reg_inv s → stopped s = false → ∃ s', reg_step s s'.
Proof.
  destruct s as [[] cs st l n]; intros [Ha Hl] Hst; cbn in *; subst st; rewrite Hl by done.
  - eexists. constructor.
  - destruct Ha as [[] ->]; eexists.
    + apply (reg_called [] []).
    + apply (reg_done [] []).
Qed.

(** How many steps until the next registration has returned. *)
Definition distance (s : reg_state) : nat :=
  match again s, calls_ s with
  | false, [Sending] => 3
  | true, _ => 2
  | false, _ => 1
  end.

Lemma reg_step_distance s s' :
  reg_inv s → stopped s = false → reg_step s s' →
  stopped s' = false ∧ (registered s' = S (registered s) ∨ registered s' = registered s ∧ (S (distance s') = distance s)%nat).
Proof.
  intros [Ha Hl] Hst Hstep. destruct Hstep as [cs a n|cs st n|pre post a st l n|pre post a st n]; cbn in *; [done| | |].
  - subst cs. auto.
  - auto.
  - destruct a; [by destruct pre|]. destruct Ha as [c Hc]. apply singleton_middle in Hc as (-> & -> & <-). cbn. auto.
Qed.


Definition reg_controller : Controller () :=
  MkController (Some ()) "dns:///registry:8999" Minute "host-0" "tcp://10.0.0.1:8999" "" None "" None.


(** [Close] waits for the loop only: if a registration is in progress at that time,
    its goroutine is left behind.  It can finish the call but then sends on a
    channel that nobody receives from any more. *)
Theorem Close_leaks_goroutine :
  ∃ s, reg_reach (MkRegState true [] false true 0) s ∧ closed s ∧ calls_ s = [Sending] ∧ ∀ s', ¬ reg_step s s'.
Proof.
  exists (MkRegState false [Sending] true false 1). split_and!; [|done..|].
  - eapply reach_step; [|apply (reg_called [] [])].
    eapply reach_step; [|apply reg_stop]. eapply reach_close; [|apply reg_close_].
    eapply reach_step; [apply reach_refl|]. apply (reg_again []).
  - intros s' H. inversion H; subst.
    match goal with E : _ ++ _ :: _ = _ |- _ => by apply singleton_middle in E as (_ & _ & ?) end.
Qed.

(** A registration sets exactly the address of this controller, over a connection
    that is closed again; but if the connection cannot be set up, the code goes on
    without one and panics. *)
Lemma register_spec {Creds S} (c : Controller Creds) (serve : ∀ B, regE B → S → S * B) s :
  let path := controllerID c +:+ "/address" in
  match serve _ (DialRegistry (registryAddress c)) s with
  | (s1, Ok u) =>
      let set := SetValue_ (MkSetValueRequest (Some (MkValue path (controllerAddr c)))) in
      let '(s2, r) := serve _ set s1 in
      trace serve (register c) s = [Io (DialRegistry (registryAddress c)) (Ok u); Io set r; Io CloseRegistry ()] ∧
      (run serve (register c) s).2 = Ok ()
  | (s1, r) => trace serve (register c) s = [Io (DialRegistry (registryAddress c)) r] ∧
               panics (run serve (register c) s).2 = true
  end.
Proof.
  cbv zeta. unfold register, trigger. rewrite trace_bind, run_bind. cbn [trace run].
  destruct (serve _ (DialRegistry _) s) as [s1 [u|e|w]]; [|done..]. cbn [trace run app].
  destruct (serve _ (SetValue_ _) s1) as [s2 r]. destruct (serve _ CloseRegistry s2) as [s3 []]. done.
Qed.

(** ** Registration and proxy together *)

Section System.
Context {DB : Type} {RD : RegistryDB DB} {RDL : RegistryDBLaws DB} {Creds : Type} (c : Controller Creds).

(** The registry at the other end; [ctx] is how it sees this controller. *)
Definition serve_registry (ctx : context) : ∀ B, regE B → DB → DB * B := λ B e,
  match e in regE B return DB → DB * B with
  | DialRegistry _ => λ db, (db, Ok ())
  | SetValue_ in_ => SetValue ctx in_
  | CloseRegistry => λ db, (db, ())
  end.

Lemma run_register ctx db :
  wf_element (controllerID c) → getPeer ctx = Ok ("controller." +:+ controllerID c) →
  run (serve_registry ctx) (register c) db =
    (Store (controllerID c +:+ "/" +:+ RegistryAddress) (controllerAddr c) db, Ok ()).
Proof.
  intros Hid Hpeer. unfold register, trigger. cbn [pbind run serve_registry]. unfold SetValue, SetValue_check.
  cbn [SetValue_Value Path Value_].
  change (controllerID c +:+ "/" +:+ RegistryAddress) with (JoinRegistryPath [controllerID c; RegistryAddress]).
  rewrite SplitRegistryPath_Join by (apply Forall_cons_2; [done|apply Forall_cons_2; [by repeat split|done]]). cbn [mbind result_mbind result_bind].
  rewrite decide_False by done. rewrite Hpeer. cbn [mbind result_mbind result_bind].
  assert (set_allowed ("controller." +:+ controllerID c) [controllerID c; RegistryAddress] = true) as ->; [|done].
  apply orb_true_iff. right. apply andb_true_iff. split; by apply bool_decide_true.
Qed.

(** C9. Registering makes a controller reachable: once a controller with a valid ID has
    registered over a connection that carries its own certificate, every call of its
    host is forwarded to the address it registered, with a check that the server
    there has the certificate of this controller; nothing else in the registry
    changes. *)
Theorem registered_controller_reachable ctx (db : DB) hctx md method :
  db_wf db → wf_element (controllerID c) → controllerAddr c ≠ "" →
  getPeer ctx = Ok ("controller." +:+ controllerID c) →
  getPeer hctx = Ok ("host." +:+ controllerID c) → ctx_metadata hctx = Some md →
  md !! "controllerid" = Some [controllerID c] → HasPrefix method "/oim.v0.Registry/" = false →
  ∃ db', run (serve_registry ctx) (register c) db = (db', Ok ()) ∧
    (∀ k, k ≠ controllerID c +:+ "/address" → Lookup k db' = Lookup k db) ∧
    ∃ d, Connect hctx method db' = Ok d ∧ dial_address d = controllerAddr c ∧
      dial_ServerName d = "controller." +:+ controllerID c.
Proof.
  intros Hwf Hid Haddr Hpeer Hhost Hmd Hctl Hmethod. rewrite run_register by done. eexists. split; [done|]. split.
  - intros k Hk. rewrite Lookup_Store by done. rewrite decide_False; [done|]. intros Heq. apply Hk. by rewrite <-Heq.
  - unfold Connect. rewrite Hmethod, Hmd, Hctl, Hhost. cbn [mbind result_mbind result_bind].
    rewrite HasPrefix_app, TrimPrefix_app, bool_decide_true by done. cbn [negb orb].
    assert (Lookup (controllerID c +:+ "/" +:+ RegistryAddress)
      (Store (controllerID c +:+ "/" +:+ RegistryAddress) (controllerAddr c) db) = controllerAddr c) as ->
      by (rewrite Lookup_Store by done; by rewrite decide_True).
    rewrite decide_False by done. by eexists.
Qed.
End System.

Definition host_context : context :=
  RegistryClientContext (MkContext None (Some {["controllerid" := ["host-0"]]})) "host.host-0".

Lemma registered_controller_reachable_witness :
  ∃ db', run (serve_registry (RegistryClientContext (MkContext None None) "controller.host-0"))
      (register reg_controller) example.db0 = (db', Ok ()) ∧
    (∀ k, k ≠ "host-0/address" → Lookup k db' = Lookup k example.db0) ∧
    ∃ d, Connect host_context "/oim.v0.Controller/MapVolume" db' = Ok d ∧
      dial_address d = "tcp://10.0.0.1:8999" ∧ dial_ServerName d = "controller.host-0".
Proof.
  apply (registered_controller_reachable reg_controller _ example.db0 host_context {["controllerid" := ["host-0"]]});
    [apply example_wf|by repeat split|done..].
Defined.
