(* ===== verification/CSIEnv.v ===== *)
(** * The environment of the CSI driver

    The system calls, commands and gRPC calls that pkg/oim-csi-driver and
    pkg/mount make, as events: every call is an event that is answered with a
    value or an error. *)
From S2P Require Import Prelude Messages Effects SPDK.

(** What [os.Stat] tells: the bits of an [os.FileMode], and two fields of the
    system's own struct. *)
Record FileInfo := MkFileInfo { Mode : Z; Dev : Z; Gid : Z }.

Definition ModeDir : Z := Z.shiftl 1 31.
Definition ModeSymlink : Z := Z.shiftl 1 27.
Definition ModeDevice : Z := Z.shiftl 1 26.
Definition ModeNamedPipe : Z := Z.shiftl 1 25.
Definition ModeSocket : Z := Z.shiftl 1 24.
Definition ModeSetuid : Z := Z.shiftl 1 23.
Definition ModeSetgid : Z := Z.shiftl 1 22.
Definition ModeCharDevice : Z := Z.shiftl 1 21.
Definition ModeSticky : Z := Z.shiftl 1 20.
Definition ModeIrregular : Z := Z.shiftl 1 19.
Definition ModePerm : Z := 0x1ff.
Definition ModeType : Z :=
  foldr Z.lor 0 [ModeDir; ModeSymlink; ModeNamedPipe; ModeSocket; ModeDevice; ModeCharDevice; ModeIrregular].

Definition IsDir (mode : Z) : bool := negb (Z.land mode ModeDir =? 0).
Definition IsRegular (mode : Z) : bool := Z.land mode ModeType =? 0.

(** An entry of a directory. *)
Record DirEntry := MkDirEntry { EntryName : string; EntryIsDir : bool }.

(** What ends a wait of [waitForDevice]. *)
Inductive select_case :=
| CtxDone
| WatcherEvent
| AfterTimeout
| WatcherError (e : error).

(** Output and error of a command that was run.  [Command] is the standard
    library's [exec.Command(...).CombinedOutput()], [ExecRun] the one of
    k8s.io/utils/exec, which reports its errors in its own types. *)
Definition output := (string * option error)%type.

Inductive osE : Type → Type :=
| ReadDir (dir : string) : osE (result (list DirEntry))
| Readlink (path : string) : osE (result string)
| TempDir (dir prefix : string) : osE (result string)
| Mknod (path : string) (mode dev : Z) : osE (result ())
| RemoveAll (path : string) : osE (result ())
| Remove (path : string) : osE (result ())
| MkdirAll (path : string) (perm : Z) : osE (result ())
| Stat (path : string) : osE (result FileInfo)
| Lstat (path : string) : osE (result FileInfo)
| ReadFile (path : string) : osE (result string)
| Mkdir (path : string) (perm : Z) : osE (result ())
| WriteFile (path contents : string) (perm : Z) : osE (result ())
| OpenFile (path : string) (flags perm : Z) : osE (result ())
| EvalSymlinks (path : string) : osE (result string)
| LookPath (file : string) : osE (result string)
| Command (cmd : string) (args : list string) : osE output
| ExecRun (cmd : string) (args : list string) : osE output
| Getpid : osE Z
| SysOpen (path : string) (flags : Z) : osE (result Z)
| SysOpenat (dirfd : Z) (path : string) (flags : Z) : osE (result Z)
| SysClose (fd : Z) : osE (result ())
| SysFstat (fd : Z) : osE (result Z)
| SysMkdirat (dirfd : Z) (path : string) (mode : Z) : osE (result ())
| SysFchmod (fd : Z) (mode : Z) : osE (result ())
| SysMount (source target fstype : string) (flags : Z) : osE (result ())
| Open (path : string) : osE (result ())
| Seek (path : string) (offset whence : Z) : osE (result Z)
| CloseFile (path : string) : osE (result ())
| NewWatcher (path : string) : osE (result ())
| Select : osE select_case.

(** Calls that go to the OIM registry or through it to a controller; the latter
    carry the controller ID in their metadata. *)
Inductive rpcE : Type → Type :=
| LoadTLS_ (caFile key peerName : string) : rpcE (result ())
| Dial (address : string) : rpcE (result ())
| CloseConn : rpcE ()
| GetValues_ (in_ : GetValuesRequest) : rpcE (result GetValuesReply)
| MapVolume_ (controllerid : string) (in_ : MapVolumeRequest) : rpcE (result MapVolumeReply)
| UnmapVolume_ (controllerid : string) (in_ : UnmapVolumeRequest) : rpcE (result ())
| ProvisionMallocBDev_ (controllerid : string) (in_ : ProvisionMallocBDevRequest) : rpcE (result ())
| CheckMallocBDev_ (controllerid : string) (in_ : CheckMallocBDevRequest) : rpcE (result ()).

Inductive csiE : Type → Type :=
| OS {B} (e : osE B) : csiE B
| RPC {B} (e : rpcE B) : csiE B
| DialSPDK (path : string) : csiE (result ())
| CloseSPDK : csiE ()
| Spdk {B} (e : spdkE B) : csiE B.

Definition os {A} (e : osE (result A)) : go csiE A := call (OS e).
Definition rpc_ {A} (e : rpcE (result A)) : go csiE A := call (RPC e).

(** A program of one component as a program of the driver. *)
Fixpoint embed {E F : Type → Type} (f : ∀ B, E B → F B) {A} (p : prog E A) : prog F A :=
  match p with
  | Ret a => Ret a
  | Vis e k => Vis (f _ e) (λ b, embed f (k b))
  end.
Definition spdk {A} (p : go spdkE A) : go csiE A := embed (@Spdk) p.

(** [defer f()]: [f] runs when the rest returns, with a value, an error or a panic. *)
Definition defer {A} (f : csiE ()) (p : go csiE A) : go csiE A :=
  pbind (λ r, Vis f (λ _, Ret r)) p.

(** An environment in which every call fails: concrete environments answer some
    calls and refuse the others. *)
Definition refused (what : string) {A} : result A := Err (SysError EPERM what).

Definition refuse_os {B} (e : osE B) : B :=
  match e in osE B return B with
  | ReadDir _ => refused "readdir" | Readlink _ => refused "readlink" | TempDir _ _ => refused "tempdir"
  | Mknod _ _ _ => refused "mknod" | RemoveAll _ => refused "removeall" | Remove _ => refused "remove"
  | MkdirAll _ _ => refused "mkdir" | Stat _ => refused "stat" | Lstat _ => refused "lstat"
  | ReadFile _ => refused "read" | Command _ _ => ("", Some (SysError ENOENT "exec"))
  | Mkdir _ _ => refused "mkdir" | WriteFile _ _ _ => refused "write" | OpenFile _ _ _ => refused "open"
  | EvalSymlinks _ => refused "readlink" | LookPath _ => refused "lookpath"
  | ExecRun _ _ => ("", Some ErrExecutableNotFound) | Getpid => 1
  | SysOpen _ _ => refused "open" | SysOpenat _ _ _ => refused "openat" | SysClose _ => refused "close"
  | SysFstat _ => refused "fstat" | SysMkdirat _ _ _ => refused "mkdirat" | SysFchmod _ _ => refused "fchmod"
  | SysMount _ _ _ _ => refused "mount"
  | Open _ => refused "open" | Seek _ _ _ => refused "seek" | CloseFile _ => refused "close"
  | NewWatcher _ => refused "inotify" | Select => CtxDone
  end.

Definition refuse_rpc {B} (e : rpcE B) : B :=
  match e in rpcE B return B with
  | LoadTLS_ _ _ _ => refused "tls" | Dial _ => refused "dial" | CloseConn => ()
  | GetValues_ _ => refused "GetValues" | MapVolume_ _ _ => refused "MapVolume"
  | UnmapVolume_ _ _ => refused "UnmapVolume" | ProvisionMallocBDev_ _ _ => refused "ProvisionMallocBDev"
  | CheckMallocBDev_ _ _ => refused "CheckMallocBDev"
  end.

Definition refuse {B} (e : csiE B) : B :=
  match e in csiE B return B with
  | OS e => refuse_os e
  | RPC e => refuse_rpc e
  | DialSPDK _ => refused "dial"
  | CloseSPDK => ()
  | Spdk e => match e in spdkE B return B with Invoke _ _ => refused "spdk" end
  end.
