(* ===== verification/Paths.v ===== *)
(** * Paths: package path/filepath of the Go library, on Unix

    The lexical operations on slash-separated paths, and with them
    [PathWithinBase] of pkg/mount/mount.go, the test that keeps operations inside
    a directory. *)
From S2P Require Import Prelude GoStrings.

Definition sep : ascii := "/"%char.

(** One more element after a stack of cleaned elements, the last one first. *)
Definition push_elem (rooted : bool) (stack : list string) (e : string) : list string :=
  if decide (e = "" ∨ e = ".") then stack
  else if decide (e = "..") then
    match stack with
    | [] => if rooted then [] else [".."]
    | top :: below => if decide (top = "..") then ".." :: stack else below
    end
  else e :: stack.

Definition is_rooted (path : string) : bool := HasPrefix path "/".

Definition clean_elems (path : string) : list string :=
  reverse (foldl (push_elem (is_rooted path)) [] (Split path sep)).

Definition Clean (path : string) : string :=
  if is_rooted path then "/" +:+ Join (clean_elems path) "/"
  else match clean_elems path with [] => "." | es => Join es "/" end.

(** [filepath.Join] *)
Fixpoint JoinPath (elem : list string) : string :=
  match elem with
  | [] => ""
  | e :: elem' => if decide (e = "") then JoinPath elem' else Clean (Join (e :: elem') "/")
  end.

(** The text up to the last slash, and what follows it. *)
Fixpoint split_last_slash (path : string) : option (string * string) :=
  match path with
  | EmptyString => None
  | String c path' =>
      match split_last_slash path' with
      | Some (dir, file) => Some (String c dir, file)
      | None => if decide (c = sep) then Some (String c "", path') else None
      end
  end.

Definition Dir (path : string) : string :=
  Clean (match split_last_slash path with Some (dir, _) => dir | None => "" end).

(** Without trailing slashes. *)
Fixpoint strip_slashes (path : string) : string :=
  match path with
  | EmptyString => ""
  | String c path' =>
      match strip_slashes path' with
      | EmptyString => if decide (c = sep) then "" else String c ""
      | s => String c s
      end
  end.

Definition Base (path : string) : string :=
  if decide (path = "") then "."
  else let path := strip_slashes path in
       let path := match split_last_slash path with Some (_, file) => file | None => path end in
       if decide (path = "") then "/" else path.

(** [filepath.Rel]: the elements after the common prefix. *)
Fixpoint strip_common (base targ : list string) : list string * list string :=
  match base, targ with
  | b :: base', t :: targ' => if decide (b = t) then strip_common base' targ' else (base, targ)
  | _, _ => (base, targ)
  end.

Definition Rel (basepath targpath : string) : result string :=
  if decide (Clean targpath = Clean basepath) then Ok "."
  else if negb (Bool.eqb (is_rooted (Clean basepath)) (is_rooted (Clean targpath)))
  then Err (ErrorNew ("Rel: can't make " +:+ targpath +:+ " relative to " +:+ basepath))
  else
    let targ := if decide (Clean targpath = ".") then ["."] else clean_elems targpath in
    let '(base, targ) := strip_common (clean_elems basepath) targ in
    match base, targ with
    | "..":: _, _ :: _ =>
        Err (ErrorNew ("Rel: can't make " +:+ targpath +:+ " relative to " +:+ basepath))
    | _, _ => Ok (Join (replicate (length base) ".." ++ targ) "/")
    end.

(** ** pkg/mount/mount.go *)

Definition startsWithBackstep (rel : string) : bool := bool_decide (rel = "..") || HasPrefix rel "../".

Definition PathWithinBase (fullPath basePath : string) : bool :=
  match Rel basePath fullPath with
  | Ok rel => negb (startsWithBackstep rel)
  | _ => false
  end.

Example Clean_ex :
  Clean "/a//b/../c/./d/" = "/a/c/d" ∧ Clean "../../a/.." = "../.." ∧ Clean "" = "." ∧ Clean "/.." = "/".
Proof. by vm_compute. Qed.
Example Rel_ex :
  Rel "/a" "/a/b/c" = Ok "b/c" ∧ Rel "/a" "/b/c" = Ok "../b/c" ∧ Rel "/a/b" "/a" = Ok ".." ∧ Rel "/" "/x" = Ok "x".
Proof. by vm_compute. Qed.
Example Dir_ex : Dir "/a/b" = "/a" ∧ Dir "/a/b/" = "/a/b" ∧ Dir "/a" = "/" ∧ Dir "a" = "." ∧ Base "/a/b/" = "b".
Proof. by vm_compute. Qed.

(** ** Elements of clean paths *)

Definition no_sep (s : string) : bool := string_all (λ c, negb (bool_decide (c = sep))) s.

(** An element that names something: not empty, not a dot, no slash. *)
Definition elem_ok (e : string) : Prop := e ≠ "" ∧ e ≠ "." ∧ no_sep e = true.
Definition elem_name (e : string) : Prop := elem_ok e ∧ e ≠ "..".

Lemma Split_no_sep s : Forall (λ e, no_sep e = true) (Split s sep).
Proof.
  induction s as [|c s IH]; cbn [Split]; [by apply Forall_singleton|].
  case_decide as Hc; [by apply Forall_cons_2|]. destruct (Split s sep) as [|w ws] eqn:E; [by apply Split_nonempty in E|].
  apply Forall_cons in IH as [Hw Hws]. apply Forall_cons. split; [|done].
  unfold no_sep in *. cbn [string_all]. rewrite bool_decide_false by done. done.
Qed.

Lemma push_elem_rooted stack e :
  no_sep e = true → Forall elem_name stack → Forall elem_name (push_elem true stack e).
Proof.
  intros He Hs. unfold push_elem. case_decide as H1; [done|]. case_decide as H2.
  - destruct stack as [|top below]; [done|]. apply Forall_cons in Hs as [Htop Hbelow].
    case_decide as H3; [|done]. by destruct Htop.
  - apply Forall_cons. split; [|done]. split; [split_and!; naive_solver|done].
Qed.

(** A rooted path is cleaned of everything but names. *)
Lemma clean_elems_rooted path : is_rooted path = true → Forall elem_name (clean_elems path).
Proof.
  intros Hr. unfold clean_elems. rewrite Hr. apply Forall_reverse.
  assert (∀ l stack, Forall (λ e, no_sep e = true) l → Forall elem_name stack →
    Forall elem_name (foldl (push_elem true) stack l)) as H; [|apply H; [apply Split_no_sep|done]].
  induction l as [|e l IH]; intros stack Hl Hs; [done|]. apply Forall_cons in Hl as [He Hl].
  apply IH; [done|]. by apply push_elem_rooted.
Qed.

Lemma Clean_rooted path : is_rooted path = true → Clean path = "/" +:+ Join (clean_elems path) "/".
Proof. intros Hr. unfold Clean. by rewrite Hr. Qed.

(** Texts that have different first elements are different. *)
Lemma no_sep_prefix a b r s :
  no_sep a = true → no_sep b = true → (r = "" ∨ ∃ r', r = String sep r') → (s = "" ∨ ∃ s', s = String sep s') →
  a +:+ r = b +:+ s → a = b ∧ r = s.
Proof.
  revert b. induction a as [|c a IH]; intros [|d b] Ha Hb Hr Hs Heq; cbn [String.append] in Heq.
  - done.
  - unfold no_sep in Hb. cbn [string_all] in Hb. destruct Hr as [->|[r' ->]]; [done|]. injection Heq as <- _. done.
  - unfold no_sep in Ha. cbn [string_all] in Ha. destruct Hs as [->|[s' ->]]; [done|]. injection Heq as -> _. done.
  - injection Heq as -> Heq. unfold no_sep in Ha, Hb. cbn [string_all] in Ha, Hb.
    apply andb_true_iff in Ha as [_ Ha], Hb as [_ Hb]. destruct (IH b Ha Hb Hr Hs Heq) as [-> ->]. done.
Qed.

Lemma Join_cons_shape e es : ∃ r, Join (e :: es) "/" = e +:+ r ∧
  (es = [] ∧ r = "" ∨ ∃ e' es', es = e' :: es' ∧ r = String sep (Join es "/")).
Proof.
  destruct es as [|e' es]; [exists ""; cbn; by rewrite str_app_nil_r; eauto|].
  exists (String sep (Join (e' :: es) "/")). split; [done|]. right. eauto.
Qed.

Lemma Join_slash_inj es es' :
  Forall elem_ok es → Forall elem_ok es' → Join es "/" = Join es' "/" → es = es'.
Proof.
  revert es'. induction es as [|e es IH]; intros [|e' es'] H H' Heq; [done| | |].
  - apply Forall_cons in H' as [(Hne & _ & _) _]. destruct (Join_cons_shape e' es') as (r & Hr & _).
    rewrite Hr in Heq. symmetry in Heq. by apply str_app_eq_nil in Heq as [-> _].
  - apply Forall_cons in H as [(Hne & _ & _) _]. destruct (Join_cons_shape e es) as (r & Hr & _).
    rewrite Hr in Heq. by apply str_app_eq_nil in Heq as [-> _].
  - apply Forall_cons in H as [He Hes], H' as [He' Hes'].
    destruct (Join_cons_shape e es) as (r & Hr & Hsh), (Join_cons_shape e' es') as (r' & Hr' & Hsh').
    rewrite Hr, Hr' in Heq. apply no_sep_prefix in Heq as [-> Hrr];
      [|apply He|apply He'|destruct Hsh as [[_ ->]|(? & ? & _ & ->)]; eauto
       |destruct Hsh' as [[_ ->]|(? & ? & _ & ->)]; eauto].
    destruct Hsh as [[-> ->]|(? & ? & Heq1 & ->)], Hsh' as [[-> ->]|(? & ? & Heq2 & ->)]; try done.
    f_equal. apply IH; [done..|]. by injection Hrr.
Qed.

Lemma strip_common_spec base targ base' targ' :
  strip_common base targ = (base', targ') →
  ∃ pre, base = pre ++ base' ∧ targ = pre ++ targ' ∧
    (∀ b t, head base' = Some b → head targ' = Some t → b ≠ t).
Proof.
  revert targ. induction base as [|b base IH]; intros [|t targ]; cbn [strip_common].
  1-3: intros [= <- <-]; exists []; split_and!; [done..|]; naive_solver.
  case_decide as Hbt.
  - intros (pre & -> & -> & H)%IH. subst. by exists (t :: pre).
  - intros [= <- <-]. exists []. split_and!; [done..|]. naive_solver.
Qed.

(** Nothing that starts with a name starts with a backstep. *)
Lemma startsWithBackstep_name e es : elem_name e → startsWithBackstep (Join (e :: es) "/") = false.
Proof.
  intros [(Hne & Hd & Hs) Hdd]. destruct (Join_cons_shape e es) as (r & -> & Hr).
  assert (r = "" ∨ ∃ r', r = String sep r') as Hr' by (destruct Hr as [[_ ->]|(? & ? & _ & ->)]; eauto).
  unfold startsWithBackstep. apply orb_false_iff. split.
  - apply bool_decide_false. intros Heq. apply Hdd.
    apply (no_sep_prefix e ".." r "") in Heq as [-> _]; [done..|by left].
  - destruct (HasPrefix _ _) eqn:E; [|done]. apply HasPrefix_spec in E as [t Heq]. exfalso. apply Hdd.
    apply (no_sep_prefix e ".." r (String sep t)) in Heq as [-> _]; [done..|]. right. eauto.
Qed.

Lemma startsWithBackstep_up n es : startsWithBackstep (Join (replicate (S n) ".." ++ es) "/") = true.
Proof.
  unfold startsWithBackstep. cbn [replicate app]. destruct (replicate n ".." ++ es) as [|e l]; [done|].
  apply orb_true_iff. right. done.
Qed.

(** For rooted paths [PathWithinBase] compares the elements. *)
Lemma PathWithinBase_prefix fullPath basePath :
  is_rooted fullPath = true → is_rooted basePath = true →
  PathWithinBase fullPath basePath = true ↔ clean_elems basePath `prefix_of` clean_elems fullPath.
Proof.
  intros Hf Hb. pose proof (clean_elems_rooted _ Hf) as Hfe. pose proof (clean_elems_rooted _ Hb) as Hbe.
  assert (∀ es, Forall elem_name es → Forall elem_ok es) as Hok 
    by (intros es Hes; eapply Forall_impl; [exact Hes|by intros ? [? _]]).
  unfold PathWithinBase, Rel. rewrite !Clean_rooted by done. case_decide as Heq.
  { injection Heq as Heq. apply Join_slash_inj in Heq; [|by apply Hok..]. rewrite Heq. split; done. }
  change (negb _) with false at 1. cbv iota zeta.
  rewrite decide_False by (destruct (Join _ _); done).
  destruct (strip_common _ _) as [base' targ'] eqn:E. apply strip_common_spec in E as (pre & Hpb & Hpf & Hne).
  destruct base' as [|b base'].
  - rewrite app_nil_r in Hpb. subst pre. split; [intros _; by exists targ'|intros _].
    destruct targ' as [|t targ']; [rewrite Hpf, app_nil_r in Heq; done|].
    cbv beta iota. cbn [length replicate app].
    rewrite startsWithBackstep_name; [done|]. rewrite Hpf in Hfe. apply Forall_app in Hfe as [_ Hfe].
    by apply Forall_cons in Hfe as [? _].
  - assert (Forall elem_name (b :: base')) as Hb' by (rewrite Hpb in Hbe; by apply Forall_app in Hbe as [_ ?]).
    apply Forall_cons in Hb' as [[_ Hdd] _].
    assert (Rel_text : ∀ (e : result string), match b :: base', targ' with ".." :: _, _ :: _ => e
      | _, _ => Ok (Join (replicate (length (b :: base')) ".." ++ targ') "/") end =
      Ok (Join (replicate (length (b :: base')) ".." ++ targ') "/")) by (intros e; repeat case_match; done).
    rewrite Rel_text. cbn [length]. rewrite startsWithBackstep_up. split; [done|]. intros Hpre.
    rewrite Hpb, Hpf in Hpre. apply prefix_app_inv in Hpre.
    destruct targ' as [|t targ']; [by apply prefix_nil_not in Hpre|].
    apply prefix_cons_inv_1 in Hpre as ->. by destruct (Hne t t).
Qed.

(** C38. The test that confines paths: for rooted paths, [PathWithinBase] holds exactly
    if the cleaned path consists of the cleaned base followed by plain names; so no
    combination of "..", "." or repeated slashes leads outside, and a directory
    whose name merely starts like the base does not count as inside. *)
Theorem PathWithinBase_exact fullPath basePath :
  is_rooted fullPath = true → is_rooted basePath = true →
  PathWithinBase fullPath basePath = true ↔
  ∃ names, Forall elem_name names ∧ clean_elems fullPath = clean_elems basePath ++ names.
Proof.
  intros Hf Hb. rewrite PathWithinBase_prefix by done. split.
  - intros [names Hnames]. exists names. split; [|done]. pose proof (clean_elems_rooted _ Hf) as H.
    rewrite Hnames in H. by apply Forall_app in H as [_ ?].
  - intros (names & _ & ->). by exists names.
Qed.

Lemma PathWithinBase_exact_witness :
  PathWithinBase "/var/lib/vol/../vol2/x" "/var/lib/vol" = false ∧
  ∃ names, Forall elem_name names ∧ clean_elems "/var/lib//vol/a/./b" = clean_elems "/var/lib/vol/" ++ names.
Proof.
  split; [by vm_compute|].
  apply (PathWithinBase_exact "/var/lib//vol/a/./b" "/var/lib/vol/"); by vm_compute.
Defined.

(** ** Clean texts *)

Definition render (es : list string) : string := "/" +:+ Join es "/".

Lemma push_names es stack : Forall elem_name es → foldl (push_elem true) stack es = reverse es ++ stack.
Proof.
  intros H. revert stack. induction H as [|e es [(H1 & H2 & _) H3] _ IH]; intros stack; [done|]. cbn [foldl].
  unfold push_elem at 2. rewrite decide_False by tauto. rewrite decide_False by done.
  rewrite IH, reverse_cons, <-app_assoc. done.
Qed.

Lemma names_no_sep es : Forall elem_name es → Forall (λ w, string_all (λ a, negb (bool_decide (a = sep))) w = true) es.
Proof. intros H. eapply Forall_impl; [exact H|]. by intros e [(_ & _ & ?) _]. Qed.

(** A trailing slash makes no difference. *)
Lemma clean_elems_render es tail :
  Forall elem_name es → tail ∈ [""; "/"] → clean_elems (render es +:+ tail) = es.
Proof.
  intros Hes Htail. unfold clean_elems, render. change (is_rooted _) with true.
  change (("/" +:+ Join es "/") +:+ tail) with (String sep (Join es "/" +:+ tail)).
  change (Split (String sep (Join es "/" +:+ tail)) sep) with ("" :: Split (Join es "/" +:+ tail) sep). cbn [foldl].
  change (push_elem true [] "") with (@nil string).
  assert (∀ l, l ∈ [[]; [""]; [""; ""]] → foldl (push_elem true) (reverse es) l = reverse es) as Hempty.
  { intros l Hl. rewrite !elem_of_cons, elem_of_nil in Hl. naive_solver. }
  assert (∃ l, Split (Join es "/" +:+ tail) sep = es ++ l ∧ l ∈ [[]; [""]; [""; ""]]) as (l & -> & Hl).
  { rewrite !elem_of_cons, elem_of_nil in Htail. destruct Htail as [->|[->|[]]].
    - rewrite str_app_nil_r. destruct es as [|e es]; [exists [""]; split; [done|set_solver]|].
      exists []. rewrite app_nil_r. split; [apply Split_Join; [done|by apply names_no_sep]|set_solver].
    - change "/" with (String sep "") at 2. rewrite Split_app_sep.
      destruct es as [|e es]; [exists [""; ""]; split; [done|set_solver]|].
      exists [""]. split; [|set_solver]. rewrite (Split_Join (e :: es)); [done|done|by apply names_no_sep]. }
  rewrite foldl_app, (push_names es), app_nil_r, Hempty by done. apply reverse_involutive.
Qed.

Lemma Clean_render es tail : Forall elem_name es → tail ∈ [""; "/"] → Clean (render es +:+ tail) = render es.
Proof. intros Hes Ht. rewrite Clean_rooted by done. by rewrite clean_elems_render. Qed.

Lemma split_last_slash_app p e :
  no_sep e = true → split_last_slash (p +:+ String sep e) = Some (p +:+ "/", e).
Proof.
  intros He. induction p as [|c p IH]; cbn [String.append split_last_slash].
  - assert (split_last_slash e = None) as ->; [|by rewrite decide_True].
    unfold no_sep in He. induction e as [|c e IH]; [done|]. cbn [string_all] in He.
    apply andb_true_iff in He as [Hc He]. cbn [split_last_slash]. rewrite IH by done.
    rewrite decide_False; [done|]. intros ->. by rewrite bool_decide_true in Hc.
  - by rewrite IH.
Qed.

Lemma render_snoc es e : render (es ++ [e]) = match es with [] => "" | _ => render es end +:+ String sep e.
Proof.
  destruct es as [|e0 es]; [done|]. unfold render. cbn [String.append]. f_equal.
  revert e0. induction es as [|e1 es IH]; intros e0; [done|].
  change (e0 +:+ "/" +:+ Join ((e1 :: es) ++ [e]) "/" = (e0 +:+ "/" +:+ Join (e1 :: es) "/") +:+ String sep e).
  rewrite IH. by rewrite !str_app_assoc.
Qed.

(** The parent of a clean path. *)
Lemma Dir_render es e : Forall elem_name es → elem_name e → Dir (render (es ++ [e])) = render es.
Proof.
  intros Hes [(_ & _ & He) _]. unfold Dir. rewrite render_snoc, split_last_slash_app by done.
  destruct es as [|e0 es]; [done|]. apply Clean_render; [done|set_solver].
Qed.
