(* ===== verification/Remote.v ===== *)
(** * Remote SPDK backend: pkg/oim-csi-driver/remote.go

    The backend that reaches SPDK through the OIM registry and controller:
    provisioning, mapping a volume and finding its block device in sysfs. *)
From S2P Require Import Prelude GoStrings Strconv Errors Regex Messages RegistryPath PCI Effects SPDK CSIEnv Paths.

Definition kib : Z := 1024.
Definition mib : Z := kib * 1024.
Definition gib : Z := mib * 1024.
Definition tib : Z := gib * 1024.
Definition maxStorageCapacity : Z := tib.

(** ** makedev *)

(** [a &^ b] *)
Definition and_not (a b : Z) : Z := Z.land a (Z.lnot b).

Definition makedev (major minor : Z) : Z :=
  Z.lor (Z.lor (Z.lor (Z.land minor 0xff) (int64 (Z.shiftl (Z.land major 0xfff) 8)))
           (int64 (Z.shiftl (and_not minor 0xff) 12)))
    (int64 (Z.shiftl (and_not major 0xfff) 32)).

(** ** Names in sysfs *)

Definition digit : ascii → bool := is_digit 10.
Definition digits : re := RClass digit 1 None.
Definition hexes (n : nat) : re := RClass hex 1 (Some n).

(** ^(\d+):(\d+)$ *)
Definition majorMinor : re := RGroup 1 digits ;;; RChar ":" ;;; RGroup 2 digits ;;; REnd.

(** /pci[0-9a-fA-F]{1,4}:[0-9a-fA-F]{1,2}/([0-9a-fA-F]{1,4}):([0-9a-fA-F]{1,2}):([0-9a-fA-F]{1,2})\.([0-7])/ *)
Definition pciRe : re :=
  RText "/pci" (hexes 4 ;;; RChar ":" ;;; hexes 2 ;;; RChar "/" ;;;
  RGroup 1 (hexes 4) ;;; RChar ":" ;;; RGroup 2 (hexes 2) ;;; RChar ":" ;;;
  RGroup 3 (hexes 2) ;;; RChar "." ;;; RGroup 4 (RClass octal 1 (Some 1%nat)) ;;; RChar "/").

(** /target\d+:\d+:\d+/\d+:\d+:(\d+):(\d+)/block/ *)
Definition scsiRe : re :=
  RText "/target" (digits ;;; RChar ":" ;;; digits ;;; RChar ":" ;;; digits ;;; RChar "/" ;;;
  digits ;;; RChar ":" ;;; digits ;;; RChar ":" ;;; RGroup 1 digits ;;; RChar ":" ;;;
  RGroup 2 digits ;;; RText "/block" (RChar "/")).

Definition extractPCIAddress (str : string) : result (option PCIAddress * string) :=
  match FindSubmatch pciRe str with
  | None => Ok (None, str)
  | Some (parts0, parts) =>
      let remainder := RemoveFirst str parts0 in
      Domain ← HexToU32 (group 1 parts);
      Bus ← HexToU32 (group 2 parts);
      Device ← HexToU32 (group 3 parts);
      Function ← HexToU32 (group 4 parts);
      mret (Some (MkPCIAddress Domain Bus Device Function), remainder)
  end.

Definition extractSCSI (str : string) : result (option SCSIDisk) :=
  match FindSubmatch scsiRe str with
  | None => Ok None
  | Some (_, parts) =>
      Target ← HexToU32 (group 1 parts);
      Lun ← HexToU32 (group 2 parts);
      mret (Some (MkSCSIDisk Target Lun))
  end.

Definition block : string := "/block/".

(** [v, _ := strconv.Atoi(s)] for digits: the value is the largest int if they are
    too many. *)
Definition Atoi_ (s : string) : Z := default (2 ^ 63 - 1) (Atoi s).

(** One iteration of the loop of [findDev]: [Some] is a return. *)
Definition check_entry (sys entry target : string) (pciAddress : PCIAddress) (scsiDisk : option SCSIDisk) :
    result (option (string * Z * Z)) :=
  '(currentAddr, remainder) ← extractPCIAddress target;
  if decide (currentAddr ≠ Some pciAddress) then mret None
  else
    skip ← match scsiDisk with
           | None => mret false
           | Some d =>
               currentSCSI ← extractSCSI remainder;
               match currentSCSI with
               | None => Panic "nil pointer dereference: currentSCSI"
               | Some cur => mret (bool_decide (cur ≠ d))
               end
           end;
    if skip : bool then mret None
    else
      match AfterLast target block with
      | None => mret None
      | Some dev =>
          match FindAnchored majorMinor entry with
          | None => Err (Errorf "Unexpected entry in %s, not a major:minor symlink: %s" [sys; entry])
          | Some (_, parts) =>
              mret (Some (dev, Atoi_ (group 1 parts), Atoi_ (group 2 parts)))
          end
      end.

Fixpoint findDev_loop (sys : string) (files : list string) (pciAddress : PCIAddress)
    (scsiDisk : option SCSIDisk) : go csiE (string * Z * Z) :=
  match files with
  | [] => mret ("", 0, 0)
  | entry :: files' =>
      target ← os (Readlink (JoinPath [sys; entry]));
      r ← from_result (check_entry sys entry target pciAddress scsiDisk);
      match r with
      | Some x => mret x
      | None => findDev_loop sys files' pciAddress scsiDisk
      end
  end.

Definition findDev (sys : string) (pciAddress : PCIAddress) (scsiDisk : option SCSIDisk) :
    go csiE (string * Z * Z) :=
  files ← os (ReadDir sys);
  findDev_loop sys (EntryName <$> files) pciAddress scsiDisk.

(** [status.Error(c, err.Error())] for the error of a call. *)
Definition with_status {E A} (c : code) (p : go E A) : go E A :=
  pbind (λ r, Ret (match r with Err e => Err (StatusOf c e) | _ => r end)) p.

(** The loop of [waitForDevice]; [None] when [fuel] rounds were not enough.  The
    operand of [%+v] is printed by the protobuf library and left out here. *)
Fixpoint wait_loop (fuel : nat) (sys : string) (pciAddress : PCIAddress) (scsiDisk : option SCSIDisk) :
    prog csiE (option (result (string * Z * Z))) :=
  match fuel with
  | O => Ret None
  | S fuel' =>
      pbind (λ r, match r with
        | Ok ("", _, _) =>
            Vis (OS Select) (λ c, match c with
              | CtxDone =>
                  Ret (Some (Err (StatusError DeadlineExceeded "timed out waiting for device %s, SCSI disk '%+v'"
                                    [PrettyPCIAddress (Some pciAddress)])))
              | WatcherEvent | AfterTimeout => wait_loop fuel' sys pciAddress scsiDisk
              | WatcherError e => Ret (Some (Err (StatusError Internal "watching %s: %s" [sys; Error e])))
              end)
        | _ => Ret (Some r)
        end) (with_status Internal (findDev sys pciAddress scsiDisk))
  end.

Definition waitForDevice (fuel : nat) (sys : string) (pciAddress : PCIAddress) (scsiDisk : option SCSIDisk) :
    prog csiE (option (result (string * Z * Z))) :=
  pbind (λ r, match r with
    | Ok _ => wait_loop fuel sys pciAddress scsiDisk
    | Err e => Ret (Some (Err e))
    | Panic w => Ret (Some (Panic w))
    end) (with_status Internal (os (NewWatcher sys))).

(** ** The backend *)

Section Backend.
(** [Req] is the request type of the emulated CSI version. *)
Context {Req : Type}.

Record remoteSPDK := MkRemoteSPDK {
  oimRegistryAddress : string;
  registryCA : string;
  registryKey : string;
  oimControllerID : string;
  mapVolumeParams : option (Req → MapVolumeRequest → result MapVolumeRequest)
}.

Definition dialRegistry (r : remoteSPDK) : go csiE () :=
  _ ← wrap_err "load TLS certs" (rpc_ (LoadTLS_ (registryCA r) (registryKey r) "component.registry"));
  wrap_err (Sprintf "connect to OIM registry at %s" [oimRegistryAddress r]) (rpc_ (Dial (oimRegistryAddress r))).

Definition provision (r : remoteSPDK) (bdevName : string) (size : Z) : go csiE () :=
  _ ← with_status FailedPrecondition (dialRegistry r);
  defer (RPC CloseConn)
    (rpc_ (ProvisionMallocBDev_ (oimControllerID r) (MkProvisionMallocBDevRequest bdevName size))).

(** The capacity to allocate: at least 1 MiB if nothing was asked for, otherwise
    rounded up to a multiple of 512, in int64 arithmetic. *)
Definition round_capacity (capacity : Z) : Z :=
  if decide (capacity = 0) then mib
  else int64 (Z.quot (int64 (capacity + 511)) 512 * 512).

Definition createVolume (r : remoteSPDK) (volumeID : string) (requiredBytes : Z) : go csiE Z :=
  if maxStorageCapacity <=? requiredBytes
  then fail (StatusError OutOfRange "Requested capacity %d exceeds maximum allowed %d"
               [Itoa requiredBytes; Itoa maxStorageCapacity])
  else
    let capacity := round_capacity requiredBytes in
    _ ← provision r volumeID capacity;
    mret capacity.

Definition deleteVolume (r : remoteSPDK) (volumeID : string) : go csiE () := provision r volumeID 0.

Definition checkVolumeExists (r : remoteSPDK) (volumeID : string) : go csiE () :=
  _ ← with_status FailedPrecondition (dialRegistry r);
  defer (RPC CloseConn)
    (rpc_ (CheckMallocBDev_ (oimControllerID r) (MkCheckMallocBDevRequest volumeID))).

(** The default PCI address from the registry.  The values in the last message are
    printed by the protobuf library and left out here. *)
Definition registryPCI (path : string) (values : list Value) : result PCIAddress :=
  match values with
  | [] => Ok (MkPCIAddress 0 0 0 0)
  | [v] =>
      match ParseBDFString (Value_ v) with
      | Err e => Err (Wrap e (Sprintf "get PCI address from registry at path %s" [path]))
      | r => r
      end
  | _ => Err (Errorf "expected at most one PCI address in registry at path %s: %s" [path])
  end.

(** The PCI address to look for, from the controller's reply and the default. *)
Definition completeAddress (path : string) (reply : MapVolumeReply) (defPCIAddress : PCIAddress) :
    result PCIAddress :=
  let pciAddress := default (MkPCIAddress 0 0 0 0) (PciAddress reply) in
  let complete := CompletePCIAddress pciAddress defPCIAddress in
  let complete := if Domain complete =? unknown
                  then MkPCIAddress 0 (Bus complete) (Device complete) (Function_ complete)
                  else complete in
  if (Bus complete =? unknown) || (Device complete =? unknown) || (Function_ complete =? unknown)
  then Err (Errorf "need complete PCI address with bus:device.function: %s from controller, %s from registry at path %s => combined %s"
              [PrettyPCIAddress (Some pciAddress); PrettyPCIAddress (Some defPCIAddress);
               PrettyPCIAddress (Some complete); path])
  else Ok complete.

Definition fuelled {E A} (p : prog E (option (result A))) : go E A :=
  pbind (λ r, Ret (default (Panic "out of fuel") r)) p.

(** Up to the moment where the block device is known. *)
Definition locateDevice (fuel : nat) (r : remoteSPDK) (volumeID : string) (csiRequest : Req) :
    go csiE (string * Z * Z) :=
  let path := oimControllerID r +:+ "/" +:+ RegistryPCI in
  valuesReply ← wrap_err "get PCI address from registry" (rpc_ (GetValues_ (MkGetValuesRequest path)));
  defPCIAddress ← from_result (registryPCI path (Values valuesReply));
  let request := MkMapVolumeRequest volumeID (Some MapVolumeRequest_Malloc) in
  request ← match mapVolumeParams r with
            | None => mret request
            | Some f => wrap_err "create MapVolumeRequest parameters" (from_result (f csiRequest request))
            end;
  reply ← wrap_err (Sprintf "MapVolume for %s" [volumeID]) (rpc_ (MapVolume_ (oimControllerID r) request));
  complete ← from_result (completeAddress path reply defPCIAddress);
  wrap_err "wait for device" (fuelled (waitForDevice fuel "/sys/dev/block" complete (ScsiDisk reply))).

(** S_IFBLK | 0666 *)
Definition blk_mode : Z := Z.lor 0x6000 0x1b6.

(** The device node, or an error; and the directory that [cleanup] removes. *)
Definition makeNode (dev : string) (major minor : Z) : go csiE (option string * result string) :=
  r ← attempt (os (TempDir "/dev" dev));
  match r with
  | Err e => mret (None, Err (Wrap e "temp dir"))
  | Panic w => mret (None, Panic w)
  | Ok tmpDir =>
      let devNode := JoinPath [tmpDir; dev] in
      r ← attempt (os (Mknod devNode blk_mode (makedev major minor)));
      match r with
      | Err e => if IsExist e then mret (Some tmpDir, Ok devNode)
                 else mret (Some tmpDir, Err (Wrap e "mknod"))
      | _ => mret (Some tmpDir, Ok devNode)
      end
  end.

(** An error of the first part is returned without a cleanup function. *)
Definition no_cleanup {A B} (p : go csiE A) (f : A → go csiE (option string * result B)) :
    go csiE (option string * result B) :=
  r ← attempt p;
  match r with
  | Ok a => f a
  | Err e => mret (None, Err e)
  | Panic w => from_result (Panic w)
  end.

Definition createDevice (fuel : nat) (r : remoteSPDK) (volumeID : string) (csiRequest : Req) :
    go csiE (option string * result string) :=
  no_cleanup (wrap_err "connect to OIM registry" (dialRegistry r)) (λ _,
    defer (RPC CloseConn)
      (no_cleanup (locateDevice fuel r volumeID csiRequest) (λ '(dev, major, minor),
         makeNode dev major minor))).

(** The connection is not closed here. *)
Definition deleteDevice (r : remoteSPDK) (volumeID : string) : go csiE () :=
  _ ← wrap_err "connect to registry" (dialRegistry r);
  wrap_err (Sprintf "UnmapVolume for %s" [volumeID])
    (rpc_ (UnmapVolume_ (oimControllerID r) (MkUnmapVolumeRequest volumeID))).
End Backend.
Arguments remoteSPDK : clear implicits.

Definition example_remote : remoteSPDK () :=
  MkRemoteSPDK "dns:///registry:8999" "ca.crt" "host.host-0.key" "host-0" None.

(** ** makedev *)

(** How glibc (gnu_dev_major, gnu_dev_minor) takes a device number apart. *)
Definition dev_major (dev : Z) : Z :=
  Z.lor (Z.shiftr (Z.land dev 0xfff00) 8) (Z.shiftr (Z.land dev 0xfffff00000000000) 32).
Definition dev_minor (dev : Z) : Z :=
  Z.lor (Z.land dev 0xff) (Z.shiftr (Z.land dev 0xffffff00000) 12).

Lemma testbit_high z n i : 0 ≤ z < 2 ^ n → n ≤ i → Z.testbit z i = false.
Proof.
  intros Hz Hi. destruct (decide (z = 0)) as [->|]; [apply Z.testbit_0_l|].
  apply Z.bits_above_log2; [lia|].
  assert (Z.log2 z < n) by (apply Z.log2_lt_pow2; lia). lia.
Qed.

Lemma land_ones_bound z n : 0 ≤ n → 0 ≤ Z.land z (Z.ones n) < 2 ^ n.
Proof. intros. rewrite Z.land_ones by lia. apply Z.mod_pos_bound. lia. Qed.

Lemma ldiff_ones_bound z n : 0 ≤ n → 0 ≤ z → 0 ≤ Z.ldiff z (Z.ones n) ≤ z.
Proof.
  intros Hn Hz. rewrite Z.ldiff_ones_r, Z.shiftl_mul_pow2, Z.shiftr_div_pow2 by done.
  pose proof (Z.div_mod z (2 ^ n)). pose proof (Z.mod_pos_bound z (2 ^ n)).
  assert (0 ≤ z / 2 ^ n) by (apply Z.div_pos; lia). nia.
Qed.

Lemma int64_shiftl z n k : 0 ≤ k → 0 ≤ z < 2 ^ n → 0 ≤ n → n + k ≤ 63 → int64 (Z.shiftl z k) = Z.shiftl z k.
Proof.
  intros Hk Hz Hn Hnk. apply wrap_signed_small; [|lia]. rewrite Z.shiftl_mul_pow2 by done.
  assert (2 ^ n * 2 ^ k ≤ 2 ^ 63) by (rewrite <-Z.pow_add_r by lia; apply Z.pow_le_mono_r; lia).
  assert (z * 2 ^ k < 2 ^ n * 2 ^ k) by (apply Z.mul_lt_mono_pos_r; lia). change (2 ^ (64 - 1)) with (2 ^ 63). nia.
Qed.

Lemma makedev_bits major minor :
  0 ≤ major < 2 ^ 31 → 0 ≤ minor < 2 ^ 32 →
  makedev major minor =
    Z.lor (Z.lor (Z.lor (Z.land minor (Z.ones 8)) (Z.shiftl (Z.land major (Z.ones 12)) 8))
             (Z.shiftl (Z.ldiff minor (Z.ones 8)) 12))
      (Z.shiftl (Z.ldiff major (Z.ones 12)) 32).
Proof.
  intros Hma Hmi. unfold makedev, and_not. rewrite <-!Z.ldiff_land.
  change 0xff with (Z.ones 8). change 0xfff with (Z.ones 12).
  pose proof (ldiff_ones_bound major 12). pose proof (ldiff_ones_bound minor 8).
  pose proof (land_ones_bound major 12).
  rewrite (int64_shiftl (Z.land major _) 12), (int64_shiftl (Z.ldiff minor _) 32),
    (int64_shiftl (Z.ldiff major _) 31) by lia. done.
Qed.

(** A bit of a combination of shifts and masks, by the position of the bit. *)
Ltac bits :=
  rewrite ?Z.lor_spec, ?Z.land_spec, ?Z.ldiff_spec;
  repeat first
    [ rewrite Z.shiftl_spec by lia | rewrite Z.shiftr_spec by lia
    | rewrite Z.lor_spec | rewrite Z.land_spec | rewrite Z.ldiff_spec
    | rewrite Z.testbit_ones by lia ].

Ltac bool_simpl :=
  rewrite ?andb_false_r, ?andb_true_r, ?andb_false_l, ?andb_true_l, ?orb_false_r, ?orb_false_l; simpl;
  rewrite ?andb_false_r, ?andb_true_r, ?orb_false_r, ?orb_false_l.

(** Bits at negative positions are zero. *)
Ltac low_bits :=
  repeat match goal with
  | |- context [Z.testbit ?z ?n] => rewrite (Z.testbit_neg_r z n) by lia
  end.

Ltac split_cmp :=
  match goal with
  | |- context [?a <=? ?b] => destruct (Z.leb_spec a b); [|try lia]; try lia
  | |- context [?a <? ?b] => destruct (Z.ltb_spec a b); try lia
  end.

(** The device number for mknod: [makedev] packs major and minor number so
    that the accessors of glibc recover both, for every major number below 2^31
    and minor number below 2^32; in particular no part overwrites another and the
    computation does not overflow int64. *)
Theorem makedev_roundtrip major minor :
  0 ≤ major < 2 ^ 31 → 0 ≤ minor < 2 ^ 32 →
  dev_major (makedev major minor) = major ∧ dev_minor (makedev major minor) = minor.
Proof.
  intros Hma Hmi. rewrite makedev_bits by done. unfold dev_major, dev_minor.
  change 0xff with (Z.ones 8). change 0xfff00 with (Z.shiftl (Z.ones 12) 8).
  change 0xfffff00000000000 with (Z.shiftl (Z.ones 20) 44).
  change 0xffffff00000 with (Z.shiftl (Z.ones 24) 20).
  split; apply Z.bits_inj'; intros i Hi; bits; rewrite !Z.add_simpl_r.
  - destruct (decide (i < 12)); [|destruct (decide (i < 32))]; repeat split_cmp; bool_simpl;
      low_bits; bool_simpl; try done.
    all: try (rewrite (testbit_high minor 32) by lia); try (rewrite (testbit_high major 31) by lia); done.
  - destruct (decide (i < 8)); [|destruct (decide (i < 32))]; repeat split_cmp; bool_simpl;
      low_bits; bool_simpl; try done.
    all: try (rewrite (testbit_high minor 32) by lia); try (rewrite (testbit_high major 31) by lia); done.
Qed.

Lemma makedev_roundtrip_witness :
  dev_major (makedev 259 1048577) = 259 ∧ dev_minor (makedev 259 1048577) = 1048577.
Proof. apply (makedev_roundtrip 259 1048577); lia. Defined.

(** ** Capacities *)

Lemma round_capacity_spec z :
  0 < z < maxStorageCapacity →
  z ≤ round_capacity z < z + 512 ∧ Z.rem (round_capacity z) 512 = 0 ∧ round_capacity z ≤ maxStorageCapacity.
Proof.
  unfold maxStorageCapacity, tib, gib, mib, kib. intros Hz. unfold round_capacity. rewrite decide_False by lia.
  rewrite (wrap_signed_small 64 (z + 511)) by lia.
  rewrite Z.quot_div_nonneg by lia.
  pose proof (Z.div_mod (z + 511) 512). pose proof (Z.mod_pos_bound (z + 511) 512).
  rewrite wrap_signed_small by lia. rewrite Z.rem_mul by lia. lia.
Qed.

(** What [createVolume] asks for: a request for a non-negative number of bytes
    below 1 TiB is provisioned with a size that is a positive multiple of 512,
    large enough and less than 512 bytes too large (1 MiB if nothing was asked
    for), and that size is what the caller is told; larger requests fail with
    OutOfRange before anything is contacted. *)
Theorem createVolume_capacity {Req} (r : remoteSPDK Req) volumeID requiredBytes :
  0 ≤ requiredBytes →
  if decide (requiredBytes < maxStorageCapacity) then
    ∃ capacity, createVolume r volumeID requiredBytes = (provision r volumeID capacity ≫= λ _, mret capacity) ∧
      Z.rem capacity 512 = 0 ∧ 0 < capacity ≤ maxStorageCapacity ∧ requiredBytes ≤ capacity ∧
      (requiredBytes = 0 → capacity = mib) ∧ (requiredBytes ≠ 0 → capacity < requiredBytes + 512)
  else ∃ e, createVolume r volumeID requiredBytes = fail e ∧ status_code e = OutOfRange.
Proof.
  intros Hr. unfold createVolume. case_decide as Hmax.
  - exists (round_capacity requiredBytes). destruct (Z.leb_spec maxStorageCapacity requiredBytes); [lia|].
    split; [done|]. destruct (decide (requiredBytes = 0)) as [->|Hne].
    + unfold round_capacity. rewrite decide_True by done. by vm_compute.
    + destruct (round_capacity_spec requiredBytes) as (H1 & H2 & H3); [lia|]. split_and!; lia.
  - destruct (Z.leb_spec maxStorageCapacity requiredBytes); [|lia]. by eexists.
Qed.

Lemma createVolume_capacity_witness :
  ∃ capacity, createVolume example_remote "vol" 1000 =
      (provision example_remote "vol" capacity ≫= λ _, mret capacity) ∧
    Z.rem capacity 512 = 0 ∧ 0 < capacity ≤ maxStorageCapacity ∧ 1000 ≤ capacity ∧
    (1000 = 0 → capacity = mib) ∧ (1000 ≠ 0 → capacity < 1000 + 512).
Proof.
  exact (createVolume_capacity example_remote "vol" 1000 ltac:(lia)).
Defined.

(** Negative sizes are not rejected: a request for between -511 and -1 bytes is
    rounded to zero, which the controller takes as the order to delete, so the
    call removes a volume of that name and reports success with capacity zero. *)
Theorem createVolume_negative_deletes {Req} (r : remoteSPDK Req) volumeID requiredBytes :
  -512 < requiredBytes < 0 →
  createVolume r volumeID requiredBytes = (deleteVolume r volumeID ≫= λ _, mret 0).
Proof.
  intros Hr. unfold createVolume, deleteVolume.
  destruct (Z.leb_spec maxStorageCapacity requiredBytes) as [Hm|_].
  { unfold maxStorageCapacity, tib, gib, mib, kib in Hm. lia. }
  assert (round_capacity requiredBytes = 0) as ->; [|done]. unfold round_capacity.
  rewrite decide_False by lia. rewrite (wrap_signed_small 64 (requiredBytes + 511)) by lia.
  rewrite Z.quot_small by lia. done.
Qed.

Lemma createVolume_negative_deletes_witness :
  createVolume example_remote "vol" (-5) =
    (deleteVolume example_remote "vol" ≫= λ _, mret 0).
Proof. apply (createVolume_negative_deletes example_remote "vol" (-5)). lia. Defined.
