(* ===== verification/Sysfs.v ===== *)
(** * Finding a block device in sysfs

    What [findDev] and [waitForDevice] of pkg/oim-csi-driver/remote.go return for
    the symbolic links that the kernel shows under /sys/dev/block, in the format
    that the code documents:
    ../../devices/pci0000:00/0000:00:15.0/virtio3/host0/target0:0:7/0:0:7:0/block/sda *)
From S2P Require Import Prelude GoStrings Strconv Errors Regex Messages PCI Effects SPDK CSIEnv Paths Remote.

(** ** The links *)

Record sysfs_link := MkLink {
  lk_root_domain : Z; lk_root_bus : Z;
  lk_addr : PCIAddress;
  lk_mid : string;
  lk_host : Z; lk_channel : Z; lk_disk : SCSIDisk;
  lk_dev : string
}.

Definition link_pci (l : sysfs_link) : string :=
  "/pci" +:+ fmt_hex 4 (lk_root_domain l) +:+ ":" +:+ fmt_hex 2 (lk_root_bus l) +:+ "/" +:+
  fmt_hex 4 (Domain (lk_addr l)) +:+ ":" +:+ fmt_hex 2 (Bus (lk_addr l)) +:+ ":" +:+
  fmt_hex 2 (Device (lk_addr l)) +:+ "." +:+ fmt_hex 1 (Function_ (lk_addr l)) +:+ "/".

Definition dec (n : Z) : string := FormatUint 10 n.

Definition link_scsi (l : sysfs_link) : string :=
  "/target" +:+ dec (lk_host l) +:+ ":" +:+ dec (lk_channel l) +:+ ":" +:+ dec (Target (lk_disk l)) +:+ "/" +:+
  dec (lk_host l) +:+ ":" +:+ dec (lk_channel l) +:+ ":" +:+ dec (Target (lk_disk l)) +:+ ":" +:+
  dec (Lun (lk_disk l)) +:+ "/block/".

Definition link_text (l : sysfs_link) : string :=
  "../../devices" +:+ link_pci l +:+ lk_mid l +:+ link_scsi l +:+ lk_dev l.

Definition no_slash (s : string) : bool := string_all (λ c, negb (bool_decide (c = "/"%char))) s.

(** The PCI address is known; the target and LUN have one digit; the path between
    them does not look like a target; the device has a plain name. *)
Definition link_wf (l : sysfs_link) : Prop :=
  0 ≤ lk_root_domain l < 2 ^ 16 ∧ 0 ≤ lk_root_bus l < 2 ^ 8 ∧
  (0 ≤ Domain (lk_addr l) < 2 ^ 16 ∧ 0 ≤ Bus (lk_addr l) < 2 ^ 8 ∧
   0 ≤ Device (lk_addr l) < 2 ^ 8 ∧ 0 ≤ Function_ (lk_addr l) < 8) ∧
  Contains (lk_mid l) "/target" = false ∧
  0 ≤ lk_host l ∧ 0 ≤ lk_channel l ∧
  0 ≤ Target (lk_disk l) < 10 ∧ 0 ≤ Lun (lk_disk l) < 10 ∧
  lk_dev l ≠ "" ∧ no_slash (lk_dev l) = true.

(** An entry of the directory: major and minor number, and where it points. *)
Record sysfs_entry := MkEntry { se_major : Z; se_minor : Z; se_link : sysfs_link }.

Definition entry_name (e : sysfs_entry) : string := dec (se_major e) +:+ ":" +:+ dec (se_minor e).
Definition entry_wf (e : sysfs_entry) : Prop :=
  0 ≤ se_major e < 2 ^ 63 ∧ 0 ≤ se_minor e < 2 ^ 63 ∧ link_wf (se_link e).

(** The device that is looked for. *)
Definition entry_matches (pciAddress : PCIAddress) (scsiDisk : option SCSIDisk) (e : sysfs_entry) : Prop :=
  lk_addr (se_link e) = pciAddress ∧
  match scsiDisk with None => True | Some d => lk_disk (se_link e) = d end.

#[global] Instance entry_matches_dec a d e : Decision (entry_matches a d e).
Proof. unfold entry_matches. destruct d; apply _. Defined.

Fixpoint first_match (a : PCIAddress) (d : option SCSIDisk) (es : list sysfs_entry) : string * Z * Z :=
  match es with
  | [] => ("", 0, 0)
  | e :: es' =>
      if decide (entry_matches a d e) then (lk_dev (se_link e), se_major e, se_minor e)
      else first_match a d es'
  end.

(** ** Matching the PCI part *)

Lemma dec_digits n : 0 ≤ n → string_all digit (dec n) = true.
Proof. intros. apply FormatUint_all; lia. Qed.
Lemma dec_len n : (1 ≤ String.length (dec n))%nat.
Proof.
  destruct (dec n) eqn:E; simpl; [|lia]. by apply FormatUint_nonempty in E.
Qed.
Lemma hex_len k n : (1 ≤ String.length (fmt_hex k n))%nat.
Proof. destruct (fmt_hex k n) eqn:E; simpl; [|lia]. by apply fmt_hex_nonempty in E. Qed.

Lemma fmt_hex_octal n : 0 ≤ n < 8 → string_all octal (fmt_hex 1 n) = true ∧ String.length (fmt_hex 1 n) = 1%nat.
Proof. intros Hn. assert (n ∈ seqZ 0 8) as Hin by (apply elem_of_seqZ; lia).
  repeat (apply elem_of_cons in Hin as [->|Hin]; [by vm_compute|]). by apply elem_of_nil in Hin.
Qed.

Definition pci_caps (l : sysfs_link) : caps :=
  [(1%nat, fmt_hex 4 (Domain (lk_addr l))); (2%nat, fmt_hex 2 (Bus (lk_addr l)));
   (3%nat, fmt_hex 2 (Device (lk_addr l))); (4%nat, fmt_hex 1 (Function_ (lk_addr l)))].

Lemma matches_pci_complete l rest :
  link_wf l → (link_pci l, pci_caps l, rest) ∈ matches pciRe (link_pci l +:+ rest).
Proof.
  intros (Hrd & Hrb & (Hd & Hb & Hv & Hf) & _). destruct (fmt_hex_octal _ Hf) as [Ho Hol].
  unfold pciRe, link_pci, hexes, pci_caps. rewrite <-!str_app_assoc.
  apply match_text. do 2 (apply match_class; [apply fmt_hex_all; lia|apply hex_len|apply fmt_hex_length; simpl; lia|];
    apply match_char).
  do 3 (apply match_group; [apply fmt_hex_all; lia|apply hex_len|apply fmt_hex_length; simpl; lia|]; apply match_char).
  apply match_group; [done|by rewrite Hol|rewrite Hol; simpl; lia|]. by apply elem_of_matches_char.
Qed.

(** Every match of the expression at the start of a link is this one. *)
Lemma matches_pci_unique l rest w c t :
  link_wf l → (w, c, t) ∈ matches pciRe (link_pci l +:+ rest) → w = link_pci l ∧ c = pci_caps l.
Proof.
  intros (Hrd & Hrb & (Hd & Hb & Hv & Hf) & _) H. destruct (fmt_hex_octal _ Hf) as [Ho _].
  unfold pciRe, link_pci, hexes in *. apply matches_RText in H as (w1 & t1 & Heq & -> & H).
  rewrite <-!str_app_assoc in Heq. apply str_app_inj_l in Heq. re_inv H.
  apply elem_of_matches_char in H as (-> & -> & ->).
  apply (span_unique_char hex) in Heq as (<- & _ & Heq); [|apply fmt_hex_all; lia|done..].
  apply (span_unique_char hex) in Heq as (<- & _ & Heq); [|apply fmt_hex_all; lia|done..].
  apply (span_unique_char hex) in Heq as (<- & _ & Heq); [|apply fmt_hex_all; lia|done..].
  apply (span_unique_char hex) in Heq as (<- & _ & Heq); [|apply fmt_hex_all; lia|done..].
  apply (span_unique_char hex) in Heq as (<- & _ & Heq); [|apply fmt_hex_all; lia|done..].
  apply (span_unique_char octal) in Heq as (<- & _ & Heq); [|done..]. done.
Qed.

Lemma FindSubmatch_pci l rest :
  link_wf l → FindSubmatch pciRe (link_pci l +:+ rest) = Some (link_pci l, pci_caps l).
Proof.
  intros Hl. apply FindSubmatch_here, FindAnchored_unique.
  - exists rest. by apply matches_pci_complete.
  - intros [w c] t H. apply matches_pci_unique in H as [-> ->]; done.
Qed.

Lemma skip_pci c s : (∀ t, String c s ≠ "/pci" +:+ t) → FindSubmatch pciRe (String c s) = FindSubmatch pciRe s.
Proof.
  intros H. apply FindSubmatch_skip. intros [[w g] t] Hin.
  unfold pciRe in Hin. apply matches_RText in Hin as (w' & t' & Heq & _). by apply H in Heq.
Qed.

Lemma SplitFirst_here sub r : SplitFirst (sub +:+ r) sub = Some ("", r).
Proof.
  assert (CutPrefix sub (sub +:+ r) = Some r) as H by (by apply CutPrefix_Some).
  destruct (sub +:+ r) eqn:E; cbn [SplitFirst]; by rewrite H.
Qed.

Lemma SplitFirst_skip c s sub l r :
  (∀ t, String c s ≠ sub +:+ t) → SplitFirst s sub = Some (l, r) →
  SplitFirst (String c s) sub = Some (String c l, r).
Proof.
  intros Hne H. cbn [SplitFirst]. destruct (CutPrefix sub (String c s)) as [t|] eqn:E.
  - apply CutPrefix_Some in E. by apply Hne in E.
  - by rewrite H.
Qed.

Lemma HexToU32_fmt k n : 0 ≤ n < 2 ^ 16 → HexToU32 (fmt_hex k n) = Ok n.
Proof.
  intros Hn. unfold HexToU32. rewrite decide_False by apply fmt_hex_nonempty.
  rewrite ParseUint16hex_fmt by done. rewrite wrap_unsigned_small; [done|lia].
Qed.

Lemma extractPCIAddress_link l rest :
  link_wf l →
  extractPCIAddress ("../../devices" +:+ link_pci l +:+ rest) =
    Ok (Some (lk_addr l), "../../devices" +:+ rest).
Proof.
  intros Hl. unfold extractPCIAddress.
  assert (FindSubmatch pciRe ("../../devices" +:+ link_pci l +:+ rest) = Some (link_pci l, pci_caps l)) as ->.
  { cbn [String.append]. do 13 rewrite skip_pci by (intros t; discriminate). by apply FindSubmatch_pci. }
  assert (RemoveFirst ("../../devices" +:+ link_pci l +:+ rest) (link_pci l) = "../../devices" +:+ rest) as Hrem.
  { unfold RemoveFirst.
    assert (SplitFirst ("../../devices" +:+ link_pci l +:+ rest) (link_pci l) = Some ("../../devices", rest)) as ->;
      [|done].
    cbn [String.append]. do 13 (apply SplitFirst_skip; [intros t; unfold link_pci; rewrite <-!str_app_assoc; discriminate|]).
    apply SplitFirst_here. }
  rewrite Hrem. destruct Hl as (_ & _ & (Hd & Hb & Hv & Hf) & _).
  cbn [group pci_caps]. decide_consts. rewrite !HexToU32_fmt by lia. by destruct (lk_addr l).
Qed.

(** ** Matching the SCSI part *)

Definition scsi_caps (l : sysfs_link) : caps :=
  [(1%nat, dec (Target (lk_disk l))); (2%nat, dec (Lun (lk_disk l)))].

Lemma matches_scsi_complete l rest :
  link_wf l → (link_scsi l, scsi_caps l, rest) ∈ matches scsiRe (link_scsi l +:+ rest).
Proof.
  intros (_ & _ & _ & _ & Hh & Hc & Ht & Hu & _). unfold scsiRe, link_scsi, digits, scsi_caps.
  rewrite <-!str_app_assoc. apply match_text.
  do 5 (apply match_class; [apply dec_digits; lia|apply dec_len|done|]; apply match_char).
  apply match_group; [apply dec_digits; lia|apply dec_len|done|]. apply match_char.
  apply match_group; [apply dec_digits; lia|apply dec_len|done|].
  apply (match_text "/block" _ _ "/"). by apply elem_of_matches_char.
Qed.

Lemma matches_scsi_unique l rest w c t :
  link_wf l → (w, c, t) ∈ matches scsiRe (link_scsi l +:+ rest) → w = link_scsi l ∧ c = scsi_caps l.
Proof.
  intros (_ & _ & _ & _ & Hh & Hc & Ht & Hu & _) H. unfold scsiRe, link_scsi, digits, scsi_caps in *.
  apply matches_RText in H as (w1 & t1 & Heq & -> & H).
  rewrite <-!str_app_assoc in Heq. apply str_app_inj_l in Heq. re_inv H.
  apply matches_RText in H as (w2 & t2 & -> & -> & H). apply elem_of_matches_char in H as (-> & -> & ->).
  do 7 (apply (span_unique_char digit) in Heq as (<- & _ & Heq); [|apply dec_digits; lia|done..]). done.
Qed.

Lemma FindSubmatch_scsi l rest :
  link_wf l → FindSubmatch scsiRe (link_scsi l +:+ rest) = Some (link_scsi l, scsi_caps l).
Proof.
  intros Hl. apply FindSubmatch_here, FindAnchored_unique.
  - exists rest. by apply matches_scsi_complete.
  - intros [w c] t H. apply matches_scsi_unique in H as [-> ->]; done.
Qed.

Lemma skip_scsi c s :
  (∀ t, String c s ≠ "/target" +:+ t) → FindSubmatch scsiRe (String c s) = FindSubmatch scsiRe s.
Proof.
  intros H. apply FindSubmatch_skip. intros [[w g] t] Hin.
  unfold scsiRe in Hin. apply matches_RText in Hin as (w' & t' & Heq & _). by apply H in Heq.
Qed.

(** A text that does not contain "/target" cannot help to form one with what follows. *)
Lemma target_not_straddling c m X t :
  HasPrefix (String c m) "/target" = false → String c m +:+ "/target" +:+ X ≠ "/target" +:+ t.
Proof.
  intros Hp Heq. cbn [String.append] in Heq. injection Heq as -> Heq.
  do 6 (destruct m as [|? m]; [discriminate|cbn [String.append] in Heq; injection Heq as -> Heq]).
  assert (HasPrefix (String "/" (String "t" (String "a" (String "r" (String "g" (String "e" (String "t" m)))))))
            "/target" = true) by (apply HasPrefix_spec; by exists m). congruence.
Qed.

Lemma skip_mid m X :
  Contains m "/target" = false →
  FindSubmatch scsiRe (m +:+ "/target" +:+ X) = FindSubmatch scsiRe ("/target" +:+ X).
Proof.
  induction m as [|c m IH]; [done|]. cbn [Contains]. rewrite orb_false_iff. intros [Hp Hm].
  change (String c m +:+ "/target" +:+ X) with (String c (m +:+ "/target" +:+ X)).
  rewrite skip_scsi; [by apply IH|]. intros t. by apply target_not_straddling.
Qed.

(** One decimal digit reads the same in base 16. *)
Lemma HexToU32_digit n : 0 ≤ n < 10 → HexToU32 (dec n) = Ok n.
Proof.
  intros Hn. assert (n ∈ seqZ 0 10) as Hin by (apply elem_of_seqZ; lia).
  repeat (apply elem_of_cons in Hin as [->|Hin]; [by vm_compute|]). by apply elem_of_nil in Hin.
Qed.

Lemma extractSCSI_link l :
  link_wf l → extractSCSI ("../../devices" +:+ lk_mid l +:+ link_scsi l +:+ lk_dev l) = Ok (Some (lk_disk l)).
Proof.
  intros Hl. unfold extractSCSI.
  assert (FindSubmatch scsiRe ("../../devices" +:+ lk_mid l +:+ link_scsi l +:+ lk_dev l) =
    Some (link_scsi l, scsi_caps l)) as ->.
  { cbn [String.append]. do 13 rewrite skip_scsi by (intros t; discriminate).
    rewrite <-(FindSubmatch_scsi l (lk_dev l) Hl). unfold link_scsi. rewrite <-!str_app_assoc.
    apply skip_mid. apply Hl. }
  destruct Hl as (_ & _ & _ & _ & _ & _ & Ht & Hu & _).
  cbn [group scsi_caps]. decide_consts. rewrite !HexToU32_digit by lia. by destruct (lk_disk l).
Qed.

(** ** The device name *)

Fixpoint count_slash (s : string) : nat :=
  match s with
  | EmptyString => 0
  | String c s' => (if bool_decide (c = "/"%char) then 1 else 0) + count_slash s'
  end.

Lemma count_slash_app s t : count_slash (s +:+ t) = (count_slash s + count_slash t)%nat.
Proof. induction s as [|c s IH]; simpl; [done|]. rewrite IH. lia. Qed.

Lemma count_slash_0 s : no_slash s = true → count_slash s = 0%nat.
Proof.
  unfold no_slash. induction s as [|c s IH]; simpl; [done|]. rewrite andb_true_iff, negb_true_iff.
  intros [-> Hs]. by apply IH.
Qed.

Lemma AfterLast_sound s sub r : AfterLast s sub = Some r → ∃ p, s = p +:+ sub +:+ r.
Proof.
  induction s as [|c s IH]; cbn [AfterLast].
  - intros H%CutPrefix_Some. by exists "".
  - destruct (AfterLast s sub) as [r'|].
    + intros [= <-]. destruct (IH eq_refl) as [p ->]. by exists (String c p).
    + intros H%CutPrefix_Some. by exists "".
Qed.

Lemma AfterLast_here s r sub :
  CutPrefix sub s = Some r → (∀ c s', s = String c s' → AfterLast s' sub = None) → AfterLast s sub = Some r.
Proof. destruct s as [|c s]; cbn [AfterLast]; [done|]. intros H Hn. by rewrite (Hn c s). Qed.

Lemma AfterLast_block p dev : no_slash dev = true → AfterLast (p +:+ block +:+ dev) block = Some dev.
Proof.
  intros Hdev. induction p as [|c p IH].
  - apply AfterLast_here; [by apply CutPrefix_Some|]. intros c s' [= _ <-].
    destruct (AfterLast _ block) as [r|] eqn:E; [|done]. apply AfterLast_sound in E as [q Hq].
    apply (f_equal count_slash) in Hq. rewrite !count_slash_app in Hq. simpl in Hq.
    apply count_slash_0 in Hdev. lia.
  - change (String c p +:+ block +:+ dev) with (String c (p +:+ block +:+ dev)). cbn [AfterLast]. by rewrite IH.
Qed.

Lemma FindAnchored_majorMinor a b :
  0 ≤ a → 0 ≤ b →
  FindAnchored majorMinor (dec a +:+ ":" +:+ dec b) =
    Some (dec a +:+ ":" +:+ dec b, [(1%nat, dec a); (2%nat, dec b)]).
Proof.
  intros Ha Hb. apply FindAnchored_unique.
  - exists "". unfold majorMinor, digits.
    apply match_group; [by apply dec_digits|apply dec_len|done|]. apply match_char.
    pose proof (match_group 2 digit 1 None REnd (dec b) "" "" [] "") as H. rewrite str_app_nil_r in H.
    apply H; [by apply dec_digits|apply dec_len|done|]. by apply elem_of_matches_end.
  - intros [w c] t H. unfold majorMinor, digits in H. remember (dec a +:+ ":" +:+ dec b) as s eqn:Heq. re_inv H.
    apply (span_unique_char digit) in Heq as (-> & _ & Heq); [|done|by apply dec_digits|done..].
    rewrite str_app_nil_r in *. by subst.
Qed.

(** ** One entry, and all entries *)

Lemma check_entry_spec sys e a d :
  entry_wf e →
  check_entry sys (entry_name e) (link_text (se_link e)) a d =
    Ok (if decide (entry_matches a d e)
        then Some (lk_dev (se_link e), se_major e, se_minor e) else None).
Proof.
  intros (Hma & Hmi & Hl). unfold check_entry, link_text.
  rewrite extractPCIAddress_link by done. cbn [mbind result_mbind result_bind].
  destruct (decide (lk_addr (se_link e) = a)) as [Heq|Hne]; last first.
  { rewrite decide_True by congruence. rewrite decide_False; [done|]. by intros [? ?]. }
  rewrite decide_False by (rewrite Heq; tauto).
  assert (AfterLast (link_text (se_link e)) block = Some (lk_dev (se_link e))) as Hlast.
  { unfold link_text, link_scsi. rewrite <-!str_app_assoc. rewrite !str_app_assoc. rewrite <-str_app_assoc.
    apply (AfterLast_block _ (lk_dev (se_link e))). apply Hl. }
  unfold link_text in Hlast. destruct d as [d|].
  - rewrite extractSCSI_link by done. cbn [mbind result_mbind result_bind mret result_ret].
    destruct (decide (lk_disk (se_link e) = d)) as [Hd|Hd]; last first.
    { rewrite bool_decide_true by done. rewrite decide_False; [done|]. by intros [? ?]. }
    rewrite bool_decide_false by tauto.
    rewrite Hlast, decide_True by done. unfold entry_name. rewrite FindAnchored_majorMinor by lia. cbn [group].
    decide_consts. unfold Atoi_. by rewrite !Atoi_FormatUint by lia.
  - cbn [mbind result_mbind result_bind mret result_ret].
    rewrite Hlast, decide_True by done. unfold entry_name. rewrite FindAnchored_majorMinor by lia. cbn [group].
    decide_consts. unfold Atoi_. by rewrite !Atoi_FormatUint by lia.
Qed.

Section Run.
Context {S : Type} (serve : ∀ B, csiE B → S → S * B) (sys : string).

(** In state [s] the directory [sys] shows the entries [es], in the order in which
    ReadDir sorts them. *)
Definition shows (s : S) (es : list sysfs_entry) : Prop :=
  serve _ (OS (ReadDir sys)) s = (s, Ok ((λ e, MkDirEntry (entry_name e) false) <$> es)) ∧
  ∀ e, e ∈ es → serve _ (OS (Readlink (JoinPath [sys; entry_name e]))) s = (s, Ok (link_text (se_link e))).

Lemma run_findDev_loop s es a d :
  Forall entry_wf es →
  (∀ e, e ∈ es → serve _ (OS (Readlink (JoinPath [sys; entry_name e]))) s = (s, Ok (link_text (se_link e)))) →
  run serve (findDev_loop sys (entry_name <$> es) a d) s = (s, Ok (first_match a d es)).
Proof.
  induction 1 as [|e es He _ IH]; intros Hlink; [done|]. rewrite fmap_cons. cbn [findDev_loop].
  rewrite run_go_bind. unfold os, call, trigger. cbn [run]. rewrite Hlink by (by left).
  rewrite run_go_bind. unfold from_result. cbn [run]. rewrite check_entry_spec by done.
  cbn [first_match]. case_decide; [done|]. apply IH. intros e' He'. apply Hlink. by right.
Qed.

Lemma run_findDev s es a d :
  Forall entry_wf es → shows s es → run serve (findDev sys a d) s = (s, Ok (first_match a d es)).
Proof.
  intros Hes [Hdir Hlink]. unfold findDev. rewrite run_go_bind. unfold os, call, trigger. cbn [run].
  rewrite Hdir, <-list_fmap_compose. by apply run_findDev_loop.
Qed.

(** ** Waiting *)

(** The rounds in which the device is not there: the directory shows no matching
    entry, and then something changes or time passes. *)
Inductive waits (a : PCIAddress) (d : option SCSIDisk) : nat → S → S → Prop :=
| waits_none s : waits a d 0 s s
| waits_round n s es c s1 s' :
    Forall entry_wf es → shows s es → Forall (λ e, ¬ entry_matches a d e) es →
    serve _ (OS Select) s = (s1, c) → c = WatcherEvent ∨ c = AfterTimeout →
    waits a d n s1 s' → waits a d (Datatypes.S n) s s'.

(** How the wait ends in a state: with the first matching device, or because the
    context is done. *)
Inductive wait_ends (a : PCIAddress) (d : option SCSIDisk) : S → S → result (string * Z * Z) → Prop :=
| ends_found s pre e post :
    Forall entry_wf (pre ++ e :: post) → shows s (pre ++ e :: post) →
    Forall (λ e, ¬ entry_matches a d e) pre → entry_matches a d e →
    wait_ends a d s s (Ok (lk_dev (se_link e), se_major e, se_minor e))
| ends_timeout s es s' :
    Forall entry_wf es → shows s es → Forall (λ e, ¬ entry_matches a d e) es →
    serve _ (OS Select) s = (s', CtxDone) →
    wait_ends a d s s' (Err (StatusError DeadlineExceeded "timed out waiting for device %s, SCSI disk '%+v'"
                               [PrettyPCIAddress (Some a)])).

Lemma first_match_none a d es : Forall (λ e, ¬ entry_matches a d e) es → first_match a d es = ("", 0, 0).
Proof. induction 1 as [|e es He _ IH]; [done|]. cbn [first_match]. by rewrite decide_False. Qed.

Lemma first_match_here a d pre e post :
  Forall (λ e, ¬ entry_matches a d e) pre → entry_matches a d e →
  first_match a d (pre ++ e :: post) = (lk_dev (se_link e), se_major e, se_minor e).
Proof.
  induction 1 as [|e' pre He' _ IH]; intros He; cbn [app first_match]; [by rewrite decide_True|].
  rewrite decide_False by done. by apply IH.
Qed.

(** One round of the loop. *)
Lemma run_wait_loop fuel s es a d :
  Forall entry_wf es → shows s es →
  run serve (wait_loop (Datatypes.S fuel) sys a d) s =
    match first_match a d es with
    | ("", _, _) =>
        let '(s1, c) := serve _ (OS Select) s in
        match c with
        | CtxDone =>
            (s1, Some (Err (StatusError DeadlineExceeded "timed out waiting for device %s, SCSI disk '%+v'"
                              [PrettyPCIAddress (Some a)])))
        | WatcherEvent | AfterTimeout => run serve (wait_loop fuel sys a d) s1
        | WatcherError e => (s1, Some (Err (StatusError Internal "watching %s: %s" [sys; Error e])))
        end
    | r => (s, Some (Ok r))
    end.
Proof.
  intros Hes Hs. cbn [wait_loop]. rewrite run_bind. unfold with_status. rewrite run_bind, (run_findDev s es) by done.
  cbn [run]. destruct (first_match a d es) as [[[|ch dev] x] y]; cbn [run]; [|done].
  destruct (serve _ (OS Select) s) as [s1 [| | |e]]; done.
Qed.

Lemma wait_loop_waits n s s' a d fuel :
  waits a d n s s' → run serve (wait_loop (n + fuel) sys a d) s = run serve (wait_loop fuel sys a d) s'.
Proof.
  induction 1 as [|n s es c s1 s' Hes Hs Hno Hsel Hc _ IH]; [done|]. cbn [Nat.add].
  rewrite (run_wait_loop _ _ es) by done. rewrite first_match_none, Hsel by done.
  destruct Hc as [->| ->]; apply IH.
Qed.

Lemma wait_loop_short n s s' a d fuel :
  waits a d n s s' → (fuel ≤ n)%nat → (run serve (wait_loop fuel sys a d) s).2 = None.
Proof.
  intros Hw. revert fuel. induction Hw as [|n s es c s1 s' Hes Hs Hno Hsel Hc _ IH]; intros [|fuel] Hle; try done; [lia|].
  rewrite (run_wait_loop _ _ es) by done. rewrite first_match_none, Hsel by done.
  destruct Hc as [->| ->]; apply IH; lia.
Qed.

Lemma wait_loop_ends s s' r a d fuel :
  wait_ends a d s s' r → run serve (wait_loop (Datatypes.S fuel) sys a d) s = (s', Some r).
Proof.
  intros [s1 pre e post Hes Hs Hpre He|s1 es s2 Hes Hs Hno Hsel]; erewrite run_wait_loop by done.
  - rewrite first_match_here by done. apply Forall_app in Hes as [_ Hes]. apply Forall_cons in Hes as [Hwf _].
    destruct Hwf as (_ & _ & _ & _ & _ & _ & _ & _ & _ & _ & Hdev & _).
    by destruct (lk_dev (se_link e)).
  - by rewrite first_match_none, Hsel.
Qed.

Lemma run_waitForDevice fuel s0 s a d :
  serve _ (OS (NewWatcher sys)) s0 = (s, Ok ()) →
  run serve (waitForDevice fuel sys a d) s0 = run serve (wait_loop fuel sys a d) s.
Proof.
  intros Hw. unfold waitForDevice. rewrite run_bind. unfold with_status, os, call, trigger.
  rewrite run_bind. cbn [run]. by rewrite Hw.
Qed.

End Run.

(** ** The calls of the search *)

Definition wait_call : ∀ B, csiE B → Prop := λ B e,
  match e with
  | OS e => match e with ReadDir _ | Readlink _ | NewWatcher _ | Select => True | _ => False end
  | _ => False
  end.

Definition locate_call : ∀ B, csiE B → Prop := λ B e,
  match e with
  | OS e => wait_call _ (OS e)
  | RPC e => match e with GetValues_ _ | MapVolume_ _ _ => True | _ => False end
  | _ => False
  end.

Ltac locate_calls := calls_with ltac:(progress unfold os, rpc_, with_status, fuelled).

Lemma findDev_calls sys a d : all_calls wait_call (findDev sys a d).
Proof.
  unfold findDev. apply all_calls_go_bind; [locate_calls|]. intros files.
  induction (EntryName <$> files) as [|f fs IH]; [done|]. cbn [findDev_loop].
  apply all_calls_go_bind; [locate_calls|]. intros target. apply all_calls_go_bind; [done|]. intros [x|]; [done|apply IH].
Qed.

Lemma waitForDevice_calls fuel sys a d : all_calls wait_call (waitForDevice fuel sys a d).
Proof.
  unfold waitForDevice. apply all_calls_bind; [locate_calls|]. intros [u|e|w]; [|done..].
  induction fuel as [|fuel IH]; [done|]. cbn [wait_loop].
  apply all_calls_bind; [unfold with_status; apply all_calls_bind; [apply findDev_calls|done]|].
  intros [[[[|c dev] x] y]|e|w]; [|done..]. split; [done|]. intros [| | |e]; [done|exact IH|exact IH|done].
Qed.

Lemma locateDevice_calls {Req} fuel (r : remoteSPDK Req) volumeID req : all_calls locate_call (locateDevice fuel r volumeID req).
Proof.
  unfold locateDevice. calls_with ltac:(first
    [ eapply all_calls_mono; [|apply waitForDevice_calls]; by intros B [] | progress unfold rpc_, fuelled ]).
Qed.

(** ** Concrete directories *)

(** A directory of symbolic links. *)
Definition sysfs := list (string * string).

Definition read_link (fs : sysfs) (sys path : string) : result string :=
  match list_find (λ l, path = JoinPath [sys; l.1]) fs with
  | Some (_, (_, target)) => Ok target
  | None => Err (SysError ENOENT "no such file")
  end.

(** The directory changes: it starts as the first element of the list, and an
    event takes it to the next one. *)
Definition serve_sysfs (sys : string) : ∀ B, csiE B → list sysfs → list sysfs * B := λ B e,
  match e in csiE B return list sysfs → list sysfs * B with
  | OS e =>
      match e in osE B return list sysfs → list sysfs * B with
      | ReadDir dir => λ w, (w, Ok ((λ l, MkDirEntry l.1 false) <$> default [] (head w)))
      | Readlink path => λ w, (w, read_link (default [] (head w)) sys path)
      | NewWatcher _ => λ w, (w, Ok ())
      | Select => λ w, match w with
                       | _ :: _ :: _ => (tail w, WatcherEvent)
                       | _ => (w, CtxDone)
                       end
      | e => λ w, (w, refuse_os e)
      end
  | e => λ w, (w, refuse e)
  end.

Definition show_entries (es : list sysfs_entry) : sysfs := (λ e, (entry_name e, link_text (se_link e))) <$> es.

(** The link in the comment of [findDev], and another one. *)
Definition link_sda : sysfs_link :=
  MkLink 0 0 (MkPCIAddress 0 0 0x15 0) "virtio3/host0" 0 0 (MkSCSIDisk 7 0) "sda".
Definition link_sdb : sysfs_link :=
  MkLink 0 0 (MkPCIAddress 0 0 0x15 0) "virtio3/host0" 0 0 (MkSCSIDisk 6 0) "sdb".
Definition entry_sda : sysfs_entry := MkEntry 8 0 link_sda.
Definition entry_sdb : sysfs_entry := MkEntry 8 16 link_sdb.

Lemma entry_sda_wf : entry_wf entry_sda.
Proof. unfold entry_wf, link_wf. simpl. by split_and!; vm_compute. Qed.
Lemma entry_sdb_wf : entry_wf entry_sdb.
Proof. unfold entry_wf, link_wf. simpl. by split_and!; vm_compute. Qed.

Example link_text_documented :
  link_text link_sda = "../../devices/pci0000:00/0000:00:15.0/virtio3/host0/target0:0:7/0:0:7:0/block/sda".
Proof. by vm_compute. Qed.

Definition serve_example := serve_sysfs "/sys/dev/block".
Definition world_example : list sysfs :=
  [[]; show_entries [entry_sda]; show_entries [entry_sda; entry_sdb]].


(** The comment in [findDev] that "Readdir sorted the entries", so that the
    whole disk comes before its partitions, does not hold for every minor number:
    names are sorted as texts, and "8:100" comes before "8:96".  For the disk sdg
    (8:96) with a partition sdg4 (8:100) the partition is what [findDev] returns,
    as the device name "sdg/sdg4". *)
Theorem findDev_partition_first :
  let scsi := "../../devices/pci0000:00/0000:00:15.0/virtio3/host0/target0:0:6/0:0:6:0/block/" in
  let dir := [("8:100", scsi +:+ "sdg/sdg4"); ("8:96", scsi +:+ "sdg")] in
  String.ltb "8:100" "8:96" = true ∧
  run serve_example (findDev "/sys/dev/block" (MkPCIAddress 0 0 0x15 0) (Some (MkSCSIDisk 6 0))) [dir] =
    ([dir], Ok ("sdg/sdg4", 8, 100)).
Proof. by vm_compute. Qed.

(** A controller that does not know its PCI address leaves the field out of its
    reply.  The code then uses the all-zero address, which counts as completely
    known: the address that an administrator configured in the registry is not
    used, and no error is raised. *)
Theorem missing_pci_address_is_zero path disk defPCIAddress :
  completeAddress path (MkMapVolumeReply None disk) defPCIAddress = Ok (MkPCIAddress 0 0 0 0).
Proof. done. Qed.
