(* ===== verification/Mount.v ===== *)
(** * Mounting: pkg/mount

    The parts of mount.go, mount_linux.go, exec.go, exec_mount.go and unmount.go
    that mount, unmount, format and inspect mount points.  A mounter is a record
    of operations; [Mounter] runs mount(8) and looks at the file system, and there
    are versions of Mount and Unmount that run the commands through an [Exec].  Log messages are left
    out.  A function with the results (bool, error) is a [go csiE bool]; where
    the source returns a value together with an error, callers supply it. *)
From S2P Require Import Prelude GoStrings Strconv Errors Messages Effects SPDK CSIEnv Paths.

Definition maxListTries : Z := 3.
Definition expectedNumFieldsPerLine : nat := 6.
Definition expectedAtLeastNumFieldsPerMountInfo : nat := 10.
Definition procMountsPath : string := "/proc/mounts".
Definition procMountInfoPath : string := "/proc/self/mountinfo".
Definition fsckErrorsCorrected : Z := 1.
Definition fsckErrorsUncorrected : Z := 4.
Definition defaultMountCommand : string := "mount".
Definition MountsInGlobalPDPath : string := "mounts".

Definition newline : ascii := "010"%char.
Definition nl : string := String newline "".

(** White space of [strings.Fields], for texts in ASCII. *)
Definition is_space (c : ascii) : bool :=
  bool_decide (c ∈ [" "%char; "009"%char; "010"%char; "011"%char; "012"%char; "013"%char]).
Definition Fields (s : string) : list string := FieldsFunc s is_space.

Record MountPoint := MkMountPoint {
  mp_Device : string; mp_Path : string; mp_Type : string; mp_Opts : list string; mp_Freq : Z; mp_Pass : Z
}.

(** The methods that the functions of the package call on a mounter; [MountInterface.v]
    has all methods. *)
Record MountOps := MkMountOps {
  im_Mount : string → string → string → list string → go csiE ();
  im_Unmount : string → go csiE ();
  im_List : go csiE (list MountPoint);
  im_IsMountPointMatch : MountPoint → string → bool;
  im_IsLikelyNotMountPoint : string → go csiE bool;
  im_MakeDir : string → go csiE ();
  im_EvalHostSymlinks : string → go csiE string;
  im_GetMountRefs : string → go csiE (list string)
}.

(** [mount.Exec], and its implementation with k8s.io/utils/exec. *)
Definition Exec := string → list string → prog csiE output.
Definition osExec : Exec := λ cmd args, trigger (OS (ExecRun cmd args)).
(** The fake for tests, with its hook. *)
Definition fakeExec (runHook : option Exec) : Exec := λ cmd args,
  match runHook with Some hook => hook cmd args | None => Ret ("", None) end.

(** An optional error as a result. *)
Definition check {E} (e : option error) : go E () :=
  match e with Some e => fail e | None => mret () end.

(** ** Options and arguments *)

Definition checkForNetDev (options : list string) : bool := existsb (String.eqb "_netdev") options.

Definition isBind (options : list string) : bool * list string * list string :=
  let bindOpts := if checkForNetDev options then ["bind"; "_netdev"] else ["bind"] in
  let '(bind, bindRemountOpts) :=
    foldl (λ acc option,
             let '(bind, remount) := acc in
             if decide (option = "bind") then (true, remount)
             else if decide (option = "remount") then (bind, remount)
             else (bind, remount ++ [option]))
      (false, ["bind"; "remount"]) options in
  (bind, bindOpts, bindRemountOpts).

Definition makeMountArgs (source target fstype : string) (options : list string) : list string :=
  let mountArgs := [] in
  let mountArgs := if decide (fstype = "") then mountArgs else mountArgs ++ ["-t"; fstype] in
  let mountArgs := if decide (options = []) then mountArgs else mountArgs ++ ["-o"; Join options ","] in
  let mountArgs := if decide (source = "") then mountArgs else mountArgs ++ [source] in
  mountArgs ++ [target].

Definition addSystemdScope (systemdRunPath mountName command : string) (args : list string) : string * list string :=
  let descriptionArg := "--description=Kubernetes transient mount for " +:+ mountName in
  (systemdRunPath, [descriptionArg; "--scope"; "--"; command] ++ args).

(** ** Mounter *)

Record Mounter := MkMounter { mounterPath : string; withSystemd : bool }.

Definition detectSystemd : prog csiE bool :=
  pbind (λ r, match r with
    | Ok _ =>
        pbind (λ '(_, err), Ret (bool_decide (err = None)))
          (trigger (OS (Command "systemd-run" ["--description=Kubernetes systemd probe"; "--scope"; "true"])))
    | _ => Ret false
    end) (os (LookPath "systemd-run")).

Definition doMount (m : Mounter) (mounterPath mountCmd source target fstype : string) (options : list string) :
    go csiE () :=
  let mountArgs := makeMountArgs source target fstype options in
  let '(mountCmd, mountArgs) :=
    if decide (mounterPath = "") then (mountCmd, mountArgs) else (mounterPath, mountCmd :: mountArgs) in
  let '(mountCmd, mountArgs) :=
    if withSystemd m then addSystemdScope "systemd-run" target mountCmd mountArgs else (mountCmd, mountArgs) in
  pbind (λ '(output, err),
    check (match err with
           | Some e =>
               Some (Errorf (Join ["mount failed: %v"; "Mounting command: %s"; "Mounting arguments: %s"; "Output: %s"; ""] nl)
                       [Error e; mountCmd; Join mountArgs " "; output])
           | None => None
           end))
    (trigger (OS (Command mountCmd mountArgs))).

Definition Mount (mounter : Mounter) (source target fstype : string) (options : list string) : go csiE () :=
  let '(bind, bindOpts, bindRemountOpts) := isBind options in
  if bind : bool then
    _ ← doMount mounter "" defaultMountCommand source target fstype bindOpts;
    doMount mounter "" defaultMountCommand source target fstype bindRemountOpts
  else
    let path := if decide (fstype ∈ ["nfs"; "glusterfs"; "ceph"; "cifs"]) then mounterPath mounter else "" in
    doMount mounter path defaultMountCommand source target fstype options.

Definition Unmount (target : string) : go csiE () :=
  pbind (λ '(output, err),
    check (match err with
           | Some e =>
               Some (Errorf (Join ["Unmount failed: %v"; "Unmounting arguments: %s"; "Output: %s"; ""] nl)
                       [Error e; target; output])
           | None => None
           end))
    (trigger (OS (Command "umount" [target]))).

(** ** Reading the mount table *)

Fixpoint consistentRead_loop (filename oldContent : string) (attempts : Z) (left : nat) : go csiE string :=
  match left with
  | O => fail (Errorf "could not get consistent content of %s after %d attempts" [filename; Itoa attempts])
  | S left' =>
      newContent ← os (ReadFile filename);
      if decide (oldContent = newContent) then mret newContent
      else consistentRead_loop filename newContent attempts left'
  end.

Definition consistentRead (filename : string) (attempts : Z) : go csiE string :=
  oldContent ← os (ReadFile filename);
  consistentRead_loop filename oldContent attempts (Z.to_nat attempts).

(** [strconv.Atoi] with its error; nothing depends on whether its text complains
    about the syntax or about the range. *)
Definition atoi (s : string) : result Z :=
  match Atoi s with
  | Some n => Ok n
  | None => Err (ErrorNew ("strconv.Atoi: parsing " +:+ s))
  end.

Definition parseMountLine (line : string) : result MountPoint :=
  match Fields line with
  | [device; path; type_; opts; freq; pass] =>
      freq ← atoi freq;
      pass ← atoi pass;
      mret (MkMountPoint device path type_ (Split opts ","%char) freq pass)
  | fields =>
      Err (Errorf "wrong number of fields (expected %d, got %d): %s"
             [Itoa (Z.of_nat expectedNumFieldsPerLine); Itoa (Z.of_nat (length fields)); line])
  end.

(** A loop over lines that skips empty ones. *)
Fixpoint parse_lines {A} (parse : string → result A) (lines : list string) : result (list A) :=
  match lines with
  | [] => Ok []
  | line :: lines' =>
      if decide (line = "") then parse_lines parse lines'
      else (mp ← parse line; out ← parse_lines parse lines'; mret (mp :: out))
  end.

Definition parseProcMounts (content : string) : result (list MountPoint) :=
  parse_lines parseMountLine (Split content newline).

Definition listProcMounts (mountFilePath : string) : go csiE (list MountPoint) :=
  content ← consistentRead mountFilePath maxListTries;
  from_result (parseProcMounts content).

Definition List_ : go csiE (list MountPoint) := listProcMounts procMountsPath.

Definition IsMountPointMatch (mp : MountPoint) (dir : string) : bool :=
  let deletedDir := dir +:+ "\040(deleted)" in
  bool_decide (mp_Path mp = dir) || bool_decide (mp_Path mp = deletedDir).

(** An error comes with the value true. *)
Definition IsLikelyNotMountPoint (file : string) : go csiE bool :=
  stat ← os (Stat file);
  rootStat ← os (Lstat (Dir (TrimSuffix file "/")));
  if decide (Dev stat ≠ Dev rootStat) then mret false else mret true.

Definition MakeDir (pathname : string) : go csiE () :=
  r ← attempt (os (MkdirAll pathname 0x1ed));
  match r with
  | Err e => if IsExist e then mret () else fail e
  | _ => mret ()
  end.

(** The flag os.O_CREATE; a file that was opened is closed again. *)
Definition MakeFile (pathname : string) : go csiE () :=
  r ← attempt (os (OpenFile pathname 0x40 0x1a4));
  match r with
  | Err e => if IsExist e then mret () else fail e
  | _ => _ ← attempt (os (CloseFile pathname)); mret ()
  end.

Definition ExistsPath (pathname : string) : go csiE bool :=
  r ← attempt (os (Stat pathname));
  match r with
  | Err e => if IsNotExist e then mret false else fail e
  | _ => mret true
  end.

Definition EvalHostSymlinks (pathname : string) : go csiE string := os (EvalSymlinks pathname).

(** ** /proc/self/mountinfo *)

Record mountInfo := MkMountInfo {
  mi_id : Z; mi_parentID : Z; mi_majorMinor : string; mi_root : string; mi_source : string;
  mi_mountPoint : string; mi_optionalFields : list string; mi_fsType : string;
  mi_mountOptions : list string; mi_superOptions : list string
}.

(** The optional fields up to the separator, and what follows the separator if
    there is one. *)
Fixpoint optional_fields (fields : list string) : list string * option (list string) :=
  match fields with
  | [] => ([], None)
  | f :: fields' =>
      if decide (f = "-") then ([], Some fields')
      else let '(opt, rest) := optional_fields fields' in (f :: opt, rest)
  end.

Definition parseInfoLine (line : string) : result mountInfo :=
  let fields := Fields line in
  match fields with
  | id :: parentID :: majorMinor :: root :: mountPoint :: mountOptions :: rest =>
      if (length fields <? expectedAtLeastNumFieldsPerMountInfo)%nat
      then Err (Errorf "wrong number of fields in (expected at least %d, got %d): %s"
                  [Itoa (Z.of_nat expectedAtLeastNumFieldsPerMountInfo); Itoa (Z.of_nat (length fields)); line])
      else
        id ← atoi id;
        parentID ← atoi parentID;
        let '(optionalFields, rest) := optional_fields rest in
        match rest with
        | Some (fsType :: source :: superOptions :: _) =>
            mret (MkMountInfo id parentID majorMinor root source mountPoint optionalFields fsType
                    (Split mountOptions ","%char) (Split superOptions ","%char))
        | Some rest => Err (Errorf "expect 3 fields in %s, got %d" [line; Itoa (Z.of_nat (length rest))])
        | None => Err (Errorf "expect 3 fields in %s, got %d" [line; Itoa (-1)])
        end
  | _ => Err (Errorf "wrong number of fields in (expected at least %d, got %d): %s"
                [Itoa (Z.of_nat expectedAtLeastNumFieldsPerMountInfo); Itoa (Z.of_nat (length fields)); line])
  end.

Definition parseMountInfo (filename : string) : go csiE (list mountInfo) :=
  contentStr ← consistentRead filename maxListTries;
  from_result (parse_lines parseInfoLine (Split contentStr newline)).

(** The first match in backward order. *)
Definition findMountInfo (path mountInfoPath : string) : go csiE mountInfo :=
  infos ← parseMountInfo mountInfoPath;
  match list_find (λ info, PathWithinBase path (mi_mountPoint info) = true) (reverse infos) with
  | Some (_, info) => mret info
  | None => fail (Errorf "cannot find mount point for %q" [path])
  end.

Definition isShared (mount mountInfoPath : string) : go csiE bool :=
  info ← findMountInfo mount mountInfoPath;
  mret (existsb (λ opt, HasPrefix opt "shared:") (mi_optionalFields info)).

Definition MS_BIND : Z := 0x1000.
Definition MS_REC : Z := 0x4000.
Definition MS_SHARED : Z := 0x100000.

(** An error as the operand of a new one: fmt.Errorf(format, args..., err). *)
Definition errorf_err {E A} (format : string) (args : list string) (p : go E A) : go E A :=
  pbind (λ r, Ret (match r with Err e => Err (Errorf format (args ++ [Error e])) | _ => r end)) p.

Definition doMakeRShared (path mountInfoFilename : string) : go csiE () :=
  shared ← isShared path mountInfoFilename;
  if shared : bool then mret ()
  else
    _ ← errorf_err "failed to bind-mount %s: %v" [path] (os (SysMount path path "" MS_BIND));
    errorf_err "failed to make %s rshared: %v" [path] (os (SysMount path path "" (Z.lor MS_SHARED MS_REC))).

Definition getSELinuxSupport (path mountInfoFilename : string) : go csiE bool :=
  info ← findMountInfo path mountInfoFilename;
  mret (existsb (String.eqb "seclabel") (mi_superOptions info) ||
        existsb (String.eqb "seclabel") (mi_mountOptions info)).

Definition searchMountPoints (hostSource mountInfoPath : string) : go csiE (list string) :=
  mis ← parseMountInfo mountInfoPath;
  let '(mountID, rootPath, majorMinor) :=
    match list_find (λ mi, hostSource = mi_mountPoint mi ∨ PathWithinBase hostSource (mi_mountPoint mi) = true)
            (reverse mis) with
    | Some (_, mi) =>
        (mi_id mi, JoinPath [mi_root mi; TrimPrefix hostSource (mi_mountPoint mi)], mi_majorMinor mi)
    | None => (0, "", "")
    end in
  if decide (rootPath = "" ∨ majorMinor = "")
  then fail (Errorf "failed to get root path and major:minor for %s" [hostSource])
  else mret (mi_mountPoint <$>
         filter (λ mi, mi_id mi ≠ mountID ∧ mi_root mi = rootPath ∧ mi_majorMinor mi = majorMinor) mis).

Definition GetMountRefs (pathname : string) : go csiE (list string) :=
  r ← attempt (os (Stat pathname));
  match r with
  | Err e => if IsNotExist e then mret [] else fail e
  | _ => realpath ← os (EvalSymlinks pathname); searchMountPoints realpath procMountInfoPath
  end.

Definition GetFSGroup (pathname : string) : go csiE Z :=
  realpath ← os (EvalSymlinks pathname);
  info ← os (Stat realpath);
  mret (Gid info).

Definition GetMode (pathname : string) : go csiE Z :=
  info ← os (Stat pathname);
  mret (Mode info).

Definition mounter_ops (m : Mounter) : MountOps :=
  MkMountOps (Mount m) Unmount List_ IsMountPointMatch IsLikelyNotMountPoint MakeDir EvalHostSymlinks GetMountRefs.

(** ** exec_mount.go *)

Definition doExecMount (exec : Exec) (source target fstype : string) (options : list string) : go csiE () :=
  pbind (λ '(output, err),
    check (match err with
           | Some e =>
               Some (Errorf (Join ["mount failed: %v"; "Mounting command: %s"; "Mounting arguments: %s %s %s %v"; "Output: %s"; ""] nl)
                       [Error e; "mount"; source; target; fstype; "[" +:+ Join options " " +:+ "]"; output])
           | None => None
           end))
    (exec "mount" (makeMountArgs source target fstype options)).

Definition execMount (exec : Exec) (source target fstype : string) (options : list string) : go csiE () :=
  let '(bind, bindOpts, bindRemountOpts) := isBind options in
  if bind : bool then
    _ ← doExecMount exec source target fstype bindOpts;
    doExecMount exec source target fstype bindRemountOpts
  else doExecMount exec source target fstype options.

Definition execUnmount (exec : Exec) (target : string) : go csiE () :=
  pbind (λ '(_, err), check err) (exec "umount" [target]).

(** ** mount.go *)

Definition getMountRefsByDev (mounter : MountOps) (mountPath : string) : go csiE (list string) :=
  mps ← im_List mounter;
  let diskDev := match list_find (λ mp, mountPath = mp_Path mp) mps with
                 | Some (_, mp) => mp_Device mp
                 | None => ""
                 end in
  mret (mp_Path <$> filter (λ mp, (mp_Device mp = diskDev ∨ mp_Device mp = mountPath) ∧ mp_Path mp ≠ mountPath) mps).

Definition GetDeviceNameFromMount (mounter : MountOps) (mountPath : string) : go csiE (string * Z) :=
  mps ← im_List mounter;
  r ← attempt (os (EvalSymlinks mountPath));
  let slTarget := match r with Ok t => t | _ => mountPath end in
  let device := match list_find (λ mp, mp_Path mp = slTarget) mps with
                | Some (_, mp) => mp_Device mp
                | None => ""
                end in
  mret (device, Z.of_nat (length (filter (λ mp, mp_Device mp = device) mps))).

Definition IsNotMountPoint (mounter : MountOps) (file : string) : go csiE bool :=
  r ← attempt (im_IsLikelyNotMountPoint mounter file);
  notMnt ← match r with
           | Err e => if IsPermission e then mret true else fail e
           | Ok notMnt => mret notMnt
           | Panic w => from_result (Panic w)
           end;
  if negb notMnt then mret notMnt
  else
    resolvedFile ← im_EvalHostSymlinks mounter file;
    mountPoints ← im_List mounter;
    mret (negb (existsb (λ mp, im_IsMountPointMatch mounter mp resolvedFile) mountPoints)).

Definition HasMountRefs (mountPath : string) (mountRefs : list string) : bool :=
  (0 <? length (filter (λ ref, Contains ref mountPath = false) mountRefs))%nat.

Inductive FileType := FileTypeDirectory | FileTypeFile | FileTypeSocket | FileTypeCharDev | FileTypeBlockDev.

Definition isSpecificMode (mode targetMode : Z) : bool := Z.land mode targetMode =? targetMode.

Definition getFileType (pathname : string) : go csiE FileType :=
  r ← attempt (os (Stat pathname));
  match r with
  | Err e => if IsNotExist e then fail (Errorf "path %q does not exist" [pathname]) else fail e
  | Panic w => from_result (Panic w)
  | Ok info =>
      let mode := Mode info in
      if IsDir mode then mret FileTypeDirectory
      else if IsRegular mode then mret FileTypeFile
      else if isSpecificMode mode ModeSocket then mret FileTypeSocket
      else if isSpecificMode mode ModeDevice then
        if isSpecificMode mode ModeCharDevice then mret FileTypeCharDev else mret FileTypeBlockDev
      else fail (ErrorNew "only recognise file, directory, socket, block device and character device")
  end.

Definition PathIsDevice (pathname : string) : go csiE bool :=
  pathType ← getFileType pathname;
  mret (match pathType with FileTypeCharDev | FileTypeBlockDev => true | _ => false end).

(** O_RDONLY | O_EXCL *)
Definition open_excl : Z := 0x80.

Definition exclusiveOpenFailsOnDevice (pathname : string) : go csiE bool :=
  finfo ← errorf_err "PathIsDevice failed for path %q: %v" [pathname] (os (Stat pathname));
  if Z.land (Mode finfo) ModeDevice =? 0 then mret false
  else
    r ← attempt (os (SysOpen pathname open_excl));
    match r with
    | Ok fd => _ ← attempt (os (SysClose fd)); mret false
    | Err e =>
        _ ← attempt (os (SysClose (-1)));
        match e with SysError EBUSY _ => mret true | _ => fail e end
    | Panic w => from_result (Panic w)
    end.

Fixpoint find_ref (basemountPath : string) (refs : list string) : option (result string) :=
  match refs with
  | [] => None
  | ref :: refs' => if HasPrefix ref basemountPath then Some (Rel basemountPath ref) else find_ref basemountPath refs'
  end.

Definition getDeviceNameFromMount (mounter : MountOps) (mountPath pluginDir : string) : go csiE string :=
  refs ← im_GetMountRefs mounter mountPath;
  if decide (refs = []) then fail (Errorf "directory %s is not mounted" [mountPath])
  else match find_ref (JoinPath [pluginDir; MountsInGlobalPDPath]) refs with
       | Some r => from_result r
       | None => mret (Base mountPath)
       end.

(** ** unmount.go *)

Definition IsCorruptedMnt (err : option error) : bool :=
  match err with
  | Some (SysError n _) => bool_decide (n ∈ [ENOTCONN; ESTALE; EIO])
  | _ => false
  end.

(** The value and the error. *)
Definition PathExists (path : string) : go csiE (bool * option error) :=
  r ← attempt (os (Stat path));
  match r with
  | Ok _ => mret (true, None)
  | Err e =>
      if IsNotExist e then mret (false, None)
      else if IsCorruptedMnt (Some e) then mret (true, Some e)
      else mret (false, Some e)
  | Panic w => from_result (Panic w)
  end.

(** The second half of [UnmountPath]. *)
Definition unmount_and_remove (mountPath : string) (mounter : MountOps) : go csiE () :=
  _ ← im_Unmount mounter mountPath;
  notMnt ← im_IsLikelyNotMountPoint mounter mountPath;
  if notMnt : bool then os (Remove mountPath)
  else fail (Errorf "Failed to unmount path %v" [mountPath]).

Definition UnmountPath (mountPath : string) (mounter : MountOps) : go csiE () :=
  '(pathExists, pathErr) ← PathExists mountPath;
  if negb pathExists then mret ()
  else
    let corruptedMnt := IsCorruptedMnt pathErr in
    match pathErr, corruptedMnt with
    | Some e, false => fail (Errorf "Error checking path: %v" [Error e])
    | _, _ =>
        if negb corruptedMnt then
          notMnt ← IsNotMountPoint mounter mountPath;
          if notMnt : bool then os (Remove mountPath) else unmount_and_remove mountPath mounter
        else unmount_and_remove mountPath mounter
    end.

(** ** Formatting *)

Fixpoint blkid_lines (output : string) (lines : list string) (fstype pttype : string) : result (string * string) :=
  match lines with
  | [] => Ok (fstype, pttype)
  | l :: lines' =>
      if decide (l = "") then blkid_lines output lines' fstype pttype
      else match Split l "="%char with
           | [key; value] =>
               if decide (key = "TYPE") then blkid_lines output lines' value pttype
               else if decide (key = "PTTYPE") then blkid_lines output lines' fstype value
               else blkid_lines output lines' fstype pttype
           | _ => Err (Errorf "blkid returns invalid output: %s" [output])
           end
  end.

Definition parse_blkid (out : output) : result string :=
  let '(output, err) := out in
  match err with
  | Some (ExitError 2) => Ok ""
  | Some e => Err e
  | None =>
      '(fstype, pttype) ← blkid_lines output (Split output newline) "" "";
      if decide (pttype = "") then mret fstype else mret "unknown data, probably partitions"
  end.

Definition blkid_args (disk : string) : list string :=
  ["-p"; "-s"; "TYPE"; "-s"; "PTTYPE"; "-o"; "export"; disk].

Definition GetDiskFormat (exec : Exec) (disk : string) : go csiE string :=
  pbind (λ out, from_result (parse_blkid out)) (exec "blkid" (blkid_args disk)).

(** Whether fsck stops the mount. *)
Definition fsck_error (source : string) (out : output) : option error :=
  let '(text, err) := out in
  match err with
  | Some (ExitError status) =>
      if decide (status = fsckErrorsCorrected) then None
      else if decide (status = fsckErrorsUncorrected)
      then Some (Errorf "'fsck' found errors but could not correct them: device %s, output %s" [source; text])
      else None
  | _ => None
  end.

Definition mkfs_args (fstype source : string) : list string :=
  if decide (fstype = "ext4" ∨ fstype = "ext3") then ["-F"; "-m0"; source] else [source].

Definition FormatAndMount (mounter : MountOps) (exec : Exec) (source target fstype : string)
    (options : list string) : go csiE () :=
  let readOnly := existsb (String.eqb "ro") options in
  let options := options ++ ["defaults"] in
  _ ← (if readOnly then mret ()
       else pbind (λ out, check (fsck_error source out)) (exec "fsck" ["-a"; source]));
  r ← attempt (im_Mount mounter source target fstype options);
  match r with
  | Ok _ => mret ()
  | Panic w => from_result (Panic w)
  | Err mountErr =>
      existingFormat ← GetDiskFormat exec source;
      if decide (existingFormat = "") then
        if readOnly then fail (ErrorNew "failed to mount unformatted volume as read only")
        else
          let fstype := if decide (fstype = "") then "ext4" else fstype in
          _ ← pbind (λ '(_, err), check err) (exec ("mkfs." +:+ fstype) (mkfs_args fstype source));
          im_Mount mounter source target fstype options
      else if decide (fstype = "" ∨ fstype = existingFormat) then fail mountErr
      else fail (Errorf "failed to mount the volume as %q, it already contains %s. Mount error: %v"
                   [fstype; existingFormat; Error mountErr])
  end.
