(* ===== verification/MountFacts.v ===== *)
(** * What mounting and formatting do: theorems about pkg/mount

    Safety of formatting, the commands of a bind mount, consistent reads and the
    parser of /proc/mounts, and the output of blkid. *)
From S2P Require Import Prelude GoStrings Strconv Errors Effects SPDK CSIEnv Paths Mount.

(** ** Commands that are run *)

(** The commands that go through the [Exec] interface, with their results. *)
Definition exec_of (i : io csiE) : option (string * list string * output) :=
  match i with
  | Io e a =>
      match e in csiE B return B → option (string * list string * output) with
      | OS e =>
          match e in osE B return B → option (string * list string * output) with
          | ExecRun cmd args => λ out, Some (cmd, args, out)
          | _ => λ _, None
          end
      | _ => λ _, None
      end a
  end.
Definition exec_log (tr : list (io csiE)) : list (string * list string * output) := omap exec_of tr.

(** The commands that [Mounter] runs itself. *)
Definition cmd_of (i : io csiE) : option (string * list string) :=
  match i with
  | Io e a =>
      match e in csiE B return option (string * list string) with
      | OS e => match e in osE B return option (string * list string) with
                | Command cmd args => Some (cmd, args) | _ => None end
      | _ => None
      end
  end.
Definition cmd_log (tr : list (io csiE)) : list (string * list string) := omap cmd_of tr.

Section Facts.
Context {S : Type} (serve : ∀ B, csiE B → S → S * B).

(** ** A mount *)

(** The command line of [doMount]. *)
Definition mount_command (m : Mounter) (path source target fstype : string) (options : list string) :
    string * list string :=
  let args := makeMountArgs source target fstype options in
  let '(cmd, args) := if decide (path = "") then ("mount", args) else (path, "mount" :: args) in
  if withSystemd m
  then ("systemd-run",
        ["--description=Kubernetes transient mount for " +:+ target; "--scope"; "--"; cmd] ++ args)
  else (cmd, args).

Lemma trace_doMount m path source target fstype options s :
  trace serve (doMount m path defaultMountCommand source target fstype options) s =
    let '(cmd, args) := mount_command m path source target fstype options in
    [Io (OS (Command cmd args)) (serve _ (OS (Command cmd args)) s).2].
Proof.
  unfold doMount, mount_command, addSystemdScope, trigger, defaultMountCommand.
  case_decide; destruct (withSystemd m); rewrite trace_bind; cbn [trace run];
    destruct (serve _ _ s) as [s' [out [e|]]]; done.
Qed.

Lemma exec_log_app tr1 tr2 : exec_log (tr1 ++ tr2) = exec_log tr1 ++ exec_log tr2.
Proof. apply omap_app. Qed.
Lemma cmd_log_app tr1 tr2 : cmd_log (tr1 ++ tr2) = cmd_log tr1 ++ cmd_log tr2.
Proof. apply omap_app. Qed.

Lemma exec_log_doMount m path source target fstype options s :
  exec_log (trace serve (doMount m path defaultMountCommand source target fstype options) s) = [].
Proof. rewrite trace_doMount. by destruct (mount_command _ _ _ _ _ _). Qed.

Lemma cmd_log_doMount m path source target fstype options s :
  cmd_log (trace serve (doMount m path defaultMountCommand source target fstype options) s) =
    [mount_command m path source target fstype options].
Proof. rewrite trace_doMount. by destruct (mount_command _ _ _ _ _ _). Qed.

Lemma exec_log_Mount m source target fstype options s :
  exec_log (trace serve (Mount m source target fstype options) s) = [].
Proof.
  unfold Mount. destruct (isBind options) as [[bind opts] ropts]. destruct bind.
  - rewrite trace_go_bind, exec_log_app, exec_log_doMount. destruct (run _ _ s) as [s' [?|?|?]]; [|done..].
    apply exec_log_doMount.
  - case_decide; apply exec_log_doMount.
Qed.

(** ** Options of a bind mount *)

Lemma isBind_spec options :
  isBind options =
    (bool_decide ("bind" ∈ options),
     if bool_decide ("_netdev" ∈ options) then ["bind"; "_netdev"] else ["bind"],
     ["bind"; "remount"] ++ filter (λ o, o ≠ "bind" ∧ o ≠ "remount") options).
Proof.
  unfold isBind. set (step := λ acc option, _).
  assert (∀ b l, foldl step (b, l) options =
    (b || bool_decide ("bind" ∈ options), l ++ filter (λ o, o ≠ "bind" ∧ o ≠ "remount") options)) as H.
  { subst step. induction options as [|o options IH]; intros b l; cbn [foldl].
    - by rewrite orb_false_r, app_nil_r.
    - rewrite (bool_decide_ext ("bind" ∈ o :: options) ("bind" = o ∨ "bind" ∈ options)) by (by rewrite elem_of_cons).
      rewrite bool_decide_or, filter_cons. destruct (decide (o = "bind")) as [->|H1].
      + rewrite IH, decide_False by (by intros [? _]). rewrite (bool_decide_true ("bind" = "bind")) by done.
        by rewrite orb_true_r.
      + rewrite (bool_decide_false ("bind" = o)) by congruence. destruct (decide (o = "remount")) as [->|H2].
        * by rewrite IH, decide_False by (by intros [_ ?]).
        * rewrite IH, decide_True by done. by rewrite <-app_assoc. }
  rewrite H. unfold checkForNetDev.
  assert (existsb (String.eqb "_netdev") options = bool_decide ("_netdev" ∈ options)) as ->; [|done].
  apply eq_true_iff_eq. rewrite existsb_exists, bool_decide_eq_true. split.
  - intros (x & Hin & ->%String.eqb_eq). by apply list_elem_of_In.
  - intros Hin. exists "_netdev". split; [by apply list_elem_of_In|apply String.eqb_refl].
Qed.

Lemma run_doMount m path source target fstype options s :
  let '(cmd, args) := mount_command m path source target fstype options in
  let '(s', (_, err)) := serve _ (OS (Command cmd args)) s in
  ∃ r, run serve (doMount m path defaultMountCommand source target fstype options) s = (s', r) ∧
    (r = Ok () ↔ err = None) ∧ panics r = false.
Proof.
  unfold doMount, mount_command, addSystemdScope, trigger, defaultMountCommand.
  case_decide; destruct (withSystemd m); rewrite run_bind; cbn [run];
    destruct (serve _ _ s) as [s' [out [e|]]]; eexists; split; done.
Qed.

(** A bind mount takes two commands: first the bind mount itself (with _netdev if
    that is among the options), then, only if that worked, a remount with the
    options of the caller, which the kernel ignores in the first one.  "bind" and
    "remount" themselves are not repeated; so a read-only bind mount ends with
    "-o bind,remount,ro". *)
Theorem Mount_bind m source target fstype options s :
  "bind" ∈ options →
  let first := mount_command m "" source target fstype
                 (if bool_decide ("_netdev" ∈ options) then ["bind"; "_netdev"] else ["bind"]) in
  let second := mount_command m "" source target fstype
                  (["bind"; "remount"] ++ filter (λ o, o ≠ "bind" ∧ o ≠ "remount") options) in
  cmd_log (trace serve (Mount m source target fstype options) s) =
    first :: if decide ((serve _ (OS (Command first.1 first.2)) s).2.2 = None) then [second] else [].
Proof.
  intros Hin first second. unfold Mount. rewrite isBind_spec, bool_decide_true by done. cbv iota.
  rewrite trace_go_bind, cmd_log_app, cmd_log_doMount. fold first. cbn [app]. f_equal.
  pose proof (run_doMount m "" source target fstype
    (if bool_decide ("_netdev" ∈ options) then ["bind"; "_netdev"] else ["bind"]) s) as Hrun.
  fold first in Hrun. destruct first as [cmd args]. cbn [fst snd].
  destruct (serve _ (OS (Command cmd args)) s) as [s' [out err]]. destruct Hrun as (r & -> & Hr & _). cbn [snd].
  destruct r as [[]|e|w]; [rewrite decide_True by (by apply Hr)|rewrite decide_False by (by intros ?%Hr)..]; [|done..].
  apply cmd_log_doMount.
Qed.

(** ** Consistent reads *)

Lemma run_os {A} (e : osE (result A)) s : run serve (os e) s = serve _ (OS e) s.
Proof. unfold os, call, trigger. cbn [run]. by destruct (serve _ _ s). Qed.
Lemma trace_os {A} (e : osE (result A)) s : trace serve (os e) s = [Io (OS e) (serve _ (OS e) s).2].
Proof. unfold os, call, trigger. cbn [trace]. by destruct (serve _ _ s). Qed.

(** The read of one file, with its answer. *)
Definition read_io (filename : string) (c : result string) : io csiE := Io (OS (ReadFile filename)) c.

Lemma consistentRead_loop_spec filename old n left s :
  let tr := trace serve (consistentRead_loop filename old n left) s in
  (length tr ≤ left)%nat ∧
  ∀ s' c, run serve (consistentRead_loop filename old n left) s = (s', Ok c) →
    ∃ pre, read_io filename (Ok old) :: tr = pre ++ [read_io filename (Ok c); read_io filename (Ok c)].
Proof.
  revert old s. induction left as [|left IH]; intros old s; [split; [done|discriminate]|].
  cbn [consistentRead_loop]. rewrite trace_go_bind, run_go_bind, trace_os, run_os. cbv zeta.
  destruct (serve _ (OS (ReadFile filename)) s) as [s1 [c1|e|w]]; cbn [app length snd];
    [|split; [lia|discriminate]..].
  case_decide as Hc.
  - subst c1. split; [cbn; lia|]. intros s' c [= <- <-]. by exists [].
  - destruct (IH c1 s1) as [Hlen Hok]. split; [lia|]. intros s' c Hrun. destruct (Hok s' c Hrun) as [pre Heq].
    exists (read_io filename (Ok old) :: pre). cbn [app]. by rewrite <-Heq.
Qed.

(** Reading /proc files: [consistentRead] returns a content only if the last two
    reads of the file both returned exactly that content, it reads at most once
    more than the number of attempts, and a file that does not change is returned
    after two reads. *)
Theorem consistentRead_spec filename attempts s :
  0 < attempts →
  let tr := trace serve (consistentRead filename attempts) s in
  (Z.of_nat (length tr) ≤ attempts + 1) ∧
  (∀ s' c, run serve (consistentRead filename attempts) s = (s', Ok c) →
     ∃ pre, tr = pre ++ [read_io filename (Ok c); read_io filename (Ok c)]) ∧
  (∀ c, serve _ (OS (ReadFile filename)) s = (s, Ok c) →
     run serve (consistentRead filename attempts) s = (s, Ok c) ∧
     tr = [read_io filename (Ok c); read_io filename (Ok c)]).
Proof.
  intros Hat. unfold consistentRead. rewrite trace_go_bind, run_go_bind, trace_os, run_os. cbv zeta.
  destruct (serve _ (OS (ReadFile filename)) s) as [s1 [c1|e|w]] eqn:Es; cbn [app length snd];
    [|split_and!; [lia|discriminate..]..].
  destruct (consistentRead_loop_spec filename c1 attempts (Z.to_nat attempts) s1) as [Hlen Hok].
  split_and!; [lia|exact Hok|]. intros c [= -> ->].
  replace (Z.to_nat attempts) with (Datatypes.S (Z.to_nat attempts - 1)) by lia. cbn [consistentRead_loop].
  rewrite trace_go_bind, run_go_bind, trace_os, run_os, Es. by rewrite decide_True.
Qed.
End Facts.

(** ** Formatting *)

Section Format.
Context {S : Type} (serve : ∀ B, csiE B → S → S * B).

Lemma run_osExec cmd args s : run serve (osExec cmd args) s = serve _ (OS (ExecRun cmd args)) s.
Proof. unfold osExec, trigger. cbn [run]. by destruct (serve _ _ s). Qed.
Lemma exec_log_osExec cmd args s :
  exec_log (trace serve (osExec cmd args) s) = [(cmd, args, (serve _ (OS (ExecRun cmd args)) s).2)].
Proof. unfold osExec, trigger. cbn [trace]. by destruct (serve _ _ s). Qed.

(** The log of a command whose result is looked at by [f], which runs none. *)
Lemma exec_log_command {A} (f : output → go csiE A) cmd args s :
  (∀ o s', trace serve (f o) s' = []) →
  exec_log (trace serve (pbind f (osExec cmd args)) s) = [(cmd, args, (serve _ (OS (ExecRun cmd args)) s).2)].
Proof.
  intros Hf. rewrite trace_bind, exec_log_app, exec_log_osExec. destruct (run _ _ s) as [s' o]. by rewrite Hf.
Qed.

Lemma trace_check e s : trace serve (check (E := csiE) e) s = [].
Proof. by destruct e. Qed.

(** Everything that [FormatAndMount] runs after a failed mount. *)
Lemma format_step source target fstype options (m : Mounter) s (cmd : string) args out :
  (cmd, args, out) ∈ exec_log (trace serve
    (_ ← pbind (λ '(_, err), check err) (osExec ("mkfs." +:+ fstype) (mkfs_args fstype source));
     Mount m source target fstype options) s) →
  exec_log (trace serve
    (_ ← pbind (λ '(_, err), check err) (osExec ("mkfs." +:+ fstype) (mkfs_args fstype source));
     Mount m source target fstype options) s) = [(cmd, args, out)] ∧
  cmd = "mkfs." +:+ fstype ∧ args = mkfs_args fstype source.
Proof.
  rewrite trace_go_bind, exec_log_app, exec_log_command by (intros [? ?] ?; apply trace_check).
  assert (∀ x : S * result (), exec_log (let '(s', r) := x in
    match r with Ok _ => trace serve (Mount m source target fstype options) s' | _ => [] end) = []) as ->.
  { intros [s' [?|?|?]]; [apply exec_log_Mount|done..]. }
  rewrite app_nil_r. intros Hin%list_elem_of_singleton. injection Hin as -> -> ->. done.
Qed.

Lemma exec_log_GetDiskFormat disk s :
  exec_log (trace serve (GetDiskFormat osExec disk) s) =
    [("blkid", blkid_args disk, (serve _ (OS (ExecRun "blkid" (blkid_args disk))) s).2)].
Proof. by apply exec_log_command. Qed.

Lemma run_GetDiskFormat disk s :
  run serve (GetDiskFormat osExec disk) s =
    let '(s', out) := serve _ (OS (ExecRun "blkid" (blkid_args disk))) s in (s', parse_blkid out).
Proof. unfold GetDiskFormat. rewrite run_bind, run_osExec. by destruct (serve _ _ s). Qed.

(** The part of [FormatAndMount] after fsck. *)
Definition mount_or_format (m : Mounter) (source target fstype : string) (readOnly : bool) (options : list string) :
    go csiE () :=
  r ← attempt (Mount m source target fstype options);
  match r with
  | Ok _ => mret ()
  | Panic w => from_result (Panic w)
  | Err mountErr =>
      existingFormat ← GetDiskFormat osExec source;
      if decide (existingFormat = "") then
        if readOnly then fail (ErrorNew "failed to mount unformatted volume as read only")
        else
          let fstype := if decide (fstype = "") then "ext4" else fstype in
          _ ← pbind (λ '(_, err), check err) (osExec ("mkfs." +:+ fstype) (mkfs_args fstype source));
          Mount m source target fstype options
      else if decide (fstype = "" ∨ fstype = existingFormat) then fail mountErr
      else fail (Errorf "failed to mount the volume as %q, it already contains %s. Mount error: %v"
                   [fstype; existingFormat; Error mountErr])
  end.

(** What [mkfs] may be run on, and when. *)
Definition format_allowed (source fstype : string) (readOnly : bool)
    (log : list (string * list string * output)) (cmd : string) (args : list string) (out : output) : Prop :=
  readOnly = false ∧
  let fstype := if decide (fstype = "") then "ext4" else fstype in
  cmd = "mkfs." +:+ fstype ∧ args = mkfs_args fstype source ∧
  ∃ pre blkid, log = pre ++ [("blkid", blkid_args source, blkid); (cmd, args, out)] ∧ parse_blkid blkid = Ok "".

Lemma exec_log_mount_or_format m source target fstype readOnly options s cmd args out :
  (cmd, args, out) ∈ exec_log (trace serve (mount_or_format m source target fstype readOnly options) s) →
  HasPrefix cmd "mkfs." = true →
  format_allowed source fstype readOnly
    (exec_log (trace serve (mount_or_format m source target fstype readOnly options) s)) cmd args out.
Proof.
  unfold mount_or_format. rewrite trace_go_bind, trace_attempt, exec_log_app, exec_log_Mount, run_attempt. cbn [app].
  destruct (run _ (Mount _ _ _ _ _) s) as [s1 [u|e|w]]; [by intros ?%elem_of_nil| |by intros ?%elem_of_nil].
  rewrite trace_go_bind, exec_log_app, exec_log_GetDiskFormat, run_GetDiskFormat.
  destruct (serve _ (OS (ExecRun "blkid" _)) s1) as [s2 blkid]. cbn [snd].
  intros Hin Hmkfs. apply elem_of_app in Hin as [Hin|Hin].
  { apply list_elem_of_singleton in Hin. injection Hin as -> -> ->. done. }
  destruct (parse_blkid blkid) as [fmt|?|?] eqn:Eb; [|by apply elem_of_nil in Hin..].
  destruct (decide (fmt = "")) as [->|]; [|case_decide; by apply elem_of_nil in Hin].
  destruct readOnly; [by apply elem_of_nil in Hin|].
  apply format_step in Hin as (Hlog & Hcmd & Hargs). split; [done|]. split; [done|]. split; [done|].
  exists [], blkid. split; [|done]. cbn [app]. f_equal. exact Hlog.
Qed.

Lemma FormatAndMount_unfold m source target fstype options :
  FormatAndMount (mounter_ops m) osExec source target fstype options =
    let readOnly := existsb (String.eqb "ro") options in
    _ ← (if readOnly then mret ()
         else pbind (λ out, check (fsck_error source out)) (osExec "fsck" ["-a"; source]));
    mount_or_format m source target fstype readOnly (options ++ ["defaults"]).
Proof. done. Qed.

End Format.

(** ** The output of blkid *)

(** "-o export" prints one key and value per line. *)
Definition export_line (kv : string * string) : string := kv.1 +:+ "=" +:+ kv.2.
Definition export_text (kvs : list (string * string)) : string :=
  foldr (λ kv rest, export_line kv +:+ String newline rest) "" kvs.

Definition without (c : ascii) (s : string) : Prop := string_all (λ a, negb (bool_decide (a = c))) s = true.
Definition export_ok (kv : string * string) : Prop :=
  without "="%char kv.1 ∧ without newline kv.1 ∧ without "="%char kv.2 ∧ without newline kv.2.

(** The last value of a key. *)
Fixpoint last_value (key : string) (kvs : list (string * string)) : option string :=
  match kvs with
  | [] => None
  | (k, v) :: kvs' =>
      match last_value key kvs' with Some x => Some x | None => if decide (k = key) then Some v else None end
  end.

Lemma without_app c s t : without c s → without c t → without c (s +:+ t).
Proof. unfold without. rewrite string_all_app. intros -> ->. done. Qed.

Lemma export_line_without kv : export_ok kv → without newline (export_line kv).
Proof. intros (_ & Hk & _ & Hv). unfold export_line. apply without_app; [done|]. by apply (without_app _ "="). Qed.

Lemma Split_export_text kvs :
  Forall export_ok kvs → Split (export_text kvs) newline = (export_line <$> kvs) ++ [""].
Proof.
  induction 1 as [|kv kvs Hkv _ IH]; [done|]. cbn [export_text foldr]. rewrite Split_app_sep.
  rewrite Split_nosep by (by apply export_line_without).
  unfold export_text in IH. by rewrite IH.
Qed.

Lemma blkid_lines_export output kvs fstype pttype :
  Forall export_ok kvs →
  blkid_lines output ((export_line <$> kvs) ++ [""]) fstype pttype =
    Ok (default fstype (last_value "TYPE" kvs), default pttype (last_value "PTTYPE" kvs)).
Proof.
  intros Hkvs. revert fstype pttype. induction Hkvs as [|[k v] kvs (Hk & _ & Hv & _) _ IH]; intros fstype pttype; [done|].
  cbn [fmap list_fmap app blkid_lines last_value]. rewrite decide_False by (by destruct k).
  unfold export_line at 1. cbn [fst snd String.append] in *.
  rewrite Split_app_sep, !Split_nosep by done. cbn [app].
  destruct (decide (k = "TYPE")) as [->|H1]; [|destruct (decide (k = "PTTYPE")) as [->|H2]]; rewrite IH;
    destruct (last_value "TYPE" kvs), (last_value "PTTYPE" kvs); done.
Qed.

(** What blkid prints is understood: for output in its export format
    [GetDiskFormat] answers with the value of TYPE, or with the text that stands for
    unknown data as soon as there is a partition table (PTTYPE); so a disk with a
    partition table never counts as unformatted. *)
Theorem parse_blkid_export kvs :
  Forall export_ok kvs →
  parse_blkid (export_text kvs, None) =
    Ok (if decide (default "" (last_value "PTTYPE" kvs) = "") then default "" (last_value "TYPE" kvs)
        else "unknown data, probably partitions").
Proof.
  intros Hkvs. unfold parse_blkid. rewrite Split_export_text, blkid_lines_export by done.
  cbn [mbind result_mbind result_bind]. by case_decide.
Qed.

Lemma parse_blkid_export_witness :
  parse_blkid (export_text [("DEVNAME", "/dev/sda"); ("PTTYPE", "dos")], None) =
    Ok "unknown data, probably partitions".
Proof.
  exact (parse_blkid_export [("DEVNAME", "/dev/sda"); ("PTTYPE", "dos")] ltac:(by repeat constructor)).
Defined.

(** ** /proc/mounts *)

Definition mount_fields (mp : MountPoint) : list string :=
  [mp_Device mp; mp_Path mp; mp_Type mp; Join (mp_Opts mp) ","; Itoa (mp_Freq mp); Itoa (mp_Pass mp)].
Definition mount_line (mp : MountPoint) : string := Join (mount_fields mp) " ".
Definition mount_table (mps : list MountPoint) : string :=
  foldr (λ mp rest, mount_line mp +:+ String newline rest) "" mps.

(** The kernel escapes white space in these fields. *)
Definition field_ok (s : string) : Prop := s ≠ "" ∧ string_all (λ c, negb (is_space c)) s = true.
Definition mount_ok (mp : MountPoint) : Prop :=
  field_ok (mp_Device mp) ∧ field_ok (mp_Path mp) ∧ field_ok (mp_Type mp) ∧
  mp_Opts mp ≠ [] ∧ Forall (λ o, field_ok o ∧ without ","%char o) (mp_Opts mp) ∧
  0 ≤ mp_Freq mp < 2 ^ 63 ∧ 0 ≤ mp_Pass mp < 2 ^ 63.

Lemma field_ok_join opts : opts ≠ [] → Forall field_ok opts → field_ok (Join opts ",").
Proof.
  intros Hne H. induction H as [|o opts [Ho1 Ho2] Hopts IH]; [done|]. destruct opts as [|o' opts]; [done|].
  destruct IH as [_ IH]; [done|]. change (Join (o :: o' :: opts) ",") with (o +:+ "," +:+ Join (o' :: opts) ",").
  split; [by destruct o|]. rewrite !string_all_app, Ho2, IH. done.
Qed.

Lemma Itoa_field n : 0 ≤ n → field_ok (Itoa n).
Proof.
  intros Hn. unfold Itoa. destruct (Z.ltb_spec n 0); [lia|]. split; [apply FormatUint_nonempty|].
  apply (string_all_impl (is_digit 10)); [|by apply FormatUint_all].
  intros c. destruct c as [[] [] [] [] [] [] [] []]; done.
Qed.

Lemma mount_fields_ok mp : mount_ok mp → Forall field_ok (mount_fields mp).
Proof.
  intros (? & ? & ? & Hne & Ho & ? & ?). repeat apply Forall_cons_2; try done.
  - apply field_ok_join; [done|]. eapply Forall_impl; [exact Ho|]. by intros ? [? _].
  - apply Itoa_field; lia.
  - apply Itoa_field; lia.
Qed.

Lemma parseMountLine_line mp : mount_ok mp → parseMountLine (mount_line mp) = Ok mp.
Proof.
  intros Hmp. pose proof (mount_fields_ok mp Hmp) as Hf. unfold parseMountLine, mount_line, Fields.
  rewrite FieldsFunc_Join by done. destruct Hmp as (_ & _ & _ & Hne & Ho & Hfr & Hpa).
  cbn [mount_fields]. unfold atoi. rewrite !Atoi_Itoa by lia. cbn [mbind result_mbind result_bind].
  rewrite Split_Join; [by destruct mp|done|]. eapply Forall_impl; [exact Ho|]. by intros ? [_ ?].
Qed.

Lemma mount_line_nonempty mp : mount_ok mp → mount_line mp ≠ "".
Proof. intros [[Hd _] _]. unfold mount_line. cbn [mount_fields Join]. by destruct (mp_Device mp). Qed.

Lemma no_newline s : string_all (λ c, negb (is_space c)) s = true → without newline s.
Proof. apply string_all_impl. intros c. destruct c as [[] [] [] [] [] [] [] []]; done. Qed.

Lemma Join_without c sep l : without c sep → Forall (without c) l → without c (Join l sep).
Proof.
  intros Hs H. induction H as [|w l Hw Hl IH]; [done|]. destruct l as [|w' l]; [done|].
  change (Join (w :: w' :: l) sep) with (w +:+ sep +:+ Join (w' :: l) sep). by repeat apply without_app.
Qed.

Lemma parse_mount_table mps : Forall mount_ok mps → parseProcMounts (mount_table mps) = Ok mps.
Proof.
  unfold parseProcMounts. induction 1 as [|mp mps Hmp _ IH]; [done|]. cbn [mount_table foldr].
  rewrite Split_app_sep, Split_nosep; last first.
  { apply Join_without; [done|]. eapply Forall_impl; [by apply mount_fields_ok|]. intros f [_ Hf]. by apply no_newline. }
  cbn [app parse_lines]. rewrite decide_False by (by apply mount_line_nonempty).
  rewrite parseMountLine_line by done. cbn [mbind result_mbind result_bind].
  unfold mount_table in IH. by rewrite IH.
Qed.

(** The mount table: parsing the lines that the kernel prints for a list of mount
    points gives back exactly that list, with all options in order. *)
Theorem parseProcMounts_roundtrip mps : Forall mount_ok mps → parseProcMounts (mount_table mps) = Ok mps.
Proof. apply parse_mount_table. Qed.

Definition example_mount : MountPoint :=
  MkMountPoint "/dev/sda" "/var/lib/kubelet/pods/1/mount" "ext4" ["rw"; "relatime"] 0 0.

Lemma example_mount_ok : mount_ok example_mount.
Proof. repeat constructor; vm_compute; done. Qed.

Lemma parseProcMounts_roundtrip_witness :
  parseProcMounts (mount_table [example_mount; example_mount]) = Ok [example_mount; example_mount].
Proof. exact (parseProcMounts_roundtrip _ (Forall_cons_2 _ _ _ example_mount_ok (proj2 (Forall_singleton _ _) example_mount_ok))). Defined.

(** ** A machine with one disk

    The disk has a file system or not; mounting works if it has one; there is no
    systemd; the mount table never changes. *)
Definition serve_disk : ∀ B, csiE B → option string → option string * B := λ B e,
  match e in csiE B return option string → option string * B with
  | OS e =>
      match e in osE B return option string → option string * B with
      | Command "mount" _ => λ fs, match fs with
                                   | Some _ => (fs, ("", None))
                                   | None => (fs, ("wrong fs type", Some (ExitError 32)))
                                   end
      | ExecRun "blkid" _ => λ fs, match fs with
                                   | Some t => (fs, (export_text [("TYPE", t)], None))
                                   | None => (fs, ("", Some (ExitError 2)))
                                   end
      | ExecRun "fsck" _ => λ fs, (fs, ("", None))
      | ExecRun cmd _ => λ fs, match CutPrefix "mkfs." cmd with
                               | Some t => (Some t, ("", None))
                               | None => (fs, ("", Some ErrExecutableNotFound))
                               end
      | ReadFile _ => λ fs, (fs, Ok (mount_table [example_mount]))
      | e => λ fs, (fs, refuse_os e)
      end
  | e => λ fs, (fs, refuse e)
  end.

Definition plain_mounter : Mounter := MkMounter "" false.

Lemma Mount_bind_witness :
  cmd_log (trace serve_disk (Mount plain_mounter "/stage" "/pod" "ext4" ["bind"; "ro"]) (Some "ext4")) =
    [("mount", ["-t"; "ext4"; "-o"; "bind"; "/stage"; "/pod"]);
     ("mount", ["-t"; "ext4"; "-o"; "bind,remount,ro"; "/stage"; "/pod"])].
Proof.
  refine (eq_trans (Mount_bind serve_disk plain_mounter "/stage" "/pod" "ext4" ["bind"; "ro"] (Some "ext4") _) _).
  - apply elem_of_cons. by left.
  - by vm_compute.
Defined.

Lemma consistentRead_spec_witness :
  run serve_disk (consistentRead procMountsPath maxListTries) None = (None, Ok (mount_table [example_mount])).
Proof.
  apply (consistentRead_spec serve_disk procMountsPath maxListTries None); [by vm_compute|done].
Defined.

