(* ===== verification/Subpath.v ===== *)
(** * Subpaths: the second half of pkg/mount/mount_linux.go

    Opening and creating paths below a directory that somebody else may change,
    bind-mounting a subpath and cleaning up.  File descriptors are integers, every
    system call is an event, a deferred [syscall.Close] runs on every way out and
    its error is only logged. *)
From S2P Require Import Prelude GoStrings Strconv Errors Effects SPDK CSIEnv Paths Mount.

Definition O_NOFOLLOW : Z := 0x20000.
Definition O_PATH : Z := 0x200000.
Definition nofollowFlags : Z := O_NOFOLLOW.
Definition openFDFlags : Z := Z.lor O_NOFOLLOW O_PATH.
Definition S_IFMT : Z := 0xf000.
Definition S_IFLNK : Z := 0xa000.
Definition S_ISUID : Z := 0x800.
Definition S_ISGID : Z := 0x400.
Definition S_ISVTX : Z := 0x200.
Definition containerSubPathDirectoryName : string := "volume-subpaths".

Record Subpath := MkSubpath {
  sp_VolumeMountIndex : Z; sp_Path : string; sp_VolumeName : string; sp_VolumePath : string;
  sp_PodDir : string; sp_ContainerName : string
}.

(** [p], and then the deferred [Close] of the descriptors. *)
Fixpoint close_fds {A} (fds : list Z) (r : result A) : go csiE A :=
  match fds with
  | [] => Ret r
  | fd :: fds' => Vis (OS (SysClose fd)) (λ _, close_fds fds' r)
  end.
Definition closing_fds {A} (fds : list Z) (p : go csiE A) : go csiE A := pbind (close_fds fds) p.

(** ** doSafeOpen *)

(** The loop: [parentFD] is open; the result is the descriptor that stays open. *)
Fixpoint safe_walk (base currentPath : string) (segments : list string) (parentFD : Z) : go csiE Z :=
  match segments with
  | [] => mret parentFD
  | seg :: segments' =>
      let currentPath := JoinPath [currentPath; seg] in
      if negb (PathWithinBase currentPath base)
      then closing_fds [parentFD] (fail (Errorf "path %s is outside of allowed base %s" [currentPath; base]))
      else
        r ← attempt (os (SysOpenat parentFD seg openFDFlags));
        match r with
        | Err e => closing_fds [parentFD] (fail (Errorf "cannot open %s: %s" [currentPath; Error e]))
        | Panic w => from_result (Panic w)
        | Ok childFD =>
            r ← attempt (os (SysFstat childFD));
            match r with
            | Err e =>
                closing_fds [childFD; parentFD] (fail (Errorf "Error running fstat on %s with %v" [currentPath; Error e]))
            | Panic w => from_result (Panic w)
            | Ok mode =>
                if decide (Z.land mode S_IFMT = S_IFLNK)
                then closing_fds [childFD; parentFD] (fail (Errorf "Unexpected symlink found %s" [currentPath]))
                else
                  r ← attempt (os (SysClose parentFD));
                  match r with
                  | Err e =>
                      closing_fds [childFD; parentFD]
                        (fail (Errorf "closing fd for %q failed: %v" [Dir currentPath; Error e]))
                  | Panic w => from_result (Panic w)
                  | Ok _ => safe_walk base currentPath segments' childFD
                  end
            end
        end
  end.

Definition doSafeOpen (pathname base : string) : go csiE Z :=
  let pathname := Clean pathname in
  let base := Clean base in
  subpath ← from_result (Rel base pathname);
  let segments := Split subpath sep in
  parentFD ← errorf_err "cannot open directory %s: %s" [base] (os (SysOpen base nofollowFlags));
  safe_walk base base segments parentFD.

Definition safeOpenSubPath (subpath : Subpath) : go csiE Z :=
  if negb (PathWithinBase (sp_Path subpath) (sp_VolumePath subpath))
  then fail (Errorf "subpath %q not within volume path %q" [sp_Path subpath; sp_VolumePath subpath])
  else errorf_err "error opening subpath %v: %v" [sp_Path subpath] (doSafeOpen (sp_Path subpath) (sp_VolumePath subpath)).

(** ** Creating directories *)

(** The loop of [findExistingPrefix]: [fd] is open and is closed at the end. *)
Fixpoint existing_prefix (base currentPath : string) (dirs : list string) (fd : Z) : go csiE (string * list string) :=
  match dirs with
  | [] => closing_fds [fd] (mret (currentPath, []))
  | dir :: dirs' =>
      r ← attempt (os (SysOpenat fd dir O_PATH));
      match r with
      | Err e => closing_fds [fd] (if IsNotExist e then mret (currentPath, dirs) else fail e)
      | Panic w => from_result (Panic w)
      | Ok childFD =>
          _ ← attempt (os (SysClose fd));
          existing_prefix base (JoinPath [currentPath; dir]) dirs' childFD
      end
  end.

(** When everything exists the code returns [pathname] itself. *)
Definition findExistingPrefix (base pathname : string) : go csiE (string * list string) :=
  rel ← from_result (Rel base pathname);
  let dirs := Split rel sep in
  fd ← errorf_err "error opening %s: %s" [base] (os (SysOpen base 0));
  '(path, rest) ← existing_prefix base base dirs fd;
  mret (if decide (rest = []) then (pathname, []) else (path, rest)).

(** The loop of [doSafeMakeDir]: one directory after the other; mkdirat gets the
    full path.  The result is the last descriptor and path. *)
Fixpoint make_dirs (currentPath : string) (toCreate : list string) (perm parentFD : Z) : go csiE (Z * string) :=
  match toCreate with
  | [] => mret (parentFD, currentPath)
  | dir :: toCreate' =>
      let currentPath := JoinPath [currentPath; dir] in
      r ← attempt (os (SysMkdirat parentFD currentPath perm));
      match r with
      | Err e => closing_fds [parentFD] (fail (Errorf "cannot create directory %s: %s" [currentPath; Error e]))
      | Panic w => from_result (Panic w)
      | Ok _ =>
          r ← attempt (os (SysOpenat parentFD dir nofollowFlags));
          match r with
          | Err e => closing_fds [parentFD] (fail (Errorf "cannot open %s: %s" [currentPath; Error e]))
          | Panic w => from_result (Panic w)
          | Ok childFD =>
              _ ← attempt (os (SysClose parentFD));
              make_dirs currentPath toCreate' perm childFD
          end
      end
  end.

Definition kernel_perm (perm : Z) : Z :=
  let kernelPerm := Z.land perm ModePerm in
  let kernelPerm := if Z.land perm ModeSetgid =? 0 then kernelPerm else Z.lor kernelPerm S_ISGID in
  let kernelPerm := if Z.land perm ModeSetuid =? 0 then kernelPerm else Z.lor kernelPerm S_ISUID in
  if Z.land perm ModeSticky =? 0 then kernelPerm else Z.lor kernelPerm S_ISVTX.

(** The text of a nil error as the operand of a format, as fmt prints it. *)
Definition nil_operand : string := "%!s(<nil>)".

Definition doSafeMakeDir (pathname base : string) (perm : Z) : go csiE () :=
  if negb (PathWithinBase pathname base)
  then fail (Errorf "path %s is outside of allowed base %s" [pathname; base])
  else
    r ← attempt (os (Stat pathname));
    match r with
    | Ok s => if IsDir (Mode s) then mret () else fail (SysError ENOTDIR pathname)
    | Panic w => from_result (Panic w)
    | Err _ =>
        '(existingPath, toCreate) ← errorf_err "error opening directory %s: %s" [pathname] (findExistingPrefix base pathname);
        fullExistingPath ← errorf_err "error opening directory %s: %s" [existingPath] (os (EvalSymlinks existingPath));
        if negb (PathWithinBase fullExistingPath base)
        then fail (Errorf "path %s is outside of allowed base %s" [fullExistingPath; nil_operand])
        else
          parentFD ← errorf_err "cannot open directory %s: %s" [existingPath] (doSafeOpen fullExistingPath base);
          '(parentFD, currentPath) ← make_dirs fullExistingPath toCreate (uint32 perm) parentFD;
          closing_fds [parentFD]
            (errorf_err "chmod %q failed: %s" [currentPath] (os (SysFchmod parentFD (kernel_perm perm))))
    end.

Definition SafeMakeDir (subdir base : string) (perm : Z) : go csiE () :=
  realBase ← errorf_err "error resolving symlinks in %s: %s" [base] (os (EvalSymlinks base));
  doSafeMakeDir (JoinPath [realBase; subdir]) realBase perm.

(** ** Bind-mounting a subpath *)

Definition getSubpathBindTarget (subpath : Subpath) : string :=
  JoinPath [sp_PodDir subpath; containerSubPathDirectoryName; sp_VolumeName subpath; sp_ContainerName subpath;
            Itoa (sp_VolumeMountIndex subpath)].

(** Whether something is mounted already, and the target. *)
Definition prepareSubpathTarget (mounter : MountOps) (subpath : Subpath) : go csiE (bool * string) :=
  let bindPathTarget := getSubpathBindTarget subpath in
  r ← attempt (IsNotMountPoint mounter bindPathTarget);
  notMount ← match r with
             | Err e => if IsNotExist e then mret true
                        else fail (Errorf "error checking path %s for mount: %s" [bindPathTarget; Error e])
             | Ok notMount => mret notMount
             | Panic w => from_result (Panic w)
             end;
  if negb notMount then mret (true, bindPathTarget)
  else
    let bindParent := Dir bindPathTarget in
    r ← attempt (os (MkdirAll bindParent 0x1e8));
    _ ← match r with
        | Err e => if IsExist e then mret ()
                   else fail (Errorf "error creating directory %s: %s" [bindParent; Error e])
        | _ => mret ()
        end;
    t ← errorf_err "lstat %s failed: %s" [sp_Path subpath] (os (Lstat (sp_Path subpath)));
    _ ← (if 0 <? Z.land (Mode t) ModeDir then
           r ← attempt (os (Mkdir bindPathTarget 0x1e8));
           match r with
           | Err e => if IsExist e then mret ()
                      else fail (Errorf "error creating directory %s: %s" [bindPathTarget; Error e])
           | _ => mret ()
           end
         else errorf_err "error creating file %s: %s" [bindPathTarget] (os (WriteFile bindPathTarget "" 0x1a0)));
    mret (false, bindPathTarget).

(** ** Cleaning up *)

Definition doCleanSubPath (mounter : MountOps) (fullContainerDirPath subPathIndex : string) : go csiE () :=
  let fullSubPath := JoinPath [fullContainerDirPath; subPathIndex] in
  notMnt ← errorf_err "error checking %s for mount: %s" [fullSubPath] (IsNotMountPoint mounter fullSubPath);
  _ ← (if negb notMnt then errorf_err "error unmounting %s: %s" [fullSubPath] (im_Unmount mounter fullSubPath)
       else mret ());
  errorf_err "error deleting %s: %s" [fullSubPath] (os (Remove fullSubPath)).

(** The loop of [removeEmptyDirs]; [None] when [fuel] rounds were not enough. *)
Fixpoint remove_dirs (fuel : nat) (baseDir curDir : string) : go csiE (option ()) :=
  match fuel with
  | O => mret None
  | S fuel' =>
      if decide (curDir = baseDir) then mret (Some ())
      else
        r ← attempt (os (Stat curDir));
        match r with
        | Err e =>
            if IsNotExist e then remove_dirs fuel' baseDir (Dir curDir)
            else fail (Errorf "error stat %q: %v" [curDir; Error e])
        | Panic w => from_result (Panic w)
        | Ok s =>
            if negb (IsDir (Mode s)) then fail (Errorf "path %q not a directory" [curDir])
            else
              r ← attempt (os (Remove curDir));
              match r with
              | Err e =>
                  if IsExist e then mret (Some ())
                  else fail (Errorf "error removing directory %q: %v" [curDir; Error e])
              | Panic w => from_result (Panic w)
              | Ok _ => remove_dirs fuel' baseDir (Dir curDir)
              end
        end
  end.

Definition removeEmptyDirs (fuel : nat) (baseDir endDir : string) : go csiE (option ()) :=
  if negb (PathWithinBase endDir baseDir)
  then fail (Errorf "endDir %q is not within baseDir %q" [endDir; baseDir])
  else remove_dirs fuel baseDir endDir.

Definition cleanSubPath (fuel : nat) (mounter : MountOps) (subpath : Subpath) : go csiE (option ()) :=
  let containerDir :=
    JoinPath [sp_PodDir subpath; containerSubPathDirectoryName; sp_VolumeName subpath; sp_ContainerName subpath] in
  r ← attempt (doCleanSubPath mounter containerDir (Itoa (sp_VolumeMountIndex subpath)));
  match r with
  | Err e => if IsNotExist e then removeEmptyDirs fuel (sp_PodDir subpath) containerDir else fail e
  | Panic w => from_result (Panic w)
  | Ok _ => removeEmptyDirs fuel (sp_PodDir subpath) containerDir
  end.

(** The mount, with the deferred cleanup when it fails.  The cleanup is the only part
    that needs fuel; [removeEmptyDirs_confined] says how much is enough. *)
Definition bind_opened (fuel : nat) (mounter : MountOps) (subpath : Subpath) (fd : Z) : go csiE string :=
  '(alreadyMounted, bindPathTarget) ← prepareSubpathTarget mounter subpath;
  if alreadyMounted : bool then mret bindPathTarget
  else
    pbind (λ kubeletPid : Z,
      let mountSource := "/proc/" +:+ Itoa kubeletPid +:+ "/fd/" +:+ Itoa fd in
      r ← attempt (im_Mount mounter mountSource bindPathTarget "" ["bind"]);
      match r with
      | Err e =>
          _ ← attempt (cleanSubPath fuel mounter subpath);
          fail (Errorf "error mounting %s: %s" [sp_Path subpath; Error e])
      | Panic w => _ ← attempt (cleanSubPath fuel mounter subpath); from_result (Panic w)
      | Ok _ => mret bindPathTarget
      end) (trigger (OS Getpid)).

Definition doBindSubPath (fuel : nat) (mounter : MountOps) (subpath : Subpath) : go csiE string :=
  newVolumePath ← errorf_err "error resolving symlinks in %q: %v" [sp_VolumePath subpath] (os (EvalSymlinks (sp_VolumePath subpath)));
  newPath ← errorf_err "error resolving symlinks in %q: %v" [sp_Path subpath] (os (EvalSymlinks (sp_Path subpath)));
  let subpath := MkSubpath (sp_VolumeMountIndex subpath) newPath (sp_VolumeName subpath) newVolumePath
                   (sp_PodDir subpath) (sp_ContainerName subpath) in
  fd ← safeOpenSubPath subpath;
  closing_fds [fd] (bind_opened fuel mounter subpath fd).

Definition clean_container (mounter : MountOps) (subPathDir : string) (containerDir : DirEntry) : go csiE () :=
  if negb (EntryIsDir containerDir) then mret ()
  else
    let fullContainerDirPath := JoinPath [subPathDir; EntryName containerDir] in
    subPaths ← errorf_err "error reading %s: %s" [fullContainerDirPath] (os (ReadDir fullContainerDirPath));
    _ ← for_each subPaths (λ subPath, doCleanSubPath mounter fullContainerDirPath (EntryName subPath));
    errorf_err "error deleting %s: %s" [fullContainerDirPath] (os (Remove fullContainerDirPath)).

Definition doCleanSubPaths (mounter : MountOps) (podDir volumeName : string) : go csiE () :=
  let subPathDir := JoinPath [podDir; containerSubPathDirectoryName; volumeName] in
  r ← attempt (os (ReadDir subPathDir));
  match r with
  | Err e => if IsNotExist e then mret () else fail (Errorf "error reading %s: %s" [subPathDir; Error e])
  | Panic w => from_result (Panic w)
  | Ok containerDirs =>
      _ ← for_each containerDirs (clean_container mounter subPathDir);
      _ ← errorf_err "error deleting %s: %s" [subPathDir] (os (Remove subPathDir));
      let podSubPathDir := JoinPath [podDir; containerSubPathDirectoryName] in
      r ← attempt (os (Remove podSubPathDir));
      match r with
      | Err e => if IsExist e then mret () else fail (Errorf "error deleting %s: %s" [podSubPathDir; Error e])
      | _ => mret ()
      end
  end.

Definition PrepareSafeSubpath (fuel : nat) (mounter : Mounter) (subPath : Subpath) : go csiE string :=
  doBindSubPath fuel (mounter_ops mounter) subPath.

Definition CleanSubPaths (mounter : Mounter) (podDir volumeName : string) : go csiE () :=
  doCleanSubPaths (mounter_ops mounter) podDir volumeName.

(** ** Descriptors *)

Section Descriptors.
Context {S : Type} (serve : ∀ B, csiE B → S → S * B) (fds : S → gset Z).

(** What the kernel does with descriptors. *)
Hypothesis SysOpen_fds : ∀ path flags s s' r,
  serve _ (OS (SysOpen path flags)) s = (s', r) →
  match r with Ok fd => (fd ∉ fds s) ∧ fds s' = ({[fd]} ∪ fds s) | _ => fds s' = fds s end.
Hypothesis SysOpenat_fds : ∀ dirfd path flags s s' r,
  serve _ (OS (SysOpenat dirfd path flags)) s = (s', r) →
  match r with Ok fd => (fd ∉ fds s) ∧ fds s' = ({[fd]} ∪ fds s) | _ => fds s' = fds s end.
Hypothesis SysClose_fds : ∀ fd s s' r, serve _ (OS (SysClose fd)) s = (s', r) → fds s' = fds s ∖ {[fd]}.
Hypothesis SysFstat_fds : ∀ fd s s' r, serve _ (OS (SysFstat fd)) s = (s', r) → fds s' = fds s.

Lemma run_close_fds {A} l (r : result A) s : ∃ s', run serve (close_fds l r) s = (s', r) ∧ fds s' = fds s ∖ list_to_set l.
Proof.
  revert s. induction l as [|fd l IH]; intros s; cbn [close_fds run list_to_set].
  - exists s. split; [done|]. set_solver.
  - destruct (serve _ (OS (SysClose fd)) s) as [s1 r1] eqn:E. apply SysClose_fds in E.
    destruct (IH s1) as (s2 & -> & Hs2). exists s2. split; [done|]. rewrite Hs2, E. set_solver.
Qed.

(** What a function that opens one descriptor promises. *)
Definition opens (open_ : gset Z) (s' : S) (r : result Z) : Prop :=
  match r with Ok fd => (fd ∉ open_) ∧ fds s' = ({[fd]} ∪ open_) | Err _ => (fds s' = open_) | Panic _ => True end.

Lemma safe_walk_fds base currentPath segments parentFD s open_ s' r :
  parentFD ∉ open_ → fds s = {[parentFD]} ∪ open_ →
  run serve (safe_walk base currentPath segments parentFD) s = (s', r) → opens open_ s' r.
Proof.
  revert currentPath parentFD s. induction segments as [|seg segments IH]; intros cur parentFD s Hnew Hs; cbn [safe_walk].
  { intros [= <- <-]. done. }
  destruct (negb _).
  { unfold closing_fds, fail. cbn [pbind]. destruct (run_close_fds (A := Z) [parentFD]
      (Err (Errorf "path %s is outside of allowed base %s" [JoinPath [cur; seg]; base])) s) as (s1 & -> & Hs1).
    intros [= <- <-]. cbn. rewrite Hs1, Hs. set_solver. }
  rewrite run_go_bind, run_attempt. unfold os, call, trigger. cbn [run].
  destruct (serve _ (OS (SysOpenat parentFD seg openFDFlags)) s) as [s1 [childFD|e|w]] eqn:Eo; apply SysOpenat_fds in Eo.
  - destruct Eo as [Hchild Hs1]. rewrite run_go_bind, run_attempt. cbn [run].
    destruct (serve _ (OS (SysFstat childFD)) s1) as [s2 r2] eqn:Ef. apply SysFstat_fds in Ef.
    assert (∀ e, ∃ s3, run serve (closing_fds (A := Z) [childFD; parentFD] (fail e)) s2 = (s3, Err e) ∧ fds s3 = open_) as Hboth.
    { intros e. unfold closing_fds, fail. cbn [pbind].
      destruct (run_close_fds (A := Z) [childFD; parentFD] (Err e) s2) as (s3 & -> & Hs3). eexists. split; [done|].
      rewrite Hs3, Ef, Hs1, Hs. set_solver. }
    destruct r2 as [mode|e|w]; [|by destruct (Hboth (Errorf "Error running fstat on %s with %v" [JoinPath [cur; seg]; Error e]))
      as (s3 & -> & Hs3); intros [= <- <-]|by intros [= <- <-]].
    case_decide.
    { destruct (Hboth (Errorf "Unexpected symlink found %s" [JoinPath [cur; seg]])) as (s3 & -> & Hs3). by intros [= <- <-]. }
    rewrite run_go_bind, run_attempt. cbn [run].
    destruct (serve _ (OS (SysClose parentFD)) s2) as [s3 r3] eqn:Ec. apply SysClose_fds in Ec.
    assert (fds s3 = {[childFD]} ∪ open_) as Hs3 by (rewrite Ec, Ef, Hs1, Hs; set_solver).
    destruct r3 as [u|e|w]; [|unfold closing_fds, fail; cbn [pbind]|by intros [= <- <-]].
    + intros Hrun. eapply IH; [|exact Hs3|exact Hrun]. set_solver.
    + match goal with |- context [close_fds _ ?x] => destruct (run_close_fds [childFD; parentFD] x s3) as (s4 & -> & Hs4) end.
      intros [= <- <-]. cbn. rewrite Hs4, Hs3. set_solver.
  - unfold closing_fds, fail. cbn [pbind].
    match goal with |- context [close_fds _ ?x] => destruct (run_close_fds [parentFD] x s1) as (s2 & -> & Hs2) end.
    intros [= <- <-]. cbn. rewrite Hs2, Eo, Hs. set_solver.
  - by intros [= <- <-].
Qed.

(** Opening a path below a directory does not leak descriptors: [doSafeOpen] either
    fails and all descriptors that it opened are closed again, or it returns the one
    new descriptor that is open; whatever fails on the way, and even if a directory
    turns out to be a symbolic link. *)
Theorem doSafeOpen_fds pathname base s s' r :
  run serve (doSafeOpen pathname base) s = (s', r) → opens (fds s) s' r.
Proof.
  unfold doSafeOpen. rewrite run_go_bind. unfold from_result. cbn [run].
  destruct (Rel _ _) as [rel|e|w]; [|by intros [= <- <-]..].
  rewrite run_go_bind. unfold errorf_err. rewrite run_bind. unfold os, call, trigger. cbn [run].
  destruct (serve _ (OS (SysOpen _ _)) s) as [s1 [fd|e|w]] eqn:Eo; apply SysOpen_fds in Eo; cbn [run].
  - destruct Eo as [Hfd Hs1]. by apply safe_walk_fds.
  - by intros [= <- <-].
  - by intros [= <- <-].
Qed.
End Descriptors.

(** A kernel that knows nothing but directories and descriptors. *)
Definition serve_fds : ∀ B, csiE B → gset Z → gset Z * B := λ B e,
  match e in csiE B return gset Z → gset Z * B with
  | OS e =>
      match e in osE B return gset Z → gset Z * B with
      | SysOpen _ _ | SysOpenat _ _ _ => λ s, let fd := fresh s in ({[fd]} ∪ s, Ok fd)
      | SysClose fd => λ s, (s ∖ {[fd]}, Ok ())
      | SysFstat _ => λ s, (s, Ok 0x4000)
      | e => λ s, (s, refuse_os e)
      end
  | e => λ s, (s, refuse e)
  end.

Lemma doSafeOpen_fds_witness :
  ∃ s' fd, run serve_fds (doSafeOpen "/vol/a/b" "/vol") ∅ = (s', Ok fd) ∧ s' = {[fd]}.
Proof.
  assert (is_ok (run serve_fds (doSafeOpen "/vol/a/b" "/vol") ∅).2 = true) as Hok by (by vm_compute).
  destruct (run serve_fds (doSafeOpen "/vol/a/b" "/vol") ∅) as [s' r] eqn:E.
  pose proof (doSafeOpen_fds serve_fds (λ s, s)
    ltac:(intros ???? r' [= <- <-]; split; [apply is_fresh|done])
    ltac:(intros ????? r' [= <- <-]; split; [apply is_fresh|done])
    ltac:(by intros ???? [= <- _]) ltac:(by intros ???? [= <- _]) "/vol/a/b" "/vol" ∅ s' r E) as H.
  destruct r as [fd|e|w]; [|done..]. exists s', fd. split; [done|]. destruct H as [_ ->]. set_solver.
Defined.

(** ** Removal of empty directories *)

(** Only directories strictly below [base] and on the way to [base ++ ext] are touched. *)
Definition below (base ext : list string) B (e : csiE B) : Prop :=
  match e with
  | OS (Stat path) | OS (Remove path) => ∃ names, names ≠ [] ∧ names `prefix_of` ext ∧ path = render (base ++ names)
  | _ => False
  end.

Lemma below_mono base ext ext' B (e : csiE B) : ext `prefix_of` ext' → below base ext B e → below base ext' B e.
Proof.
  intros Hpre. destruct e as [? []| | | |]; cbn; try done; intros (names & ? & ? & ->); exists names;
    (split; [done|split; [by etrans|done]]).
Qed.

Lemma remove_dirs_below fuel base ext :
  Forall elem_name (base ++ ext) → all_calls (below base ext) (remove_dirs fuel (render base) (render (base ++ ext))).
Proof.
  revert ext. induction fuel as [|fuel IH]; intros ext Hall; [done|]. cbn [remove_dirs].
  destruct (decide _) as [|Hne]; [done|].
  destruct (decide (ext = [])) as [->|Hext]; [by rewrite app_nil_r in Hne|].
  destruct (exists_last Hext) as (ext0 & e & ->). rewrite app_assoc in Hall |- *. pose proof Hall as [H0 He]%Forall_app.
  rewrite Forall_singleton in He. rewrite (Dir_render (base ++ ext0) e) by done.
  assert (all_calls (below base (ext0 ++ [e])) (remove_dirs fuel (render base) (render (base ++ ext0)))) as Hrest.
  { eapply all_calls_mono; [|by apply IH]. intros B c. apply below_mono. by apply prefix_app_r. }
  assert (∀ path, path = render (base ++ ext0 ++ [e]) →
    ∃ names, names ≠ [] ∧ names `prefix_of` ext0 ++ [e] ∧ path = render (base ++ names)) as Hhere.
  { intros path ->. exists (ext0 ++ [e]). done. }
  rewrite <-app_assoc in *. apply all_calls_go_bind; [apply all_calls_attempt; split; [by apply Hhere|done]|].
  intros [st|err|w]; [|by destruct (IsNotExist err)|done]. destruct (negb _); [done|].
  apply all_calls_go_bind; [apply all_calls_attempt; split; [by apply Hhere|done]|].
  intros [u|err|w]; [done|by destruct (IsExist err)|done].
Qed.

Lemma remove_dirs_ends {S} (serve : ∀ B, csiE B → S → S * B) fuel base ext s :
  Forall elem_name (base ++ ext) → (length ext < fuel)%nat →
  (run serve (remove_dirs fuel (render base) (render (base ++ ext))) s).2 ≠ Ok None.
Proof.
  revert ext s. induction fuel as [|fuel IH]; intros ext s Hall Hfuel; [lia|]. cbn [remove_dirs].
  destruct (decide _) as [|Hne]; [done|].
  destruct (decide (ext = [])) as [->|Hext]; [by rewrite app_nil_r in Hne|].
  destruct (exists_last Hext) as (ext0 & e & ->). rewrite app_assoc in Hall |- *. pose proof Hall as [H0 He]%Forall_app.
  rewrite Forall_singleton in He. rewrite (Dir_render (base ++ ext0) e) by done.
  rewrite length_app in Hfuel. cbn in Hfuel.
  rewrite run_go_bind, run_attempt. unfold os, call, trigger. cbn [run].
  destruct (serve _ (OS (Stat _)) s) as [s1 [st|err|w]]; [| |done].
  - destruct (negb _); [done|]. rewrite run_go_bind, run_attempt. cbn [run].
    destruct (serve _ (OS (Remove _)) s1) as [s2 [u|err|w]]; [|by destruct (IsExist err)|done]. apply IH; [done|lia].
  - destruct (IsNotExist err); [|done]. apply IH; [done|lia].
Qed.


(** A file system in which every directory exists and is empty; it records what is removed. *)
Definition serve_empty_dirs : ∀ B, csiE B → list string → list string * B := λ B e,
  match e in csiE B return list string → list string * B with
  | OS e =>
      match e in osE B return list string → list string * B with
      | Stat _ => λ s, (s, Ok (MkFileInfo ModeDir 0 0))
      | Remove path => λ s, (s ++ [path], Ok ())
      | e => λ s, (s, refuse_os e)
      end
  | e => λ s, (s, refuse e)
  end.


(** The loop compares texts: with a base that ends in a slash it never stops there,
    and empties the directories above. *)
Lemma removeEmptyDirs_climbs :
  (run serve_empty_dirs (removeEmptyDirs 3 "/pods/1/" "/pods/1/volume-subpaths") []).1 =
    ["/pods/1/volume-subpaths"; "/pods/1"; "/pods"].
Proof. by vm_compute. Qed.
