(* ===== verification/MountInterface.v ===== *)
(** * The mounter interface: pkg/mount/mount.go, mount_linux.go, exec_mount.go

    All methods of [Interface], with their implementations in [Mounter] and in
    [execMounter], which runs mount and umount through an [Exec] and leaves the rest
    to the mounter that it wraps.  The number before a subpath bounds a loop of
    [PrepareSafeSubpath]. *)
From S2P Require Import Prelude GoStrings Errors Effects CSIEnv Paths Mount Subpath.

Record Interface := MkInterface {
  im_ops :> MountOps;
  im_IsNotMountPoint : string → go csiE bool;
  im_DeviceOpened : string → go csiE bool;
  im_PathIsDevice : string → go csiE bool;
  im_GetDeviceNameFromMount : string → string → go csiE string;
  im_MakeRShared : string → go csiE ();
  im_GetFileType : string → go csiE FileType;
  im_MakeFile : string → go csiE ();
  im_SafeMakeDir : string → string → Z → go csiE ();
  im_ExistsPath : string → go csiE bool;
  im_CleanSubPaths : string → string → go csiE ();
  im_PrepareSafeSubpath : nat → Subpath → go csiE string;
  im_GetFSGroup : string → go csiE Z;
  im_GetSELinuxSupport : string → go csiE bool;
  im_GetMode : string → go csiE Z
}.

(** ** Mounter *)

Definition Mounter_IsNotMountPoint (mounter : Mounter) (dir : string) : go csiE bool :=
  IsNotMountPoint (mounter_ops mounter) dir.
Definition DeviceOpened (pathname : string) : go csiE bool := exclusiveOpenFailsOnDevice pathname.
Definition Mounter_GetDeviceNameFromMount (mounter : Mounter) (mountPath pluginDir : string) : go csiE string :=
  getDeviceNameFromMount (mounter_ops mounter) mountPath pluginDir.
Definition MakeRShared (path : string) : go csiE () := doMakeRShared path procMountInfoPath.
Definition GetFileType (pathname : string) : go csiE FileType := getFileType pathname.
Definition GetSELinuxSupport (pathname : string) : go csiE bool := getSELinuxSupport pathname procMountInfoPath.

Definition mounter_interface (m : Mounter) : Interface :=
  MkInterface (mounter_ops m) (Mounter_IsNotMountPoint m) DeviceOpened PathIsDevice (Mounter_GetDeviceNameFromMount m)
    MakeRShared GetFileType MakeFile SafeMakeDir ExistsPath (CleanSubPaths m) (λ fuel, PrepareSafeSubpath fuel m)
    GetFSGroup GetSELinuxSupport Mount.GetMode.

Definition New (path : string) : go csiE Interface :=
  pbind (λ systemd, Ret (Ok (mounter_interface (MkMounter path systemd)))) detectSystemd.

(** ** execMounter *)

Definition exec_ops (exec : Exec) (wrapped : Interface) : MountOps :=
  MkMountOps (execMount exec) (execUnmount exec) (im_List wrapped) (im_IsMountPointMatch wrapped)
    (im_IsLikelyNotMountPoint wrapped) (im_MakeDir wrapped) (im_EvalHostSymlinks wrapped) (im_GetMountRefs wrapped).

Definition NewExecMounter (exec : Exec) (wrapped : Interface) : Interface :=
  MkInterface (exec_ops exec wrapped) (im_IsNotMountPoint wrapped) (im_DeviceOpened wrapped) (im_PathIsDevice wrapped)
    (im_GetDeviceNameFromMount wrapped) (im_MakeRShared wrapped) (im_GetFileType wrapped) (im_MakeFile wrapped)
    (im_SafeMakeDir wrapped) (im_ExistsPath wrapped) (im_CleanSubPaths wrapped) (im_PrepareSafeSubpath wrapped)
    (im_GetFSGroup wrapped) (im_GetSELinuxSupport wrapped) (im_GetMode wrapped).

(** ** SafeFormatAndMount *)

Record SafeFormatAndMount := MkSafeFormatAndMount { sf_Interface : Interface; sf_Exec : Exec }.

Definition SafeFormatAndMount_FormatAndMount (mounter : SafeFormatAndMount) (source target fstype : string)
    (options : list string) : go csiE () :=
  FormatAndMount (sf_Interface mounter) (sf_Exec mounter) source target fstype options.

(** ** The two mounters agree *)

Section Agree.
Context {S : Type} (serve : ∀ B, csiE B → S → S * B).

(** Commands that are run on the host. *)
Definition hostExec : Exec := λ cmd args, trigger (OS (Command cmd args)).

(** Same calls with the same answers, and both succeed or both fail; only the text
    of an error differs. *)
Definition same_effect {A} (p q : go csiE A) : Prop :=
  ∀ s, trace serve p s = trace serve q s ∧ (run serve p s).1 = (run serve q s).1 ∧
    match (run serve p s).2, (run serve q s).2 with
    | Ok a, Ok b => a = b
    | Err _, Err _ => True
    | Panic v, Panic w => v = w
    | _, _ => False
    end.

Lemma same_effect_bind {A B} (p q : go csiE A) (f g : A → go csiE B) :
  same_effect p q → (∀ a, same_effect (f a) (g a)) → same_effect (p ≫= f) (q ≫= g).
Proof.
  intros Hp Hf s. destruct (Hp s) as (Ht & Hs & Hr). rewrite !trace_go_bind, !run_go_bind, Ht.
  destruct (run serve p s) as [s1 r1], (run serve q s) as [s2 r2]. cbn in Hs, Hr. subst s2.
  destruct r1 as [a|e|w], r2 as [b|e'|w']; try done. subst b.
  destruct (Hf a s1) as (-> & ? & ?). done.
Qed.

(** The same program, with its result treated in two ways. *)
Lemma same_effect_pbind {X A} (p : prog csiE X) (f g : X → go csiE A) :
  (∀ x, same_effect (f x) (g x)) → same_effect (pbind f p) (pbind g p).
Proof.
  intros Hf s. rewrite !trace_bind, !run_bind. destruct (run serve p s) as [s1 x].
  destruct (Hf x s1) as (-> & ? & ?). done.
Qed.

Lemma doExecMount_agrees path source target fstype options :
  same_effect (doExecMount hostExec source target fstype options)
    (doMount (MkMounter path false) "" defaultMountCommand source target fstype options).
Proof. apply same_effect_pbind. intros [text [e|]]; by intros s. Qed.

(** On a host without systemd, for a file system that needs no special mounter, the
    exec mounter does the same as the real one. *)
Theorem execMounter_agrees path source target fstype options :
  fstype ∉ ["nfs"; "glusterfs"; "ceph"; "cifs"] →
  let real := mounter_interface (MkMounter path false) in
  same_effect (im_Mount (NewExecMounter hostExec real) source target fstype options)
    (im_Mount real source target fstype options).
Proof.
  intros Hfs. cbn [im_ops NewExecMounter exec_ops im_Mount mounter_interface mounter_ops].
  unfold execMount, Mount. destruct (isBind options) as [[bind bindOpts] remountOpts]. destruct bind.
  - apply same_effect_bind; [apply doExecMount_agrees|]. intros _. apply doExecMount_agrees.
  - rewrite decide_False by done. apply doExecMount_agrees.
Qed.
End Agree.
