(* ===== verification/System.v ===== *)
(** * The system: CSI driver, registry and controller together

    The calls of the remote backend (remote.go) are answered by the registry's
    proxy (registry.go) and, where that connects, by the controller (controller.go)
    in front of its SPDK daemon.  The theorems follow a volume from CreateVolume
    to DeleteVolume through all of them, and say that a driver with another
    certificate reaches nothing. *)
From S2P Require Import Prelude GoStrings Errors Json Messages RegistryPath GRPC Registry Effects SPDK Daemon Controller ControllerSeq Registration CSIEnv Remote.
Import oimcontroller.

Section System.
Context {DB : Type} {RD : RegistryDB DB}.
Context {D : Type} {SD : SPDKDaemon D}.
Context {Creds : Type} (c : Controller Creds).

(** The common name in the certificate of the driver. *)
Context (peer : string).

Record world := MkWorld { w_db : DB; w_daemon : D }.

(** How the registry sees a call of the driver. *)
Definition caller (md : option (gmap string (list string))) : context :=
  RegistryClientContext (MkContext None md) peer.

(** A call for the controller with this ID: the registry decides where it goes.  At
    the address of the controller there is a server with its certificate, which the
    proxy compares with the name it expects; at other addresses there is nothing. *)
Definition proxied {A} (id method : string) (p : go (locked spdkE) A) (w : world) : world * result A :=
  match Connect (caller (Some {["controllerid" := [id]]})) ("/oim.v0.Controller/" +:+ method) (w_db w) with
  | Ok d =>
      if decide (dial_address d = controllerAddr c ∧ dial_ServerName d = "controller." +:+ controllerID c)
      then let '(daemon, r) := serve1 p (w_daemon w) in (MkWorld (w_db w) daemon, r)
      else (w, Err (StatusError Unavailable "transport failure" []))
  | Err e => (w, Err e)
  | Panic why => (w, Panic why)
  end.

Definition serve_rpc : ∀ B, rpcE B → world → world * B := λ B e,
  match e in rpcE B return world → world * B with
  | LoadTLS_ _ _ _ => λ w, (w, Ok ())
  | Dial _ => λ w, (w, Ok ())
  | CloseConn => λ w, (w, ())
  | GetValues_ in_ => λ w, (w, GetValues (caller None) in_ (w_db w))
  | MapVolume_ id in_ => proxied id "MapVolume" (MapVolume c in_)
  | UnmapVolume_ id in_ => proxied id "UnmapVolume" (UnmapVolume c in_)
  | ProvisionMallocBDev_ id in_ => proxied id "ProvisionMallocBDev" (ProvisionMallocBDev c in_)
  | CheckMallocBDev_ id in_ => proxied id "CheckMallocBDev" (CheckMallocBDev c in_)
  end.

(** The rest of the driver's environment is not needed here and refuses. *)
Definition serve_world : ∀ B, csiE B → world → world * B := λ B e,
  match e in csiE B return world → world * B with
  | RPC e => serve_rpc _ e
  | e => λ w, (w, refuse e)
  end.

(** ** Foreign drivers *)

Lemma caller_peer md : getPeer (caller md) = Ok peer.
Proof. done. Qed.

Lemma proxied_foreign {A} id method (p : go (locked spdkE) A) w :
  peer ≠ "host." +:+ controllerID c → (proxied id method p w).1 = w.
Proof.
  intros Hpeer. unfold proxied. destruct (Connect _ _ _) as [d|e|why] eqn:E; [|done..].
  apply Connect_Ok in E as (_ & md & id' & _ & _ & Hpeer' & _ & ->). case_decide as Hd; [|done].
  destruct Hd as [_ Hd]. cbn [dial_ServerName] in Hd. apply str_app_inj_l in Hd as ->.
  rewrite caller_peer in Hpeer'. by injection Hpeer' as ->.
Qed.


(** ** The driver of the controller's host *)

Section Host.
Context {RDL : RegistryDBLaws DB} {SDS : SPDKSound D} {SDR : SPDKReliable D}.
Context {Req : Type} (r : remoteSPDK Req).

(** The driver and the controller are configured for each other, and the controller
    is registered. *)
Definition connected (w : world) : Prop :=
  peer = "host." +:+ controllerID c ∧ oimControllerID r = controllerID c ∧ controllerAddr c ≠ "" ∧
  Lookup (controllerID c +:+ "/" +:+ RegistryAddress) (w_db w) = controllerAddr c.

Lemma proxied_host {A} method (p : go (locked spdkE) A) w :
  connected w →
  proxied (oimControllerID r) method p w = let '(d, res) := serve1 p (w_daemon w) in (MkWorld (w_db w) d, res).
Proof.
  intros (Hpeer & Hid & Haddr & Hlookup). unfold proxied. rewrite Hid.
  set (md := {["controllerid" := [controllerID c]]}).
  assert (∃ opts, Connect (caller (Some md)) ("/oim.v0.Controller/" +:+ method) (w_db w) =
    Ok (MkDial (controllerAddr c) ("controller." +:+ controllerID c) opts md)) as [opts ->]; [|by rewrite decide_True].
  eexists. apply Connect_Ok. split; [done|]. exists md, (controllerID c). rewrite Hlookup, caller_peer, Hpeer.
  split_and!; [done|apply lookup_singleton_eq|done..].
Qed.

(** The calls of the backend, for the daemon behind the controller. *)
Lemma run_dialRegistry w : run serve_world (with_status FailedPrecondition (dialRegistry r)) w = (w, Ok ()).
Proof. done. Qed.

Lemma run_provision n size w :
  connected w →
  run serve_world (provision r n size) w =
    let '(d, res) := serve1 (ProvisionMallocBDev c (MkProvisionMallocBDevRequest n size)) (w_daemon w) in
    (MkWorld (w_db w) d, res).
Proof.
  intros Hw. unfold provision. rewrite run_go_bind, run_dialRegistry. unfold defer, rpc_, call, trigger.
  cbn [pbind run serve_world serve_rpc]. rewrite proxied_host by done.
  by destruct (serve1 _ (w_daemon w)).
Qed.

Lemma run_checkVolumeExists n w :
  connected w →
  run serve_world (checkVolumeExists r n) w =
    let '(d, res) := serve1 (CheckMallocBDev c (MkCheckMallocBDevRequest n)) (w_daemon w) in
    (MkWorld (w_db w) d, res).
Proof.
  intros Hw. unfold checkVolumeExists. rewrite run_go_bind, run_dialRegistry. unfold defer, rpc_, call, trigger.
  cbn [pbind run serve_world serve_rpc]. rewrite proxied_host by done.
  by destruct (serve1 _ (w_daemon w)).
Qed.

(** The capacity is what the code asks for, and it fits into whole blocks. *)
Lemma round_capacity_blocks z :
  0 ≤ z < maxStorageCapacity →
  let capacity := round_capacity z in
  z ≤ capacity ∧ capacity ≠ 0 ∧ int64 (512 * Z.quot capacity 512) = capacity.
Proof.
  intros Hz capacity. assert (z ≤ capacity ∧ 0 < capacity ≤ maxStorageCapacity ∧ Z.rem capacity 512 = 0) as (? & ? & Hrem).
  { unfold capacity. destruct (decide (z = 0)) as [->|]; [by vm_compute|].
    destruct (round_capacity_spec z) as (? & ? & ?); [lia|]. split_and!; lia. }
  split_and!; [done|lia|]. pose proof (Z.quot_rem' capacity 512). unfold maxStorageCapacity, tib, gib, mib, kib in *.
  rewrite wrap_signed_small; lia.
Qed.

Lemma run_createVolume n bytes w :
  0 ≤ bytes < maxStorageCapacity → connected w →
  run serve_world (createVolume r n bytes) w =
    let '(d, res) := serve1 (ProvisionMallocBDev c (MkProvisionMallocBDevRequest n (round_capacity bytes))) (w_daemon w) in
    (MkWorld (w_db w) d, match res with Ok _ => Ok (round_capacity bytes) | Err e => Err e | Panic why => Panic why end).
Proof.
  intros Hb Hw. unfold createVolume. destruct (Z.leb_spec maxStorageCapacity bytes); [lia|].
  rewrite run_go_bind, run_provision by done. by destruct (serve1 _ (w_daemon w)) as [d []].
Qed.

Lemma run_deleteVolume n w :
  n ≠ "" → SPDK c ≠ None → connected w → daemon_wf (w_daemon w) →
  ∃ d, run serve_world (deleteVolume r n) w = (MkWorld (w_db w) d, Ok ()) ∧ daemon_wf d ∧
    bdevs d = delete n (bdevs (w_daemon w)) ∧
    ∀ m, places m d = if decide (m = n) then ∅ else places m (w_daemon w).
Proof.
  intros Hn Hc Hw Hd. unfold deleteVolume. rewrite run_provision by done.
  destruct (serve1_Provision_delete c (MkProvisionMallocBDevRequest n 0) (w_daemon w)) as (d & -> & ?); [done..|].
  by exists d.
Qed.

Lemma run_check n w :
  n ≠ "" → SPDK c ≠ None → connected w → daemon_wf (w_daemon w) →
  ∃ d res, run serve_world (checkVolumeExists r n) w = (MkWorld (w_db w) d, res) ∧ unchanged (w_daemon w) d ∧
    match bdevs (w_daemon w) !! n with Some _ => res = Ok () | None => ∃ e, res = Err e ∧ status_code e = NotFound end.
Proof.
  intros Hn Hc Hw Hd. rewrite run_checkVolumeExists by done.
  destruct (CheckMallocBDev_spec c (MkCheckMallocBDevRequest n) (w_daemon w)) as (d & res & -> & ?); [done..|].
  by exists d, res.
Qed.

(** What a driver can do with a volume that it has just created, with the capacity
    that it was told: asking again gives the same answer and changes nothing, the
    volume exists, and deleting it restores the daemon, where it is then not found. *)
Definition usable (before : D) (n : string) (bytes capacity : Z) (w : world) : Prop :=
  (∃ d, run serve_world (createVolume r n bytes) w = (MkWorld (w_db w) d, Ok capacity) ∧ unchanged (w_daemon w) d) ∧
  (∃ d, run serve_world (checkVolumeExists r n) w = (MkWorld (w_db w) d, Ok ()) ∧ unchanged (w_daemon w) d) ∧
  (∃ d, run serve_world (deleteVolume r n) w = (MkWorld (w_db w) d, Ok ()) ∧ bdevs d = bdevs before ∧
     (∀ m, places m d = places m before) ∧
     ∃ w' e, run serve_world (checkVolumeExists r n) (MkWorld (w_db w) d) = (w', Err e) ∧ status_code e = NotFound).

Lemma created_usable n bytes w d b :
  n ≠ "" → SPDK c ≠ None → 0 ≤ bytes < maxStorageCapacity → connected w →
  daemon_wf (w_daemon w) → daemon_wf d → bdevs (w_daemon w) !! n = None → vhosts d = vhosts (w_daemon w) →
  bdevs d = <[n:=b]> (bdevs (w_daemon w)) → bdev_size b = round_capacity bytes →
  usable (w_daemon w) n bytes (round_capacity bytes) (MkWorld (w_db w) d).
Proof.
  intros Hn Hc Hbytes Hw Hd0 Hd Hfresh Hv Hb Hsize. destruct (round_capacity_blocks bytes Hbytes) as (_ & Hne & _).
  assert (connected (MkWorld (w_db w) d)) as Hw1 by done.
  assert (bdevs d !! n = Some b) as Hn1 by (by rewrite Hb, lookup_insert_eq). split_and!.
  - rewrite run_createVolume by done. cbn [w_daemon w_db].
    destruct (serve1_Provision_existing c (MkProvisionMallocBDevRequest n (round_capacity bytes)) d b)
      as (d2 & res & -> & _ & Hu & Hres); [done..|]. cbn [Size_] in Hres. rewrite decide_True in Hres by done. subst res.
    by exists d2.
  - destruct (run_check n (MkWorld (w_db w) d)) as (d2 & res & Hrun & Hu & Hres); [done..|].
    cbn [w_daemon] in *. rewrite Hn1 in Hres. subst res. by exists d2.
  - destruct (run_deleteVolume n (MkWorld (w_db w) d)) as (d2 & Hrun & Hd2 & Hb2 & Hp2); [done..|]. cbn [w_daemon w_db] in *.
    assert (bdevs d2 = bdevs (w_daemon w)) as Hb3 by (by rewrite Hb2, Hb, delete_insert_eq, delete_id).
    exists d2. split_and!; [done..| |].
    + intros m. rewrite Hp2. assert (places m d = places m (w_daemon w)) as -> by (unfold places; by rewrite Hv).
      case_decide as Hm; [|done]. subst m. symmetry. by apply places_no_bdev.
    + destruct (run_check n (MkWorld (w_db w) d2)) as (d3 & res & -> & _ & Hres); [done..|]. cbn [w_daemon] in Hres.
      rewrite Hb3, Hfresh in Hres. destruct Hres as (e & -> & He). by eexists _, e.
Qed.

End Host.

End System.

(** ** A concrete system: a controller that has registered itself, and the daemon of
    the examples *)

Module sys_example.
Definition ctl : Controller () :=
  oimcontroller.MkController (Some ()) "dns:///registry:8999" Minute "host-0" "tcp://10.0.0.1:8999" "/var/tmp/spdk.sock"
    (Some (MkClient "/var/tmp/spdk.sock")) "vhost.0" (Some (MkPCIAddress 0 0 3 0)).
Definition db : memdb.memRegistryDB :=
  (run (serve_registry (RegistryClientContext (MkContext None None) "controller.host-0")) (register ctl) example.db0).1.
Definition w0 : world := MkWorld db seq_example.d0.
End sys_example.


