(* ===== verification/Staging.v ===== *)
(** * Staging: from a volume in SPDK to a device node in the guest

    The remote backend's createDevice and deleteDevice (remote.go) with everything
    they talk to: the registry and the controller as in [System.v], and the kernel
    of the machine on which the driver runs, which sees the disks of the vhost
    controller.  The kernel is a parameter; [GuestKernelLaws] states what the
    driver relies on. *)
From S2P Require Import Prelude GoStrings Strconv Errors Json Messages RegistryPath PCI GRPC Registry Effects SPDK Daemon Controller ControllerSeq Registration CSIEnv Paths Remote Sysfs System.
Import oimcontroller.

(** ** The kernel *)

Definition sys_block : string := "/sys/dev/block".

(** [kernel] answers a system call while SPDK is in the given state; [disks] are the
    SCSI disks under /sys/dev/block, [nodes] the device nodes under /dev. *)
Class GuestKernel (D O : Type) := {
  kernel : ∀ B, osE B → D → O → O * B;
  disks : O → D → list sysfs_entry;
  nodes : O → gmap string Z
}.
Arguments kernel {_ _ _} _ _ _ _.

Section Kernel.
Context {D O : Type} {SD : SPDKDaemon D} {GK : GuestKernel D O}.
(** The vhost controller, and where the guest has it. *)
Context (vhost : string) (addr : PCIAddress).

Definition at_target (t : Z) (e : sysfs_entry) : Prop :=
  lk_addr (se_link e) = addr ∧ lk_disk (se_link e) = MkSCSIDisk t 0.

(** The disk is the BDev: it sits at the target to which the BDev is attached. *)
Definition is_volume (d : D) (n : string) (e : sysfs_entry) : Prop :=
  ∃ t, at_target t e ∧ (vhost, t) ∈ places n d.

(** The disk at a target shows up after some rounds of waiting. *)
Inductive appears (d : D) (t : Z) : O → Prop :=
| appears_now o e : e ∈ disks o d → at_target t e → appears d t o
| appears_later o o' choice :
    kernel _ Select d o = (o', choice) → choice = WatcherEvent ∨ choice = AfterTimeout →
    appears d t o' → appears d t o.

Class GuestKernelLaws := {
  disks_wf o d : Forall entry_wf (disks o d);
  (** The limits of Linux: 12 bits for the major, 20 for the minor number. *)
  disks_numbers o d e : e ∈ disks o d → se_major e < 2 ^ 12 ∧ se_minor e < 2 ^ 20;
  read_sys o d : kernel _ (ReadDir sys_block) d o = (o, Ok ((λ e, MkDirEntry (entry_name e) false) <$> disks o d));
  read_entry o d e :
    e ∈ disks o d → kernel _ (Readlink (JoinPath [sys_block; entry_name e])) d o = (o, Ok (link_text (se_link e)));
  watch o d : ∃ o', kernel _ (NewWatcher sys_block) d o = (o', Ok ());
  (** Hotplug: what is attached at one of the eight targets becomes a disk. *)
  hotplug o d t n : 0 ≤ t < 8 → (vhost, t) ∈ places n d → appears d t o;
  (** A temporary directory is new: it can be made, and a device node in it too. *)
  temp_node o d name dev :
    ∃ o1 dir o2, kernel _ (TempDir "/dev" name) d o = (o1, Ok dir) ∧ HasPrefix dir "/dev/" = true ∧
      kernel _ (Mknod (JoinPath [dir; name]) blk_mode dev) d o1 = (o2, Ok ()) ∧
      nodes o2 = <[JoinPath [dir; name]:=dev]> (nodes o) ∧ disks o2 d = disks o d
}.
End Kernel.
Arguments GuestKernelLaws D O {_ _} _ _.

(** The device node [path] stands for the disk. *)
Definition node_for {D O} `{GuestKernel D O} (o : O) (path : string) (e : sysfs_entry) : Prop :=
  ∃ dev, nodes o !! path = Some dev ∧ dev_major dev = se_major e ∧ dev_minor dev = se_minor e.

(** ** The host *)

Section Host.
Context {DB : Type} {RD : RegistryDB DB}.
Context {D O : Type} {SD : SPDKDaemon D} {GK : GuestKernel D O}.
Context {Creds : Type} (c : Controller Creds) (peer : string).

Record host := MkHost { h_world : world (DB := DB) (D := D); h_os : O }.

Definition serve_host : ∀ B, csiE B → host → host * B := λ B e,
  match e in csiE B return host → host * B with
  | RPC e => λ h, let '(w, b) := serve_rpc c peer _ e (h_world h) in (MkHost w (h_os h), b)
  | OS e => λ h, let '(o, b) := kernel _ e (w_daemon (h_world h)) (h_os h) in (MkHost (h_world h) o, b)
  | e => λ h, (h, refuse e)
  end.

Context {Req : Type} (r : remoteSPDK Req).

(** The request for the controller. *)
Definition map_request (volumeID : string) (csiRequest : Req) : result MapVolumeRequest :=
  let request := MkMapVolumeRequest volumeID (Some MapVolumeRequest_Malloc) in
  match mapVolumeParams r with None => Ok request | Some f => f csiRequest request end.

(** Controller and registry together say where the guest has the vhost controller. *)
Definition announced (addr : PCIAddress) (w : world (DB := DB) (D := D)) : Prop :=
  let path := oimControllerID r +:+ "/" +:+ RegistryPCI in
  ∃ reply defaults,
    GetValues (caller peer None) (MkGetValuesRequest path) (w_db w) = Ok reply ∧
    registryPCI path (Values reply) = Ok defaults ∧
    completeAddress path (MkMapVolumeReply (vhostDev c) None) defaults = Ok addr.

Section Facts.
Context {RDL : RegistryDBLaws DB} {SDS : SPDKSound D} {SDR : SPDKReliable D}.
Context (addr : PCIAddress) {GKL : GuestKernelLaws D O (vhostSCSI c) addr}.

(** ** Waiting *)

Lemma first_split {A} (P : A → Prop) `{∀ x, Decision (P x)} l x :
  x ∈ l → P x → ∃ pre y post, l = pre ++ y :: post ∧ Forall (λ z, ¬ P z) pre ∧ P y.
Proof.
  induction l as [|z l IH]; intros Hin Hx; [by apply elem_of_nil in Hin|].
  destruct (decide (P z)) as [Hz|Hz]; [by exists [], z, l|].
  apply elem_of_cons in Hin as [->|Hin]; [done|]. destruct IH as (pre & y & post & -> & Hpre & Hy); [done..|].
  exists (z :: pre), y, post. by split_and!; [|constructor|].
Qed.

Lemma host_shows w o : shows serve_host sys_block (MkHost w o) (disks o (w_daemon w)).
Proof.
  split; [cbn [serve_host h_world h_os]; by rewrite (read_sys (vhostSCSI c) addr)|].
  intros e He. cbn [serve_host h_world h_os]. by rewrite (read_entry (vhostSCSI c) addr).
Qed.

Lemma host_waits w t o :
  appears addr (w_daemon w) t o →
  ∃ k o' e, waits serve_host sys_block addr (Some (MkSCSIDisk t 0)) k (MkHost w o) (MkHost w o') ∧
    e ∈ disks o' (w_daemon w) ∧ at_target addr t e ∧
    wait_ends serve_host sys_block addr (Some (MkSCSIDisk t 0)) (MkHost w o') (MkHost w o')
      (Ok (lk_dev (se_link e), se_major e, se_minor e)).
Proof.
  assert (∀ o e, e ∈ disks o (w_daemon w) → at_target addr t e →
    ∃ k o' e, waits serve_host sys_block addr (Some (MkSCSIDisk t 0)) k (MkHost w o) (MkHost w o') ∧
      e ∈ disks o' (w_daemon w) ∧ at_target addr t e ∧
      wait_ends serve_host sys_block addr (Some (MkSCSIDisk t 0)) (MkHost w o') (MkHost w o')
        (Ok (lk_dev (se_link e), se_major e, se_minor e))) as Hnow.
  { intros o1 e He Hat.
    destruct (first_split (entry_matches addr (Some (MkSCSIDisk t 0))) _ e He Hat) as (pre & y & post & Hl & Hpre & Hy).
    exists 0%nat, o1, y. split_and!; [constructor| |done|].
    - rewrite Hl. apply elem_of_app. right. by left.
    - apply (ends_found _ _ _ _ _ pre y post); rewrite <-?Hl; [apply (disks_wf (vhostSCSI c) addr)|apply host_shows|done..]. }
  induction 1 as [o e He Hat|o o' choice Hsel Hc _ IH]; [by eapply Hnow|].
  destruct (decide (Exists (entry_matches addr (Some (MkSCSIDisk t 0))) (disks o (w_daemon w)))) as [Hex|Hno].
  { apply Exists_exists in Hex as (e & He & Hat). by eapply Hnow. }
  destruct IH as (k & o1 & e & Hw & He). exists (S k), o1, e. split; [|done].
  apply (waits_round _ _ _ _ _ _ (disks o (w_daemon w)) choice (MkHost w o')); [apply (disks_wf (vhostSCSI c) addr)|apply host_shows| |..]; try done.
  - apply Forall_forall. intros e' He' Hm. apply Hno, Exists_exists. by exists e'.
  - cbn [serve_host h_world h_os]. by rewrite Hsel.
Qed.

Lemma run_wait w t o :
  appears addr (w_daemon w) t o →
  ∃ k o' e, e ∈ disks o' (w_daemon w) ∧ at_target addr t e ∧
    ∀ fuel, (k < fuel)%nat →
      run serve_host (wait_loop fuel sys_block addr (Some (MkSCSIDisk t 0))) (MkHost w o) =
        (MkHost w o', Some (Ok (lk_dev (se_link e), se_major e, se_minor e))).
Proof.
  intros (k & o' & e & Hw & He & Hat & Hend)%host_waits. exists k, o', e. split_and!; [done..|]. intros fuel Hf.
  replace fuel with (k + S (fuel - k - 1))%nat by lia. rewrite (wait_loop_waits _ _ _ _ _ _ _ _ Hw).
  by apply wait_loop_ends.
Qed.
(** ** Finding the disk of a volume *)

(** Up to the reply of the controller. *)
Lemma run_locate_map fuel n csiRequest in_ w reply' d' o :
  connected c peer r w → announced addr w → map_request n csiRequest = Ok in_ →
  serve1 (MapVolume c in_) (w_daemon w) = (d', reply') →
  ∃ path defaults, completeAddress path (MkMapVolumeReply (vhostDev c) None) defaults = Ok addr ∧
    run serve_host (locateDevice fuel r n csiRequest) (MkHost w o) =
      match reply' with
      | Ok reply => run serve_host (complete ← from_result (completeAddress path reply defaults);
                      wrap_err "wait for device" (fuelled (waitForDevice fuel sys_block complete (ScsiDisk reply))))
                      (MkHost (MkWorld (w_db w) d') o)
      | Err e => (MkHost (MkWorld (w_db w) d') o, Err (Wrap e (Sprintf "MapVolume for %s" [n])))
      | Panic why => (MkHost (MkWorld (w_db w) d') o, Panic why)
      end.
Proof.
  intros Hw (reply & defaults & Hget & Hreg & Haddr) Hin Hmap. eexists _, _. split; [exact Haddr|]. unfold locateDevice.
  rewrite run_go_bind, run_wrap_err. unfold rpc_ at 1, call, trigger. cbn [run serve_host serve_rpc h_world h_os].
  rewrite Hget. rewrite run_go_bind. unfold from_result at 1. cbn [run]. rewrite Hreg.
  assert (∀ h, run serve_host (match mapVolumeParams r with
      | None => mret (MkMapVolumeRequest n (Some MapVolumeRequest_Malloc))
      | Some f => wrap_err "create MapVolumeRequest parameters" (from_result (f csiRequest (MkMapVolumeRequest n (Some MapVolumeRequest_Malloc))))
      end : go csiE MapVolumeRequest) h = (h, Ok in_)) as Hreq.
  { intros h. unfold map_request in Hin. destruct (mapVolumeParams r) as [f|]; [|by injection Hin as ->].
    rewrite run_wrap_err. unfold from_result. cbn [run]. by rewrite Hin. }
  rewrite run_go_bind, Hreq, run_go_bind, run_wrap_err. unfold rpc_ at 1, call, trigger.
  cbn [run serve_host serve_rpc h_world h_os]. rewrite proxied_host by done. rewrite Hmap. by destruct reply'.
Qed.

(** A successful MapVolume. *)
Lemma run_locateDevice n csiRequest in_ w d' t o :
  connected c peer r w → announced addr w → map_request n csiRequest = Ok in_ →
  serve1 (MapVolume c in_) (w_daemon w) = (d', Ok (map_reply c t)) →
  places n d' = {[(vhostSCSI c, t)]} → 0 ≤ t < 8 →
  ∃ k o' e, e ∈ disks o' d' ∧ is_volume (vhostSCSI c) addr d' n e ∧
    ∀ fuel, (k < fuel)%nat →
      run serve_host (locateDevice fuel r n csiRequest) (MkHost w o) =
        (MkHost (MkWorld (w_db w) d') o', Ok (lk_dev (se_link e), se_major e, se_minor e)).
Proof.
  intros Hw Ha Hin Hmap Hp Ht8.
  assert ((vhostSCSI c, t) ∈ places n d') as Hat by (rewrite Hp; set_solver).
  destruct (watch (vhostSCSI c) addr o d') as [o1 Hwatch].
  destruct (run_wait (MkWorld (w_db w) d') t o1) as (k & o2 & e & He & Ht & Hrun).
  { by apply (hotplug (vhostSCSI c) addr _ _ _ n). }
  exists k, o2, e. split_and!; [done|by exists t|]. intros fuel Hf.
  destruct (run_locate_map fuel n csiRequest in_ w _ d' o Hw Ha Hin Hmap) as (path & defaults & Haddr & ->).
  rewrite run_go_bind. unfold from_result at 1. cbn [run].
  change (completeAddress _ (map_reply c t) defaults) with
    (completeAddress path (MkMapVolumeReply (vhostDev c) None) defaults).
  rewrite Haddr, run_wrap_err. unfold fuelled. rewrite run_bind.
  rewrite (run_waitForDevice _ _ _ _ (MkHost (MkWorld (w_db w) d') o1)); [|cbn [serve_host h_world h_os w_daemon]; by rewrite Hwatch].
  cbn [ScsiDisk map_reply]. by rewrite Hrun.
Qed.

Lemma run_makeNode w e o :
  e ∈ disks o (w_daemon w) →
  ∃ o' dir, run serve_host (makeNode (lk_dev (se_link e)) (se_major e) (se_minor e)) (MkHost w o) =
      (MkHost w o', Ok (Some dir, Ok (JoinPath [dir; lk_dev (se_link e)]))) ∧
    HasPrefix dir "/dev/" = true ∧
    disks o' (w_daemon w) = disks o (w_daemon w) ∧ node_for o' (JoinPath [dir; lk_dev (se_link e)]) e.
Proof.
  intros He. destruct (temp_node (vhostSCSI c) addr o (w_daemon w) (lk_dev (se_link e)) (makedev (se_major e) (se_minor e)))
    as (o1 & dir & o2 & Htemp & Hdir & Hmk & Hn2 & Hd2).
  exists o2, dir. split_and!; [|done|done|].
  - unfold makeNode. rewrite run_go_bind, run_attempt. unfold os at 1, call, trigger.
    cbn [run serve_host h_world h_os]. rewrite Htemp. cbv zeta. rewrite run_go_bind, run_attempt. unfold os, call, trigger.
    cbn [run serve_host h_world h_os]. by rewrite Hmk.
  - exists (makedev (se_major e) (se_minor e)). rewrite Hn2, lookup_insert_eq. split; [done|].
    destruct (disks_numbers (vhostSCSI c) addr _ _ _ He).
    pose proof (disks_wf (vhostSCSI c) addr o (w_daemon w)) as Hwf. rewrite Forall_forall in Hwf.
    destruct (Hwf e He) as (? & ? & _). apply makedev_roundtrip; lia.
Qed.

Lemma run_createDevice n csiRequest in_ w d' t o :
  connected c peer r w → announced addr w → map_request n csiRequest = Ok in_ →
  serve1 (MapVolume c in_) (w_daemon w) = (d', Ok (map_reply c t)) →
  places n d' = {[(vhostSCSI c, t)]} → 0 ≤ t < 8 →
  ∃ k o' e dir, e ∈ disks o' d' ∧ is_volume (vhostSCSI c) addr d' n e ∧
    node_for o' (JoinPath [dir; lk_dev (se_link e)]) e ∧ HasPrefix dir "/dev/" = true ∧
    ∀ fuel, (k < fuel)%nat →
      run serve_host (createDevice fuel r n csiRequest) (MkHost w o) =
        (MkHost (MkWorld (w_db w) d') o', Ok (Some dir, Ok (JoinPath [dir; lk_dev (se_link e)]))).
Proof.
  intros Hw Ha Hin Hmap Hp Ht8. destruct (run_locateDevice n csiRequest in_ w d' t o) as (k & o1 & e & He & Hv & Hrun); [done..|].
  destruct (run_makeNode (MkWorld (w_db w) d') e o1 He) as (o2 & dir & Hrun2 & Hdir & Hd2 & Hnode). cbn [w_daemon] in Hd2.
  exists k, o2, e, dir. rewrite Hd2. split_and!; [done..|]. intros fuel Hf. unfold createDevice, no_cleanup at 1.
  rewrite run_go_bind, run_attempt, run_wrap_err. change (run serve_host (dialRegistry r) (MkHost w o)) with (MkHost w o, @Ok () ()).
  cbn iota beta. unfold defer. rewrite run_bind. unfold no_cleanup.
  rewrite run_go_bind, run_attempt, Hrun by done. cbn iota beta. by rewrite Hrun2.
Qed.

(** Without a target there is no device, and nothing to clean up. *)
Lemma run_createDevice_fails fuel n csiRequest in_ w d' e o :
  connected c peer r w → announced addr w → map_request n csiRequest = Ok in_ →
  serve1 (MapVolume c in_) (w_daemon w) = (d', Err e) →
  run serve_host (createDevice fuel r n csiRequest) (MkHost w o) =
    (MkHost (MkWorld (w_db w) d') o, Ok (None, Err (Wrap e (Sprintf "MapVolume for %s" [n])))).
Proof.
  intros Hw Ha Hin Hmap.
  destruct (run_locate_map fuel n csiRequest in_ w _ d' o Hw Ha Hin Hmap) as (path & defaults & _ & Hrun).
  unfold createDevice, no_cleanup at 1.
  rewrite run_go_bind, run_attempt, run_wrap_err. change (run serve_host (dialRegistry r) (MkHost w o)) with (MkHost w o, @Ok () ()).
  cbn iota beta. unfold defer. rewrite run_bind. unfold no_cleanup. rewrite run_go_bind, run_attempt, Hrun. done.
Qed.

Lemma run_deleteDevice n w o d' :
  connected c peer r w → serve1 (UnmapVolume c (MkUnmapVolumeRequest n)) (w_daemon w) = (d', Ok ()) →
  run serve_host (deleteDevice r n) (MkHost w o) = (MkHost (MkWorld (w_db w) d') o, Ok ()).
Proof.
  intros Hw Hrun. unfold deleteDevice.
  rewrite run_go_bind, run_wrap_err. change (run serve_host (dialRegistry r) (MkHost w o)) with (MkHost w o, @Ok () ()).
  cbn iota beta. rewrite run_wrap_err. unfold rpc_, call, trigger. cbn [run serve_host serve_rpc h_world h_os].
  rewrite proxied_host by done. by rewrite Hrun.
Qed.

End Facts.
End Host.

(** ** A kernel with one virtio-scsi controller

    The disks show up some rounds after the last system call that started to watch;
    they are listed in the order of their names. *)

Module kernel_example.
Record kstate := MkKstate { k_delay : nat; k_nodes : gmap string Z }.

Definition vhost_addr : PCIAddress := MkPCIAddress 0 0 3 0.
Definition disk (t : Z) (name : string) : sysfs_entry :=
  MkEntry 8 (16 * t) (MkLink 0 0 vhost_addr "virtio3/host0" 0 0 (MkSCSIDisk t 0) name).
(** "8:112" comes before "8:16". *)
Definition all_disks : list sysfs_entry :=
  [disk 0 "sda"; disk 7 "sdh"; disk 1 "sdb"; disk 2 "sdc"; disk 3 "sdd"; disk 4 "sde"; disk 5 "sdf"; disk 6 "sdg"].

Definition visible (o : kstate) (d : refd) : list sysfs_entry :=
  match k_delay o with
  | O => filter (λ e, is_Some (rl d !! Target (lk_disk (se_link e)))) all_disks
  | S _ => []
  end.

Definition readlink (path : string) : result string :=
  match list_find (λ e, path = JoinPath [sys_block; entry_name e]) all_disks with
  | Some (_, e) => Ok (link_text (se_link e))
  | None => Err (SysError ENOENT "no such file")
  end.

Definition serve_kernel : ∀ B, osE B → refd → kstate → kstate * B := λ B e,
  match e in osE B return refd → kstate → kstate * B with
  | ReadDir dir => λ d o, (o, Ok ((λ e, MkDirEntry (entry_name e) false) <$> visible o d))
  | Readlink path => λ d o, (o, readlink path)
  | NewWatcher _ => λ d o, (o, Ok ())
  | Select => λ d o, (MkKstate (pred (k_delay o)) (k_nodes o), if decide (k_delay o = O) then AfterTimeout else WatcherEvent)
  | TempDir dir prefix => λ d o, (o, Ok (dir +:+ "/" +:+ prefix +:+ "123456789"))
  | Mknod path _ dev => λ d o, (MkKstate (k_delay o) (<[path:=dev]> (k_nodes o)), Ok ())
  | e => λ d o, (o, refuse_os e)
  end.

#[export] Instance kernel_ : GuestKernel refd kstate := {
  kernel := serve_kernel; disks := visible; nodes := k_nodes
}.
End kernel_example.
Import kernel_example.

Lemma visible_all o d e : e ∈ visible o d → e ∈ all_disks.
Proof. unfold visible. destruct (k_delay o); [by intros [_ ?]%list_elem_of_filter|by intros ?%elem_of_nil]. Qed.

Lemma all_disks_wf : Forall entry_wf all_disks.
Proof. repeat constructor; by vm_compute. Qed.

(** A disk for each of the eight targets. *)
Lemma disk_at t : 0 ≤ t < 8 → ∃ e, e ∈ all_disks ∧ at_target vhost_addr t e.
Proof.
  intros Ht. assert (t ∈ target_numbers) as Hin.
  { destruct (target_numbers_split t Ht) as (pre & post & <- & _). apply elem_of_app. right. by left. }
  assert (Forall (λ t, Exists (at_target vhost_addr t) all_disks) target_numbers) as Hall.
  { apply (bool_decide_unpack _). by vm_compute. }
  rewrite Forall_forall in Hall. apply Exists_exists, Hall, Hin.
Qed.

#[export] Program Instance kernel_laws : GuestKernelLaws refd kstate "vhost.0" vhost_addr.
Next Obligation.
  intros o d. apply Forall_forall. intros e He%visible_all. pose proof all_disks_wf as Hwf.
  rewrite Forall_forall in Hwf. by apply Hwf.
Qed.
Next Obligation.
  intros o d e He%visible_all. repeat (apply elem_of_cons in He as [->|He]; [by vm_compute|]). by apply elem_of_nil in He.
Qed.
Next Obligation. done. Qed.
Next Obligation.
  intros o d e He%visible_all. change (serve_kernel _ (Readlink (JoinPath [sys_block; entry_name e])) d o = (o, Ok (link_text (se_link e)))).
  cbn [serve_kernel]. f_equal.
  repeat (apply elem_of_cons in He as [->|He]; [by vm_compute|]). by apply elem_of_nil in He.
Qed.
Next Obligation. intros o d. by exists o. Qed.
Next Obligation.
  intros [delay ns] d t n Ht [_ Hn]%ref_places. induction delay as [|delay IH].
  - destruct (disk_at t Ht) as (e & He & Hat). apply (appears_now _ _ _ _ e); [|done].
    apply list_elem_of_filter. split; [|done]. destruct Hat as [_ ->]. by eexists.
  - by apply (appears_later _ _ _ _ (MkKstate delay ns) WatcherEvent); [|left|].
Qed.
Next Obligation. intros o d name dev. by eexists o, _, _. Qed.

(** The volume "b" gets target 1; its disk shows up after two rounds, and a third is
    needed to find it. *)
Example stage_b :
  let stage fuel := (run (serve_host sys_example.ctl "host.host-0") (createDevice fuel example_remote "b" ())
                       (MkHost sys_example.w0 (MkKstate 2 ∅))).2 in
  stage 3%nat = Ok (Some "/dev/sdb123456789", Ok "/dev/sdb123456789/sdb") ∧ is_ok (stage 2%nat) = false.
Proof. split; vm_compute; reflexivity. Qed.

