(* ===== verification/Services.v ===== *)
(** * Calls as bytes: client stubs, service tables and the proxy

    The rest of pkg/spec/oim/v0/oim.pb.go: the stubs that a client calls, and the tables
    with handlers that a gRPC server uses.  gRPC encodes what the stub gets, finds the
    handler of the method, and encodes what it returns; the registry passes what it does
    not know on as it is.  With these pieces the system of [System.v] exchanges bytes,
    and behaves like the one that exchanges messages. *)
From S2P Require Import Prelude GoStrings Errors Json Messages Wire Protobuf RegistryPath GRPC Registry Effects SPDK Daemon Controller ControllerSeq Registration CSIEnv Remote System Sysfs Staging.
Import oimcontroller kernel_example.

(** ** Generated code *)

Section Generated.
Context {Ctx S : Type}.

(** A method of a server; an interceptor gets the handler to call. *)
Definition Method (kq kp : kind) : Type := Ctx → msg kq → S → S * result (msg kp).
Definition Interceptor : Type := ∀ kq kp, Ctx → msg kq → string → Method kq kp → S → S * result (msg kp).

(** The interfaces RegistryServer and ControllerServer. *)
Record RegistryServer := MkRegistryServer {
  srv_SetValue : Method KSetValueRequest KSetValueReply;
  srv_GetValues : Method KGetValuesRequest KGetValuesReply
}.
Record ControllerServer := MkControllerServer {
  srv_MapVolume : Method KMapVolumeRequest KMapVolumeReply;
  srv_UnmapVolume : Method KUnmapVolumeRequest KUnmapVolumeReply;
  srv_ProvisionMallocBDev : Method KProvisionMallocBDevRequest KProvisionMallocBDevReply;
  srv_CheckMallocBDev : Method KCheckMallocBDevRequest KCheckMallocBDevReply
}.

(** The body of every handler: a new request is decoded, and the method called, by the
    interceptor if there is one. *)
Definition unary_Handler {kq kp} (FullMethod : string) (srv : Method kq kp) (ctx : Ctx)
    (dec : msg kq → result (msg kq)) (interceptor : option Interceptor) (s : S) : S * result (msg kp) :=
  match dec Protobuf.Reset with
  | Ok in_ =>
      match interceptor with
      | None => srv ctx in_ s
      | Some intercept => intercept kq kp ctx in_ FullMethod srv s
      end
  | Err e => (s, Err e)
  | Panic why => (s, Panic why)
  end.

Definition Registry_SetValue_Handler (srv : RegistryServer) := unary_Handler "/oim.v0.Registry/SetValue" (srv_SetValue srv).
Definition Registry_GetValues_Handler (srv : RegistryServer) := unary_Handler "/oim.v0.Registry/GetValues" (srv_GetValues srv).
Definition Controller_MapVolume_Handler (srv : ControllerServer) :=
  unary_Handler "/oim.v0.Controller/MapVolume" (srv_MapVolume srv).
Definition Controller_UnmapVolume_Handler (srv : ControllerServer) :=
  unary_Handler "/oim.v0.Controller/UnmapVolume" (srv_UnmapVolume srv).
Definition Controller_ProvisionMallocBDev_Handler (srv : ControllerServer) :=
  unary_Handler "/oim.v0.Controller/ProvisionMallocBDev" (srv_ProvisionMallocBDev srv).
Definition Controller_CheckMallocBDev_Handler (srv : ControllerServer) :=
  unary_Handler "/oim.v0.Controller/CheckMallocBDev" (srv_CheckMallocBDev srv).

(** gRPC's errors for messages that cannot be encoded or decoded. *)
Definition codec_error {A} (format : string) (r : result A) : result A :=
  match r with Err e => Err (StatusError Internal format [Error e]) | _ => r end.
Definition encode {k} (m : msg k) : result bytes := codec_error "grpc: error while marshaling: %v" (Marshal m).

(** A handler as gRPC uses it: it decodes with Unmarshal and encodes the reply. *)
Definition Bytes_handler : Type := Ctx → bytes → option Interceptor → S → S * result bytes.
Definition on_bytes {kq kp} (h : Ctx → (msg kq → result (msg kq)) → option Interceptor → S → S * result (msg kp)) : Bytes_handler :=
  λ ctx b interceptor s, let '(s', r) := h ctx (λ m, codec_error "grpc: error unmarshalling request: %v" (Unmarshal b m)) interceptor s in
                         (s', rep ← r; encode rep).

Record ServiceDesc := MkServiceDesc { ServiceName : string; Methods : list (string * Bytes_handler) }.

Definition Registry_serviceDesc (srv : RegistryServer) : ServiceDesc :=
  MkServiceDesc "oim.v0.Registry"
    [("SetValue", on_bytes (Registry_SetValue_Handler srv)); ("GetValues", on_bytes (Registry_GetValues_Handler srv))].
Definition Controller_serviceDesc (srv : ControllerServer) : ServiceDesc :=
  MkServiceDesc "oim.v0.Controller"
    [("MapVolume", on_bytes (Controller_MapVolume_Handler srv));
     ("UnmapVolume", on_bytes (Controller_UnmapVolume_Handler srv));
     ("ProvisionMallocBDev", on_bytes (Controller_ProvisionMallocBDev_Handler srv));
     ("CheckMallocBDev", on_bytes (Controller_CheckMallocBDev_Handler srv))].

(** A gRPC server with one service: "/service/method" selects the handler, everything
    else goes to the handler for unknown services, by default an error. *)
Definition grpc_Server (desc : ServiceDesc) (interceptor : option Interceptor)
    (unknown : Ctx → string → bytes → S → S * result bytes) (ctx : Ctx) (method : string) (b : bytes) : S → S * result bytes :=
  match list_find (λ m, "/" +:+ ServiceName desc +:+ "/" +:+ m.1 = method) (Methods desc) with
  | Some (_, (_, h)) => h ctx b interceptor
  | None => unknown ctx method b
  end.
Definition unimplemented (ctx : Ctx) (method : string) (b : bytes) (s : S) : S * result bytes :=
  (s, Err (StatusError Unimplemented "unknown service" [])).

(** [grpc.Invoke]: the connection is what happens to the bytes. *)
Definition Invoke {kq kp} (conn : string → bytes → S → S * result bytes) (method : string) (in_ : msg kq) (s : S) :
    S * result (msg kp) :=
  match encode in_ with
  | Ok b =>
      let '(s', r) := conn method b s in
      (s', reply ← r; codec_error "grpc: failed to unmarshal the received message %v" (Unmarshal reply Protobuf.Reset))
  | Err e => (s, Err e)
  | Panic why => (s, Panic why)
  end.

Abbreviation ClientConn := (string → bytes → S → S * result bytes).
Definition registryClient_SetValue (cc : ClientConn) (in_ : SetValueRequest) : S → S * result Empty :=
  Invoke (kq := KSetValueRequest) (kp := KSetValueReply) cc "/oim.v0.Registry/SetValue" in_.
Definition registryClient_GetValues (cc : ClientConn) (in_ : GetValuesRequest) : S → S * result GetValuesReply :=
  Invoke (kq := KGetValuesRequest) (kp := KGetValuesReply) cc "/oim.v0.Registry/GetValues" in_.
Definition controllerClient_MapVolume (cc : ClientConn) (in_ : MapVolumeRequest) : S → S * result MapVolumeReply :=
  Invoke (kq := KMapVolumeRequest) (kp := KMapVolumeReply) cc "/oim.v0.Controller/MapVolume" in_.
Definition controllerClient_UnmapVolume (cc : ClientConn) (in_ : UnmapVolumeRequest) : S → S * result Empty :=
  Invoke (kq := KUnmapVolumeRequest) (kp := KUnmapVolumeReply) cc "/oim.v0.Controller/UnmapVolume" in_.
Definition controllerClient_ProvisionMallocBDev (cc : ClientConn) (in_ : ProvisionMallocBDevRequest) : S → S * result Empty :=
  Invoke (kq := KProvisionMallocBDevRequest) (kp := KProvisionMallocBDevReply) cc "/oim.v0.Controller/ProvisionMallocBDev" in_.
Definition controllerClient_CheckMallocBDev (cc : ClientConn) (in_ : CheckMallocBDevRequest) : S → S * result Empty :=
  Invoke (kq := KCheckMallocBDevRequest) (kp := KCheckMallocBDevReply) cc "/oim.v0.Controller/CheckMallocBDev" in_.

(** ** A call through the wire *)

(** Messages that can be sent. *)
Definition sendable {k} (m : msg k) : Prop := wire_ok k m ∧ Size m < 2 ^ 63.

(** An interceptor that only watches. *)
Definition watches (interceptor : option Interceptor) : Prop :=
  ∀ i kq kp ctx (in_ : msg kq) method (h : Method kq kp) s, interceptor = Some i → i kq kp ctx in_ method h s = h ctx in_ s.

Lemma wire_back {k} (m : msg k) : sendable m → ∃ b, encode m = Ok b ∧ Unmarshal b Protobuf.Reset = Ok m.
Proof.
  intros [Hok Hs]. destruct (message_coded k m Hok Hs) as [b Hb]. exists b. split; [|by eapply coded_Unmarshal].
  unfold encode. by rewrite (coded_Marshal _ _ Hb).
Qed.

(** Stub, encoding, handler and encoding of the reply: the method is called. *)
Lemma Invoke_transparent {kq kp} conn FullMethod (srv : Method kq kp) ctx interceptor (in_ : msg kq) s :
  watches interceptor → sendable in_ → (∀ rep, (srv ctx in_ s).2 = Ok rep → sendable rep) →
  (∀ b, conn FullMethod b s = on_bytes (unary_Handler FullMethod srv) ctx b interceptor s) →
  Invoke conn FullMethod in_ s = srv ctx in_ s.
Proof.
  intros Hi Hin Hrep Hconn. destruct (wire_back in_ Hin) as (b & Hm & Hu). unfold Invoke. rewrite Hm, Hconn.
  unfold on_bytes, unary_Handler. rewrite Hu. cbn [codec_error].
  assert ((match interceptor with None => srv ctx in_ s | Some i => i kq kp ctx in_ FullMethod srv s end) = srv ctx in_ s) as ->
    by (destruct interceptor; [by eapply Hi|done]).
  destruct (srv ctx in_ s) as [s' [rep|e|why]]; [|done..]. cbn [snd] in Hrep.
  destruct (wire_back rep (Hrep rep eq_refl)) as (b' & Hm' & Hu'). cbn [mbind result_mbind result_bind].
  rewrite Hm'. cbn [mbind result_mbind result_bind]. by rewrite Hu'.
Qed.
End Generated.
Arguments Method : clear implicits.
Arguments Interceptor : clear implicits.
Arguments RegistryServer : clear implicits.
Arguments ControllerServer : clear implicits.

(** ** The processes *)

Section Processes.
Context {DB : Type} {RD : RegistryDB DB}.
Context {D : Type} {SD : SPDKDaemon D}.
Context {Creds : Type} (c : Controller Creds).
Context (peer : string).

Abbreviation world_ := (world (DB := DB) (D := D)).
(** What the two servers run around their methods. *)
Context (registry_interceptor controller_interceptor : option (Interceptor context world_)).

Definition reply (r : result ()) : result Empty := _ ← r; Ok MkEmpty.

(** The controller's methods, in front of the daemon. *)
Definition on_daemon {A} (p : go (locked spdkE) A) (w : world_) : world_ * result A :=
  let '(daemon, r) := serve1 p (w_daemon w) in (MkWorld (w_db w) daemon, r).
Definition on_daemon_ (p : go (locked spdkE) ()) (w : world_) : world_ * result Empty :=
  let '(w', r) := on_daemon p w in (w', reply r).

Definition controller_server : ControllerServer context world_ := {|
  srv_MapVolume _ in_ := on_daemon (MapVolume c in_);
  srv_UnmapVolume _ in_ := on_daemon_ (UnmapVolume c in_);
  srv_ProvisionMallocBDev _ in_ := on_daemon_ (ProvisionMallocBDev c in_);
  srv_CheckMallocBDev _ in_ := on_daemon_ (CheckMallocBDev c in_)
|}.

Definition registry_server : RegistryServer context world_ := {|
  srv_SetValue ctx in_ w := let '(db, r) := SetValue ctx in_ (w_db w) in (MkWorld db (w_daemon w), reply r);
  srv_GetValues ctx in_ w := (w, GetValues ctx in_ (w_db w))
|}.

Definition controller_process : context → string → bytes → world_ → world_ * result bytes :=
  grpc_Server (Controller_serviceDesc controller_server) controller_interceptor unimplemented.

(** The proxy passes the bytes on to where [Connect] says, as [proxied] does with the
    methods. *)
Definition proxy_bytes (ctx : context) (method : string) (b : bytes) (w : world_) : world_ * result bytes :=
  match Connect ctx method (w_db w) with
  | Ok d =>
      if decide (dial_address d = controllerAddr c ∧ dial_ServerName d = "controller." +:+ controllerID c)
      then controller_process ctx method b w
      else (w, Err (StatusError Unavailable "transport failure" []))
  | Err e => (w, Err e)
  | Panic why => (w, Panic why)
  end.

Definition registry_process : context → string → bytes → world_ → world_ * result bytes :=
  grpc_Server (Registry_serviceDesc registry_server) registry_interceptor proxy_bytes.

(** The connection of the driver, for calls with this metadata. *)
Definition conn (md : option (gmap string (list string))) : string → bytes → world_ → world_ * result bytes :=
  registry_process (caller peer md).
Definition to_controller (id : string) : string → bytes → world_ → world_ * result bytes :=
  conn (Some {["controllerid" := [id]]}).

(** The calls of the remote backend, through the stubs. *)
Definition no_reply (r : world_ * result Empty) : world_ * result () := let '(w, r) := r in (w, _ ← r; Ok ()).

Definition serve_wire : ∀ B, rpcE B → world_ → world_ * B := λ B e,
  match e in rpcE B return world_ → world_ * B with
  | LoadTLS_ _ _ _ => λ w, (w, Ok ())
  | Dial _ => λ w, (w, Ok ())
  | CloseConn => λ w, (w, ())
  | GetValues_ in_ => registryClient_GetValues (conn None) in_
  | MapVolume_ id in_ => controllerClient_MapVolume (to_controller id) in_
  | UnmapVolume_ id in_ => λ w, no_reply (controllerClient_UnmapVolume (to_controller id) in_ w)
  | ProvisionMallocBDev_ id in_ => λ w, no_reply (controllerClient_ProvisionMallocBDev (to_controller id) in_ w)
  | CheckMallocBDev_ id in_ => λ w, no_reply (controllerClient_CheckMallocBDev (to_controller id) in_ w)
  end.

(** ** Transparency *)

(** The connection refuses the call. *)
Lemma Invoke_refused {kq kp} cc FullMethod (in_ : msg kq) (w : world_) (r : result bytes) :
  sendable in_ → (∀ b, cc FullMethod b w = (w, r)) → is_ok r = false →
  Invoke (kp := kp) cc FullMethod in_ w = (w, match r with Err e => Err e | Panic why => Panic why | Ok _ => Panic "" end).
Proof.
  intros Hin Hcc Hr. destruct (wire_back in_ Hin) as (b & Hm & _). unfold Invoke. rewrite Hm, Hcc. by destruct r.
Qed.

Section Transparent.
Context {SDS : SPDKSound D}.
Hypothesis registry_watches : watches registry_interceptor.
Hypothesis controller_watches : watches controller_interceptor.

(** A method of the controller, as the driver reaches it: [proxied], on bytes. *)
Lemma Invoke_proxied {kq kp} FullMethod (srv : Method context world_ kq kp) id (in_ : msg kq) w :
  let ctx := caller peer (Some {["controllerid" := [id]]}) in
  (∀ b, registry_process ctx FullMethod b w = proxy_bytes ctx FullMethod b w) →
  (∀ b, controller_process ctx FullMethod b w = on_bytes (unary_Handler FullMethod srv) ctx b controller_interceptor w) →
  sendable in_ → (∀ rep, (srv ctx in_ w).2 = Ok rep → sendable rep) →
  Invoke (to_controller id) FullMethod in_ w =
    match Connect ctx FullMethod (w_db w) with
    | Ok d =>
        if decide (dial_address d = controllerAddr c ∧ dial_ServerName d = "controller." +:+ controllerID c)
        then srv ctx in_ w else (w, Err (StatusError Unavailable "transport failure" []))
    | Err e => (w, Err e)
    | Panic why => (w, Panic why)
    end.
Proof.
  intros ctx Hreg Hctl Hin Hrep.
  assert (∀ b, to_controller id FullMethod b w = proxy_bytes ctx FullMethod b w) as Hconn by apply Hreg.
  unfold proxy_bytes in Hconn. destruct (Connect ctx FullMethod (w_db w)) as [d|e|why].
  - destruct (decide _) as [Hd|Hd].
    + apply (Invoke_transparent _ _ _ ctx controller_interceptor); [done..|]. intros b. by rewrite Hconn, Hctl.
    + by rewrite (Invoke_refused _ _ _ _ _ Hin Hconn eq_refl).
  - by rewrite (Invoke_refused _ _ _ _ _ Hin Hconn eq_refl).
  - by rewrite (Invoke_refused _ _ _ _ _ Hin Hconn eq_refl).
Qed.

(** Every call of the controller leaves the volumes in order, whatever its result. *)
Lemma serve1_locked_keeps {A} n (p : go spdkE A) Q d :
  (∀ v, vol_ok c n v → wp spdk_serve view daemon_wf (vol_ok c) n p v Q) →
  good_start c d → good_start c (serve1 (with_lock n p) d).1.
Proof.
  intros Hp [Hd Hok]. unfold serve1. rewrite run_with_lock. destruct (run spdk_serve p d) as [d' r] eqn:Hrun.
  destruct (wp_run spdk_serve view daemon_wf (vol_ok c) n p Q d d' r) as (Hd' & Hv' & Hframe & _); [by apply Hp|done..|].
  split; [done|]. intros m. destruct (decide (m = n)) as [->|Hm]; [done|]. by rewrite Hframe.
Qed.

Lemma MapVolume_keeps in_ d : good_start c d → good_start c (serve1 (MapVolume c in_) d).1.
Proof.
  intros Hd. unfold MapVolume. repeat (case_decide; [done|]). eapply serve1_locked_keeps; [|done]. intros v Hv. by apply MapVolume_safe.
Qed.
Lemma UnmapVolume_keeps in_ d : good_start c d → good_start c (serve1 (UnmapVolume c in_) d).1.
Proof.
  intros Hd. unfold UnmapVolume. repeat (case_decide; [done|]). eapply serve1_locked_keeps; [|done]. intros v Hv. by apply UnmapVolume_safe.
Qed.
Lemma ProvisionMallocBDev_keeps in_ d : good_start c d → good_start c (serve1 (ProvisionMallocBDev c in_) d).1.
Proof.
  intros Hd. unfold ProvisionMallocBDev. repeat (case_decide; [done|]). eapply serve1_locked_keeps; [|done].
  intros v Hv. by apply ProvisionMallocBDev_safe.
Qed.
Lemma CheckMallocBDev_keeps in_ d : good_start c d → good_start c (serve1 (CheckMallocBDev c in_) d).1.
Proof.
  intros Hd. unfold CheckMallocBDev. repeat (case_decide; [done|]). eapply serve1_locked_keeps; [|done]. intros v Hv. by apply CheckMallocBDev_safe.
Qed.

(** What the driver may send. *)
Definition rpc_ok {B} (e : rpcE B) : Prop :=
  match e with
  | GetValues_ in_ => sendable (k := KGetValuesRequest) in_
  | MapVolume_ _ in_ => sendable (k := KMapVolumeRequest) in_
  | UnmapVolume_ _ in_ => sendable (k := KUnmapVolumeRequest) in_
  | ProvisionMallocBDev_ _ in_ => sendable (k := KProvisionMallocBDevRequest) in_
  | CheckMallocBDev_ _ in_ => sendable (k := KCheckMallocBDevRequest) in_
  | _ => True
  end.

(** The PCI address of the controller fits into its fields, and what the registry says
    can be sent. *)
Definition vhost_ok : Prop := ∀ a, vhostDev c = Some a → PCIAddress_ok a.
Definition registry_ok (db : DB) : Prop :=
  ∀ in_ rep, GetValues (caller peer None) in_ db = Ok rep → sendable (k := KGetValuesReply) rep.
Definition wire_world (w : world_) : Prop := good_start c (w_daemon w) ∧ registry_ok (w_db w).

(** It is enough that all entries of the registry together can be sent. *)
Lemma registry_ok_small {RDL : RegistryDBLaws DB} db all :
  db_wf db → GetValues (caller peer None) (MkGetValuesRequest "") db = Ok (MkGetValuesReply all) →
  GetValuesReply_Size (MkGetValuesReply all) < 2 ^ 63 → registry_ok db.
Proof.
  intros Hdb Hall Hs in_ rep Hrep. destruct (Foreach_iterates db Hdb) as (l & _ & _ & Hit). split; [done|].
  assert (∀ in_ rep, GetValues (caller peer None) in_ db = Ok rep → ∃ es, SplitRegistryPath (GetValues_Path in_) = Ok es ∧
    Values rep = (λ '(k, v), MkValue k v) <$> filter (λ '(k, v), key_matches (JoinRegistryPath es) k = true) l) as Hget.
  { clear -Hit. intros in_ rep (es & Hes & (u & _ & [= <-])%result_bind_Ok)%result_bind_Ok. exists es. split; [done|].
    cbn [Values]. by rewrite Hit, iterate_collect. }
  apply Hget in Hall as (es0 & [= <-] & Hall). apply Hget in Hrep as (es & _ & Hrep). cbn [msg message Size]. clear -Hall Hrep Hs.
  eapply Z.le_lt_trans; [clear Hs|exact Hs]. unfold GetValuesReply_Size. rewrite Hall, Hrep. clear Hall Hrep.
  induction l as [|[k v] l IH]; [done|]. rewrite !filter_cons.
  pose proof (size_message_bounds (Value_Size (MkValue k v))). pose proof (Value_size_nonneg (MkValue k v)).
  repeat case_decide; cbn [fmap list_fmap foldr] in *; (lia || by exfalso).
Qed.

Lemma Empty_sendable {k} (m : msg k) : k = KUnmapVolumeReply ∨ k = KProvisionMallocBDevReply ∨ k = KCheckMallocBDevReply → sendable m.
Proof. intros Hk. by destruct_or! Hk; subst k. Qed.

Lemma MapVolume_sendable in_ (w : world_) rep :
  vhost_ok → good_start c (w_daemon w) → (on_daemon (MapVolume c in_) w).2 = Ok rep → sendable (k := KMapVolumeReply) rep.
Proof.
  intros Hdev Hd. unfold on_daemon. destruct (serve1 (MapVolume c in_) (w_daemon w)) as [d' r] eqn:E. cbn [snd]. intros ->.
  destruct (serve1_Map_Ok c _ _ _ _ Hd E) as ([_ Hok] & _ & _ & t & -> & Hp).
  assert (0 ≤ t < 8) as Ht.
  { destruct (Hok (Map_VolumeId in_)) as [_ Hpl]. apply (Hpl (vhostSCSI c, t)). cbn. rewrite Hp. set_solver. }
  assert (SCSIDisk_ok (MkSCSIDisk t 0)) as Hs by (split; cbn [Target Lun]; unfold in_uint32; lia).
  split; [split; cbn; [done|by intros ? [= <-]]|]. cbn [msg message Size]. unfold MapVolumeReply_Size. cbn [PciAddress ScsiDisk].
  pose proof (size_message_bounds (SCSIDisk_Size (MkSCSIDisk t 0))). pose proof (SCSIDisk_size_small (MkSCSIDisk t 0)).
  destruct (vhostDev c) as [a|]; [|lia]. pose proof (size_message_bounds (PCIAddress_Size a)). pose proof (PCIAddress_size_small a). lia.
Qed.

(** A method without data in its reply. *)
Lemma no_reply_proxied id method (p : go (locked spdkE) ()) w :
  no_reply
    match Connect (caller peer (Some {["controllerid" := [id]]})) ("/oim.v0.Controller/" +:+ method) (w_db w) with
    | Ok d =>
        if decide (dial_address d = controllerAddr c ∧ dial_ServerName d = "controller." +:+ controllerID c)
        then on_daemon_ p w else (w, Err (StatusError Unavailable "transport failure" []))
    | Err e => (w, Err e)
    | Panic why => (w, Panic why)
    end = proxied c peer id method p w.
Proof.
  unfold proxied. destruct (Connect _ _ _) as [d|e|why]; [|done..]. destruct (decide _); [|done].
  unfold on_daemon_, on_daemon. by destruct (serve1 p (w_daemon w)) as [d' [[]|e|why]].
Qed.

(** The calls of a controller that registers itself, and of oimctl. *)
Lemma SetValue_wire ctx in_ w :
  sendable (k := KSetValueRequest) in_ →
  no_reply (registryClient_SetValue (registry_process ctx) in_ w) =
    let '(db, r) := SetValue ctx in_ (w_db w) in (MkWorld db (w_daemon w), r).
Proof.
  intros Hin. unfold registryClient_SetValue.
  rewrite (Invoke_transparent _ _ (srv_SetValue registry_server) ctx registry_interceptor); [|done..].
  cbn [srv_SetValue registry_server]. by destruct (SetValue ctx in_ (w_db w)) as [db [[]|e|why]].
Qed.

Lemma GetValues_wire ctx in_ w :
  sendable (k := KGetValuesRequest) in_ →
  (∀ rep, GetValues ctx in_ (w_db w) = Ok rep → sendable (k := KGetValuesReply) rep) →
  registryClient_GetValues (registry_process ctx) in_ w = (w, GetValues ctx in_ (w_db w)).
Proof.
  intros Hin Hrep. by apply (Invoke_transparent _ _ (srv_GetValues registry_server) ctx registry_interceptor).
Qed.

(** One call: the driver cannot tell the bytes from the messages. *)
Lemma serve_wire_rpc {B} (e : rpcE B) w :
  vhost_ok → wire_world w → rpc_ok e → serve_wire B e w = serve_rpc c peer B e w.
Proof.
  intros Hdev [Hd Hdb] He. destruct e; cbn [serve_wire serve_rpc rpc_ok] in *; try done.
  - apply GetValues_wire; [done|apply Hdb].
  - unfold controllerClient_MapVolume. rewrite (Invoke_proxied _ (srv_MapVolume controller_server)); [done|done|done|done|].
    intros rep. by apply MapVolume_sendable.
  - rewrite <-no_reply_proxied. unfold controllerClient_UnmapVolume. rewrite (Invoke_proxied _ (srv_UnmapVolume controller_server));
      [done..|intros; apply Empty_sendable; auto].
  - rewrite <-no_reply_proxied. unfold controllerClient_ProvisionMallocBDev.
    rewrite (Invoke_proxied _ (srv_ProvisionMallocBDev controller_server)); [done..|intros; apply Empty_sendable; auto].
  - rewrite <-no_reply_proxied. unfold controllerClient_CheckMallocBDev.
    rewrite (Invoke_proxied _ (srv_CheckMallocBDev controller_server)); [done..|intros; apply Empty_sendable; auto].
Qed.

Lemma proxied_keeps {A} id method (p : go (locked spdkE) A) w :
  (good_start c (w_daemon w) → good_start c (serve1 p (w_daemon w)).1) → wire_world w → wire_world (proxied c peer id method p w).1.
Proof.
  intros Hp [Hd Hdb]. unfold proxied. destruct (Connect _ _ _); [|done..]. destruct (decide _); [|done].
  specialize (Hp Hd). by destruct (serve1 p (w_daemon w)).
Qed.

Lemma serve_rpc_keeps {B} (e : rpcE B) w : wire_world w → wire_world (serve_rpc c peer B e w).1.
Proof.
  intros Hw. destruct e; try done; cbn [serve_rpc]; (apply proxied_keeps; [|done]).
  - apply MapVolume_keeps.
  - apply UnmapVolume_keeps.
  - apply ProvisionMallocBDev_keeps.
  - apply CheckMallocBDev_keeps.
Qed.
End Transparent.

(** ** The driver and its machine *)

Section Driver.
Context {O : Type} {GK : GuestKernel D O}.
Abbreviation host_ := (host (DB := DB) (D := D) (O := O)).

(** [serve_host], where the calls to the registry are bytes. *)
Definition serve_host_wire : ∀ B, csiE B → host_ → host_ * B := λ B e,
  match e in csiE B return host_ → host_ * B with
  | RPC e => λ h, let '(w, b) := serve_wire _ e (h_world h) in (MkHost w (h_os h), b)
  | e => serve_host c peer _ e
  end.

Definition driver_ok {A} (p : prog csiE A) : Prop :=
  all_calls (λ B e, match e with RPC e => rpc_ok e | _ => True end) p.

End Driver.
End Processes.

(** ** The requests of the remote backend *)

Section Backend.
Context {Req : Type} (r : remoteSPDK Req).

(** Strings far from the limit of a message. *)
Definition short (s : string) : Prop := zlen (bytes_of s) < 2 ^ 62.

Lemma one_string_sendable {k} (m : msg k) s : wire_ok k m → short s → Size m = size_string s → sendable m.
Proof. intros Hk Hs Hsize. split; [done|]. pose proof (size_string_bounds s). unfold short in Hs. lia. Qed.

Lemma provision_ok n size : short n → in_int64 size → driver_ok (provision r n size).
Proof.
  intros Hn Hs. assert (sendable (k := KProvisionMallocBDevRequest) (MkProvisionMallocBDevRequest n size)) as Hm.
  { split; [done|]. cbn. unfold ProvisionMallocBDevRequest_Size. cbn. pose proof (size_string_bounds n).
    pose proof (size_number_bounds size). unfold short in Hn. lia. }
  unfold provision, driver_ok. calls_with ltac:(progress unfold dialRegistry, defer, rpc_, with_status).
Qed.

Lemma round_capacity_int64 z : in_int64 (round_capacity z).
Proof. unfold round_capacity. case_decide; [by vm_compute|]. apply (wrap_signed_range 64). lia. Qed.

Lemma createVolume_ok n bytes : short n → driver_ok (createVolume r n bytes).
Proof.
  intros Hn. unfold createVolume, driver_ok. destruct (_ <=? _); [done|]. apply all_calls_go_bind; [|done].
  apply provision_ok; [done|apply round_capacity_int64].
Qed.

Lemma deleteVolume_ok n : short n → driver_ok (deleteVolume r n).
Proof. intros Hn. by apply provision_ok. Qed.

Lemma checkVolumeExists_ok n : short n → driver_ok (checkVolumeExists r n).
Proof.
  intros Hn. assert (sendable (k := KCheckMallocBDevRequest) (MkCheckMallocBDevRequest n)) as Hm by (by eapply one_string_sendable).
  unfold checkVolumeExists, driver_ok. calls_with ltac:(progress unfold dialRegistry, defer, rpc_, with_status).
Qed.

Lemma deleteDevice_ok n : short n → driver_ok (deleteDevice r n).
Proof.
  intros Hn. assert (sendable (k := KUnmapVolumeRequest) (MkUnmapVolumeRequest n)) as Hm by (by eapply one_string_sendable).
  unfold deleteDevice, driver_ok. calls_with ltac:(progress unfold dialRegistry, defer, rpc_, with_status).
Qed.

(** The request for the controller is the one of [map_request]. *)
Lemma createDevice_ok fuel n csiRequest :
  short (oimControllerID r +:+ "/" +:+ RegistryPCI) →
  (∀ request, map_request r n csiRequest = Ok request → sendable (k := KMapVolumeRequest) request) →
  driver_ok (createDevice fuel r n csiRequest).
Proof.
  intros Hid Hreq.
  assert (sendable (k := KGetValuesRequest) (MkGetValuesRequest (oimControllerID r +:+ "/" +:+ RegistryPCI))) as Hget
    by (by eapply one_string_sendable).
  assert (driver_ok (locateDevice fuel r n csiRequest)) as Hloc.
  { unfold locateDevice, driver_ok. apply all_calls_go_bind; [by calls_with ltac:(progress unfold rpc_)|]. intros values.
    apply all_calls_go_bind; [by calls_with idtac|]. intros defaults. cbv zeta. unfold map_request in Hreq. cbv zeta in Hreq.
    assert (∀ request, map_request r n csiRequest = Ok request → all_calls (λ B e, match e with RPC e => rpc_ok e | _ => True end)
      (reply ← wrap_err (Sprintf "MapVolume for %s" [n]) (rpc_ (MapVolume_ (oimControllerID r) request));
       complete ← from_result (completeAddress (oimControllerID r +:+ "/" +:+ RegistryPCI) reply defaults);
       wrap_err "wait for device" (fuelled (waitForDevice fuel "/sys/dev/block" complete (ScsiDisk reply))))) as Hrest.
    { intros request Hrq. pose proof (Hreq _ Hrq). calls_with ltac:(first
        [ eapply all_calls_mono; [|apply waitForDevice_calls]; by intros B [] | progress unfold rpc_, fuelled ]). }
    unfold map_request in Hrest. cbv zeta in Hrest. destruct (mapVolumeParams r) as [f|]; [|by apply Hrest].
    destruct (f csiRequest _) as [request|e|why]; [by apply Hrest|done..]. }
  unfold createDevice, no_cleanup, driver_ok.
  calls_with ltac:(first [exact Hloc | progress unfold dialRegistry, defer, rpc_, makeNode, os]).
Qed.
End Backend.

(** ** A concrete system *)

(** Staging a volume, with an interceptor in the controller. *)
Definition passing {S} : Interceptor context S := λ kq kp ctx in_ FullMethod h, h ctx in_.


(** The bytes that the driver sends for the BDev "c" of 1024 bytes, and the result. *)
Example wire_provision :
  encode (k := KProvisionMallocBDevRequest) (MkProvisionMallocBDevRequest "c" 1024) = Ok [0xa; 1; 0x63; 0x10; 0x80; 8] ∧
  (to_controller sys_example.ctl "host.host-0" None None "host-0" "/oim.v0.Controller/ProvisionMallocBDev"
     [0xa; 1; 0x63; 0x10; 0x80; 8] sys_example.w0).2 = Ok [] ∧
  (to_controller sys_example.ctl "host.host-1" None None "host-0" "/oim.v0.Controller/ProvisionMallocBDev"
     [0xa; 1; 0x63; 0x10; 0x80; 8] sys_example.w0).2 =
    Err (StatusError PermissionDenied "caller %q not allowed to contact controller %q" ["host.host-1"; "host-0"]).
Proof. split_and!; vm_compute; reflexivity. Qed.
