(* ===== verification/CSIMessages.v ===== *)
(** * Messages of the Container Storage Interface

    The requests and responses of CSI 1.0 and 0.3 that pkg/oim-csi-driver handles,
    with the fields that it reads or writes.  A pointer is an [option], a [oneof]
    an inductive type, a map a [gmap]; a repeated field without elements is nil,
    that is the empty list. *)
From S2P Require Import Prelude.

Abbreviation string_map := (gmap string string).

Inductive AccessMode_Mode :=
| UNKNOWN | SINGLE_NODE_WRITER | SINGLE_NODE_READER_ONLY | MULTI_NODE_READER_ONLY
| MULTI_NODE_SINGLE_WRITER | MULTI_NODE_MULTI_WRITER | Mode_other (n : Z).

#[global] Instance AccessMode_Mode_eq_dec : EqDecision AccessMode_Mode.
Proof. solve_decision. Defined.

Record MountVolume := MkMountVolume { FsType : string; MountFlags : list string }.

Inductive AccessType := BlockVolume | MountVolume_ (m : MountVolume) | AccessType_nil.

Record VolumeCapability := MkVolumeCapability {
  AccessType_ : AccessType;
  AccessMode : option AccessMode_Mode
}.

Definition GetBlock (cap : VolumeCapability) : option () :=
  match AccessType_ cap with BlockVolume => Some () | _ => None end.
Definition GetMount (cap : VolumeCapability) : option MountVolume :=
  match AccessType_ cap with MountVolume_ m => Some m | _ => None end.
Definition GetMode (cap : VolumeCapability) : AccessMode_Mode := default UNKNOWN (AccessMode cap).

(** [GetMount().GetFsType()] *)
Definition GetFsType (cap : VolumeCapability) : string :=
  match GetMount cap with Some m => FsType m | None => "" end.

Record CreateVolumeRequest := MkCreateVolumeRequest {
  cv_Name : string;
  cv_RequiredBytes : option Z;  (** [CapacityRange] *)
  cv_VolumeCapabilities : list VolumeCapability;
  cv_Parameters : string_map;
  cv_VolumeContentSource : option ()
}.

(** The attributes are there in version 0.3 only. *)
Record Volume := MkVolume { VolumeId : string; CapacityBytes : Z; Attributes : string_map }.

Record ValidateVolumeCapabilitiesRequest := MkValidateVolumeCapabilitiesRequest {
  vv_VolumeId : string;
  vv_VolumeCapabilities : list VolumeCapability;
  vv_VolumeContext : string_map;
  vv_Parameters : string_map
}.

Record Confirmed := MkConfirmed {
  cf_VolumeContext : string_map; cf_Parameters : string_map; cf_VolumeCapabilities : list VolumeCapability
}.
Record ValidateVolumeCapabilitiesResponse := MkValidateResponse {
  vr_Confirmed : option Confirmed; vr_Message : string
}.
(** Version 0.3. *)
Record ValidateVolumeCapabilitiesResponse0 := MkValidateResponse0 { vr0_Supported : bool; vr0_Message : string }.

(** [ns_Attributes] is VolumeContext in version 1.0 and VolumeAttributes in 0.3;
    [ns_Secrets] is Secrets and NodeStageSecrets. *)
Record NodeStageVolumeRequest := MkNodeStageVolumeRequest {
  ns_VolumeId : string;
  ns_StagingTargetPath : string;
  ns_VolumeCapability : option VolumeCapability;
  ns_Secrets : string_map;
  ns_Attributes : string_map
}.

Record NodePublishVolumeRequest := MkNodePublishVolumeRequest {
  np_VolumeId : string;
  np_StagingTargetPath : string;
  np_TargetPath : string;
  np_VolumeCapability : option VolumeCapability;
  np_Readonly : bool
}.

(** NodeUnpublishVolume (target path) and NodeUnstageVolume (staging target path). *)
Record NodeUndoRequest := MkNodeUndoRequest { nu_VolumeId : string; nu_Path : string }.
Record NodeGetVolumeStatsRequest := MkNodeGetVolumeStatsRequest { gs_VolumeId : string; gs_VolumePath : string }.

(** What [createDevice] gets as [interface{}]. *)
Inductive csi_request :=
| Request1 (r : NodeStageVolumeRequest)
| Request0 (r : NodeStageVolumeRequest).

Inductive ControllerCapability :=
| CREATE_DELETE_VOLUME | PUBLISH_UNPUBLISH_VOLUME | CREATE_DELETE_SNAPSHOT | LIST_SNAPSHOTS.
