(* ===== verification/CephCSI.v ===== *)
(** * Emulation of ceph-csi: pkg/oim-csi-driver/ceph-csi.go

    How the parameters of a NodeStageVolume request for the ceph-csi driver become
    the Ceph parameters of a MapVolume request. *)
From S2P Require Import Prelude GoStrings Messages Paths CSIMessages.

Definition rbdDefaultAdminID : string := "admin".
Definition rbdDefaultUserID : string := rbdDefaultAdminID.

(** The fields that are used: VolName and VolID stay empty. *)
Record rbdVolume := MkRbdVolume {
  rbd_Monitors : string; rbd_MonValueFromSecret : string; rbd_Pool : string;
  rbd_AdminID : string; rbd_UserID : string
}.

Definition getRBDVolumeOptions (volOptions : string_map) : result rbdVolume :=
  match volOptions !! "pool" with
  | None => Err (ErrorNew "Missing required parameter pool")
  | Some pool =>
      '(monitors, monValueFromSecret) ←
        match volOptions !! "monitors" with
        | Some monitors => Ok (monitors, "")
        | None =>
            match volOptions !! "monValueFromSecret" with
            | Some m => Ok ("", m)
            | None => Err (ErrorNew "Either monitors or monValueFromSecret must be set")
            end
        end;
      let adminID := default rbdDefaultAdminID (volOptions !! "adminid") in
      let userID := default rbdDefaultUserID (volOptions !! "userid") in
      mret (MkRbdVolume monitors monValueFromSecret pool adminID userID)
  end.

Definition getRBDKey (id : string) (credentials : string_map) : result string :=
  match credentials !! id with
  | Some key => Ok key
  | None => Err (Errorf "RBD key for ID: %s not found" [id])
  end.

Definition getMon (pOpts : rbdVolume) (credentials : string_map) : result string :=
  let mon := rbd_Monitors pOpts in
  if decide (mon = "") then
    if decide (rbd_MonValueFromSecret pOpts = "")
    then Err (ErrorNew "either monitors or monValueFromSecret must be set")
    else match credentials !! rbd_MonValueFromSecret pOpts with
         | None => Err (Errorf "mon data %s is not set in secret" [rbd_MonValueFromSecret pOpts])
         | Some val => Ok val
         end
  else Ok mon.

Definition mapCephVolumeParams (from : NodeStageVolumeRequest) (to : MapVolumeRequest) : result MapVolumeRequest :=
  let targetPath := ns_StagingTargetPath from in
  if negb (HasSuffix targetPath "/globalmount")
  then Err (Errorf "malformed value of target path: %s" [targetPath])
  else
    match last (Split (TrimSuffix targetPath "/globalmount") "/"%char) with
    | None => Panic "index out of range"
    | Some volName =>
        volOptions ← getRBDVolumeOptions (ns_Attributes from);
        let userID := rbd_UserID volOptions in
        let credentials := ns_Secrets from in
        mon ← getMon volOptions credentials;
        key ← getRBDKey userID credentials;
        mret (MkMapVolumeRequest (Map_VolumeId to)
                (Some (MapVolumeRequest_Ceph (Some (MkCephParams userID key mon (rbd_Pool volOptions) volName)))))
    end.

(** [emulateCephCSI0] *)
Definition emulateCephCSI0_name : string := "ceph-csi".
Definition emulateCephCSI0_capabilities : list ControllerCapability :=
  [CREATE_DELETE_VOLUME; PUBLISH_UNPUBLISH_VOLUME; CREATE_DELETE_SNAPSHOT; LIST_SNAPSHOTS].
Definition emulateCephCSI0_modes : list AccessMode_Mode := [SINGLE_NODE_WRITER].

(** ** What the parameters must contain *)

(** The monitors come from the attributes if they are there and not empty;
    otherwise an attribute names the secret that holds them, which is looked at
    only if there is no attribute "monitors" at all. *)
Definition monitors_of (attributes secrets : string_map) : option string :=
  match attributes !! "monitors" with
  | Some m => if decide (m = "") then None else Some m
  | None =>
      match attributes !! "monValueFromSecret" with
      | Some name => if decide (name = "") then None else secrets !! name
      | None => None
      end
  end.

(** The complete contract, as one relation between request and parameters. *)
Definition ceph_params (from : NodeStageVolumeRequest) (p : CephParams) : Prop :=
  (∃ dir, ns_StagingTargetPath from = dir +:+ Image p +:+ "/globalmount" ∧
     string_all (λ c, negb (bool_decide (c = "/"%char))) (Image p) = true ∧
     (dir = "" ∨ ∃ dir', dir = dir' +:+ "/")) ∧
  ns_Attributes from !! "pool" = Some (Pool p) ∧
  UserId p = default "admin" (ns_Attributes from !! "userid") ∧
  ns_Secrets from !! UserId p = Some (Secret p) ∧
  monitors_of (ns_Attributes from) (ns_Secrets from) = Some (Monitors p).

Lemma Join_snoc pre v :
  ∃ dir, Join (pre ++ [v]) "/" = dir +:+ v ∧ (dir = "" ∨ ∃ dir', dir = dir' +:+ "/").
Proof.
  induction pre as [|w pre (dir & Heq & Hdir)]; [exists ""; eauto|].
  exists (w +:+ "/" +:+ dir). split.
  - cbn [app Join]. destruct (pre ++ [v]) as [|x l] eqn:E; [by destruct pre|].
    rewrite Heq. by rewrite !str_app_assoc.
  - right. destruct Hdir as [->|[dir' ->]]; [exists w; by rewrite str_app_nil_r|]. exists (w +:+ "/" +:+ dir'). by rewrite !str_app_assoc.
Qed.

Lemma last_Split s v :
  last (Split s "/"%char) = Some v ↔
  ∃ dir, s = dir +:+ v ∧ string_all (λ c, negb (bool_decide (c = "/"%char))) v = true ∧
    (dir = "" ∨ ∃ dir', dir = dir' +:+ "/").
Proof.
  split.
  - intros [pre Hpre]%last_Some. pose proof (Split_no_sep s) as Hns.
    fold sep in Hpre |- *. rewrite Hpre in Hns. apply Forall_app in Hns as [_ Hv].
    rewrite Forall_singleton in Hv.
    destruct (Join_snoc pre v) as (dir & Heq & Hdir). exists dir. split; [|split; [exact Hv|exact Hdir]].
    rewrite <-Heq, <-Hpre. symmetry. apply Join_Split.
  - intros (dir & -> & Hv & [->|[dir' ->]]); cbn [String.append].
    + by rewrite Split_nosep.
    + rewrite <-str_app_assoc. cbn [String.append]. rewrite Split_app_sep, (Split_nosep v) by done. by rewrite last_snoc.
Qed.

Lemma getMon_spec attributes secrets v mon :
  getRBDVolumeOptions attributes = Ok v →
  getMon v secrets = Ok mon ↔ monitors_of attributes secrets = Some mon.
Proof.
  unfold getRBDVolumeOptions, getMon, monitors_of. destruct (attributes !! "pool"); [|done].
  destruct (attributes !! "monitors") as [m|]; [|destruct (attributes !! "monValueFromSecret") as [n|]; [|done]];
    cbn [mbind result_mbind result_bind]; intros [= <-]; cbn [rbd_Monitors rbd_MonValueFromSecret].
  - case_decide; [rewrite decide_True by done; naive_solver|naive_solver].
  - rewrite decide_True by done. case_decide; [naive_solver|]. destruct (secrets !! n); naive_solver.
Qed.

Lemma getRBDVolumeOptions_Ok attributes v :
  getRBDVolumeOptions attributes = Ok v →
  attributes !! "pool" = Some (rbd_Pool v) ∧ rbd_UserID v = default "admin" (attributes !! "userid").
Proof.
  unfold getRBDVolumeOptions. destruct (attributes !! "pool"); [|done].
  destruct (attributes !! "monitors") as [m|]; [|destruct (attributes !! "monValueFromSecret") as [n|]; [|done]];
    cbn [mbind result_mbind result_bind]; by intros [= <-].
Qed.

(** It fails only if the pool or the monitors are missing. *)
Lemma getRBDVolumeOptions_fails attributes secrets pool mon :
  attributes !! "pool" = Some pool → monitors_of attributes secrets = Some mon →
  ∃ v, getRBDVolumeOptions attributes = Ok v.
Proof.
  unfold getRBDVolumeOptions, monitors_of. intros ->.
  destruct (attributes !! "monitors") as [m|]; [|destruct (attributes !! "monValueFromSecret") as [n|]; [|done]];
    cbn [mbind result_mbind result_bind]; by eexists.
Qed.

(** C35. Ceph volumes: a NodeStageVolume request meant for ceph-csi is accepted exactly
    if it determines all Ceph parameters, and then these are what the MapVolume
    request asks for: the image is the directory above "globalmount" in the
    staging path, the pool comes from the attributes, the user from the attributes
    or the default, the key is the secret of that user, and the monitors are the
    attribute or the secret that an attribute names.  The volume ID is kept. *)
Theorem mapCephVolumeParams_spec from to to' :
  mapCephVolumeParams from to = Ok to' ↔
  ∃ p, ceph_params from p ∧ to' = MkMapVolumeRequest (Map_VolumeId to) (Some (MapVolumeRequest_Ceph (Some p))).
Proof.
  split.
  - unfold mapCephVolumeParams. intros H.
    destruct (HasSuffix (ns_StagingTargetPath from) "/globalmount") eqn:Hsuf; [cbn [negb] in H|done].
    destruct (last _) as [volName|] eqn:Hlast; [|done]. inv_bind H. inv_bind H. inv_bind H. injection H as <-.
    destruct (getRBDVolumeOptions_Ok _ _ E) as [Hpool Huser]. eexists. split; [|done].
    unfold getRBDKey in E1. destruct (ns_Secrets from !! _) as [key|] eqn:Hkey; [|done]. injection E1 as ->.
    apply HasSuffix_spec in Hsuf as [path Hpath]. rewrite Hpath, TrimSuffix_app in Hlast.
    apply last_Split in Hlast as (dir & -> & Hns & Hdir).
    split_and!; cbn [Image Pool UserId Secret Monitors]; try done.
    + exists dir. split; [|done]. rewrite Hpath. by rewrite str_app_assoc.
    + by apply (getMon_spec _ _ _ _ E).
  - intros (p & ((dir & Hpath & Hns & Hdir) & Hpool & Huser & Hkey & Hmon) & ->).
    destruct (getRBDVolumeOptions_fails _ _ _ _ Hpool Hmon) as [v Hv].
    destruct (getRBDVolumeOptions_Ok _ _ Hv) as [Hpool' Huser']. apply (getMon_spec _ _ _ _ Hv) in Hmon.
    assert (rbd_Pool v = Pool p) as Hp by congruence. assert (rbd_UserID v = UserId p) as Hu by congruence.
    unfold mapCephVolumeParams. rewrite Hpath, str_app_assoc, HasSuffix_app, TrimSuffix_app. cbn [negb].
    rewrite (proj2 (last_Split (dir +:+ Image p) (Image p))) by eauto.
    rewrite Hv. cbn [mbind result_mbind result_bind]. rewrite Hmon. cbn [result_bind].
    unfold getRBDKey. rewrite Hu, Hkey. cbn [result_bind mret result_ret]. rewrite Hp. by destruct p.
Qed.

(** The request in the comment of [mapCephVolumeParams]. *)
Example mapCephVolumeParams_documented :
  mapCephVolumeParams
    (MkNodeStageVolumeRequest "0242ac110002" "/var/lib/kubelet/plugins/pv/pvc-1/globalmount" None
       (<["kubernetes":="AQAP"]> (<["monitors":="192.168.7.2:6789"]> ∅))
       (<["monValueFromSecret":="monitors"]> (<["pool":="rbd"]> (<["userid":="kubernetes"]> ∅))))
    (MkMapVolumeRequest "0242ac110002" (Some MapVolumeRequest_Malloc)) =
  Ok (MkMapVolumeRequest "0242ac110002"
        (Some (MapVolumeRequest_Ceph (Some (MkCephParams "kubernetes" "AQAP" "192.168.7.2:6789" "rbd" "pvc-1"))))).
Proof. by vm_compute. Qed.
