(* ===== verification/Local.v ===== *)
(** * Local SPDK backend: pkg/oim-csi-driver/local.go

    The backend that talks to an SPDK daemon on the same host: volumes are Malloc
    BDevs, a device is a network block device (NBD) that SPDK serves. *)
From S2P Require Import Prelude GoStrings Strconv Errors Messages Effects Json SPDKClient SPDK CSIEnv Remote.

Record localSPDK := MkLocalSPDK { vhostEndpoint : string }.

(** [client, err := spdk.New(...)] with [defer client.Close()]; [f] says what
    becomes of the error. *)
Definition with_client {A} (l : localSPDK) (f : error → error) (body : go csiE A) : go csiE A :=
  pbind (λ r, match r with
    | Ok _ => defer CloseSPDK body
    | Err e => fail (f e)
    | Panic w => from_result (Panic w)
    end) (trigger (DialSPDK (vhostEndpoint l))).

Definition connect_failed (e : error) : error :=
  StatusError FailedPrecondition "Failed to connect to SPDK: %s" [Error e].

Definition createVolume_body (volumeID : string) (requiredBytes : Z) : go csiE Z :=
  r ← attempt (spdk (GetBDevs (MkGetBDevsArgs volumeID)));
  match r with
  | Ok [bdev] =>
      let volSize := int64 (BlockSize bdev * NumBlocks bdev) in
      if requiredBytes <=? volSize then mret volSize
      else fail (StatusError AlreadyExists "Volume with the same name: %s but with different size already exist" [volumeID])
  | _ =>
      match r with
      | Err e =>
          if IsJSONError e ERROR_INVALID_PARAMS then mret ()
          else fail (StatusError FailedPrecondition "Failed to get BDevs from SPDK: %s" [Error e])
      | _ => mret ()
      end ≫= λ _,
      let capacity := requiredBytes in
      if maxStorageCapacity <=? capacity
      then fail (StatusError OutOfRange "Requested capacity %d exceeds maximum allowed %d"
                   [Itoa capacity; Itoa maxStorageCapacity])
      else
        let capacity := round_capacity capacity in
        let args := MkConstructBDevArgs (Z.quot capacity 512) 512 volumeID "" in
        r ← attempt (spdk (ConstructMallocBDev args));
        match r with
        | Err e => fail (StatusError FailedPrecondition "Failed to create SPDK Malloc BDev: %s" [Error e])
        | _ => mret capacity
        end
  end.

Definition createVolume (l : localSPDK) (volumeID : string) (requiredBytes : Z) : go csiE Z :=
  with_client l connect_failed (createVolume_body volumeID requiredBytes).

Definition deleteVolume (l : localSPDK) (volumeID : string) : go csiE () :=
  with_client l connect_failed (
    r ← attempt (spdk (DeleteBDev (MkDeleteBDevArgs volumeID)));
    match r with
    | Err e =>
        if IsJSONError e ERROR_INVALID_PARAMS then mret ()
        else fail (StatusError FailedPrecondition "Failed to delete SPDK Malloc BDev %s: %s" [volumeID; Error e])
    | _ => mret ()
    end).

Definition checkVolumeExists (l : localSPDK) (volumeID : string) : go csiE () :=
  with_client l connect_failed (
    r ← attempt (spdk (GetBDevs (MkGetBDevsArgs volumeID)));
    match r with
    | Ok [_] => mret ()
    | _ => fail (StatusError NotFound "" [])
    end).

(** ** Devices *)

(** pkg/oim-common/util.go *)
Definition GetBlkSize64 (file : string) : go csiE Z :=
  curr ← os (Seek file 0 1);
  pbind (λ r, Vis (OS (Seek file curr 0)) (λ _, Ret r)) (os (Seek file 0 2)).

Definition findNBDDevice (volumeID : string) : go csiE string :=
  nbdDisks ← wrap_err "get NDB disks from SPDK" (spdk GetNBDDisks);
  mret (match list_find (λ nbd, NBD_BDevName nbd = volumeID) nbdDisks with
        | Some (_, nbd) => NBD_NBDDevice nbd
        | None => ""
        end).

(** One iteration of the search for a free device: stop without a device, stop
    with one, or go on; with the error to remember and the files whose [Close] is
    still deferred. *)
Inductive nbd_step := NbdStop (err : error) | NbdFound (dev : string) | NbdNext (err : option error) (open_ : list string).

Definition try_nbd (i : nat) : go csiE nbd_step :=
  let n := "/dev/nbd" +:+ Itoa (Z.of_nat i) in
  r ← attempt (os (Open n));
  match r with
  | Err e => if IsNotExist e then mret (NbdStop e) else mret (NbdNext (Some e) [])
  | Panic w => from_result (Panic w)
  | Ok _ =>
      r ← attempt (GetBlkSize64 n);
      match r with
      | Err e => mret (NbdNext (Some e) [n])
      | Panic w => from_result (Panic w)
      | Ok size =>
          r ← attempt (os (CloseFile n));
          match r with
          | Err e => mret (NbdNext (Some e) [])
          | Panic w => from_result (Panic w)
          | Ok _ => if decide (size = 0) then mret (NbdFound n) else mret (NbdNext None [])
          end
      end
  end.

(** The loop: the device or the error, and the files to close at the end (the
    last one first).  [None] when [fuel] iterations were not enough. *)
Fixpoint find_nbd (fuel i : nat) (nbdError : option error) (open_ : list string) :
    go csiE (option (list string * (error + string))) :=
  match fuel with
  | O => mret None
  | S fuel' =>
      step ← try_nbd i;
      match step with
      | NbdStop e => mret (Some (open_, inl (default e nbdError)))
      | NbdFound n => mret (Some (open_, inr n))
      | NbdNext e o => find_nbd fuel' (S i) (match e with Some _ => e | None => nbdError end) (o ++ open_)
      end
  end.

Fixpoint close_files (files : list string) : prog csiE () :=
  match files with
  | [] => Ret ()
  | f :: files' => Vis (OS (CloseFile f)) (λ _, close_files files')
  end.

(** [p] with the deferred [Close] calls after it. *)
Definition closing {A} (files : list string) (p : go csiE A) : go csiE A :=
  pbind (λ r, pbind (λ _, Ret r) (close_files files)) p.

Definition startNBD (volumeID nbdDevice : string) : go csiE string :=
  _ ← wrap_err (Sprintf "start SPDK NBD disk %+v" ["{BDevName:" +:+ volumeID +:+ " NBDDevice:" +:+ nbdDevice +:+ "}"])
        (spdk (StartNBDDisk (MkStartNBDDiskArgs volumeID nbdDevice)));
  mret nbdDevice.

Definition createDevice (fuel : nat) (l : localSPDK) (volumeID : string) : go csiE string :=
  with_client l (λ e, Wrap e "connect to SPDK") (
    nbdDevice ← wrap_err "find NBD device" (findNBDDevice volumeID);
    if decide (nbdDevice = "") then
      r ← find_nbd fuel 0 None [];
      match r with
      | None => from_result (Panic "out of fuel")
      | Some (open_, inl e) => closing open_ (fail (Wrap e "no unused /dev/nbd*"))
      | Some (open_, inr n) => closing open_ (startNBD volumeID n)
      end
    else startNBD volumeID nbdDevice).

Definition deleteDevice (l : localSPDK) (volumeID : string) : go csiE () :=
  with_client l (λ e, Wrap e "connect to SPDK") (
    nbdDevice ← wrap_err "get NDB disks from SPDK" (findNBDDevice volumeID);
    wrap_err (Sprintf "stop SPDK NDB disk %+v" ["{NBDDevice:" +:+ nbdDevice +:+ "}"])
      (spdk (StopNBDDisk (MkStopNBDDiskArgs nbdDevice)))).
