(* ===== verification/LocalFacts.v ===== *)
(** * The local backend against an SPDK daemon

    What [createVolume] of pkg/oim-csi-driver/local.go does when it is the only
    client of a daemon with the properties of Daemon.v. *)
From S2P Require Import Prelude GoStrings Strconv Json Messages Effects SPDK Daemon ControllerSeq CSIEnv Remote Local.

Section Local.
Context {D : Type} {SD : SPDKDaemon D} {SDS : SPDKSound D} {SDR : SPDKReliable D}.

(** The daemon is there, and it is all there is. *)
Definition serve_local : ∀ B, csiE B → D → D * B := λ B e,
  match e in csiE B return D → D * B with
  | Spdk e => spdk_serve _ e
  | DialSPDK _ => λ d, (d, Ok ())
  | e => λ d, (d, refuse e)
  end.

Lemma run_spdk {A} (p : go spdkE A) (d : D) : run serve_local (spdk p) d = run spdk_serve p d.
Proof.
  unfold spdk. revert d. induction p as [a|B e k IH]; intros d; cbn [embed run]; [done|].
  cbn [serve_local]. destruct (spdk_serve B e d) as [d' b]. apply IH.
Qed.

Lemma run_with_client {A} l f (body : go csiE A) (d : D) :
  run serve_local (with_client l f body) d = run serve_local body d.
Proof.
  unfold with_client, trigger, defer. cbn [pbind run serve_local]. rewrite run_bind. cbn [run serve_local].
  by destruct (run serve_local body d).
Qed.

(** C34. A volume on the local SPDK: if there is one with that name, it is reused when
    it is large enough (and its true size is reported) and otherwise the call fails
    with AlreadyExists, in either case without touching the daemon.  If there is
    none, the call either fails and changes nothing, or exactly one BDev of that
    name was added whose size is the reported capacity, a multiple of 512 that is
    not smaller than what was asked for. *)
Theorem local_createVolume_spec l n requiredBytes (d : D) :
  n ≠ "" → 0 ≤ requiredBytes → daemon_wf d →
  ∃ d' r, run serve_local (Local.createVolume l n requiredBytes) d = (d', r) ∧ daemon_wf d' ∧
    match bdevs d !! n with
    | Some b =>
        unchanged d d' ∧
        let size := int64 (b_block_size b * b_num_blocks b) in
        if decide (requiredBytes ≤ size) then r = Ok size
        else ∃ e, r = Err e ∧ status_code e = AlreadyExists
    | None =>
        match r with
        | Ok capacity =>
            requiredBytes ≤ capacity ∧ Z.rem capacity 512 = 0 ∧ vhosts d' = vhosts d ∧
            ∃ b, bdevs d' = <[n:=b]> (bdevs d) ∧ b_block_size b * b_num_blocks b = capacity
        | Err _ => unchanged d d'
        | Panic _ => False
        end
    end.
Proof.
  intros Hn Hreq Hd. unfold Local.createVolume. rewrite run_with_client. unfold createVolume_body.
  rewrite run_go_bind, run_attempt, run_spdk.
  destruct (run_GetBDevs n d Hn Hd) as (d1 & r1 & Hrun & Hd1 & Hu1 & Hr1). rewrite Hrun.
  destruct (bdevs d !! n) as [b|] eqn:Hb.
  { rewrite Hr1. cbn [as_BDev BlockSize NumBlocks].
    destruct (Z.leb_spec requiredBytes (int64 (b_block_size b * b_num_blocks b))).
    - eexists d1, _. split; [done|]. split; [done|]. split; [done|]. cbv zeta. by rewrite decide_True.
    - eexists d1, _. split; [done|]. split; [done|]. split; [done|]. cbv zeta. rewrite decide_False by lia. by eexists. }
  destruct Hr1 as [e Hr1]. rewrite Hr1. rewrite run_go_bind.
  destruct (SPDKClient.IsJSONError e SPDKClient.ERROR_INVALID_PARAMS); cbn [run mret go_ret fail];
    [|by exists d1, (Err (StatusError FailedPrecondition "Failed to get BDevs from SPDK: %s" [Errors.Error e]))].
  destruct (Z.leb_spec maxStorageCapacity requiredBytes) as [Hm|Hm]; [by eexists d1, _|].
  rewrite run_go_bind, run_attempt, run_spdk. cbv zeta.
  destruct (run_ConstructMallocBDev n (Z.quot (round_capacity requiredBytes) 512) d1 Hn Hd1)
    as (d2 & r2 & -> & Hd2 & Hr2).
  destruct r2 as [x|e2|w]; [|exists d2|done]; cbn [run].
  - destruct Hr2 as (Hv & Hnone & b & Hnb & Hbs & Hins). exists d2, (Ok (round_capacity requiredBytes)).
    split; [done|]. split; [done|]. destruct Hu1 as [Hub Huv].
    assert (requiredBytes ≤ round_capacity requiredBytes ∧ Z.rem (round_capacity requiredBytes) 512 = 0) as [H1 H2].
    { destruct (decide (requiredBytes = 0)) as [->|]; [by vm_compute|].
      destruct (round_capacity_spec requiredBytes) as (? & ? & _); lia. }
    split_and!; [done|done|congruence|]. exists b. split; [by rewrite Hins, Hub|].
    rewrite Hbs, Hnb. rewrite (Z.quot_rem' (round_capacity requiredBytes) 512) at 2. lia.
  - eexists. split; [done|]. split; [done|]. destruct Hr2 as [? ?], Hu1 as [? ?]. split; congruence.
Qed.
End Local.

Lemma local_createVolume_spec_witness :
  ∃ d' r, run serve_local (Local.createVolume (MkLocalSPDK "/var/tmp/spdk.sock") "b" 1000) seq_example.d0 = (d', r) ∧
    daemon_wf d' ∧ unchanged seq_example.d0 d' ∧ r = Ok (1024 * 512).
Proof.
  destruct (local_createVolume_spec (MkLocalSPDK "/var/tmp/spdk.sock") "b" 1000 seq_example.d0
    ltac:(done) ltac:(done) d0_wf) as (d' & r & Hrun & Hwf & Hspec).
  exists d', r. split; [exact Hrun|]. split; [exact Hwf|]. exact Hspec.
Defined.
