(* ===== verification/CSIDriver.v ===== *)
(** * The CSI driver: construction and backends (pkg/oim-csi-driver)

    oim-driver.go, driver.go, driver0.go and identityserver.go: the driver's
    state, its options, the choice of backend and of the emulated driver, and the
    services that are registered. *)
From S2P Require Import Prelude GoStrings Errors Messages Effects GRPC SPDK CSIEnv Remote Local CSIMessages CephCSI.

(** ** State *)

(** Which field [backend] points to. *)
Inductive backend_ref := BackendLocal | BackendRemote.

(** [oimDriver03] with its embedded [oimDriver]: capabilities and access modes
    exist for both versions of the protocol. *)
Record oimDriver := MkOimDriver {
  driverName : string; version : string; csiVersion : string; nodeID : string; csiEndpoint : string;
  remote : remoteSPDK csi_request; local_ : localSPDK; emulatedCSIDriverName : string;
  backend : option backend_ref;
  cap1 : list ControllerCapability; vc1 : list AccessMode_Mode;
  cap03 : list ControllerCapability; vc03 : list AccessMode_Mode
}.

Definition csi10 : string := "1.0".
Definition csi03 : string := "0.3".

(** [OIMBackend]: a cleanup function is a program that runs later. *)
Record OIMBackend := MkOIMBackend {
  bk_createVolume : string → Z → go csiE Z;
  bk_deleteVolume : string → go csiE ();
  bk_checkVolumeExists : string → go csiE ();
  bk_createDevice : string → csi_request → go csiE (option (go csiE ()) * result string);
  bk_deleteDevice : string → go csiE ()
}.

(** [cleanup] of remote.go removes the directory of the device node. *)
Definition remote_backend (fuel : nat) (r : remoteSPDK csi_request) : OIMBackend :=
  MkOIMBackend (Remote.createVolume r) (Remote.deleteVolume r) (Remote.checkVolumeExists r)
    (λ volumeID request,
       '(tmpDir, dev) ← Remote.createDevice fuel r volumeID request;
       mret ((λ dir, os (RemoveAll dir)) <$> tmpDir, dev))
    (Remote.deleteDevice r).

Definition local_backend (fuel : nat) (l : localSPDK) : OIMBackend :=
  MkOIMBackend (Local.createVolume l) (Local.deleteVolume l) (Local.checkVolumeExists l)
    (λ volumeID _, dev ← attempt (Local.createDevice fuel l volumeID); mret (None, dev))
    (Local.deleteDevice l).

Definition backend_of (fuel : nat) (od : oimDriver) : option OIMBackend :=
  match backend od with
  | Some BackendLocal => Some (local_backend fuel (local_ od))
  | Some BackendRemote => Some (remote_backend fuel (remote od))
  | None => None
  end.

(** ** Options *)

Definition Option_ := oimDriver → result oimDriver.

Definition set_remote (f : remoteSPDK csi_request → remoteSPDK csi_request) (od : oimDriver) : oimDriver :=
  MkOimDriver (driverName od) (version od) (csiVersion od) (nodeID od) (csiEndpoint od) (f (remote od)) (local_ od)
    (emulatedCSIDriverName od) (backend od) (cap1 od) (vc1 od) (cap03 od) (vc03 od).
Definition set_backend (b : backend_ref) (od : oimDriver) : oimDriver :=
  MkOimDriver (driverName od) (version od) (csiVersion od) (nodeID od) (csiEndpoint od) (remote od) (local_ od)
    (emulatedCSIDriverName od) (Some b) (cap1 od) (vc1 od) (cap03 od) (vc03 od).

Definition WithDriverName (name : string) : Option_ := λ od,
  Ok (MkOimDriver name (version od) (csiVersion od) (nodeID od) (csiEndpoint od) (remote od) (local_ od)
        (emulatedCSIDriverName od) (backend od) (cap1 od) (vc1 od) (cap03 od) (vc03 od)).
Definition WithDriverVersion (v : string) : Option_ := λ od,
  Ok (MkOimDriver (driverName od) v (csiVersion od) (nodeID od) (csiEndpoint od) (remote od) (local_ od)
        (emulatedCSIDriverName od) (backend od) (cap1 od) (vc1 od) (cap03 od) (vc03 od)).
Definition WithCSIVersion (v : string) : Option_ := λ od,
  Ok (MkOimDriver (driverName od) (version od) v (nodeID od) (csiEndpoint od) (remote od) (local_ od)
        (emulatedCSIDriverName od) (backend od) (cap1 od) (vc1 od) (cap03 od) (vc03 od)).
Definition WithNodeID (id : string) : Option_ := λ od,
  Ok (MkOimDriver (driverName od) (version od) (csiVersion od) id (csiEndpoint od) (remote od) (local_ od)
        (emulatedCSIDriverName od) (backend od) (cap1 od) (vc1 od) (cap03 od) (vc03 od)).
Definition WithCSIEndpoint (endpoint : string) : Option_ := λ od,
  Ok (MkOimDriver (driverName od) (version od) (csiVersion od) (nodeID od) endpoint (remote od) (local_ od)
        (emulatedCSIDriverName od) (backend od) (cap1 od) (vc1 od) (cap03 od) (vc03 od)).
Definition WithVHostEndpoint (endpoint : string) : Option_ := λ od,
  Ok (MkOimDriver (driverName od) (version od) (csiVersion od) (nodeID od) (csiEndpoint od) (remote od)
        (MkLocalSPDK endpoint) (emulatedCSIDriverName od) (backend od) (cap1 od) (vc1 od) (cap03 od) (vc03 od)).
Definition WithOIMRegistryAddress (address : string) : Option_ := λ od,
  Ok (set_remote (λ r, MkRemoteSPDK address (registryCA r) (registryKey r) (oimControllerID r) (mapVolumeParams r)) od).
Definition WithRegistryCreds (ca key : string) : Option_ := λ od,
  Ok (set_remote (λ r, MkRemoteSPDK (oimRegistryAddress r) ca key (oimControllerID r) (mapVolumeParams r)) od).
Definition WithOIMControllerID (id : string) : Option_ := λ od,
  Ok (set_remote (λ r, MkRemoteSPDK (oimRegistryAddress r) (registryCA r) (registryKey r) id (mapVolumeParams r)) od).
Definition WithEmulation (csiDriverName : string) : Option_ := λ od,
  Ok (MkOimDriver (driverName od) (version od) (csiVersion od) (nodeID od) (csiEndpoint od) (remote od) (local_ od)
        csiDriverName (backend od) (cap1 od) (vc1 od) (cap03 od) (vc03 od)).

Fixpoint apply_options (options : list Option_) (od : oimDriver) : result oimDriver :=
  match options with
  | [] => Ok od
  | op :: options' => od' ← op od; apply_options options' od'
  end.

(** ** Capabilities: driver.go, driver0.go

    The lists of pointers to messages carry just the values. *)
Definition setControllerServiceCapabilities (cl : list ControllerCapability) (od : oimDriver) : oimDriver :=
  MkOimDriver (driverName od) (version od) (csiVersion od) (nodeID od) (csiEndpoint od) (remote od) (local_ od)
    (emulatedCSIDriverName od) (backend od) cl (vc1 od) (cap03 od) (vc03 od).
Definition setVolumeCapabilityAccessModes (vc : list AccessMode_Mode) (od : oimDriver) : oimDriver :=
  MkOimDriver (driverName od) (version od) (csiVersion od) (nodeID od) (csiEndpoint od) (remote od) (local_ od)
    (emulatedCSIDriverName od) (backend od) (cap1 od) vc (cap03 od) (vc03 od).
Definition setControllerServiceCapabilities0 (cl : list ControllerCapability) (od : oimDriver) : oimDriver :=
  MkOimDriver (driverName od) (version od) (csiVersion od) (nodeID od) (csiEndpoint od) (remote od) (local_ od)
    (emulatedCSIDriverName od) (backend od) (cap1 od) (vc1 od) cl (vc03 od).
Definition setVolumeCapabilityAccessModes0 (vc : list AccessMode_Mode) (od : oimDriver) : oimDriver :=
  MkOimDriver (driverName od) (version od) (csiVersion od) (nodeID od) (csiEndpoint od) (remote od) (local_ od)
    (emulatedCSIDriverName od) (backend od) (cap1 od) (vc1 od) (cap03 od) vc.

(** ** Emulated drivers *)

Record EmulateCSIDriver := MkEmulateCSIDriver {
  CSIDriverName : string;
  ControllerServiceCapabilities : list ControllerCapability;
  VolumeCapabilityAccessModes : list AccessMode_Mode;
  MapVolumeParams : NodeStageVolumeRequest → MapVolumeRequest → result MapVolumeRequest
}.

Definition emulateCephCSI0 : EmulateCSIDriver :=
  MkEmulateCSIDriver emulateCephCSI0_name emulateCephCSI0_capabilities emulateCephCSI0_modes mapCephVolumeParams.

Definition supportedCSI0Drivers : gmap string EmulateCSIDriver := {["ceph-csi" := emulateCephCSI0]}.
Definition supportedCSIDrivers : gmap string EmulateCSIDriver := ∅.

(** The type assertion of the closure panics on a request of the other version. *)
Definition params0 (emulate : EmulateCSIDriver) (request : csi_request) (to : MapVolumeRequest) :
    result MapVolumeRequest :=
  match request with
  | Request0 from => MapVolumeParams emulate from to
  | Request1 _ => Panic "interface conversion"
  end.
Definition params1 (emulate : EmulateCSIDriver) (request : csi_request) (to : MapVolumeRequest) :
    result MapVolumeRequest :=
  match request with
  | Request1 from => MapVolumeParams emulate from to
  | Request0 _ => Panic "interface conversion"
  end.

Definition set_params (f : csi_request → MapVolumeRequest → result MapVolumeRequest) : oimDriver → oimDriver :=
  set_remote (λ r, MkRemoteSPDK (oimRegistryAddress r) (registryCA r) (registryKey r) (oimControllerID r) (Some f)).

(** ** New *)

Definition default_driver : oimDriver :=
  MkOimDriver "oim-driver" "unknown" csi10 "unset-node-id" "unix:///var/run/oim-driver.socket"
    (MkRemoteSPDK "" "" "" "" None) (MkLocalSPDK "") "" None [] [] [] [].

Definition choose_backend (od : oimDriver) : result oimDriver :=
  if decide (vhostEndpoint (local_ od) ≠ "") then
    if decide (emulatedCSIDriverName od ≠ "")
    then Err (Errorf "emulating CSI driver %q not currently implemented when using SPDK directly" [emulatedCSIDriverName od])
    else Ok (set_backend BackendLocal od)
  else
    od ← (if decide (emulatedCSIDriverName od ≠ "") then
            if decide (csiVersion od = csi03) then
              match supportedCSI0Drivers !! emulatedCSIDriverName od with
              | None => Err (Errorf "cannot emulate CSI 0.3 driver %q" [emulatedCSIDriverName od])
              | Some emulate =>
                  Ok (setVolumeCapabilityAccessModes0 (VolumeCapabilityAccessModes emulate)
                        (setControllerServiceCapabilities0 (ControllerServiceCapabilities emulate)
                           (set_params (params0 emulate) od)))
              end
            else if decide (csiVersion od = csi10) then
              match supportedCSIDrivers !! emulatedCSIDriverName od with
              | None => Err (Errorf "cannot emulate CSI 1.0 driver %q" [emulatedCSIDriverName od])
              | Some emulate =>
                  Ok (setVolumeCapabilityAccessModes (VolumeCapabilityAccessModes emulate)
                        (setControllerServiceCapabilities (ControllerServiceCapabilities emulate)
                           (set_params (params1 emulate) od)))
              end
            else Ok od
          else Ok od);
    Ok (set_backend BackendRemote od).

Definition New (options : list Option_) : result oimDriver :=
  od ← apply_options options default_driver;
  let spdk := vhostEndpoint (local_ od) in
  let registry := oimRegistryAddress (remote od) in
  if decide (spdk ≠ "" ∧ registry ≠ "")
  then Err (ErrorNew "SPDK and OIM registry usage are mutually exclusive")
  else if decide (spdk = "" ∧ registry = "")
  then Err (ErrorNew "Either SPDK or OIM registry must be selected")
  else if decide (registry ≠ "" ∧ (oimControllerID (remote od) = "" ∨ registryCA (remote od) = "" ∨ registryKey (remote od) = ""))
  then Err (ErrorNew "Cannot use a OIM registry without a controller ID, CA file and key file")
  else
    od ← (if decide (csiVersion od = csi03) then
            Ok (setVolumeCapabilityAccessModes0 [SINGLE_NODE_WRITER]
                  (setControllerServiceCapabilities0 [CREATE_DELETE_VOLUME] od))
          else if decide (csiVersion od = csi10) then
            Ok (setVolumeCapabilityAccessModes [SINGLE_NODE_WRITER]
                  (setControllerServiceCapabilities [CREATE_DELETE_VOLUME] od))
          else Err (Errorf "running as CSI version %q not supported" [csiVersion od]));
    choose_backend od.

(** ** Start and Run *)

Definition services (od : oimDriver) : list string :=
  if decide (csiVersion od = csi03) then ["csi.v0.Identity"; "csi.v0.Node"; "csi.v0.Controller"]
  else if decide (csiVersion od = csi10) then ["csi.v1.Identity"; "csi.v1.Node"; "csi.v1.Controller"]
  else [].

Section Server.
Context (Remove : string → option (error * bool)) (Listen : string → string → result string).

(** The error of the server's [Start] is not looked at. *)
Definition Start (od : oimDriver) : result NonBlockingGRPCServer :=
  let s := MkServer (csiEndpoint od) [] None None false in
  match GRPC.Start Remove Listen s (services od) with
  | Ok s' => Ok s'
  | Err _ => Ok s
  | Panic w => Panic w
  end.

Definition Run (od : oimDriver) : result () :=
  s ← Start od;
  let _ := Wait s in
  mret ().
End Server.

(** ** Identity service *)

Definition GetPluginInfo (od : oimDriver) : string * string := (driverName od, version od).
Definition GetPluginInfo0 (od : oimDriver) : string * string := (driverName od, version od).
Definition GetPluginCapabilities : list string := ["CONTROLLER_SERVICE"].
Definition GetPluginCapabilities0 : list string := ["CONTROLLER_SERVICE"].
(** An empty response: the driver is always healthy. *)
Definition Probe : result () := Ok ().
Definition Probe0 : result () := Ok ().

(** ** What [New] accepts *)

(** The options that the package offers. *)
Inductive exported : Option_ → Prop :=
| exp_name s : exported (WithDriverName s)
| exp_version s : exported (WithDriverVersion s)
| exp_csi s : exported (WithCSIVersion s)
| exp_node s : exported (WithNodeID s)
| exp_endpoint s : exported (WithCSIEndpoint s)
| exp_vhost s : exported (WithVHostEndpoint s)
| exp_registry s : exported (WithOIMRegistryAddress s)
| exp_creds ca key : exported (WithRegistryCreds ca key)
| exp_controller s : exported (WithOIMControllerID s)
| exp_emulation s : exported (WithEmulation s).

(** Options do not touch what [New] decides. *)
Lemma apply_options_exported options od od' :
  Forall exported options → apply_options options od = Ok od' →
  mapVolumeParams (remote od') = mapVolumeParams (remote od) ∧ backend od' = backend od.
Proof.
  intros H. revert od. induction H as [|op options Hop _ IH]; intros od; cbn [apply_options].
  - by intros [= ->].
  - destruct Hop; intros H%IH; exact H.
Qed.

(** The request that the node service of the driver's version hands to the backend. *)
Definition own_request (od : oimDriver) (r : NodeStageVolumeRequest) : csi_request :=
  if decide (csiVersion od = csi03) then Request0 r else Request1 r.

Definition never_confused (od : oimDriver) : Prop :=
  ∀ f r to w, mapVolumeParams (remote od) = Some f → f (own_request od r) to ≠ Panic w.

Lemma mapCephVolumeParams_no_panic from to w : mapCephVolumeParams from to ≠ Panic w.
Proof.
  unfold mapCephVolumeParams, getRBDVolumeOptions, getMon, getRBDKey.
  destruct (negb _); [done|]. destruct (last _) eqn:E; [|apply last_None in E; by apply Split_nonempty in E].
  repeat (case_match; cbn [mbind result_mbind result_bind] in *; simplify_eq/=; try done).
Qed.

Lemma choose_backend_spec od od' :
  mapVolumeParams (remote od) = None → csiVersion od ∈ [csi03; csi10] → choose_backend od = Ok od' →
  csiVersion od' = csiVersion od ∧ vhostEndpoint (local_ od') = vhostEndpoint (local_ od) ∧
  oimRegistryAddress (remote od') = oimRegistryAddress (remote od) ∧
  oimControllerID (remote od') = oimControllerID (remote od) ∧
  registryCA (remote od') = registryCA (remote od) ∧ registryKey (remote od') = registryKey (remote od) ∧
  backend od' = Some (if decide (vhostEndpoint (local_ od) = "") then BackendRemote else BackendLocal) ∧
  never_confused od'.
Proof.
  intros Hnone Hver. unfold choose_backend.
  destruct (decide (vhostEndpoint (local_ od) ≠ "")) as [Hv|Hv].
  { case_decide; [done|]. intros [= <-]. rewrite decide_False by done. split_and!; try done.
    intros f r to w Hf. cbn in Hf. congruence. }
  assert (vhostEndpoint (local_ od) = "") as Hv' by (destruct (decide (vhostEndpoint (local_ od) = "")); [done|contradiction]).
  rewrite (decide_True (P := _ = "")) by done.
  destruct (decide (emulatedCSIDriverName od ≠ "")) as [He|He]; cbn [mbind result_mbind result_bind].
  2: { intros [= <-]. split_and!; try done. intros f r to w Hf. cbn in Hf. congruence. }
  destruct (decide (csiVersion od = csi03)) as [Hc|Hc].
  - unfold supportedCSI0Drivers. destruct (decide (emulatedCSIDriverName od = "ceph-csi")) as [->|Hn].
    + rewrite lookup_singleton_eq. cbn [result_bind]. intros [= <-]. split_and!; try done.
      intros f r to w [= <-]. unfold own_request. cbn [csiVersion set_backend set_params set_remote
        setVolumeCapabilityAccessModes0 setControllerServiceCapabilities0]. rewrite decide_True by done.
      cbn [params0]. apply mapCephVolumeParams_no_panic.
    + by rewrite lookup_singleton_ne.
  - rewrite decide_True; [unfold supportedCSIDrivers; by rewrite lookup_empty|].
    rewrite !elem_of_cons, elem_of_nil in Hver. tauto.
Qed.

(** C32. A driver that [New] returns is usable: it has exactly one backend, the one
    whose address was given and with all credentials that it needs; it speaks a
    supported version of CSI; and the type assertion on the requests that the node
    service of that version passes on never fails. *)
Theorem New_valid options od :
  Forall exported options → New options = Ok od →
  csiVersion od ∈ [csi03; csi10] ∧ never_confused od ∧
  ((backend od = Some BackendLocal ∧ vhostEndpoint (local_ od) ≠ "" ∧ oimRegistryAddress (remote od) = "") ∨
   (backend od = Some BackendRemote ∧ vhostEndpoint (local_ od) = "" ∧ oimRegistryAddress (remote od) ≠ "" ∧
    oimControllerID (remote od) ≠ "" ∧ registryCA (remote od) ≠ "" ∧ registryKey (remote od) ≠ "")).
Proof.
  intros Hexp. unfold New. destruct (apply_options options default_driver) as [d|e|w] eqn:Ha;
    cbn [mbind result_mbind result_bind]; [|done..].
  destruct (apply_options_exported _ _ _ Hexp Ha) as [Hnone _]. cbn in Hnone. cbv zeta.
  case_decide as H1; [done|]. case_decide as H2; [done|]. case_decide as H3; [done|].
  destruct (decide (csiVersion d = csi03)) as [Hv|Hv]; [|destruct (decide (csiVersion d = csi10)) as [Hv'|Hv']];
    cbn [result_bind]; [| |done].
  all: intros Hch; apply choose_backend_spec in Hch as (Ecsi & Evh & Ereg & Eid & Eca & Ekey & Eb & Hnc); [|done|set_solver].
  all: rewrite Ecsi, Evh, Ereg, Eid, Eca, Ekey, Eb.
  all: split; [set_solver|]. all: split; [done|].
  all: cbn [csiVersion local_ remote oimRegistryAddress oimControllerID registryCA registryKey
         setVolumeCapabilityAccessModes setControllerServiceCapabilities setVolumeCapabilityAccessModes0
         setControllerServiceCapabilities0].
  all: destruct (decide (vhostEndpoint (local_ d) = "")), (decide (oimRegistryAddress (remote d) = "")); tauto.
Qed.

Definition ceph_options : list Option_ :=
  [WithOIMRegistryAddress "dns:///registry:8999"; WithRegistryCreds "ca.crt" "host.host-0.key";
   WithOIMControllerID "host-0"; WithCSIVersion "0.3"; WithEmulation "ceph-csi"].
Definition ceph_driver : oimDriver :=
  set_backend BackendRemote (set_params (params0 emulateCephCSI0)
    (MkOimDriver "oim-driver" "unknown" csi03 "unset-node-id" "unix:///var/run/oim-driver.socket"
       (MkRemoteSPDK "dns:///registry:8999" "ca.crt" "host.host-0.key" "host-0" None) (MkLocalSPDK "") "ceph-csi" None
       [] [] emulateCephCSI0_capabilities emulateCephCSI0_modes)).

Lemma New_valid_witness : New ceph_options = Ok ceph_driver ∧ never_confused ceph_driver.
Proof.
  split; [by vm_compute|].
  apply (New_valid ceph_options ceph_driver); [repeat constructor|by vm_compute].
Defined.
