(* ===== verification/CSIServer.v ===== *)
(** * The CSI services: controllerserver.go, nodeserver.go and their 0.3 versions

    Every handler checks its arguments, takes the mutex of the volume and calls the
    backend and the mounter.  The handlers for version 0.3 of the protocol have the
    same text as those for 1.0 except where a definition of their own is given. *)
From S2P Require Import Prelude GoStrings Errors Messages Effects SPDK CSIEnv Paths Mount Subpath MountInterface CSIMessages CSIDriver.

Abbreviation handler A := (go (locked csiE) A).

Definition invalid {E A} (msg : string) : go E A := fail (StatusError InvalidArgument msg []).
Definition unimplemented {E A} (msg : string) : go E A := fail (StatusError Unimplemented msg []).

(** [volumeNameMutex.LockKey(name); defer volumeNameMutex.UnlockKey(name)] *)
Definition serialized {A} (name : string) (body : go csiE A) : handler A := with_lock name body.

Section Services.
Context (od : oimDriver) (b : OIMBackend).

(** ** Controller service *)

(** [fmt.Sprintf("%s", mode)] *)
Definition mode_name (m : AccessMode_Mode) : string :=
  match m with
  | UNKNOWN => "UNKNOWN" | SINGLE_NODE_WRITER => "SINGLE_NODE_WRITER"
  | SINGLE_NODE_READER_ONLY => "SINGLE_NODE_READER_ONLY" | MULTI_NODE_READER_ONLY => "MULTI_NODE_READER_ONLY"
  | MULTI_NODE_SINGLE_WRITER => "MULTI_NODE_SINGLE_WRITER" | MULTI_NODE_MULTI_WRITER => "MULTI_NODE_MULTI_WRITER"
  | Mode_other n => Strconv.Itoa n
  end.

(** The error for a capability that CreateVolume does not accept. *)
Definition create_cap_error (cap : VolumeCapability) : option error :=
  match GetBlock cap with
  | Some _ => Some (StatusError Unimplemented "Block Volume not supported" [])
  | None =>
      match CSIMessages.GetMode cap with
      | SINGLE_NODE_WRITER | SINGLE_NODE_READER_ONLY | MULTI_NODE_READER_ONLY => None
      | MULTI_NODE_SINGLE_WRITER =>
          Some (StatusError Unimplemented "multi-node reader, single writer not supported" [])
      | MULTI_NODE_MULTI_WRITER =>
          Some (StatusError Unimplemented "multi-node reader, multi-node writer not supported" [])
      | m => Some (StatusError Unimplemented "%s not supported" [mode_name m])
      end
  end.

Fixpoint first_error {A} (f : A → option error) (l : list A) : option error :=
  match l with
  | [] => None
  | x :: l' => match f x with Some e => Some e | None => first_error f l' end
  end.

(** [attributes] are those of the response. *)
Definition create_volume (attributes : string_map) (req : CreateVolumeRequest) : handler Volume :=
  let name := cv_Name req in
  let caps := cv_VolumeCapabilities req in
  if decide (name = "") then invalid "Name missing in request"
  else if decide (caps = []) then invalid "Volume Capabilities missing in request"
  else
    match first_error create_cap_error caps with
    | Some e => fail e
    | None =>
        match cv_VolumeContentSource req with
        | Some _ => unimplemented "snapshots not supported"
        | None =>
            serialized name (
              actualBytes ← bk_createVolume b name (default 0 (cv_RequiredBytes req));
              mret (MkVolume name actualBytes attributes))
        end
    end.

Definition CreateVolume (req : CreateVolumeRequest) : handler Volume := create_volume ∅ req.
(** The 0.3 response also returns the parameters. *)
Definition CreateVolume0 (req : CreateVolumeRequest) : handler Volume := create_volume (cv_Parameters req) req.

Definition DeleteVolume (volumeId : string) : handler () :=
  if decide (volumeId = "") then invalid "Volume ID missing in request"
  else serialized volumeId (bk_deleteVolume b volumeId).

(** The loop over the capabilities: a message, or the confirmed ones. *)
Fixpoint confirm_caps (caps confirmed : list VolumeCapability) : string + list VolumeCapability :=
  match caps with
  | [] => inr confirmed
  | cap :: caps' =>
      match GetBlock cap with
      | Some _ => inl "Block Volume not supported"
      | None =>
          match GetMount cap with
          | None => confirm_caps caps' confirmed
          | Some _ =>
              match CSIMessages.GetMode cap with
              | SINGLE_NODE_WRITER | SINGLE_NODE_READER_ONLY | MULTI_NODE_READER_ONLY =>
                  confirm_caps caps' (confirmed ++ [cap])
              | MULTI_NODE_SINGLE_WRITER => inl "multi-node reader, single writer not supported"
              | MULTI_NODE_MULTI_WRITER => inl "multi-node reader, multi-node writer not supported"
              | _ => confirm_caps caps' confirmed
              end
          end
      end
  end.

Definition ValidateVolumeCapabilities (req : ValidateVolumeCapabilitiesRequest) :
    handler ValidateVolumeCapabilitiesResponse :=
  let name := vv_VolumeId req in
  if decide (name = "") then invalid "Volume ID missing in request"
  else if decide (vv_VolumeCapabilities req = []) then invalid "Volume capabilities missing in request"
  else serialized name (
    _ ← bk_checkVolumeExists b name;
    mret (match confirm_caps (vv_VolumeCapabilities req) [] with
          | inl message => MkValidateResponse None message
          | inr caps => MkValidateResponse (Some (MkConfirmed (vv_VolumeContext req) (vv_Parameters req) caps)) ""
          end)).

Definition ValidateVolumeCapabilities0 (req : ValidateVolumeCapabilitiesRequest) :
    handler ValidateVolumeCapabilitiesResponse0 :=
  let name := vv_VolumeId req in
  if decide (name = "") then invalid "Volume ID missing in request"
  else if decide (vv_VolumeCapabilities req = []) then invalid "Volume capabilities missing in request"
  else serialized name (
    _ ← bk_checkVolumeExists b name;
    mret (MkValidateResponse0
            (forallb (λ cap, bool_decide (CSIMessages.GetMode cap = SINGLE_NODE_WRITER)) (vv_VolumeCapabilities req)) "")).

Definition ControllerGetCapabilities : list ControllerCapability := cap1 od.
Definition ControllerGetCapabilities0 : list ControllerCapability := cap03 od.

(** Not implemented. *)
Definition ControllerPublishVolume : handler () := unimplemented "".
Definition ControllerUnpublishVolume : handler () := unimplemented "".
Definition ListVolumes : handler () := unimplemented "".
Definition GetCapacity : handler () := unimplemented "".
Definition CreateSnapshot : handler () := unimplemented "".
Definition DeleteSnapshot : handler () := unimplemented "".
Definition ListSnapshots : handler () := unimplemented "".

(** ** Node service *)

Definition NodeGetInfo : string := nodeID od.
Definition NodeGetCapabilities : list string := ["STAGE_UNSTAGE_VOLUME"].

(** [status.Error(codes.Internal, err.Error())] *)
Definition internal {E A} (p : go E A) : go E A :=
  pbind (λ r, Ret (match r with Err e => Err (StatusOf Internal e) | _ => r end)) p.

(** What is left to do when the mount failed with [err]. *)
Definition undo_mount (mounter : Interface) (targetPath : string) (err : error) : go csiE () :=
  notMnt ← internal (wrap_err "check whether target path is a mount point" (im_IsLikelyNotMountPoint (im_ops mounter) targetPath));
  _ ← (if negb notMnt then
         _ ← internal (wrap_err "unmount target path" (im_Unmount (im_ops mounter) targetPath));
         notMnt ← internal (wrap_err "check whether target path is a mount point"
                              (im_IsLikelyNotMountPoint (im_ops mounter) targetPath));
         if negb notMnt
         then from_result (Panic "nil pointer dereference: errors.Wrap(nil, ...).Error()")
         else mret ()
       else mret ());
  _ ← attempt (os (Remove targetPath));
  fail (StatusOf Internal (Wrap err "mount of disk failed")).

Definition publish (req : NodePublishVolumeRequest) : go csiE () :=
  let targetPath := np_TargetPath req in
  mounter ← MountInterface.New "";
  r ← attempt (im_IsLikelyNotMountPoint (im_ops mounter) targetPath);
  notMnt ← match r with
           | Err e => if IsNotExist e then mret true else fail (StatusOf Internal (Wrap e "validate target path"))
           | Ok notMnt => mret notMnt
           | Panic w => from_result (Panic w)
           end;
  if negb notMnt then mret ()
  else
    _ ← internal (wrap_err "make target dir" (im_MakeDir (im_ops mounter) targetPath));
    let options := ["bind"] ++ if np_Readonly req then ["ro"] else [] in
    r ← attempt (im_Mount (im_ops mounter) (np_StagingTargetPath req) targetPath "ext4" options);
    match r with
    | Err err => undo_mount mounter targetPath err
    | _ => mret ()
    end.

Definition NodePublishVolume (req : NodePublishVolumeRequest) : handler () :=
  if decide (np_TargetPath req = "") then invalid "empty target path"
  else if decide (np_StagingTargetPath req = "") then invalid "empty staging target path"
  else if decide (np_VolumeId req = "") then invalid "empty volume ID"
  else if decide (np_VolumeCapability req = None) then invalid "missing volume capability"
  else serialized (np_VolumeId req) (publish req).

Definition NodeUnpublishVolume (req : NodeUndoRequest) : handler () :=
  if decide (nu_Path req = "") then invalid "empty target path"
  else if decide (nu_VolumeId req = "") then invalid "empty volume ID"
  else serialized (nu_VolumeId req) (
    mounter ← MountInterface.New "";
    internal (wrap_err "unmount failed" (UnmountPath (nu_Path req) (im_ops mounter)))).

(** [defer cleanup()]: the error of the cleanup is ignored. *)
Definition with_cleanup {A} (cleanup : option (go csiE ())) (p : go csiE A) : go csiE A :=
  match cleanup with
  | None => p
  | Some c => pbind (λ r, pbind (λ _, Ret r) c) p
  end.

(** A device was made, or not; then it is formatted and mounted. *)
Definition stage_device (targetPath fsType : string) (device : result string) : go csiE () :=
  match device with
  | Err e => fail (StatusOf Internal e)
  | Panic w => from_result (Panic w)
  | Ok device =>
      mounter ← MountInterface.New "";
      internal (wrap_err (Sprintf "formatting as %s and mounting %s at %s" [fsType; device; targetPath])
                  (SafeFormatAndMount_FormatAndMount (MkSafeFormatAndMount mounter osExec) device targetPath fsType []))
  end.

Definition stage (wrap : NodeStageVolumeRequest → csi_request) (req : NodeStageVolumeRequest) (cap : VolumeCapability) :
    go csiE () :=
  let targetPath := ns_StagingTargetPath req in
  mounter ← MountInterface.New "";
  r ← attempt (im_IsLikelyNotMountPoint (im_ops mounter) targetPath);
  notMnt ← match r with
           | Err e => if IsNotExist e then (_ ← internal (os (MkdirAll targetPath 0x1e8)); mret true)
                      else fail (StatusOf Internal e)
           | Ok notMnt => mret notMnt
           | Panic w => from_result (Panic w)
           end;
  if negb notMnt then mret ()
  else
    '(cleanup, device) ← bk_createDevice b (ns_VolumeId req) (wrap req);
    with_cleanup cleanup (stage_device targetPath (GetFsType cap) device).

Definition stage_handler (wrap : NodeStageVolumeRequest → csi_request) (req : NodeStageVolumeRequest) : handler () :=
  if decide (ns_StagingTargetPath req = "") then invalid "empty target path"
  else if decide (ns_VolumeId req = "") then invalid "empty volume ID"
  else match ns_VolumeCapability req with
       | None => invalid "missing volume capability"
       | Some cap => serialized (ns_VolumeId req) (stage wrap req cap)
       end.

Definition NodeStageVolume : NodeStageVolumeRequest → handler () := stage_handler Request1.
Definition NodeStageVolume0 : NodeStageVolumeRequest → handler () := stage_handler Request0.

Definition NodeUnstageVolume (req : NodeUndoRequest) : handler () :=
  if decide (nu_Path req = "") then invalid "empty target path"
  else if decide (nu_VolumeId req = "") then invalid "empty volume ID"
  else serialized (nu_VolumeId req) (
    mounter ← MountInterface.New "";
    _ ← internal (im_Unmount (im_ops mounter) (nu_Path req));
    internal (bk_deleteDevice b (nu_VolumeId req))).

Definition NodeGetVolumeStats (req : NodeGetVolumeStatsRequest) : handler () :=
  if decide (gs_VolumeId req = "") then invalid "empty volume ID"
  else if decide (gs_VolumePath req = "") then invalid "empty volume path"
  else serialized (gs_VolumeId req) (mret ()).

(** ** Version 0.3

    These methods of [oimDriver03] have the same text as those of [oimDriver]. *)
Definition DeleteVolume0 : string → handler () := DeleteVolume.
Definition NodePublishVolume0 : NodePublishVolumeRequest → handler () := NodePublishVolume.
Definition NodeUnpublishVolume0 : NodeUndoRequest → handler () := NodeUnpublishVolume.
Definition NodeUnstageVolume0 : NodeUndoRequest → handler () := NodeUnstageVolume.
Definition NodeGetId : string := nodeID od.
Definition NodeGetInfo0 : string := nodeID od.
Definition NodeGetCapabilities0 : list string := NodeGetCapabilities.
Definition ControllerPublishVolume0 : handler () := ControllerPublishVolume.
Definition ControllerUnpublishVolume0 : handler () := ControllerUnpublishVolume.
Definition ListVolumes0 : handler () := ListVolumes.
Definition GetCapacity0 : handler () := GetCapacity.
Definition CreateSnapshot0 : handler () := CreateSnapshot.
Definition DeleteSnapshot0 : handler () := DeleteSnapshot.
Definition ListSnapshots0 : handler () := ListSnapshots.

(** ** The services *)

(** The methods that are not implemented. *)
Inductive stub :=
| StubControllerPublish | StubControllerUnpublish | StubListVolumes | StubGetCapacity
| StubCreateSnapshot | StubDeleteSnapshot | StubListSnapshots.

Definition handle_stub (v0 : bool) (s : stub) : handler () :=
  match s with
  | StubControllerPublish => if v0 then ControllerPublishVolume0 else ControllerPublishVolume
  | StubControllerUnpublish => if v0 then ControllerUnpublishVolume0 else ControllerUnpublishVolume
  | StubListVolumes => if v0 then ListVolumes0 else ListVolumes
  | StubGetCapacity => if v0 then GetCapacity0 else GetCapacity
  | StubCreateSnapshot => if v0 then CreateSnapshot0 else CreateSnapshot
  | StubDeleteSnapshot => if v0 then DeleteSnapshot0 else DeleteSnapshot
  | StubListSnapshots => if v0 then ListSnapshots0 else ListSnapshots
  end.

Inductive csi_call :=
| CallCreateVolume (req : CreateVolumeRequest)
| CallDeleteVolume (volumeId : string)
| CallValidate (req : ValidateVolumeCapabilitiesRequest)
| CallPublish (req : NodePublishVolumeRequest)
| CallUnpublish (req : NodeUndoRequest)
| CallStage (req : NodeStageVolumeRequest)
| CallUnstage (req : NodeUndoRequest)
| CallStats (req : NodeGetVolumeStatsRequest)
| CallStub (s : stub).

Inductive csi_reply :=
| ReplyVolume (r : result Volume)
| ReplyValidate (r : result ValidateVolumeCapabilitiesResponse)
| ReplyValidate0 (r : result ValidateVolumeCapabilitiesResponse0)
| ReplyDone (r : result ()).

(** The handler of version 1.0 or, for [v0], 0.3; NodeGetVolumeStats is not part of
    0.3. *)
Definition handle (v0 : bool) (c : csi_call) : prog (locked csiE) csi_reply :=
  match c with
  | CallCreateVolume req =>
      pbind (λ r, Ret (ReplyVolume r)) (if v0 then CreateVolume0 req else CreateVolume req)
  | CallDeleteVolume id => pbind (λ r, Ret (ReplyDone r)) (if v0 then DeleteVolume0 id else DeleteVolume id)
  | CallValidate req =>
      if v0 then pbind (λ r, Ret (ReplyValidate0 r)) (ValidateVolumeCapabilities0 req)
      else pbind (λ r, Ret (ReplyValidate r)) (ValidateVolumeCapabilities req)
  | CallPublish req => pbind (λ r, Ret (ReplyDone r)) (if v0 then NodePublishVolume0 req else NodePublishVolume req)
  | CallUnpublish req => pbind (λ r, Ret (ReplyDone r)) (if v0 then NodeUnpublishVolume0 req else NodeUnpublishVolume req)
  | CallStage req => pbind (λ r, Ret (ReplyDone r)) (if v0 then NodeStageVolume0 req else NodeStageVolume req)
  | CallUnstage req => pbind (λ r, Ret (ReplyDone r)) (if v0 then NodeUnstageVolume0 req else NodeUnstageVolume req)
  | CallStats req =>
      pbind (λ r, Ret (ReplyDone r)) (if v0 then unimplemented "" else NodeGetVolumeStats req)
  | CallStub s => pbind (λ r, Ret (ReplyDone r)) (handle_stub v0 s)
  end.
End Services.

(** ** One call per volume at a time *)

(** The rest of a call that has the mutex of volume [n]. *)
Definition critical {F R} (n : string) (t : prog (locked F) R) : Prop :=
  ∃ A (f : A → R) (body : prog F A),
    t = pbind (λ a, Ret (f a)) (pbind (λ a, Vis (UnlockKey n) (λ _, Ret a)) (lift body)).

Section Exclusion.
Context {S : Type} (serve : ∀ B, csiE B → S → S * B) (hash : string → nat).
Context (b : OIMBackend) (v0 : bool).

(** Nothing is assumed about the environment. *)
Abbreviation outside1 := (outside (R := csi_reply) serve (λ _ _, ()) (λ _, True) (λ _ _, True) (λ _ _ _, True)).
Abbreviation inside1 := (inside (R := csi_reply) serve (λ _ _, ()) (λ _, True) (λ _ _, True) (λ _ _ _, True)).
Abbreviation inv1 := (pool_inv (R := csi_reply) serve hash (λ _ _, ()) (λ _, True) (λ _ _, True) (λ _ _ _, True)).

Lemma wp_trivial {A} n (p : prog csiE A) v :
  wp serve (λ _ _, ()) (λ _, True) (λ _ _, True) n p v (λ _ _, True).
Proof. revert v. induction p as [a|B e k IH]; intros v; [done|]. intros s s' r _ _ _. split_and!; try done. Qed.

Lemma serialized_outside {A} n (f : result A → csi_reply) (p : go csiE A) :
  outside1 (pbind (λ a, Ret (f a)) (serialized n p)).
Proof. apply with_lock_outside. intros v _. apply wp_trivial. Qed.

Lemma csi_handle_outside c : outside1 (handle b v0 c).
Proof.
  destruct c; cbn [handle]; [unfold CreateVolume0, CreateVolume, create_volume|unfold DeleteVolume0, DeleteVolume
    |unfold ValidateVolumeCapabilities0, ValidateVolumeCapabilities|unfold NodePublishVolume0, NodePublishVolume
    |unfold NodeUnpublishVolume0, NodeUnpublishVolume
    |unfold NodeStageVolume0, NodeStageVolume, stage_handler|unfold NodeUnstageVolume0, NodeUnstageVolume|unfold NodeGetVolumeStats|unfold handle_stub];
    try destruct v0; repeat (case_decide || case_match); try exact I; apply serialized_outside.
Qed.

Lemma critical_inside n m (t : prog (locked csiE) csi_reply) (s : S) : critical n t → inside1 m t () → m = n.
Proof.
  intros (A & f & body & ->). induction body as [a|B e k IH]; cbn [lift pbind].
  - cbn. by intros [-> _].
  - intros Hin. destruct (serve B e s) as [s' r] eqn:He.
    destruct (Hin s s' r I eq_refl He) as (_ & _ & _ & Hk). by apply (IH r).
Qed.

Lemma critical_outside n (t : prog (locked csiE) csi_reply) : critical n t → ¬ outside1 t.
Proof. intros (A & f & [a|B e k] & ->); cbn; auto. Qed.

End Exclusion.
