(* ===== verification/CSIFacts.v ===== *)
(** * What the CSI services guarantee

    Which requests CreateVolume accepts, that the node service leaves neither
    temporary device nodes nor connections behind, and that it does nothing for a
    volume that is already mounted. *)
From S2P Require Import Prelude GoStrings Errors Messages Effects SPDK CSIEnv Remote Sysfs Paths Mount MountFacts Subpath MountInterface CSIMessages CephCSI CSIDriver CSIServer.

(** ** CreateVolume *)

(** A capability that is served: a file system (or nothing in particular), with an
    access mode in which at most one node writes and then no other one reads. *)
Definition cap_served (cap : VolumeCapability) : Prop :=
  AccessType_ cap ≠ BlockVolume ∧
  AccessMode cap ∈ [Some SINGLE_NODE_WRITER; Some SINGLE_NODE_READER_ONLY; Some MULTI_NODE_READER_ONLY].

Lemma create_cap_error_spec cap :
  match create_cap_error cap with
  | None => cap_served cap
  | Some e => ¬ cap_served cap ∧ status_code e = Unimplemented
  end.
Proof.
  unfold create_cap_error, cap_served, GetBlock, CSIMessages.GetMode.
  destruct cap as [[| |] [[]|]]; cbn; rewrite ?elem_of_cons, ?elem_of_nil; split; naive_solver.
Qed.

Lemma first_error_None {A} (f : A → option error) l : first_error f l = None ↔ Forall (λ x, f x = None) l.
Proof.
  induction l as [|x l IH]; cbn [first_error]; [done|]. rewrite Forall_cons.
  destruct (f x); [naive_solver|]. rewrite IH. naive_solver.
Qed.

Lemma first_error_Some {A} (f : A → option error) l e : first_error f l = Some e → ∃ x, x ∈ l ∧ f x = Some e.
Proof.
  induction l as [|x l IH]; cbn [first_error]; [done|]. destruct (f x) as [e'|] eqn:E.
  - intros [= <-]. exists x. split; [by left|done].
  - intros (y & Hy & Hf)%IH. exists y. split; [by right|done].
Qed.

(** CreateVolume decides from the request alone, before it takes the mutex or calls
    the backend: a request without name or capabilities is an invalid argument; one
    with a block volume, an access mode with several writers or a reader besides
    the writer, an unknown mode, or a content source is not implemented; every
    other request is handed to the backend under the mutex of its name. *)
Theorem CreateVolume_decides b attributes req :
  let caps := cv_VolumeCapabilities req in
  if decide (cv_Name req = "" ∨ caps = [])
  then ∃ e, create_volume b attributes req = fail e ∧ status_code e = InvalidArgument
  else (Forall cap_served caps ∧ cv_VolumeContentSource req = None ∧
          create_volume b attributes req =
            serialized (cv_Name req)
              (actualBytes ← bk_createVolume b (cv_Name req) (default 0 (cv_RequiredBytes req));
               mret (MkVolume (cv_Name req) actualBytes attributes))) ∨
       (¬ (Forall cap_served caps ∧ cv_VolumeContentSource req = None) ∧
          ∃ e, create_volume b attributes req = fail e ∧ status_code e = Unimplemented).
Proof.
  cbv zeta. unfold create_volume. cbv zeta. destruct (decide (cv_Name req = "")) as [Hn|Hn].
  { rewrite decide_True by auto. by eexists. }
  destruct (decide (cv_VolumeCapabilities req = [])) as [Hc|Hc].
  { rewrite decide_True by auto. by eexists. }
  rewrite decide_False by tauto. destruct (first_error _ _) as [e|] eqn:E.
  - right. apply first_error_Some in E as (cap & Hin & He). pose proof (create_cap_error_spec cap) as Hs.
    rewrite He in Hs. destruct Hs as [Hns Hcode]. split; [|by exists e]. intros [Hall _].
    rewrite Forall_forall in Hall. by apply Hns, Hall.
  - apply first_error_None in E. assert (Forall cap_served (cv_VolumeCapabilities req)) as Hall.
    { eapply Forall_impl; [exact E|]. intros cap He. pose proof (create_cap_error_spec cap) as Hs. by rewrite He in Hs. }
    destruct (cv_VolumeContentSource req) as [src|]; [right|left; done]. split; [by intros [_ ?]|by eexists].
Qed.

(** ** What staging leaves behind *)

(** Calls that neither make nor remove a temporary directory, and neither open nor
    close a connection to the registry. *)
Definition neutral : ∀ B, csiE B → Prop := λ B e,
  match e with
  | OS e => match e with TempDir _ _ | RemoveAll _ => False | _ => True end
  | RPC e => match e with Dial _ | CloseConn => False | _ => True end
  | _ => True
  end.

Ltac calls :=
  calls_with ltac:(progress unfold os, rpc_, check, internal, with_status, fuelled, osExec).

Lemma New_neutral path : all_calls neutral (MountInterface.New path).
Proof. unfold MountInterface.New, detectSystemd. calls. Qed.

Lemma likely_neutral file : all_calls neutral (IsLikelyNotMountPoint file).
Proof. unfold IsLikelyNotMountPoint. calls. Qed.

Lemma Mount_neutral m source target fstype options : all_calls neutral (Mount m source target fstype options).
Proof.
  assert (∀ path opts, all_calls neutral (doMount m path defaultMountCommand source target fstype opts)) as H.
  { intros path opts. unfold doMount, addSystemdScope. calls. }
  unfold Mount. destruct (isBind options) as [[bind ?] ?]. destruct bind; [apply all_calls_go_bind|]; auto.
Qed.

Lemma FormatAndMount_neutral m source target fstype options :
  all_calls neutral (FormatAndMount (mounter_interface m) osExec source target fstype options).
Proof.
  unfold FormatAndMount, GetDiskFormat. cbn [im_ops im_Mount mounter_interface mounter_ops].
  apply all_calls_go_bind; [calls|]. intros _. apply all_calls_go_bind; [apply all_calls_attempt, Mount_neutral|].
  intros [u|e|w]; [done| |done]. apply all_calls_go_bind; [calls|]. intros fmt.
  case_decide; [|case_decide; done]. destruct (existsb _ _); [done|].
  apply all_calls_go_bind; [calls|]. intros _. apply Mount_neutral.
Qed.

Lemma locateDevice_neutral {Req} fuel (r : remoteSPDK Req) volumeID req : all_calls neutral (locateDevice fuel r volumeID req).
Proof.
  eapply all_calls_mono, locateDevice_calls. intros B [B' e|B' e| | |B' e]; try done; by destruct e.
Qed.

(** Temporary directories that were made. *)
Definition temp_dir_of (i : io csiE) : option string :=
  match i with
  | Io e a =>
      match e in csiE B return B → option string with
      | OS e =>
          match e in osE B return B → option string with
          | TempDir _ _ => λ r, match r with Ok dir => Some dir | _ => None end
          | _ => λ _, None
          end
      | _ => λ _, None
      end a
  end.
Definition temp_dirs (tr : list (io csiE)) : list string := omap temp_dir_of tr.

(** Connections to the registry: [true] when one was opened, [false] when it was closed. *)
Definition conn_of (i : io csiE) : option bool :=
  match i with
  | Io e a =>
      match e in csiE B return B → option bool with
      | RPC e =>
          match e in rpcE B return B → option bool with
          | Dial _ => λ r, match r with Ok _ => Some true | _ => None end
          | CloseConn => λ _, Some false
          | _ => λ _, None
          end
      | _ => λ _, None
      end a
  end.
Definition conns (tr : list (io csiE)) : list bool := omap conn_of tr.

Section Release.
Context {S : Type} (serve : ∀ B, csiE B → S → S * B).
(** System calls fail, they do not panic. *)
Hypothesis TempDir_no_panic : ∀ dir prefix s w, (serve _ (OS (TempDir dir prefix)) s).2 ≠ Panic w.
Hypothesis Mknod_no_panic : ∀ path mode dev s w, (serve _ (OS (Mknod path mode dev)) s).2 ≠ Panic w.

Lemma neutral_trace {A} (p : prog csiE A) s :
  all_calls neutral p → temp_dirs (trace serve p s) = [] ∧ conns (trace serve p s) = [].
Proof.
  intros Hp. apply (all_calls_trace _ serve p s) in Hp. revert Hp.
  induction (trace serve p s) as [|[B e a] tr IH]; intros Hp; [done|]. apply Forall_cons in Hp as [He Hp].
  destruct (IH Hp) as [IH1 IH2]. cbn in He.
  destruct e as [B e|B e| | |B e]; [destruct e|destruct e|..]; try done.
Qed.

Lemma logs_app tr1 tr2 :
  temp_dirs (tr1 ++ tr2) = temp_dirs tr1 ++ temp_dirs tr2 ∧ conns (tr1 ++ tr2) = conns tr1 ++ conns tr2.
Proof. split; apply omap_app. Qed.

(** [makeNode]: the directory that it returns for the cleanup is the one it made. *)
Lemma makeNode_logs dev major minor s :
  let tr := trace serve (makeNode dev major minor) s in
  conns tr = [] ∧ ∃ s' dir r, run serve (makeNode dev major minor) s = (s', Ok (dir, r)) ∧
    temp_dirs tr = match dir with Some d => [d] | None => [] end.
Proof.
  cbv zeta. unfold makeNode. rewrite trace_go_bind, run_go_bind, trace_attempt, run_attempt, trace_os, run_os.
  pose proof (TempDir_no_panic "/dev" dev s) as Hnp.
  destruct (serve _ (OS (TempDir "/dev" dev)) s) as [s1 [dir|e|w]]; [| |by destruct (Hnp w)].
  - rewrite trace_go_bind, run_go_bind, trace_attempt, run_attempt, trace_os, run_os. cbn [snd app].
    pose proof (Mknod_no_panic (JoinPath [dir; dev]) blk_mode (makedev major minor) s1) as Hnp2.
    destruct (serve _ (OS (Mknod _ _ _)) s1) as [s2 [u|e|w]]; [| |by destruct (Hnp2 w)]; [|destruct (IsExist e)].
    all: split; [done|]; eexists _, _, _; split; done.
  - split; [done|]. eexists _, _, _. split; done.
Qed.

Lemma dialRegistry_logs (r : remoteSPDK csi_request) s s' res :
  run serve (wrap_err "connect to OIM registry" (dialRegistry r)) s = (s', res) →
  let tr := trace serve (wrap_err "connect to OIM registry" (dialRegistry r)) s in
  temp_dirs tr = [] ∧ conns tr = match res with Ok _ => [true] | _ => [] end.
Proof.
  unfold dialRegistry, rpc_, call, trigger. unfold wrap_err. rewrite trace_bind, run_bind.
  unfold mbind, go_bind. rewrite !trace_bind, !run_bind. cbn [run trace].
  destruct (serve _ (RPC (LoadTLS_ _ _ _)) s) as [s1 [u|e|w]]; cbn [run trace app]; [|by intros [= _ <-]..].
  rewrite trace_bind, run_bind. cbn [run trace].
  destruct (serve _ (RPC (Dial _)) s1) as [s2 [u2|e|w]]; cbn [run trace app]; by intros [= _ <-].
Qed.

Lemma trace_defer {A} (f : csiE ()) (p : go csiE A) s :
  trace serve (defer f p) s =
    trace serve p s ++ let '(s', _) := run serve p s in [Io f (serve _ f s').2].
Proof.
  unfold defer. rewrite trace_bind. destruct (run serve p s) as [s' r]. cbn [trace].
  by destruct (serve _ f s').
Qed.

Lemma run_defer {A} (f : csiE ()) (p : go csiE A) s :
  run serve (defer f p) s = let '(s', r) := run serve p s in ((serve _ f s').1, r).
Proof.
  unfold defer. rewrite run_bind. destruct (run serve p s) as [s' r]. cbn [run]. by destruct (serve _ f s').
Qed.

(** The trace of a part whose error ends the function without a cleanup. *)
Lemma trace_no_cleanup {A B} (p : go csiE A) (f : A → go csiE (option string * result B)) s :
  trace serve (no_cleanup p f) s =
    trace serve p s ++ let '(s', r) := run serve p s in match r with Ok a => trace serve (f a) s' | _ => [] end.
Proof.
  unfold no_cleanup. rewrite trace_go_bind, trace_attempt, run_attempt. f_equal.
  by destruct (run serve p s) as [s' [a|e|w]].
Qed.

Lemma run_no_cleanup {A B} (p : go csiE A) (f : A → go csiE (option string * result B)) s :
  run serve (no_cleanup p f) s =
    let '(s', r) := run serve p s in
    match r with
    | Ok a => run serve (f a) s'
    | Err e => (s', Ok (None, Err e))
    | Panic w => (s', Panic w)
    end.
Proof.
  unfold no_cleanup. rewrite run_go_bind, run_attempt. by destruct (run serve p s) as [s' [a|e|w]].
Qed.

(** The device part: the result names the directory that was made, unless the
    search for the device panicked before one was made. *)
Lemma device_logs fuel (r : remoteSPDK csi_request) volumeID req s :
  let p := no_cleanup (locateDevice fuel r volumeID req) (λ '(dev, major, minor), makeNode dev major minor) in
  conns (trace serve p s) = [] ∧
  ∃ s' res, run serve p s = (s', res) ∧
    temp_dirs (trace serve p s) = match res with Ok (Some d, _) => [d] | _ => [] end ∧ (∀ e, res ≠ Err e).
Proof.
  cbv zeta. rewrite trace_no_cleanup, run_no_cleanup.
  destruct (neutral_trace (locateDevice fuel r volumeID req) s) as [Ht Hc]; [apply locateDevice_neutral|].
  rewrite (proj1 (logs_app _ _)), (proj2 (logs_app _ _)), Ht, Hc. cbn [app].
  destruct (run serve (locateDevice fuel r volumeID req) s) as [s1 [[[dev major] minor]|e|w]].
  - destruct (makeNode_logs dev major minor s1) as [Hc1 (s2 & dir & res & Hrun & Ht1)].
    split; [exact Hc1|]. eexists _, _. split; [exact Hrun|]. split; [|done]. rewrite Ht1. by destruct dir.
  - split; [done|]. eexists _, _. split; [done|]. done.
  - split; [done|]. eexists _, _. split; [done|]. done.
Qed.

Lemma createDevice_logs fuel (r : remoteSPDK csi_request) volumeID req s :
  let p := Remote.createDevice fuel r volumeID req in
  conns (trace serve p s) ∈ [[]; [true; false]] ∧
  ∃ s' res, run serve p s = (s', res) ∧
    temp_dirs (trace serve p s) = match res with Ok (Some d, _) => [d] | _ => [] end.
Proof.
  cbv zeta. unfold Remote.createDevice. rewrite trace_no_cleanup, run_no_cleanup.
  destruct (run serve (wrap_err "connect to OIM registry" (dialRegistry r)) s) as [s1 r1] eqn:Hdial.
  destruct (dialRegistry_logs r s s1 r1 Hdial) as [Ht Hc].
  rewrite (proj1 (logs_app _ _)), (proj2 (logs_app _ _)), Ht, Hc.
  destruct r1 as [u|e|w]; [|split; [set_solver|by eexists _, _]..].
  rewrite trace_defer, run_defer.
  destruct (device_logs fuel r volumeID req s1) as [Hc1 (s2 & res & Hrun & Ht1 & Hne)]. rewrite Hrun.
  rewrite (proj1 (logs_app _ _)), (proj2 (logs_app _ _)), Hc1, Ht1. split; [set_solver|].
  eexists _, _. split; [done|]. by rewrite app_nil_r.
Qed.

Lemma run_New path s : ∃ s' m, run serve (MountInterface.New path) s = (s', Ok (mounter_interface m)).
Proof. unfold MountInterface.New. rewrite run_bind. destruct (run serve detectSystemd s) as [s' systemd]. by eexists _, _. Qed.

(** [mount.New] followed by code that is neutral for every real mounter. *)
Lemma New_then {A} path (f : Interface → go csiE A) s :
  (∀ m, all_calls neutral (f (mounter_interface m))) →
  temp_dirs (trace serve (MountInterface.New path ≫= f) s) = [] ∧ conns (trace serve (MountInterface.New path ≫= f) s) = [].
Proof.
  intros Hf. rewrite trace_go_bind, (proj1 (logs_app _ _)), (proj2 (logs_app _ _)).
  destruct (neutral_trace (MountInterface.New path) s) as [-> ->]; [apply New_neutral|].
  destruct (run_New path s) as (s' & m & ->). cbn [app]. apply neutral_trace, Hf.
Qed.

Lemma stage_device_logs targetPath fsType device s :
  temp_dirs (trace serve (stage_device targetPath fsType device) s) = [] ∧
  conns (trace serve (stage_device targetPath fsType device) s) = [].
Proof.
  destruct device as [d|e|w]; [|done..]. apply New_then. intros m. unfold internal.
  apply all_calls_bind; [apply all_calls_wrap_err, FormatAndMount_neutral|done].
Qed.

(** The part of [stage] that has a device to clean up after. *)
Lemma stage_tail_logs fuel (r : remoteSPDK csi_request) volumeID req targetPath fsType s :
  let p := '(cleanup, device) ← bk_createDevice (remote_backend fuel r) volumeID req;
           with_cleanup cleanup (stage_device targetPath fsType device) in
  conns (trace serve p s) ∈ [[]; [true; false]] ∧
  ∀ dir, dir ∈ temp_dirs (trace serve p s) → ∃ pre ans, trace serve p s = pre ++ [Io (OS (RemoveAll dir)) ans].
Proof.
  cbv zeta. rewrite trace_go_bind. cbn [bk_createDevice remote_backend].
  rewrite trace_go_bind, run_go_bind.
  destruct (createDevice_logs fuel r volumeID req s) as [Hc (s1 & res & Hrun & Ht)]. rewrite Hrun.
  destruct res as [[dir dev]|e|w]; cbn [trace mret go_ret].
  2-3: rewrite !app_nil_r, Ht; split; [done|by intros ? ?%elem_of_nil].
  cbn [run]. rewrite !app_nil_r. destruct dir as [dir|]; cbn [fmap option_fmap option_map run mret go_ret with_cleanup].
  - rewrite trace_bind. destruct (run serve (stage_device _ _ _) s1) as [s2 r2] eqn:Hs.
    rewrite trace_bind, trace_os. destruct (run serve (os (RemoveAll dir)) s2) as [s3 r3]. cbn [trace].
    rewrite app_nil_r, !app_assoc. split.
    + rewrite !(proj2 (logs_app _ _)), (proj2 (stage_device_logs _ _ _ _)), app_nil_r.
      change (conns [Io _ _]) with ([] : list bool). by rewrite app_nil_r.
    + intros d. rewrite !(proj1 (logs_app _ _)), (proj1 (stage_device_logs _ _ _ _)), Ht.
      change (temp_dirs [Io _ _]) with ([] : list string). rewrite !app_nil_r.
      intros ->%list_elem_of_singleton. eexists _, _. done.
  - rewrite (proj2 (logs_app _ _)), (proj1 (logs_app _ _)), (proj2 (stage_device_logs _ _ _ _)), app_nil_r.
    split; [done|]. intros d. rewrite (proj1 (stage_device_logs _ _ _ _)), Ht. by intros ?%elem_of_nil.
Qed.

(** C31. Staging a volume through the OIM registry leaves nothing behind: in every run
    of NodeStageVolume, successful or not, whatever fails on the way, a temporary
    directory that was made for the device node is removed by the last call of the
    handler, and a connection to the registry is opened at most once and closed
    again. *)
Theorem NodeStageVolume_releases fuel (r : remoteSPDK csi_request) wrap req cap s :
  let tr := trace serve (stage (remote_backend fuel r) wrap req cap) s in
  conns tr ∈ [[]; [true; false]] ∧
  ∀ dir, dir ∈ temp_dirs tr → ∃ pre ans, tr = pre ++ [Io (OS (RemoveAll dir)) ans].
Proof.
  cbv zeta. unfold stage. set (tail := λ notMnt : bool, if negb notMnt then _ else _).
  assert (∀ pre : list (io csiE), temp_dirs pre = [] → conns pre = [] → ∀ notMnt s1,
    conns (pre ++ trace serve (tail notMnt) s1) ∈ [[]; [true; false]] ∧
    ∀ dir, dir ∈ temp_dirs (pre ++ trace serve (tail notMnt) s1) →
      ∃ pre' ans, pre ++ trace serve (tail notMnt) s1 = pre' ++ [Io (OS (RemoveAll dir)) ans]) as Htail.
  { intros pre Hpt Hpc notMnt s1. rewrite (proj2 (logs_app _ _)), (proj1 (logs_app _ _)), Hpt, Hpc. cbn [app].
    subst tail. destruct notMnt; cbn [negb].
    - pose proof (stage_tail_logs fuel r (ns_VolumeId req) (wrap req) (ns_StagingTargetPath req) (GetFsType cap) s1) as [Hc Hd].
      split; [exact Hc|]. intros dir Hdir. destruct (Hd dir Hdir) as (pre' & ans & Heq).
      exists (pre ++ pre'), ans. rewrite <-app_assoc. by rewrite <-Heq.
    - split; [set_solver|by intros ? ?%elem_of_nil]. }
  rewrite trace_go_bind. destruct (neutral_trace (MountInterface.New "") s (New_neutral "")) as [Ht0 Hc0].
  destruct (run_New "" s) as (s1 & m & ->). cbn [im_ops im_IsLikelyNotMountPoint mounter_interface mounter_ops].
  rewrite trace_go_bind, trace_attempt, run_attempt, app_assoc.
  destruct (neutral_trace (IsLikelyNotMountPoint (ns_StagingTargetPath req)) s1 (likely_neutral _)) as [Ht1 Hc1].
  set (pre := trace serve (MountInterface.New "") s ++ trace serve (IsLikelyNotMountPoint (ns_StagingTargetPath req)) s1).
  assert (temp_dirs pre = [] ∧ conns pre = []) as [Htp Hcp].
  { subst pre. by rewrite (proj1 (logs_app _ _)), (proj2 (logs_app _ _)), Ht0, Hc0, Ht1, Hc1. }
  assert (∀ tr, temp_dirs tr = [] → conns tr = [] → conns (pre ++ tr) ∈ [[]; [true; false]] ∧
    ∀ dir, dir ∈ temp_dirs (pre ++ tr) → ∃ pre' ans, pre ++ tr = pre' ++ [Io (OS (RemoveAll dir)) ans]) as Hdone.
  { intros tr Ht Hc. rewrite (proj1 (logs_app _ _)), (proj2 (logs_app _ _)), Htp, Hcp, Ht, Hc.
    split; [set_solver|by intros ? ?%elem_of_nil]. }
  destruct (run serve (IsLikelyNotMountPoint _) s1) as [s2 [notMnt|e|w]]; [|destruct (IsNotExist e)|by apply Hdone].
  - by apply (Htail pre).
  - rewrite trace_go_bind, trace_go_bind, run_go_bind.
    destruct (neutral_trace (internal (os (MkdirAll (ns_StagingTargetPath req) 0x1e8))) s2) as [Ht2 Hc2]; [calls|].
    destruct (run serve (internal _) s2) as [s3 [u|e'|w]]; cbn [run mret go_ret trace]; rewrite app_nil_r;
      [|rewrite app_nil_r; by apply Hdone..].
    rewrite app_assoc. apply Htail; by rewrite ?(proj1 (logs_app _ _)), ?(proj2 (logs_app _ _)), ?Htp, ?Hcp, ?Ht2, ?Hc2.
  - by apply Hdone.
Qed.
End Release.

(** ** A host with one accelerator card

    The controller attaches the volume as SCSI disk 6 of a card whose PCI address
    is completed from the registry; the disk shows up as sdb. *)
Record host := MkHost { h_fs : option string; h_mounted : bool; h_tmp : list string; h_attached : bool }.

Definition pci_unknown : PCIAddress := MkPCIAddress 0xffff 0xffff 0xffff 0.

Definition links : list (string * string) :=
  [("8:0", "../../devices/pci0000:00/0000:00:15.0/virtio3/host0/target0:0:7/0:0:7:0/block/sda");
   ("8:16", "../../devices/pci0000:00/0000:00:15.0/virtio3/host0/target0:0:6/0:0:6:0/block/sdb")].

Definition serve_host_os : ∀ B, osE B → host → host * B := λ B e,
  match e in osE B return host → host * B with
  | Stat _ => λ h, (h, Ok (MkFileInfo ModeDir (if h_mounted h then 2 else 1) 0))
  | Lstat _ => λ h, (h, Ok (MkFileInfo ModeDir 1 0))
  | ReadDir _ => λ h, (h, Ok (if h_attached h then (λ l, MkDirEntry l.1 false) <$> links else []))
  | Readlink path => λ h,
      (h, match list_find (λ l, path = "/sys/dev/block/" +:+ l.1) links with
          | Some (_, (_, t)) => Ok t | None => Err (SysError ENOENT "no such file") end)
  | NewWatcher _ => λ h, (h, Ok ())
  | TempDir dir prefix => λ h,
      let d := dir +:+ "/" +:+ prefix +:+ "123" in (MkHost (h_fs h) (h_mounted h) (d :: h_tmp h) (h_attached h), Ok d)
  | Mknod _ _ _ => λ h, (h, Ok ())
  | RemoveAll dir => λ h,
      (MkHost (h_fs h) (h_mounted h) (filter (λ d, d ≠ dir) (h_tmp h)) (h_attached h), Ok ())
  | Command "mount" _ => λ h, match h_fs h with
      | Some _ => (MkHost (h_fs h) true (h_tmp h) (h_attached h), ("", None))
      | None => (h, ("wrong fs type", Some (ExitError 32))) end
  | Command "umount" _ => λ h, (MkHost (h_fs h) false (h_tmp h) (h_attached h), ("", None))
  | ExecRun "blkid" _ => λ h, match h_fs h with
      | Some t => (h, (export_text [("TYPE", t)], None)) | None => (h, ("", Some (ExitError 2))) end
  | ExecRun "fsck" _ => λ h, (h, ("", None))
  | ExecRun cmd _ => λ h, match CutPrefix "mkfs." cmd with
      | Some t => (MkHost (Some t) (h_mounted h) (h_tmp h) (h_attached h), ("", None))
      | None => (h, ("", Some ErrExecutableNotFound)) end
  | e => λ h, (h, refuse_os e)
  end.

Definition serve_host_rpc : ∀ B, rpcE B → host → host * B := λ B e,
  match e in rpcE B return host → host * B with
  | LoadTLS_ _ _ _ => λ h, (h, Ok ())
  | Dial _ => λ h, (h, Ok ())
  | GetValues_ _ => λ h, (h, Ok (MkGetValuesReply [MkValue "host-0/pci" "00:15."]))
  | MapVolume_ _ _ => λ h, (MkHost (h_fs h) (h_mounted h) (h_tmp h) true,
                             Ok (MkMapVolumeReply (Some pci_unknown) (Some (MkSCSIDisk 6 0))))
  | UnmapVolume_ _ _ => λ h, (MkHost (h_fs h) (h_mounted h) (h_tmp h) false, Ok ())
  | e => λ h, (h, refuse_rpc e)
  end.

Definition serve_host : ∀ B, csiE B → host → host * B := λ B e,
  match e in csiE B return host → host * B with
  | OS e => serve_host_os _ e
  | RPC e => serve_host_rpc _ e
  | e => λ h, (h, refuse e)
  end.

Definition host_remote : remoteSPDK csi_request :=
  MkRemoteSPDK "dns:///registry:8999" "ca.crt" "host.host-0.key" "host-0" None.
Definition host_backend : OIMBackend := remote_backend 1 host_remote.
Definition host_cap : VolumeCapability := MkVolumeCapability (MountVolume_ (MkMountVolume "ext4" [])) (Some SINGLE_NODE_WRITER).
Definition host_stage : NodeStageVolumeRequest := MkNodeStageVolumeRequest "vol" "/stage" (Some host_cap) ∅ ∅.
Definition host0 : host := MkHost None false [] false.

(** Stage, stage again, unstage: the disk is formatted once, mounted and found
    through its PCI address and SCSI disk; no directory is left. *)
Example stage_and_unstage :
  let serve := serve_locked serve_host in
  run serve (NodeStageVolume host_backend host_stage) host0 = (MkHost (Some "ext4") true [] true, Ok ()) ∧
  run serve (NodeStageVolume host_backend host_stage) (MkHost (Some "ext4") true [] true) =
    (MkHost (Some "ext4") true [] true, Ok ()) ∧
  run serve (NodeUnstageVolume host_backend (MkNodeUndoRequest "vol" "/stage")) (MkHost (Some "ext4") true [] true) =
    (MkHost (Some "ext4") false [] false, Ok ()).
Proof. by vm_compute. Qed.

Lemma NodeStageVolume_releases_witness :
  let tr := trace serve_host (stage host_backend Request1 host_stage host_cap) host0 in
  temp_dirs tr = ["/dev/sdb123"] ∧ ∃ pre ans, tr = pre ++ [Io (OS (RemoveAll "/dev/sdb123")) ans].
Proof.
  intros tr. assert (temp_dirs tr = ["/dev/sdb123"]) as Ht by (by vm_compute). split; [exact Ht|].
  apply (NodeStageVolume_releases serve_host ltac:(done) ltac:(done) 1 host_remote Request1 host_stage host_cap host0).
  fold host_backend. fold tr. rewrite Ht. by left.
Defined.

(** ** The mutex at work *)

(** Two calls to delete the same volume, after three steps of the first one. *)
Definition delete_vol : prog (locked csiE) csi_reply := handle host_backend false (CallDeleteVolume "vol").
Definition two_deletes : config (F := csiE) host csi_reply :=
  advance serve_host (λ _, 0%nat) 3 0 (MkConfig host0 ∅ [delete_vol; delete_vol]).

Lemma two_deletes_run :
  pool_run serve_host (λ _, 0%nat) (λ t, ∃ c, t = handle host_backend false c) (MkConfig host0 ∅ []) two_deletes.
Proof.
  apply advance_run. apply (pool_spawn _ _ _ _ host0 ∅ [delete_vol]); [|by eexists].
  apply (pool_spawn _ _ _ _ host0 ∅ []); [apply pool_refl|by eexists].
Qed.


(** ** Publishing and unstaging: two observations *)

(** When a bind mount fails but leaves something mounted, and unmounting it
    reports success without effect, NodePublishVolume tries to report that
    something is wrong with errors.Wrap of a nil error, whose Error method cannot be
    called: the handler panics.  The comment in the code expects an error. *)
Theorem NodePublishVolume_panics source target err :
  let serve : ∀ B, csiE B → () → () * B := λ B e, λ u, (u,
    match e in csiE B return B with
    | OS e => match e in osE B return B with
              | Stat _ => Ok (MkFileInfo ModeDir 2 0)
              | Lstat _ => Ok (MkFileInfo ModeDir 1 0)
              | Command "umount" _ => ("", None)
              | e => refuse_os e
              end
    | e => refuse e
    end) in
  ∃ w, run serve (undo_mount (mounter_interface (MkMounter source false)) target err) () = ((), Panic w).
Proof. by eexists. Qed.

(** Unstaging through the registry opens a connection that is never closed:
    [deleteDevice] has no deferred Close. *)
Theorem deleteDevice_never_closes :
  (∀ S (serve : ∀ B, csiE B → S → S * B) r volumeID s,
     false ∉ conns (trace serve (Remote.deleteDevice (Req := csi_request) r volumeID) s)) ∧
  conns (trace serve_host (Remote.deleteDevice host_remote "vol") host0) = [true].
Proof.
  split; [|by vm_compute]. intros S serve r volumeID s.
  assert (all_calls (λ B e, match e with RPC e => match e with CloseConn => False | _ => True end | _ => True end)
    (Remote.deleteDevice r volumeID)) as H by (unfold Remote.deleteDevice, dialRegistry; calls).
  apply (all_calls_trace _ serve _ s) in H. revert H.
  induction (trace serve _ s) as [|[B e a] tr IH]; intros H; [by intros ?%elem_of_nil|].
  apply Forall_cons in H as [He H]. specialize (IH H). cbn in He. unfold conns in *. cbn [omap list_omap].
  destruct e as [B e|B e| | |B e]; try exact IH. destruct e; try exact IH; [|done]. cbn.
  destruct a; [|exact IH..]. rewrite elem_of_cons. by intros [?|?%IH].
Qed.
