(* ===== verification/NodeKernel.v ===== *)
(** * The machine of the CSI driver

    What mount(8), umount(8), blkid, fsck and mkfs and the calls for directories do
    on the machine of the driver, as the class [NodeKernel] with its laws, and what
    follows for the functions of pkg/mount and for the parts of nodeserver.go that
    only use the machine. *)
From S2P Require Import Prelude GoStrings Errors Json Messages Effects SPDK Daemon Controller ControllerSeq Registry CSIEnv Paths Remote Sysfs Mount MountFacts Subpath MountInterface System Staging CSIMessages CephCSI CSIDriver CSIServer.
Import oimcontroller.

(** ** The machine *)

(** Directories and mounts at the paths that are used for volumes, and the file
    systems: which volume (by the name of its BDev) is mounted where, and with what
    each volume is formatted. *)
Record fsview := MkFs {
  f_dirs : gset string;
  f_mounts : gmap string string;
  f_content : gmap string string
}.

Definition add_dir (p : string) (v : fsview) : fsview := MkFs ({[p]} ∪ f_dirs v) (f_mounts v) (f_content v).
Definition del_dir (p : string) (v : fsview) : fsview := MkFs (f_dirs v ∖ {[p]}) (f_mounts v) (f_content v).
Definition add_mount (p n : string) (v : fsview) : fsview := MkFs (f_dirs v) (<[p:=n]> (f_mounts v)) (f_content v).
Definition del_mount (p : string) (v : fsview) : fsview := MkFs (f_dirs v) (delete p (f_mounts v)) (f_content v).
Definition format (n fstype : string) (v : fsview) : fsview := MkFs (f_dirs v) (f_mounts v) (<[n:=fstype]> (f_content v)).

(** [managed] are the staging and target paths: none is below another one, all have
    their parent directory on the file system with device number [root_dev]. *)
Class NodeKernel (O : Type) := {
  fs : O → fsview;
  managed : string → Prop;
  root_dev : Z;
  mount_entries : fsview → list MountPoint
}.

(** The file systems for which there is a mkfs. *)
Definition formats : list string := ["ext2"; "ext3"; "ext4"; "xfs"].

Section Laws.
Context {D O : Type} {SD : SPDKDaemon D} {GK : GuestKernel D O} {NK : NodeKernel O}.
Context (vhost : string) (addr : PCIAddress).

(** A call that changes the file systems like this, and neither disks nor nodes. *)
Definition updates (f : fsview → fsview) (o o' : O) : Prop :=
  fs o' = f (fs o) ∧ nodes o' = nodes o ∧ ∀ d : D, disks o' d = disks o d.

(** The device node is that of a volume. *)
Definition dev_is (d : D) (o : O) (node n : string) : Prop :=
  ∃ e, e ∈ disks o d ∧ node_for o node e ∧ is_volume vhost addr d n e.

(** Whether mount(8) accepts the content of a disk for a type (empty: any). *)
Definition mountable (content : option string) (fstype : string) : bool :=
  match content with Some g => bool_decide (fstype = "" ∨ fstype = g) | None => false end.

(** The calls of [createDevice]. *)
Definition staging_call : ∀ B, osE B → Prop := λ B e,
  match e with
  | ReadDir _ | Readlink _ | NewWatcher _ | Select | Mknod _ _ _ => True
  | TempDir dir _ => dir = "/dev"
  | _ => False
  end.

Class NodeKernelLaws := {
  stat_path p d o o' r :
    managed p → kernel _ (Stat p) d o = (o', r) → updates id o o' ∧
    if decide (p ∈ f_dirs (fs o))
    then ∃ i, r = Ok i ∧ (Dev i = root_dev ↔ f_mounts (fs o) !! p = None)
    else ∃ e, r = Err e ∧ IsNotExist e = true;
  stat_parent p d o o' r :
    managed p → p ∈ f_dirs (fs o) → kernel _ (Lstat (Dir (TrimSuffix p "/"))) d o = (o', r) →
    updates id o o' ∧ ∃ i, r = Ok i ∧ Dev i = root_dev;
  mkdir_path p perm d o o' r :
    managed p → kernel _ (MkdirAll p perm) d o = (o', r) → updates (add_dir p) o o' ∧ r = Ok ();
  (** Nothing else is put into the directories, so they can be removed. *)
  remove_path p d o o' r :
    managed p → p ∈ f_dirs (fs o) → f_mounts (fs o) !! p = None → kernel _ (Remove p) d o = (o', r) →
    updates (del_dir p) o o' ∧ r = Ok ();
  (** No path goes through a symbolic link. *)
  eval_path p d o o' r :
    managed p → p ∈ f_dirs (fs o) → kernel _ (EvalSymlinks p) d o = (o', r) → updates id o o' ∧ r = Ok p;
  read_mounts d o o' r :
    kernel _ (ReadFile procMountsPath) d o = (o', r) → updates id o o' ∧ r = Ok (mount_table (mount_entries (fs o)));
  mount_entries_ok v : Forall mount_ok (mount_entries v);
  mount_entries_managed v p :
    managed p → existsb (λ mp, IsMountPointMatch mp p) (mount_entries v) = bool_decide (is_Some (f_mounts v !! p));
  (** There is no systemd. *)
  no_systemd d o o' r :
    kernel _ (LookPath "systemd-run") d o = (o', r) → updates id o o' ∧ ∃ e, r = Err e;
  mount_disk node n p fstype d o o' r :
    dev_is d o node n → managed p → p ∈ f_dirs (fs o) → f_mounts (fs o) !! p = None →
    kernel _ (Command "mount" (makeMountArgs node p fstype ["defaults"])) d o = (o', r) →
    if mountable (f_content (fs o) !! n) fstype then updates (add_mount p n) o o' ∧ r.2 = None
    else updates id o o' ∧ is_Some r.2;
  mount_bind s p n fstype d o o' r :
    managed p → p ∈ f_dirs (fs o) → f_mounts (fs o) !! p = None → f_mounts (fs o) !! s = Some n →
    kernel _ (Command "mount" (makeMountArgs s p fstype ["bind"])) d o = (o', r) →
    updates (add_mount p n) o o' ∧ r.2 = None;
  mount_remount s p n fstype options d o o' r :
    managed p → f_mounts (fs o) !! p = Some n →
    kernel _ (Command "mount" (makeMountArgs s p fstype ("bind" :: "remount" :: options))) d o = (o', r) →
    updates id o o' ∧ r.2 = None;
  (** Nobody uses the file system when it is unmounted. *)
  umount_path p d o o' r :
    managed p → kernel _ (Command "umount" [p]) d o = (o', r) →
    match f_mounts (fs o) !! p with
    | Some _ => updates (del_mount p) o o' ∧ r.2 = None
    | None => updates id o o' ∧ is_Some r.2
    end;
  (** fsck corrects all errors. *)
  fsck_disk node n d o o' r :
    dev_is d o node n → kernel _ (ExecRun "fsck" ["-a"; node]) d o = (o', r) →
    updates id o o' ∧ r.2 ≠ Some (ExitError fsckErrorsUncorrected);
  blkid_disk node n d o o' r :
    dev_is d o node n → kernel _ (ExecRun "blkid" (blkid_args node)) d o = (o', r) →
    updates id o o' ∧
    match f_content (fs o) !! n with
    | None => r.2 = Some (ExitError 2)
    | Some g => ∃ kvs, Forall export_ok kvs ∧ last_value "TYPE" kvs = Some g ∧ last_value "PTTYPE" kvs = None ∧
                  r = (export_text kvs, None)
    end;
  mkfs_disk node n fstype d o o' r :
    dev_is d o node n → fstype ∈ formats →
    kernel _ (ExecRun ("mkfs." +:+ fstype) (mkfs_args fstype node)) d o = (o', r) →
    updates (format n fstype) o o' ∧ r.2 = None;
  (** What happens in /dev, /sys and while waiting does not touch mounts. *)
  staging_quiet B (e : osE B) d o o' r : staging_call B e → kernel _ e d o = (o', r) → fs o' = fs o;
  remove_temp dir d o o' r :
    HasPrefix dir "/dev/" = true → kernel _ (RemoveAll dir) d o = (o', r) → fs o' = fs o
}.
End Laws.
Arguments NodeKernelLaws D O {_ _ _} _ _.

(** ** Programs that only use the machine *)

Section Node.
Context {DB : Type} {RD : RegistryDB DB} {RDL : RegistryDBLaws DB}.
Context {D O : Type} {SD : SPDKDaemon D} {SDS : SPDKSound D} {SDR : SPDKReliable D}.
Context {GK : GuestKernel D O} {NK : NodeKernel O}.
Context {Creds : Type} (c : Controller Creds) (peer : string) (r : remoteSPDK csi_request) (addr : PCIAddress).
Context {GKL : GuestKernelLaws D O (vhostSCSI c) addr} {NKL : NodeKernelLaws D O (vhostSCSI c) addr}.

Abbreviation serve := (serve_host (DB := DB) (D := D) (O := O) c peer).
Abbreviation world_ := (world (DB := DB) (D := D)).
Abbreviation same := (updates (D := D) (O := O) id).
Abbreviation changes := (updates (D := D) (O := O)).
Abbreviation device := (dev_is (vhostSCSI c) addr).

(** A program that changes nothing but the machine, and how it ends. *)
Definition local {A} (w : world_) (p : prog csiE A) (o : O) (Q : O → A → Prop) : Prop :=
  ∃ o' a, run serve p (MkHost w o) = (MkHost w o', a) ∧ Q o' a.

Lemma local_ret {A} w (a : A) o (Q : O → A → Prop) : Q o a → local w (Ret a) o Q.
Proof. intros HQ. by exists o, a. Qed.

Lemma local_mono {A} w (p : prog csiE A) o (P Q : O → A → Prop) :
  local w p o P → (∀ o' a, P o' a → Q o' a) → local w p o Q.
Proof. intros (o' & a & Hrun & HP) HPQ. exists o', a. auto. Qed.

Lemma local_bind {A B} w (p : prog csiE A) (f : A → prog csiE B) o Q :
  local w p o (λ o' a, local w (f a) o' Q) → local w (pbind f p) o Q.
Proof.
  intros (o1 & a & Hrun & o2 & b & Hrun2 & HQ). exists o2, b. by rewrite run_bind, Hrun.
Qed.

Lemma local_go_bind {A B} w (p : go csiE A) (f : A → go csiE B) o Q :
  local w p o (λ o' x, match x with
                       | Ok a => local w (f a) o' Q
                       | Err e => Q o' (Err e)
                       | Panic why => Q o' (Panic why)
                       end) →
  local w (p ≫= f) o Q.
Proof.
  intros Hp. apply local_bind. eapply local_mono; [exact Hp|].
  intros o' [a|e|why]; [done|apply local_ret..].
Qed.

Lemma local_attempt {A} w (p : go csiE A) o Q :
  local w p o (λ o' x, match x with Panic why => Q o' (Panic why) | _ => Q o' (Ok x) end) →
  local w (attempt p) o Q.
Proof. intros Hp. apply local_bind. eapply local_mono; [exact Hp|]. intros o' [a|e|why]; apply local_ret. Qed.

Lemma local_wrap_err {A} w msg (p : go csiE A) o Q :
  local w p o (λ o' x, match x with Err e => Q o' (Err (Wrap e msg)) | _ => Q o' x end) →
  local w (wrap_err msg p) o Q.
Proof. intros Hp. apply local_bind. eapply local_mono; [exact Hp|]. intros o' [a|e|why]; apply local_ret. Qed.

Lemma local_internal {A} w (p : go csiE A) o Q :
  local w p o (λ o' x, match x with Err e => Q o' (Err (StatusOf Internal e)) | _ => Q o' x end) →
  local w (internal p) o Q.
Proof. intros Hp. apply local_bind. eapply local_mono; [exact Hp|]. intros o' [a|e|why]; apply local_ret. Qed.

Lemma local_call {B} w (e : osE B) o (Q : O → B → Prop) :
  (∀ o' b, kernel _ e (w_daemon w) o = (o', b) → Q o' b) → local w (trigger (OS e)) o Q.
Proof.
  intros HQ. destruct (kernel _ e (w_daemon w) o) as [o' b] eqn:He. exists o', b.
  cbn [run trigger serve_host h_world h_os]. rewrite He. by split; [|apply HQ].
Qed.

Lemma local_os {A} w (e : osE (result A)) o (Q : O → result A → Prop) :
  (∀ o' x, kernel _ e (w_daemon w) o = (o', x) → Q o' x) → local w (os e) o Q.
Proof. apply local_call. Qed.

Lemma same_refl o : same o o.
Proof. done. Qed.
Lemma same_fs o o' : same o o' → fs o' = fs o.
Proof. by intros [? _]. Qed.
Lemma changes_after f o o1 o2 : same o o1 → changes f o1 o2 → changes f o o2.
Proof. intros (Hf & Hn & Hd) (Hf2 & Hn2 & Hd2). split_and!; [by rewrite Hf2, Hf|by rewrite Hn2|intros d; by rewrite Hd2]. Qed.
Lemma changes_comp f g o o1 o2 : changes f o o1 → changes g o1 o2 → changes (λ v, g (f v)) o o2.
Proof. intros (Hf & Hn & Hd) (Hf2 & Hn2 & Hd2). split_and!; [by rewrite Hf2, Hf|by rewrite Hn2|intros d; by rewrite Hd2]. Qed.
Lemma changes_device f d o o' node n : changes f o o' → device d o node n → device d o' node n.
Proof.
  intros (_ & Hn & Hd) (e & He & (dev & Hdev & Hnum) & Hv). exists e. rewrite Hd. split_and!; [done| |done].
  exists dev. by rewrite Hn.
Qed.

(** ** The mounter *)

Abbreviation mounter := (MkMounter "" false).

Lemma local_New w o : local w (MountInterface.New "") o (λ o' x, same o o' ∧ x = Ok (mounter_interface mounter)).
Proof.
  apply local_bind, local_bind, local_os. intros o' x Hx.
  apply (no_systemd (vhostSCSI c) addr) in Hx as (Hs & e & ->). by apply local_ret, local_ret.
Qed.

Lemma local_IsLikelyNotMountPoint w p o :
  managed p →
  local w (IsLikelyNotMountPoint p) o (λ o' x, same o o' ∧
    if decide (p ∈ f_dirs (fs o)) then x = Ok (bool_decide (f_mounts (fs o) !! p = None))
    else ∃ e, x = Err e ∧ IsNotExist e = true).
Proof.
  intros Hp. apply local_go_bind, local_os. intros o1 x Hx.
  apply (stat_path (vhostSCSI c) addr) in Hx as [Hs Hx]; [|done]. case_decide as Hdir; last first.
  { destruct Hx as (e & -> & He). split; [done|]. by exists e. }
  destruct Hx as (i & -> & Hi). apply local_go_bind, local_os. intros o2 y Hy.
  apply (stat_parent (vhostSCSI c) addr) in Hy as (Hs2 & j & -> & Hj); [|done|by destruct Hs as [-> _]].
  rewrite Hj. destruct (decide (Dev i ≠ root_dev)) as [Hne|Heq]; apply local_ret; (split; [by eapply changes_after|]).
  - rewrite bool_decide_false; [done|]. by rewrite <-Hi.
  - apply dec_stable in Heq. rewrite bool_decide_true; [done|]. by apply Hi.
Qed.

(** mount(8) without systemd. *)
Lemma local_doMount w source p fstype options o Q :
  (∀ o' text err, kernel _ (Command "mount" (makeMountArgs source p fstype options)) (w_daemon w) o = (o', (text, err)) →
     match err with None => Q o' (Ok ()) | Some _ => ∀ e, Q o' (Err e) end) →
  local w (doMount mounter "" defaultMountCommand source p fstype options) o Q.
Proof.
  intros HQ. apply local_bind, local_call. intros o' [text err] Hrun. specialize (HQ o' text err Hrun).
  destruct err; apply local_ret; auto.
Qed.

Lemma local_Mount_disk w node n p fstype o :
  device (w_daemon w) o node n → managed p → p ∈ f_dirs (fs o) → f_mounts (fs o) !! p = None →
  local w (Mount mounter node p fstype ["defaults"]) o (λ o' x,
    if mountable (f_content (fs o) !! n) fstype then changes (add_mount p n) o o' ∧ x = Ok ()
    else same o o' ∧ ∃ e, x = Err e).
Proof.
  intros Hdev Hp Hdir Hm. unfold Mount. change (isBind ["defaults"]) with (false, ["bind"], ["bind"; "remount"; "defaults"]).
  cbn iota beta. assert ((if decide (fstype ∈ ["nfs"; "glusterfs"; "ceph"; "cifs"]) then mounterPath mounter else "") = "") as ->
    by (by case_decide).
  apply local_doMount. intros o' text err Hrun.
  pose proof (mount_disk (vhostSCSI c) addr _ _ _ _ _ _ _ _ Hdev Hp Hdir Hm Hrun) as Hl.
  destruct (mountable _ _); cbn [snd] in Hl.
  - destruct Hl as [? ->]. done.
  - destruct Hl as [? [e ->]]. intros e'. split; [done|by exists e'].
Qed.

Lemma local_Mount_bind w s p n ro o :
  managed p → p ∈ f_dirs (fs o) → f_mounts (fs o) !! p = None → f_mounts (fs o) !! s = Some n →
  local w (Mount mounter s p "ext4" (["bind"] ++ if ro : bool then ["ro"] else [])) o (λ o' x,
    changes (add_mount p n) o o' ∧ x = Ok ()).
Proof.
  intros Hp Hdir Hm Hs. unfold Mount.
  assert (isBind (["bind"] ++ if ro then ["ro"] else []) =
    (true, ["bind"], "bind" :: "remount" :: if ro then ["ro"] else [])) as -> by (by destruct ro).
  apply local_go_bind, local_doMount. intros o1 text err Hrun.
  destruct (mount_bind (vhostSCSI c) addr _ _ _ _ _ _ _ _ Hp Hdir Hm Hs Hrun) as [Hc Herr]. cbn [snd] in Herr. subst err.
  apply local_doMount. intros o2 text2 err2 Hrun2.
  assert (f_mounts (fs o1) !! p = Some n) as Hm1 by (destruct Hc as [-> _]; apply lookup_insert_eq).
  destruct (mount_remount (vhostSCSI c) addr _ _ _ _ _ _ _ _ _ Hp Hm1 Hrun2) as [Hc2 Herr2].
  cbn [snd] in Herr2. subst err2. split; [|done]. exact (changes_comp _ _ _ _ _ Hc Hc2).
Qed.

Lemma local_Unmount w p o :
  managed p →
  local w (Unmount p) o (λ o' x,
    match f_mounts (fs o) !! p with
    | Some _ => changes (del_mount p) o o' ∧ x = Ok ()
    | None => same o o' ∧ ∃ e, x = Err e
    end).
Proof.
  intros Hp. apply local_bind, local_call. intros o' [text err] Hrun.
  pose proof (umount_path (vhostSCSI c) addr _ _ _ _ _ Hp Hrun) as Hl. cbn [snd] in Hl. destruct (f_mounts (fs o) !! p).
  - destruct Hl as [? ->]. by apply local_ret.
  - destruct Hl as [? [e ->]]. apply local_ret. split; [done|by eexists].
Qed.

(** ** Formatting *)

Definition fs_type (fstype : string) : string := if decide (fstype = "") then "ext4" else fstype.
Definition supported (fstype : string) : Prop := fstype = "" ∨ fstype ∈ formats.

Lemma supported_fs_type fstype : supported fstype → fs_type fstype ∈ formats ∧ fs_type fstype ≠ "".
Proof.
  unfold fs_type. intros [->|Hf]; [split; [|done]; right; right; by left|].
  case_decide as He; [|done]. subst fstype.
  repeat (apply elem_of_cons in Hf as [?|Hf]; [done|]). by apply elem_of_nil in Hf.
Qed.

Lemma local_fsck w node n o :
  device (w_daemon w) o node n →
  local w (pbind (λ out, check (fsck_error node out)) (osExec "fsck" ["-a"; node])) o (λ o' x, same o o' ∧ x = Ok ()).
Proof.
  intros Hdev. apply local_bind, local_call. intros o' [text err] Hrun.
  destruct (fsck_disk (vhostSCSI c) addr _ _ _ _ _ _ Hdev Hrun) as [Hs Herr]. cbn [snd] in Herr.
  assert (fsck_error node (text, err) = None) as ->; [|by apply local_ret].
  destruct err as [[]|]; try done. unfold fsck_error. destruct (decide (status = fsckErrorsCorrected)); [done|].
  rewrite decide_False; [done|]. by intros ->.
Qed.

Lemma local_GetDiskFormat w node n o :
  device (w_daemon w) o node n →
  local w (GetDiskFormat osExec node) o (λ o' x, same o o' ∧ x = Ok (default "" (f_content (fs o) !! n))).
Proof.
  intros Hdev. apply local_bind, local_call. intros o' [text err] Hrun.
  destruct (blkid_disk (vhostSCSI c) addr _ _ _ _ _ _ Hdev Hrun) as [Hs Hr]. apply local_ret. split; [done|].
  destruct (f_content (fs o) !! n) as [g|].
  - destruct Hr as (kvs & Hok & Ht & Hpt & [= -> ->]). rewrite parse_blkid_export, Hpt, Ht by done. done.
  - cbn [snd] in Hr. by subst err.
Qed.

Lemma local_mkfs w node n fstype o :
  device (w_daemon w) o node n → fstype ∈ formats →
  local w (pbind (λ '(_, err), check err) (osExec ("mkfs." +:+ fstype) (mkfs_args fstype node))) o
    (λ o' x, changes (format n fstype) o o' ∧ x = Ok ()).
Proof.
  intros Hdev Hf. apply local_bind, local_call. intros o' [text err] Hrun.
  destruct (mkfs_disk (vhostSCSI c) addr _ _ _ _ _ _ _ Hdev Hf Hrun) as [Hs Herr]. cbn [snd] in Herr. subst err.
  by apply local_ret.
Qed.

(** What [FormatAndMount] does to the file systems, and whether it succeeds. *)
Definition format_and_mount (n p fstype : string) (v : fsview) : fsview * bool :=
  match f_content v !! n with
  | None => (add_mount p n (format n (fs_type fstype) v), true)
  | Some g => if decide (fstype = "" ∨ fstype = g) then (add_mount p n v, true) else (v, false)
  end.

Lemma local_FormatAndMount w node n p fstype o :
  device (w_daemon w) o node n → managed p → p ∈ f_dirs (fs o) → f_mounts (fs o) !! p = None → supported fstype →
  f_content (fs o) !! n ≠ Some "" →
  local w (FormatAndMount (mounter_ops mounter) osExec node p fstype []) o (λ o' x,
    format_and_mount n p fstype (fs o) = (fs o', is_ok x)).
Proof.
  intros Hdev Hp Hdir Hm Hsup Hne. destruct (supported_fs_type fstype Hsup) as [Hfmt Hft].
  unfold FormatAndMount. cbv zeta. change (existsb (String.eqb "ro") []) with false. cbn iota beta.
  apply local_go_bind. eapply local_mono; [by eapply local_fsck|]. intros o1 x [Hs1 ->].
  pose proof (changes_device _ _ _ _ _ _ Hs1 Hdev) as Hdev1. pose proof (same_fs _ _ Hs1) as Hf1.
  apply local_go_bind, local_attempt. cbn [im_Mount mounter_ops]. change ([] ++ ["defaults"]) with ["defaults"].
  eapply local_mono; [apply (local_Mount_disk w node n p fstype o1 Hdev1 Hp); by rewrite Hf1|].
  intros o2 x Hx. rewrite Hf1 in Hx.
  destruct (f_content (fs o) !! n) as [g|] eqn:Hg; cbn [mountable] in Hx.
  - assert (format_and_mount n p fstype (fs o) =
      if decide (fstype = "" ∨ fstype = g) then (add_mount p n (fs o), true) else (fs o, false)) as ->
      by (unfold format_and_mount; by rewrite Hg).
    case_bool_decide as Hmatch.
    + destruct Hx as [[Hf2 _] ->]. apply local_ret. by rewrite decide_True, Hf2, Hf1.
    + destruct Hx as [Hs2 [e ->]]. pose proof (same_fs _ _ Hs2) as Hf2.
      apply local_go_bind. eapply local_mono; [eapply local_GetDiskFormat, changes_device; done|].
      intros o3 y [Hf3%same_fs ->]. rewrite Hf2, Hf1, Hg. cbn [default from_option]. unfold id.
      destruct (decide (g = "")) as [->|_]; [done|]. destruct (decide (fstype = "" ∨ fstype = g)); [done|].
      apply local_ret. by rewrite Hf3, Hf2, Hf1.
  - assert (format_and_mount n p fstype (fs o) = (add_mount p n (format n (fs_type fstype) (fs o)), true)) as ->
      by (unfold format_and_mount; by rewrite Hg).
    destruct Hx as [Hs2 [e ->]]. pose proof (changes_device _ _ _ _ _ _ Hs2 Hdev1) as Hdev2.
    pose proof (same_fs _ _ Hs2) as Hf2.
    apply local_go_bind. eapply local_mono; [by eapply local_GetDiskFormat|].
    intros o3 y [Hs3 ->]. pose proof (changes_device _ _ _ _ _ _ Hs3 Hdev2) as Hdev3.
    pose proof (same_fs _ _ Hs3) as Hf3. rewrite Hf2, Hf1, Hg. cbn [default from_option].
    rewrite decide_True by done. change (if decide (fstype = "") then "ext4" else fstype) with (fs_type fstype).
    apply local_go_bind. eapply local_mono; [by eapply local_mkfs|]. intros o4 y [Hs4 ->].
    pose proof (changes_device _ _ _ _ _ _ Hs4 Hdev3) as Hdev4.
    assert (fs o4 = format n (fs_type fstype) (fs o)) as Hf by (by rewrite (proj1 Hs4), Hf3, Hf2, Hf1).
    eapply local_mono; [apply (local_Mount_disk w node n p (fs_type fstype) o4 Hdev4 Hp); by rewrite Hf|].
    intros o5 z Hz. rewrite Hf in Hz. cbn [f_content format] in Hz. rewrite lookup_insert_eq in Hz. cbn [mountable] in Hz.
    rewrite bool_decide_true in Hz by auto. destruct Hz as [[Hf5 _] ->]. by rewrite Hf5, Hf.
Qed.

(** ** Publishing *)

(** Mount points exist. *)
Definition mounts_exist (v : fsview) : Prop := ∀ p, is_Some (f_mounts v !! p) → p ∈ f_dirs v.

Lemma local_List w o : local w List_ o (λ o' x, same o o' ∧ x = Ok (mount_entries (fs o))).
Proof.
  apply local_go_bind, local_go_bind, local_os. intros o1 x Hx.
  apply (read_mounts (vhostSCSI c) addr) in Hx as [Hs1 ->]. change (Z.to_nat maxListTries) with 3%nat.
  cbn [consistentRead_loop]. apply local_go_bind, local_os. intros o2 x Hx.
  apply (read_mounts (vhostSCSI c) addr) in Hx as [Hs2 ->]. rewrite (same_fs _ _ Hs1), decide_True by done.
  apply local_ret, local_ret. split; [by eapply changes_after|].
  apply parse_mount_table, (mount_entries_ok (vhostSCSI c) addr).
Qed.

Lemma local_IsNotMountPoint w p o :
  managed p → p ∈ f_dirs (fs o) →
  local w (IsNotMountPoint (mounter_ops mounter) p) o
    (λ o' x, same o o' ∧ x = Ok (bool_decide (f_mounts (fs o) !! p = None))).
Proof.
  intros Hp Hdir. apply local_go_bind, local_attempt.
  eapply local_mono; [by apply local_IsLikelyNotMountPoint|]. intros o1 x [Hs1 Hx]. rewrite decide_True in Hx by done.
  subst x. apply local_go_bind, local_ret. case_bool_decide as Hm; cbn [negb]; [|by apply local_ret].
  pose proof (same_fs _ _ Hs1) as Hf1. apply local_go_bind. cbn [im_EvalHostSymlinks mounter_ops]. apply local_os.
  intros o2 x Hx. apply (eval_path (vhostSCSI c) addr) in Hx as [Hs2 ->]; [|done|by rewrite Hf1].
  apply local_go_bind. cbn [im_List mounter_ops]. eapply local_mono; [apply local_List|]. intros o3 x [Hs3 ->].
  apply local_ret. split; [by do 2 (eapply changes_after; [done|])|].
  cbn [im_IsMountPointMatch mounter_ops]. rewrite (mount_entries_managed (vhostSCSI c) addr) by done.
  rewrite (same_fs _ _ Hs2), Hf1, Hm. done.
Qed.

Lemma del_unmounted p v : p ∉ f_dirs v → mounts_exist v → del_dir p (del_mount p v) = v.
Proof.
  intros Hp Hv. destruct v as [ds ms cs]. unfold del_dir, del_mount. cbn in *. f_equal; [set_solver|].
  apply delete_id, eq_None_not_Some. intros ?. by apply Hp, Hv.
Qed.

Lemma local_unmount_and_remove w p n o :
  managed p → p ∈ f_dirs (fs o) → f_mounts (fs o) !! p = Some n →
  local w (unmount_and_remove p (mounter_ops mounter)) o (λ o' x, fs o' = del_dir p (del_mount p (fs o)) ∧ x = Ok ()).
Proof.
  intros Hp Hdir Hm. apply local_go_bind. cbn [im_Unmount mounter_ops].
  eapply local_mono; [by apply local_Unmount|]. intros o1 x Hx. rewrite Hm in Hx. destruct Hx as [[Hf1 _] ->].
  apply local_go_bind. cbn [im_IsLikelyNotMountPoint mounter_ops].
  eapply local_mono; [by apply local_IsLikelyNotMountPoint|]. intros o2 x [Hs2 Hx]. pose proof (same_fs _ _ Hs2) as Hf2.
  rewrite Hf1 in Hx. cbn [del_mount f_dirs f_mounts] in Hx. rewrite decide_True, lookup_delete_eq in Hx by done. subst x.
  rewrite bool_decide_true by done. apply local_os. intros o3 x Hx.
  apply (remove_path (vhostSCSI c) addr) in Hx as [[Hf3 _] ->]; [|done|by rewrite Hf2, Hf1|rewrite Hf2, Hf1; apply lookup_delete_eq].
  split; [|done]. by rewrite Hf3, Hf2, Hf1.
Qed.

Lemma local_UnmountPath w p o :
  managed p → mounts_exist (fs o) →
  local w (UnmountPath p (mounter_ops mounter)) o (λ o' x, fs o' = del_dir p (del_mount p (fs o)) ∧ x = Ok ()).
Proof.
  intros Hp Hex. apply local_go_bind, local_go_bind, local_attempt, local_os. intros o1 x Hx.
  apply (stat_path (vhostSCSI c) addr) in Hx as [Hs1 Hx]; [|done]. pose proof (same_fs _ _ Hs1) as Hf1.
  case_decide as Hdir; last first.
  { destruct Hx as (e & -> & He). rewrite He. apply local_ret, local_ret. by rewrite Hf1, del_unmounted. }
  destruct Hx as (i & -> & _). apply local_ret. cbn [negb IsCorruptedMnt]. apply local_go_bind.
  eapply local_mono; [apply local_IsNotMountPoint; [done|by rewrite Hf1]|]. intros o2 x [Hs2 ->].
  pose proof (same_fs _ _ Hs2) as Hf2. rewrite Hf1. case_bool_decide as Hm.
  - apply local_os. intros o3 x Hx.
    apply (remove_path (vhostSCSI c) addr) in Hx as [[Hf3 _] ->]; [|done|by rewrite Hf2, Hf1..]. split; [|done].
    rewrite Hf3, Hf2, Hf1. f_equal. destruct (fs o) as [ds ms cs]. unfold del_mount. cbn in *. by rewrite delete_id.
  - destruct (f_mounts (fs o) !! p) as [n|] eqn:Hn; [|done]. rewrite <-Hf1, <-Hf2.
    by apply (local_unmount_and_remove _ _ n); rewrite ?Hf2, ?Hf1.
Qed.

(** [publish] once it is known whether there is a mount point already. *)
Definition publish_rest (req : NodePublishVolumeRequest) (notMnt : bool) : go csiE () :=
  if negb notMnt then mret ()
  else
    _ ← internal (wrap_err "make target dir" (MakeDir (np_TargetPath req)));
    x ← attempt (Mount mounter (np_StagingTargetPath req) (np_TargetPath req) "ext4"
                   (["bind"] ++ if np_Readonly req then ["ro"] else []));
    match x with
    | Err err => undo_mount (mounter_interface mounter) (np_TargetPath req) err
    | _ => mret ()
    end.

Lemma local_publish_start w req o Q :
  managed (np_TargetPath req) → mounts_exist (fs o) →
  (∀ o', same o o' → local w (publish_rest req (bool_decide (f_mounts (fs o) !! np_TargetPath req = None))) o' Q) →
  local w (publish req) o Q.
Proof.
  intros Hp Hex HQ. apply local_go_bind. eapply local_mono; [apply local_New|]. intros o1 x [Hs1 ->].
  apply local_go_bind, local_attempt. cbn [im_ops mounter_interface im_IsLikelyNotMountPoint mounter_ops].
  eapply local_mono; [by apply local_IsLikelyNotMountPoint|]. intros o2 x [Hs2 Hx].
  rewrite (same_fs _ _ Hs1) in Hx.
  assert (same o o2) as Hs by (by eapply changes_after). specialize (HQ o2 Hs). case_decide as Hdir.
  - subst x. by apply local_go_bind, local_ret.
  - destruct Hx as (e & -> & He). rewrite He. apply local_go_bind, local_ret.
    rewrite bool_decide_true in HQ; [done|]. apply eq_None_not_Some. intros ?. by apply Hdir, Hex.
Qed.

Lemma local_publish_mounted w req m o :
  managed (np_TargetPath req) → mounts_exist (fs o) → f_mounts (fs o) !! np_TargetPath req = Some m →
  local w (publish req) o (λ o' x, fs o' = fs o ∧ x = Ok ()).
Proof.
  intros Hp Hex Hm. apply local_publish_start; [done..|]. intros o1 Hs1. rewrite Hm. apply local_ret.
  split; [by apply same_fs|done].
Qed.

Lemma local_publish w req n o :
  let p := np_TargetPath req in
  managed p → mounts_exist (fs o) → f_mounts (fs o) !! p = None →
  f_mounts (fs o) !! np_StagingTargetPath req = Some n →
  local w (publish req) o (λ o' x, fs o' = add_mount p n (add_dir p (fs o)) ∧ x = Ok ()).
Proof.
  intros p Hp Hex Hm Hs. apply local_publish_start; [done..|]. fold p. intros o1 Hs1.
  pose proof (same_fs _ _ Hs1) as Hf1. rewrite bool_decide_true by done.
  apply local_go_bind, local_internal, local_wrap_err, local_go_bind, local_attempt, local_os. intros o2 x Hx.
  apply (mkdir_path (vhostSCSI c) addr) in Hx as [[Hf2 _] ->]; [|done]. apply local_ret.
  apply local_go_bind, local_attempt.
  eapply local_mono; [apply (local_Mount_bind w (np_StagingTargetPath req) p n); [done|rewrite Hf2; set_solver|by rewrite Hf2, Hf1..]|].
  intros o3 x [[Hf3 _] ->]. apply local_ret. by rewrite Hf3, Hf2, Hf1.
Qed.

(** ** Staging *)

Section Stage.
Context (wrap : NodeStageVolumeRequest → csi_request).

(** [stage] up to the question whether there is a mount point already, and from the
    backend on. *)
Definition stage_prefix (p : string) : go csiE bool :=
  mounter ← MountInterface.New "";
  x ← attempt (im_IsLikelyNotMountPoint (im_ops mounter) p);
  match x with
  | Err e => if IsNotExist e then (_ ← internal (os (MkdirAll p 0x1e8)); mret true) else fail (StatusOf Internal e)
  | Ok notMnt => mret notMnt
  | Panic w => from_result (Panic w)
  end.

Definition stage_rest (b : OIMBackend) (req : NodeStageVolumeRequest) (cap : VolumeCapability) : go csiE () :=
  '(cleanup, device) ← bk_createDevice b (ns_VolumeId req) (wrap req);
  with_cleanup cleanup (stage_device (ns_StagingTargetPath req) (GetFsType cap) device).

Lemma run_stage b req cap h :
  run serve (stage b wrap req cap) h =
    let '(h', x) := run serve (stage_prefix (ns_StagingTargetPath req)) h in
    match x with
    | Ok notMnt => if notMnt : bool then run serve (stage_rest b req cap) h' else (h', Ok ())
    | Err e => (h', Err e)
    | Panic why => (h', Panic why)
    end.
Proof.
  unfold stage, stage_prefix. rewrite !run_go_bind. destruct (run serve (MountInterface.New "") h) as [h1 [m|e|why]]; [|done..].
  rewrite !run_go_bind, run_attempt. destruct (run serve (im_IsLikelyNotMountPoint _ _) h1) as [h2 [[]|e|why]]; [done|done| |done].
  destruct (IsNotExist e); [|done]. rewrite !run_go_bind. by destruct (run serve _ h2) as [h3 [[]|e'|why]].
Qed.

Lemma add_dir_id p v : p ∈ f_dirs v → add_dir p v = v.
Proof. intros Hp. destruct v as [ds ms cs]. unfold add_dir. cbn in *. f_equal. set_solver. Qed.

Lemma local_stage_prefix w p o :
  managed p → mounts_exist (fs o) →
  local w (stage_prefix p) o (λ o' x,
    match f_mounts (fs o) !! p with
    | Some _ => fs o' = fs o ∧ x = Ok false
    | None => fs o' = add_dir p (fs o) ∧ x = Ok true
    end).
Proof.
  intros Hp Hex. apply local_go_bind. eapply local_mono; [apply local_New|]. intros o1 x [Hs1 ->].
  apply local_go_bind, local_attempt. cbn [im_ops mounter_interface im_IsLikelyNotMountPoint mounter_ops].
  eapply local_mono; [by apply local_IsLikelyNotMountPoint|]. intros o2 x [Hs2 Hx].
  pose proof (same_fs _ _ Hs1) as Hf1. pose proof (same_fs _ _ Hs2) as Hf2. rewrite Hf1 in Hx. case_decide as Hdir.
  - subst x. apply local_ret. destruct (f_mounts (fs o) !! p) eqn:Hm.
    + by rewrite Hf2, Hf1.
    + by rewrite Hf2, Hf1, add_dir_id.
  - destruct Hx as (e & -> & He). rewrite He. apply local_go_bind, local_internal, local_os. intros o3 x Hx.
    apply (mkdir_path (vhostSCSI c) addr) in Hx as [[Hf3 _] ->]; [|done]. apply local_ret.
    destruct (f_mounts (fs o) !! p) eqn:Hm; [by destruct Hdir; apply Hex; eexists|]. by rewrite Hf3, Hf2, Hf1.
Qed.

(** The calls of [createDevice] do not touch file systems. *)
Lemma createDevice_fs fuel n csiRequest h :
  fs (h_os (run serve (createDevice fuel r n csiRequest) h).1) = fs (h_os h).
Proof.
  set (P := λ B (e : csiE B), match e with OS e => staging_call _ e | _ => True end).
  apply (run_invariant P (λ h', fs (h_os h') = fs (h_os h))); [| |done].
  - unfold createDevice, no_cleanup. calls_with ltac:(first
      [ eapply all_calls_mono; [|apply locateDevice_calls]; intros B [B' e|B' e| | |B' e]; try done; by destruct e
      | progress unfold dialRegistry, defer, makeNode, os, rpc_ ]).
  - intros B e [w o] He Hh. cbn [h_os] in *. destruct e as [B e|B e| | |B e]; cbn [serve_host h_world h_os]; try done.
    + destruct (kernel _ e (w_daemon w) o) as [o' x] eqn:Hk. cbn [fst h_os].
      by rewrite (staging_quiet (vhostSCSI c) addr _ _ _ _ _ _ He Hk).
    + by destruct (serve_rpc _ _ _ _ _).
Qed.

(** The device is formatted and mounted, and its temporary node removed. *)
Lemma local_stage_device w node n p fstype dir o :
  device (w_daemon w) o node n → managed p → p ∈ f_dirs (fs o) → f_mounts (fs o) !! p = None → supported fstype →
  f_content (fs o) !! n ≠ Some "" → HasPrefix dir "/dev/" = true →
  local w (with_cleanup (Some (os (RemoveAll dir))) (stage_device p fstype (Ok node))) o (λ o' x,
    format_and_mount n p fstype (fs o) = (fs o', is_ok x)).
Proof.
  intros Hdev Hp Hdir Hm Hsup Hne Htmp. apply local_bind, local_go_bind.
  eapply local_mono; [apply local_New|]. intros o1 x [Hs1 ->]. pose proof (same_fs _ _ Hs1) as Hf1.
  apply local_internal, local_wrap_err. unfold SafeFormatAndMount_FormatAndMount. cbn [sf_Interface sf_Exec].
  assert (∀ o2 (x : result ()), format_and_mount n p fstype (fs o) = (fs o2, is_ok x) →
    local w (pbind (λ _, Ret x) (os (RemoveAll dir))) o2 (λ o' y, format_and_mount n p fstype (fs o) = (fs o', is_ok y))) as Hend.
  { intros o2 x Hx. apply local_bind, local_os. intros o3 y Hy.
    apply (remove_temp (vhostSCSI c) addr) in Hy; [|done]. apply local_ret. by rewrite Hy. }
  eapply local_mono; [apply (local_FormatAndMount w node n p fstype o1); rewrite ?Hf1; try done; by eapply changes_device|].
  intros o2 x Hx. rewrite Hf1 in Hx. destruct x as [u|e|why]; apply Hend; done.
Qed.
End Stage.
End Node.
