(* ===== verification/Node.v ===== *)
(** * The node service on a machine with disks and mounts

    NodeStageVolume, NodePublishVolume, NodeUnpublishVolume and NodeUnstageVolume
    (nodeserver.go) on top of everything they use: the remote backend, registry,
    controller and SPDK as in [Staging.v], and mount(8), umount(8), blkid, fsck and
    mkfs on the machine of the driver.  [NodeKernelLaws] states what these do;
    [abs_step] is what the service promises: which volume is mounted where, which
    volumes have a file system, and which are attached. *)
From S2P Require Import Prelude GoStrings Errors Json Messages Effects SPDK Daemon Controller ControllerSeq Registry CSIEnv Paths Remote Sysfs Mount MountFacts Subpath MountInterface System Staging CSIMessages CephCSI CSIDriver CSIServer NodeKernel.
Import oimcontroller.

(** ** What the service promises *)

Record node_state := MkNode {
  a_volumes : gset string;
  a_attached : gset string;
  a_mounts : gmap string string;
  a_content : gmap string string
}.

(** A volume gets one of eight targets. *)
Definition abs_room (n : string) (a : node_state) : bool :=
  bool_decide (n ∈ a_attached a) || bool_decide (size (a_attached a) < 8)%nat.

Definition abs_attach (n : string) (a : node_state) : node_state :=
  MkNode (a_volumes a) ({[n]} ∪ a_attached a) (a_mounts a) (a_content a).
Definition abs_mount (p n : string) (a : node_state) : node_state :=
  MkNode (a_volumes a) (a_attached a) (<[p:=n]> (a_mounts a)) (a_content a).
Definition abs_format (n fstype : string) (a : node_state) : node_state :=
  MkNode (a_volumes a) (a_attached a) (a_mounts a) (<[n:=fstype]> (a_content a)).

(** A staged volume is not touched; a volume without file system gets one; a volume
    with another file system than the requested one is an error. *)
Definition abs_stage (n p fstype : string) (a : node_state) : node_state * bool :=
  match a_mounts a !! p with
  | Some _ => (a, true)
  | None =>
      if bool_decide (n ∈ a_volumes a) && abs_room n a then
        let a := abs_attach n a in
        match a_content a !! n with
        | None => (abs_mount p n (abs_format n (fs_type fstype) a), true)
        | Some g => if decide (fstype = "" ∨ fstype = g) then (abs_mount p n a, true) else (a, false)
        end
      else (a, false)
  end.

Definition abs_publish (s p : string) (a : node_state) : node_state * bool :=
  match a_mounts a !! p, a_mounts a !! s with
  | Some _, _ => (a, true)
  | None, Some n => (abs_mount p n a, true)
  | None, None => (a, false)
  end.

Definition abs_unpublish (p : string) (a : node_state) : node_state * bool :=
  (MkNode (a_volumes a) (a_attached a) (delete p (a_mounts a)) (a_content a), true).

Definition abs_unstage (n p : string) (a : node_state) : node_state * bool :=
  match a_mounts a !! p with
  | Some _ => (MkNode (a_volumes a) (a_attached a ∖ {[n]}) (delete p (a_mounts a)) (a_content a), true)
  | None => (a, false)
  end.

Inductive node_call :=
| NStage (req : NodeStageVolumeRequest)
| NPublish (req : NodePublishVolumeRequest)
| NUnpublish (req : NodeUndoRequest)
| NUnstage (req : NodeUndoRequest).

(** Incomplete requests are refused. *)
Definition abs_step (c : node_call) (a : node_state) : node_state * bool :=
  match c with
  | NStage req =>
      match ns_VolumeCapability req with
      | Some cap =>
          if decide (ns_StagingTargetPath req = "" ∨ ns_VolumeId req = "") then (a, false)
          else abs_stage (ns_VolumeId req) (ns_StagingTargetPath req) (GetFsType cap) a
      | None => (a, false)
      end
  | NPublish req =>
      if decide (np_TargetPath req = "" ∨ np_StagingTargetPath req = "" ∨ np_VolumeId req = "" ∨
                 np_VolumeCapability req = None)
      then (a, false)
      else abs_publish (np_StagingTargetPath req) (np_TargetPath req) a
  | NUnpublish req =>
      if decide (nu_Path req = "" ∨ nu_VolumeId req = "") then (a, false) else abs_unpublish (nu_Path req) a
  | NUnstage req =>
      if decide (nu_Path req = "" ∨ nu_VolumeId req = "") then (a, false)
      else abs_unstage (nu_VolumeId req) (nu_Path req) a
  end.

Fixpoint abs_run (cs : list node_call) (a : node_state) : node_state * list bool :=
  match cs with
  | [] => (a, [])
  | c :: cs' =>
      let '(a1, ok) := abs_step c a in
      let '(a2, oks) := abs_run cs' a1 in
      (a2, ok :: oks)
  end.

(** No call takes a file system away. *)
Lemma abs_step_content call a : a_content a ⊆ a_content (abs_step call a).1.
Proof.
  destruct call as [req|req|req|req]; cbn [abs_step].
  - destruct (ns_VolumeCapability req); [|done]. case_decide; [done|]. unfold abs_stage.
    destruct (a_mounts a !! _); [done|]. destruct (bool_decide _ && _); [|done]. cbn [abs_attach a_content].
    destruct (a_content a !! ns_VolumeId req) eqn:Hc; [by case_decide|]. by apply insert_subseteq.
  - case_decide; [done|]. unfold abs_publish. by destruct (a_mounts a !! np_TargetPath req), (a_mounts a !! np_StagingTargetPath req).
  - by case_decide.
  - case_decide; [done|]. unfold abs_unstage. by destruct (a_mounts a !! _).
Qed.

Lemma abs_run_content cs a : a_content a ⊆ a_content (abs_run cs a).1.
Proof.
  revert a. induction cs as [|call cs IH]; intros a; cbn [abs_run]; [done|].
  pose proof (abs_step_content call a) as H1. destruct (abs_step call a) as [a1 ok]. specialize (IH a1).
  destruct (abs_run cs a1) as [a2 oks]. by etrans.
Qed.

(** ** The host as a state of the specification *)

Section Refinement.
Context {DB : Type} {RD : RegistryDB DB} {RDL : RegistryDBLaws DB}.
Context {D O : Type} {SD : SPDKDaemon D} {SDS : SPDKSound D} {SDR : SPDKReliable D}.
Context {GK : GuestKernel D O} {NK : NodeKernel O}.
Context {Creds : Type} (c : Controller Creds) (peer : string) (r : remoteSPDK csi_request) (addr : PCIAddress).
Context {GKL : GuestKernelLaws D O (vhostSCSI c) addr} {NKL : NodeKernelLaws D O (vhostSCSI c) addr}.
(** The request type of the protocol version. *)
Context (wrap : NodeStageVolumeRequest → csi_request).

Abbreviation serve := (serve_host (DB := DB) (D := D) (O := O) c peer).
Abbreviation host_ := (host (DB := DB) (D := D) (O := O)).

Definition attached (d : D) : gset string := filter (λ n, places n d ≠ ∅) (dom (bdevs d)).

Definition abs (h : host_) : node_state :=
  let d := w_daemon (h_world h) in
  MkNode (dom (bdevs d)) (attached d) (f_mounts (fs (h_os h))) (f_content (fs (h_os h))).

(** Driver, registry, controller and SPDK work together, SPDK has Malloc volumes
    only, mount points exist, and types of file systems have names. *)
Record node_inv (h : host_) : Prop := MkInv {
  inv_configured : configured c;
  inv_malloc : mapVolumeParams r = None;
  inv_connected : connected c peer r (h_world h);
  inv_announced : announced c peer r addr (h_world h);
  inv_start : good_start c (w_daemon (h_world h));
  inv_scsi : has_scsi (vhostSCSI c) (w_daemon (h_world h));
  inv_product : map_Forall (λ _ b, b_product b = "Malloc disk") (bdevs (w_daemon (h_world h)));
  inv_mounts : mounts_exist (fs (h_os h));
  inv_content : ∀ n, f_content (fs (h_os h)) !! n ≠ Some ""
}.

(** ** Eight targets *)

Lemma elem_of_attached n d : daemon_wf d → n ∈ attached d ↔ places n d ≠ ∅.
Proof.
  intros Hd. unfold attached. rewrite elem_of_filter, elem_of_dom. split; [by intros [? _]|]. intros Hp. split; [done|].
  apply set_choose_L in Hp as [p Hp]. by eapply (wf_attached d).
Qed.

(** The target of an attached volume. *)
Definition target_of (d : D) (n : string) : Z := match places_list n (vhosts d) with (_, t) :: _ => t | [] => 0 end.

Lemma target_of_spec n d :
  good_start c d → n ∈ attached d → (vhostSCSI c, target_of d n) ∈ places n d ∧ 0 ≤ target_of d n < 8.
Proof.
  intros [Hd Hok] Hn. apply elem_of_attached in Hn; [|done]. unfold target_of, places in *.
  destruct (places_list n (vhosts d)) as [|[cc t] l] eqn:El; [done|].
  destruct (Hok n) as [_ Hrange]. destruct (Hrange (cc, t)) as [Hcc Ht].
  { cbn [vol_places view]. unfold places. rewrite El. apply elem_of_list_to_set. by left. }
  cbn in Hcc, Ht. subst cc. split; [apply elem_of_list_to_set; by left|done].
Qed.

Definition targets (d : D) : gset Z := list_to_set (target_of d <$> elements (attached d)).

Lemma size_targets d : good_start c d → size (targets d) = size (attached d).
Proof.
  intros Hd. unfold targets. rewrite size_list_to_set; [by rewrite length_fmap|].
  apply NoDup_fmap_2_strong; [|apply NoDup_elements]. intros n m Hn%elem_of_elements Hm%elem_of_elements Heq.
  destruct (target_of_spec n d Hd Hn) as [Hpn _], (target_of_spec m d Hd Hm) as [Hpm _]. rewrite Heq in Hpn.
  destruct Hd as [Hd _]. by eapply (wf_targets d).
Qed.

Lemma elem_of_targets t d : good_start c d → t ∈ targets d ↔ occupied c d t.
Proof.
  intros Hd. unfold targets. rewrite elem_of_list_to_set, list_elem_of_fmap. split.
  - intros (n & -> & Hn%elem_of_elements). exists n. by apply target_of_spec.
  - intros [n Hn]. assert (n ∈ attached d) as Hatt by (apply elem_of_attached; [by destruct Hd|by intros He; rewrite He in Hn; apply elem_of_empty in Hn]).
    exists n. split; [|by apply elem_of_elements]. destruct (target_of_spec n d Hd Hatt) as [Hp _].
    destruct Hd as [_ Hok]. destruct (Hok n) as [Honce _]. by injection (Honce _ _ Hn Hp).
Qed.

Lemma targets_below d : good_start c d → targets d ⊆ list_to_set target_numbers.
Proof.
  intros Hd t Ht. apply elem_of_list_to_set in Ht. apply list_elem_of_fmap in Ht as (n & -> & Hn%elem_of_elements).
  destruct (target_of_spec n d Hd Hn) as [_ Hrange]. apply elem_of_list_to_set.
  destruct (target_numbers_split _ Hrange) as (pre & post & <- & _). apply elem_of_app. right. by left.
Qed.

(** The specification's notion of room is that of the controller. *)
Lemma abs_room_spec n h :
  let d := w_daemon (h_world h) in
  good_start c d →
  if abs_room n (abs h) then room c n d else places n d = ∅ ∧ ∀ t, 0 ≤ t < 8 → occupied c d t.
Proof.
  intros d Hd. unfold abs_room. cbn [abs a_attached]. fold d. rewrite <-size_targets by done.
  assert (size (list_to_set target_numbers : gset Z) = 8%nat) as H8 by (by rewrite size_list_to_set by (apply (bool_decide_unpack _); by vm_compute)).
  destruct (decide (n ∈ attached d)) as [Hn|Hn].
  { rewrite bool_decide_true by done. left. apply elem_of_attached; [by destruct Hd|done]. }
  rewrite bool_decide_false by done. cbn [orb]. case_bool_decide as Hsize.
  - right. destruct (set_choose_L (list_to_set target_numbers ∖ targets d)) as [t Ht].
    { intros Hsub%empty_difference_subseteq_L%subseteq_size. lia. }
    apply elem_of_difference in Ht as [Ht Hfree]. exists t. split; [|by rewrite <-elem_of_targets].
    apply elem_of_list_to_set in Ht. repeat (apply elem_of_cons in Ht as [->|Ht]; [lia|]). by apply elem_of_nil in Ht.
  - split; [apply dec_stable; by rewrite <-elem_of_attached by (by destruct Hd)|]. intros t Ht.
    rewrite <-elem_of_targets by done. rewrite (set_subseteq_size_eq (targets d) (list_to_set target_numbers)); [|by apply targets_below|lia].
    apply elem_of_list_to_set. destruct (target_numbers_split t Ht) as (pre & post & <- & _). apply elem_of_app. right. by left.
Qed.

(** ** Keeping the invariant *)

(** A change of the machine alone. *)
Lemma inv_machine h o' :
  node_inv h → mounts_exist (fs o') → (∀ n, f_content (fs o') !! n ≠ Some "") → node_inv (MkHost (h_world h) o').
Proof. by intros []. Qed.

(** SPDK keeps its volumes and has other attachments. *)
Lemma inv_daemon h d' :
  node_inv h → good_start c d' → has_scsi (vhostSCSI c) d' → bdevs d' = bdevs (w_daemon (h_world h)) →
  node_inv (MkHost (MkWorld (w_db (h_world h)) d') (h_os h)).
Proof. intros [] ?? Hb. split; try done. cbn [h_world w_daemon]. by rewrite Hb. Qed.

Lemma good_start_unchanged d d' : good_start c d → unchanged d d' → good_start c d'.
Proof.
  intros [Hd Hok] Hu. assert (∀ n, view n d' = view n d) as Hv by (by apply unchanged_view).
  split; [|intros n; by rewrite Hv]. pose proof (λ n, unchanged_places d d' n Hu) as Hp. destruct Hu as [Hb Hvh].
  destruct Hd. split; rewrite ?Hb, ?Hvh; try done.
  - intros n m p. rewrite !Hp. eauto.
  - intros n p. rewrite Hp. eauto.
Qed.

Lemma attached_unchanged d d' : unchanged d d' → attached d' = attached d.
Proof. intros [Hb Hv]. unfold attached, places. by rewrite Hb, Hv. Qed.

(** What [UnmapVolume] leaves. *)
Lemma unmapped n h d' :
  node_inv h → n ≠ "" → serve1 (UnmapVolume c (MkUnmapVolumeRequest n)) (w_daemon (h_world h)) = (d', Ok ()) →
  node_inv (MkHost (MkWorld (w_db (h_world h)) d') (h_os h)) ∧ bdevs d' = bdevs (w_daemon (h_world h)) ∧
  attached d' = attached (w_daemon (h_world h)) ∖ {[n]}.
Proof.
  intros Hinv Hn Hrun. destruct (inv_start h Hinv) as [Hd Hok]. destruct (inv_configured h Hinv) as (Hspdk & _).
  destruct (serve1_UnmapVolume c (MkUnmapVolumeRequest n) (w_daemon (h_world h))) as (d2 & Hrun2 & Hd2 & Hv & Hf); [done..|].
  rewrite Hrun in Hrun2. injection Hrun2 as <-. cbn [Unmap_VolumeId] in Hv, Hf. injection Hv as Hvb Hvp.
  assert (bdevs d' = bdevs (w_daemon (h_world h))) as Hb.
  { apply map_eq. intros m. destruct (decide (m = n)) as [->|Hm]; [|by injection (Hf m Hm)].
    rewrite Hvb. destruct (bdevs (w_daemon (h_world h)) !! n) as [b|] eqn:Eb; [|done].
    by rewrite decide_True by (by eapply (inv_product h Hinv)). }
  assert (good_start c d') as Hgood.
  { split; [done|]. intros m. destruct (decide (m = n)) as [->|Hm]; [|by rewrite Hf].
    unfold vol_ok, view. rewrite Hvp. split; set_solver. }
  split_and!; [apply inv_daemon; try done| done|].
  - replace d' with (serve1 (UnmapVolume c (MkUnmapVolumeRequest n)) (w_daemon (h_world h))).1 by (by rewrite Hrun).
    apply serve1_Unmap_keeps; [done..|]. apply (inv_scsi h Hinv).
  - apply set_eq. intros m. rewrite elem_of_difference, elem_of_singleton, !elem_of_attached by done.
    destruct (decide (m = n)) as [->|Hm]; [rewrite Hvp; naive_solver|]. injection (Hf m Hm) as _ ->. naive_solver.
Qed.

(** What a successful [MapVolume] leaves. *)
Lemma mapped in_ h d' rep :
  let n := Map_VolumeId in_ in
  node_inv h → is_Some (bdevs (w_daemon (h_world h)) !! n) → n ≠ "" → room c n (w_daemon (h_world h)) →
  serve1 (MapVolume c in_) (w_daemon (h_world h)) = (d', Ok rep) →
  node_inv (MkHost (MkWorld (w_db (h_world h)) d') (h_os h)) ∧ bdevs d' = bdevs (w_daemon (h_world h)) ∧
  attached d' = {[n]} ∪ attached (w_daemon (h_world h)) ∧
  ∃ t, rep = map_reply c t ∧ places n d' = {[(vhostSCSI c, t)]} ∧ 0 ≤ t < 8.
Proof.
  intros n Hinv Hb Hn Hroom Hrun. pose proof (inv_start h Hinv) as Hgood. pose proof (inv_configured h Hinv) as Hc.
  destruct (serve1_Map_succeeds c in_ (w_daemon (h_world h))) as (d2 & rep2 & Hrun2 & Hb2); [done|done|by destruct Hgood|apply (inv_scsi h Hinv)|done..|].
  rewrite Hrun in Hrun2. injection Hrun2 as <- <-.
  destruct (serve1_Map_Ok c in_ _ d' rep Hgood Hrun) as (Hgood' & Hframe & _ & t & -> & Hp).
  fold n in Hframe, Hp. assert (0 ≤ t < 8) as Ht.
  { destruct Hgood' as [_ Hok]. destruct (Hok n) as [_ Hrange]. destruct (Hrange (vhostSCSI c, t)) as [_ ?]; [|done].
    cbn [vol_places view]. rewrite Hp. set_solver. }
  split; [apply inv_daemon; try done|split; [done|split; [|by exists t]]].
  - replace d' with (serve1 (MapVolume c in_) (w_daemon (h_world h))).1 by (by rewrite Hrun).
    apply serve1_Map_keeps; [done..|]. apply (inv_scsi h Hinv).
  - destruct Hgood as [Hd _], Hgood' as [Hd' _]. apply set_eq. intros m.
    rewrite elem_of_union, elem_of_singleton, !elem_of_attached by done.
    destruct (decide (m = n)) as [->|Hm]; [rewrite Hp; split; [by left|set_solver]|].
    injection (Hframe m Hm) as _ ->. naive_solver.
Qed.

(** ** One call *)

Definition perform (fuel : nat) (call : node_call) : handler () :=
  let b := remote_backend fuel r in
  match call with
  | NStage req => stage_handler b wrap req
  | NPublish req => NodePublishVolume req
  | NUnpublish req => NodeUnpublishVolume req
  | NUnstage req => NodeUnstageVolume b req
  end.

Abbreviation perform1 fuel call h := (run (serve_locked serve) (perform fuel call) h).

(** Paths are managed ones, the type of a file system is known, and a volume is
    staged before it is published. *)
Definition legal (a : node_state) (call : node_call) : Prop :=
  match call with
  | NStage req =>
      managed (ns_StagingTargetPath req) ∧
      match ns_VolumeCapability req with Some cap => supported (GetFsType cap) | None => True end
  | NPublish req =>
      managed (np_TargetPath req) ∧
      (is_Some (a_mounts a !! np_TargetPath req) ∨ is_Some (a_mounts a !! np_StagingTargetPath req))
  | NUnpublish req | NUnstage req => managed (nu_Path req)
  end.

(** With enough fuel for the wait, the call does what the specification says. *)
Definition step_refines (call : node_call) (h : host_) : Prop :=
  ∃ k h' x, (∀ fuel, (k < fuel)%nat → perform1 fuel call h = (h', x)) ∧ node_inv h' ∧
    abs_step call (abs h) = (abs h', is_ok x).

(** A call that does nothing. *)
Lemma refines_nothing call h e :
  node_inv h → (∀ fuel, perform1 fuel call h = (h, Err e)) → abs_step call (abs h) = (abs h, false) → step_refines call h.
Proof. intros Hinv Hrun Habs. by exists 0%nat, h, (Err e). Qed.

(** A call that only uses the machine. *)
Lemma refines_local call w o (p : go csiE ()) (Q : O → result () → Prop) :
  (∀ fuel h, perform1 fuel call h = run serve p h) → local c peer w p o Q →
  (∀ o' x, Q o' x → node_inv (MkHost w o') ∧ abs_step call (abs (MkHost w o)) = (abs (MkHost w o'), is_ok x)) →
  step_refines call (MkHost w o).
Proof.
  intros Hp (o' & x & Hrun & HQ) Hstep. exists 0%nat, (MkHost w o'), x. split; [|by apply Hstep].
  intros fuel _. by rewrite Hp.
Qed.

Lemma publish_refines req h : node_inv h → legal (abs h) (NPublish req) → step_refines (NPublish req) h.
Proof.
  intros Hinv [Hp Hstaged]. destruct h as [w o].
  destruct (decide (np_TargetPath req = "" ∨ np_StagingTargetPath req = "" ∨ np_VolumeId req = "" ∨ np_VolumeCapability req = None))
    as [Hbad|Hgood].
  { assert (∃ e, ∀ fuel h, perform1 fuel (NPublish req) h = (h, Err e)) as [e Hrun].
    { cbn [perform]. unfold NodePublishVolume. repeat case_decide; try (by eexists). tauto. }
    apply (refines_nothing _ _ e); [done..|]. cbn [abs_step]. by rewrite decide_True. }
  assert (∀ fuel h, perform1 fuel (NPublish req) h = run serve (publish req) h) as Hrun.
  { intros fuel h. cbn [perform]. unfold NodePublishVolume. repeat (rewrite decide_False by tauto). apply run_with_lock. }
  cbn [abs abs_step a_mounts h_os h_world] in *. unfold abs_publish. pose proof (inv_mounts _ Hinv) as Hex.
  destruct (f_mounts (fs o) !! np_TargetPath req) as [m|] eqn:Hm.
  - eapply refines_local; [exact Hrun|by eapply local_publish_mounted|]. intros o' x [Hf ->]. split.
    + apply (inv_machine (MkHost w o)); rewrite ?Hf; [done..|apply (inv_content _ Hinv)].
    + cbn [abs_step]. rewrite decide_False by done. unfold abs, abs_publish. cbn [a_mounts h_os h_world]. by rewrite Hf, Hm.
  - destruct Hstaged as [Hs|[n Hn]]; [by apply is_Some_None in Hs|].
    eapply refines_local; [exact Hrun|by eapply local_publish|]. intros o' x [Hf ->]. split.
    + apply (inv_machine (MkHost w o)); rewrite ?Hf; [done| |apply (inv_content _ Hinv)].
      intros q. cbn [add_mount add_dir f_dirs f_mounts]. rewrite lookup_insert_is_Some. intros [<-|[_ Hq]]; [set_solver|].
      apply elem_of_union. right. by apply Hex.
    + cbn [abs_step]. rewrite decide_False by done. unfold abs, abs_publish, abs_mount.
      cbn [a_mounts a_volumes a_attached a_content h_os h_world]. by rewrite Hf, Hm, Hn.
Qed.

Lemma undo_request req (p : go csiE ()) :
  let body := serialized (nu_VolumeId req) p in
  if decide (nu_Path req = "" ∨ nu_VolumeId req = "")
  then ∃ e, ∀ h, run (serve_locked serve) (if decide (nu_Path req = "") then invalid "empty target path"
         else if decide (nu_VolumeId req = "") then invalid "empty volume ID" else body) h = (h, Err e)
  else ∀ h, run (serve_locked serve) (if decide (nu_Path req = "") then invalid "empty target path"
         else if decide (nu_VolumeId req = "") then invalid "empty volume ID" else body) h = run serve p h.
Proof.
  cbv zeta. destruct (decide (nu_Path req = "")) as [|Hp]; [rewrite decide_True by tauto; by eexists|].
  destruct (decide (nu_VolumeId req = "")) as [|Hn]; [rewrite decide_True by tauto; by eexists|].
  rewrite decide_False by tauto. intros h. apply run_with_lock.
Qed.

Lemma unpublish_refines req h : node_inv h → legal (abs h) (NUnpublish req) → step_refines (NUnpublish req) h.
Proof.
  intros Hinv Hp. destruct h as [w o]. cbn [legal] in Hp.
  pose proof (undo_request req (mounter ← MountInterface.New "";
    internal (wrap_err "unmount failed" (UnmountPath (nu_Path req) (im_ops mounter))))) as Hreq. case_decide as Hbad.
  { destruct Hreq as [e He]. apply (refines_nothing _ _ e); [done|by intros fuel; apply He|].
    cbn [abs_step]. by rewrite decide_True. }
  eapply (refines_local _ _ _ _ (λ o' x, fs o' = del_dir (nu_Path req) (del_mount (nu_Path req) (fs o)) ∧ x = Ok ()));
    [by intros fuel h; apply Hreq| |].
  - apply local_go_bind. eapply local_mono; [apply (local_New c peer addr)|]. intros o1 x [Hs1 ->].
    apply local_internal, local_wrap_err. eapply local_mono; [apply (local_UnmountPath c peer addr); [done|]|].
    + rewrite (same_fs _ _ Hs1). apply (inv_mounts _ Hinv).
    + rewrite (same_fs _ _ Hs1). by intros o2 x [Hf ->].
  - intros o' x [Hf ->]. split.
    + apply (inv_machine (MkHost w o)); rewrite ?Hf; [done| |apply (inv_content _ Hinv)].
      intros q. cbn [del_mount del_dir f_dirs f_mounts]. rewrite lookup_delete_is_Some. intros [Hne Hq].
      apply (inv_mounts _ Hinv) in Hq. cbn [h_os] in Hq. set_solver.
    + cbn [abs_step]. rewrite decide_False by done. unfold abs, abs_unpublish.
      cbn [a_mounts a_volumes a_attached a_content h_os h_world]. by rewrite Hf.
Qed.

(** Unmounting, the part of NodeUnstageVolume that only uses the machine. *)
Lemma local_unmount w p o :
  managed p →
  local c peer w (mounter ← MountInterface.New ""; internal (im_Unmount (im_ops mounter) p)) o
    (λ o' x, match f_mounts (fs o) !! p with
             | Some _ => fs o' = del_mount p (fs o) ∧ x = Ok ()
             | None => fs o' = fs o ∧ ∃ e, x = Err e
             end).
Proof.
  intros Hp. apply local_go_bind. eapply local_mono; [apply (local_New c peer addr)|]. intros o1 x [Hs1 ->].
  apply local_internal. cbn [im_ops mounter_interface im_Unmount mounter_ops].
  eapply local_mono; [by apply (local_Unmount c peer addr)|]. intros o2 x Hx. rewrite (same_fs _ _ Hs1) in Hx.
  destruct (f_mounts (fs o) !! p) as [m|].
  - destruct Hx as [[Hf _] ->]. by rewrite Hf, (same_fs _ _ Hs1).
  - destruct Hx as [Hf%same_fs [e ->]]. split; [by rewrite Hf, (same_fs _ _ Hs1)|by eexists].
Qed.

Lemma unstage_refines req h : node_inv h → legal (abs h) (NUnstage req) → step_refines (NUnstage req) h.
Proof.
  intros Hinv Hp. destruct h as [w o]. cbn [legal] in Hp.
  pose proof (undo_request req (mounter ← MountInterface.New "";
    _ ← internal (im_Unmount (im_ops mounter) (nu_Path req));
    internal (deleteDevice r (nu_VolumeId req)))) as Hreq. case_decide as Hbad.
  { destruct Hreq as [e He]. apply (refines_nothing _ _ e); [done|by intros fuel; apply He|].
    cbn [abs_step]. by rewrite decide_True. }
  destruct (local_unmount w (nu_Path req) o Hp) as (o1 & x & Hrun & Hx).
  assert (∀ fuel, perform1 fuel (NUnstage req) (MkHost w o) =
    match x with Ok _ => run serve (internal (deleteDevice r (nu_VolumeId req))) (MkHost w o1)
               | Err e => (MkHost w o1, Err e) | Panic why => (MkHost w o1, Panic why) end) as Hperform.
  { intros fuel. etransitivity; [apply Hreq|]. rewrite run_go_bind in Hrun |- *.
    destruct (run serve (MountInterface.New "") (MkHost w o)) as [h1 [m|e|why]]; [|by injection Hrun as -> <-..].
    rewrite run_go_bind, Hrun. by destruct x. }
  cbn [step_refines abs_step]. unfold step_refines. cbn [abs_step]. rewrite decide_False by done. unfold abs_unstage.
  cbn [abs a_mounts h_os h_world]. destruct (f_mounts (fs o) !! nu_Path req) as [m|].
  - destruct Hx as [Hf ->]. assert (node_inv (MkHost w o1)) as Hinv1.
    { apply (inv_machine (MkHost w o)); rewrite ?Hf; [done| |apply (inv_content _ Hinv)].
      intros q. cbn [del_mount f_dirs f_mounts]. rewrite lookup_delete_is_Some. intros [_ Hq]. by apply (inv_mounts _ Hinv). }
    destruct (serve1_UnmapVolume c (MkUnmapVolumeRequest (nu_VolumeId req)) (w_daemon w)) as (d' & Hun & _);
      [tauto|by destruct (inv_configured _ Hinv)|by destruct (inv_start _ Hinv)|].
    destruct (unmapped (nu_VolumeId req) (MkHost w o1) d') as (Hinv2 & Hb & Ha); [done|tauto|done|].
    exists 0%nat, (MkHost (MkWorld (w_db w) d') o1), (Ok ()). split_and!; [|done|].
    + intros fuel _. rewrite Hperform. unfold internal. rewrite run_bind.
      by rewrite (run_deleteDevice c peer r _ w o1 d' (inv_connected _ Hinv) Hun).
    + unfold abs. cbn [a_volumes a_attached a_mounts a_content is_ok h_world w_daemon h_os].
      cbn [h_world w_daemon] in Hb, Ha. by rewrite Hb, Ha, Hf.
  - destruct Hx as [Hf [e ->]]. exists 0%nat, (MkHost w o1), (Err e). split_and!; [by intros fuel _| |by unfold abs; cbn [h_os h_world]; rewrite Hf].
    apply (inv_machine (MkHost w o)); rewrite ?Hf; [done|apply (inv_mounts _ Hinv)|apply (inv_content _ Hinv)].
Qed.

(** ** Staging *)

(** What [createDevice] asks of the controller. *)
Abbreviation map_req n := (MkMapVolumeRequest n (Some MapVolumeRequest_Malloc)).

(** The outcome of the specification, next to what [FormatAndMount] did. *)
Lemma abs_stage_outcome n p fstype w d' o v ok :
  f_mounts (fs o) !! p = None → n ∈ dom (bdevs (w_daemon w)) → abs_room n (abs (MkHost w o)) = true →
  bdevs d' = bdevs (w_daemon w) → attached d' = {[n]} ∪ attached (w_daemon w) →
  format_and_mount n p fstype (add_dir p (fs o)) = (v, ok) →
  abs_stage n p fstype (abs (MkHost w o)) = (MkNode (dom (bdevs d')) (attached d') (f_mounts v) (f_content v), ok).
Proof.
  intros Hm Hn Hroom Hb Ha. unfold abs_stage. rewrite Hroom. unfold abs. cbn [a_mounts a_volumes h_os h_world].
  rewrite Hm, bool_decide_true, Hb, Ha by done. cbn [andb abs_attach a_content]. unfold format_and_mount.
  cbn [add_dir f_content]. destruct (f_content (fs o) !! n) as [g|]; [case_decide|]; by intros [= <- <-].
Qed.

(** [FormatAndMount] keeps what the invariant says about file systems. *)
Lemma format_and_mount_inv n p fstype v v' ok :
  supported fstype → p ∈ f_dirs v → format_and_mount n p fstype v = (v', ok) →
  mounts_exist v → (∀ m, f_content v !! m ≠ Some "") → mounts_exist v' ∧ ∀ m, f_content v' !! m ≠ Some "".
Proof.
  intros Hsup Hp Hf Hex Hne. destruct (supported_fs_type fstype Hsup) as [_ Ht].
  assert (∀ v1, f_dirs v1 = f_dirs v → f_mounts v1 = f_mounts v → mounts_exist (add_mount p n v1)) as Hadd.
  { intros v1 Hd Hm q. cbn [add_mount f_mounts f_dirs]. rewrite Hd, Hm, lookup_insert_is_Some.
    intros [<-|[_ Hq]]; [done|by apply Hex]. }
  unfold format_and_mount in Hf. destruct (f_content v !! n) as [g|]; [case_decide|]; injection Hf as <- <-.
  - split; [by apply Hadd|done].
  - done.
  - split; [by apply Hadd|]. intros m. cbn [add_mount format f_content]. rewrite lookup_insert. case_decide; [congruence|done].
Qed.

(** Without volume or target the controller reports an error and keeps its state. *)
Lemma map_refused n h :
  let d := w_daemon (h_world h) in
  node_inv h → n ≠ "" → bool_decide (n ∈ dom (bdevs d)) && abs_room n (abs h) = false →
  ∃ d' e, serve1 (MapVolume c (map_req n)) d = (d', Err e) ∧ unchanged d d'.
Proof.
  intros d Hinv Hn Hno. pose proof (inv_start _ Hinv) as [Hd Hok]. pose proof (inv_configured _ Hinv) as Hc.
  destruct (bdevs d !! n) as [b|] eqn:Eb; [|by apply serve1_Map_missing].
  rewrite bool_decide_true in Hno by (by apply elem_of_dom). cbn [andb] in Hno.
  pose proof (abs_room_spec n h (inv_start _ Hinv)) as Hroom. rewrite Hno in Hroom. destruct Hroom as [Hp Hall].
  by apply MapVolume_no_free_target.
Qed.

Lemma map_request_malloc h n csiRequest : node_inv h → map_request r n csiRequest = Ok (map_req n).
Proof. intros Hinv. unfold map_request. by rewrite (inv_malloc _ Hinv). Qed.

(** No device: the call fails, and neither attachments nor file systems change. *)
Lemma run_stage_rest_refused req cap w o d' e :
  let n := ns_VolumeId req in
  node_inv (MkHost w o) → serve1 (MapVolume c (map_req n)) (w_daemon w) = (d', Err e) →
  ∃ e', ∀ fuel, run serve (stage_rest wrap (remote_backend fuel r) req cap) (MkHost w o) =
    (MkHost (MkWorld (w_db w) d') o, Err e').
Proof.
  intros n Hinv Hmap.
  eexists. intros fuel. unfold stage_rest. cbn [remote_backend bk_createDevice].
  rewrite !run_go_bind. fold n. rewrite (run_createDevice_fails c peer r addr fuel n (wrap req) (map_req n) w d' e o); [done| | | |done].
  - apply (inv_connected _ Hinv).
  - apply (inv_announced _ Hinv).
  - by eapply map_request_malloc.
Qed.

(** A device: it is formatted and mounted. *)
Lemma run_stage_rest_done req cap w o d' t :
  let n := ns_VolumeId req in let p := ns_StagingTargetPath req in let fstype := GetFsType cap in
  node_inv (MkHost w o) → managed p → p ∈ f_dirs (fs o) → f_mounts (fs o) !! p = None → supported fstype →
  serve1 (MapVolume c (map_req n)) (w_daemon w) = (d', Ok (map_reply c t)) →
  places n d' = {[(vhostSCSI c, t)]} → 0 ≤ t < 8 →
  ∃ k o' x, (∀ fuel, (k < fuel)%nat → run serve (stage_rest wrap (remote_backend fuel r) req cap) (MkHost w o) =
      (MkHost (MkWorld (w_db w) d') o', x)) ∧
    format_and_mount n p fstype (fs o) = (fs o', is_ok x).
Proof.
  intros n p fstype Hinv Hp Hdir Hm Hsup Hmap Hpl Ht.
  destruct (run_createDevice c peer r addr n (wrap req) (map_req n) w d' t o)
    as (k & o1 & e & dir & He & Hvol & Hnode & Hdev & Hrun);
    [apply (inv_connected _ Hinv)|apply (inv_announced _ Hinv)|by eapply map_request_malloc|done..|].
  assert (fs o1 = fs o) as Hf1.
  { pose proof (createDevice_fs c peer r addr (S k) n (wrap req) (MkHost w o)) as Hfs.
    by rewrite Hrun in Hfs by lia. }
  destruct (local_stage_device c peer addr (MkWorld (w_db w) d') (JoinPath [dir; lk_dev (se_link e)]) n p fstype dir o1)
    as (o2 & x & Hrun2 & Hx); rewrite ?Hf1; try done.
  { by exists e. }
  { apply (inv_content _ Hinv). }
  exists k, o2, x. split; [|by rewrite <-Hf1]. intros fuel Hfuel. unfold stage_rest.
  cbn [remote_backend bk_createDevice]. rewrite !run_go_bind. fold n. by rewrite Hrun.
Qed.

(** After the staging directory was made. *)
Lemma stage_rest_refines req cap w o o1 :
  let n := ns_VolumeId req in let p := ns_StagingTargetPath req in
  node_inv (MkHost w o) → n ≠ "" → managed p → supported (GetFsType cap) → f_mounts (fs o) !! p = None →
  fs o1 = add_dir p (fs o) →
  ∃ k h' x, (∀ fuel, (k < fuel)%nat → run serve (stage_rest wrap (remote_backend fuel r) req cap) (MkHost w o1) = (h', x)) ∧
    node_inv h' ∧ abs_stage n p (GetFsType cap) (abs (MkHost w o)) = (abs h', is_ok x).
Proof.
  intros n p Hinv Hn Hp Hsup Hm Hf1. assert (p ∈ f_dirs (fs o1)) as Hdir by (rewrite Hf1; set_solver).
  assert (node_inv (MkHost w o1)) as Hinv1.
  { apply (inv_machine (MkHost w o)); rewrite ?Hf1; [done| |apply (inv_content _ Hinv)].
    intros q Hq. apply (inv_mounts _ Hinv) in Hq. apply elem_of_union. by right. }
  destruct (bool_decide (n ∈ dom (bdevs (w_daemon w))) && abs_room n (abs (MkHost w o))) eqn:Hcan.
  - apply andb_true_iff in Hcan as [Hin%bool_decide_eq_true Hroom].
    pose proof (abs_room_spec n (MkHost w o) (inv_start _ Hinv)) as Hspec. rewrite Hroom in Hspec. cbn [h_world] in Hspec.
    assert (is_Some (bdevs (w_daemon w) !! n)) as Hb by (by apply elem_of_dom).
    destruct (serve1_Map_succeeds c (map_req n) (w_daemon w)) as (d' & rep & Hmap & _);
      [apply (inv_configured _ Hinv)|done|apply (inv_start _ Hinv)|apply (inv_scsi _ Hinv)|done..|].
    destruct (mapped (map_req n) (MkHost w o1) d' rep) as (Hinv2 & Hb' & Ha' & t & -> & Hpl & Ht); [done..|].
    destruct (run_stage_rest_done req cap w o1 d' t) as (k & o2 & x & Hrun & Hfm); [done|done|done|by rewrite Hf1|done..|].
    destruct (format_and_mount_inv _ _ _ _ _ _ Hsup Hdir Hfm) as [Hex Hc];
      [apply (inv_mounts _ Hinv1)|apply (inv_content _ Hinv1)|].
    exists k, (MkHost (MkWorld (w_db w) d') o2), x. split_and!; [done|by apply (inv_machine _ o2) in Hinv2|].
    rewrite Hf1 in Hfm. by apply abs_stage_outcome.
  - destruct (map_refused n (MkHost w o) Hinv Hn Hcan) as (d' & e & Hmap & Hu). cbn [h_world] in Hmap, Hu.
    destruct (run_stage_rest_refused req cap w o1 d' e Hinv1 Hmap) as [e' Hrun].
    exists 0%nat, (MkHost (MkWorld (w_db w) d') o1), (Err e'). split_and!; [done| |].
    + apply (inv_daemon (MkHost w o1)); [done| | |by destruct Hu].
      * eapply good_start_unchanged; [apply (inv_start _ Hinv)|done].
      * pose proof (inv_scsi _ Hinv) as Hs. unfold has_scsi. destruct Hu as [_ ->]. exact Hs.
    + unfold abs_stage, abs. cbn [a_mounts a_volumes h_os h_world w_daemon]. rewrite Hm.
      unfold abs in Hcan. cbn [h_os h_world] in Hcan. rewrite Hcan, Hf1, (attached_unchanged _ _ Hu).
      by destruct Hu as [-> _].
Qed.

Lemma stage_refines req h : node_inv h → legal (abs h) (NStage req) → step_refines (NStage req) h.
Proof.
  intros Hinv [Hp Hsup]. destruct h as [w o]. cbn [legal] in Hp, Hsup.
  destruct (ns_VolumeCapability req) as [cap|] eqn:Hcap; last first.
  { assert (∃ e, ∀ fuel h, perform1 fuel (NStage req) h = (h, Err e)) as [e He].
    { cbn [perform]. unfold stage_handler. rewrite Hcap. repeat case_decide; by eexists. }
    apply (refines_nothing _ _ e); [done..|]. cbn [abs_step]. by rewrite Hcap. }
  destruct (decide (ns_StagingTargetPath req = "" ∨ ns_VolumeId req = "")) as [Hbad|Hgood].
  { assert (∃ e, ∀ fuel h, perform1 fuel (NStage req) h = (h, Err e)) as [e He].
    { cbn [perform]. unfold stage_handler. repeat case_decide; [by eexists..|]. tauto. }
    apply (refines_nothing _ _ e); [done..|]. cbn [abs_step]. by rewrite Hcap, decide_True. }
  destruct (local_stage_prefix c peer addr w (ns_StagingTargetPath req) o Hp (inv_mounts _ Hinv)) as (o1 & b & Hpre & Hb).
  assert (∀ fuel, perform1 fuel (NStage req) (MkHost w o) = run serve (stage (remote_backend fuel r) wrap req cap) (MkHost w o)) as Hrun.
  { intros fuel. cbn [perform]. unfold stage_handler. rewrite !decide_False, Hcap by tauto. apply run_with_lock. }
  unfold step_refines. cbn [abs_step]. rewrite Hcap, decide_False by done. setoid_rewrite Hrun.
  setoid_rewrite run_stage. rewrite Hpre. destruct (f_mounts (fs o) !! ns_StagingTargetPath req) as [m|] eqn:Hm.
  - destruct Hb as [Hf ->]. exists 0%nat, (MkHost w o1), (Ok ()). split_and!; [done| |].
    + apply (inv_machine (MkHost w o)); rewrite ?Hf; [done|apply (inv_mounts _ Hinv)|apply (inv_content _ Hinv)].
    + unfold abs_stage, abs. cbn [a_mounts h_os h_world]. by rewrite Hm, Hf.
  - destruct Hb as [Hf ->]. by apply (stage_rest_refines req cap w o o1); try tauto.
Qed.

(** ** Any sequence of calls *)

Fixpoint legal_run (a : node_state) (cs : list node_call) : Prop :=
  match cs with
  | [] => True
  | call :: cs' => legal a call ∧ legal_run (abs_step call a).1 cs'
  end.

Fixpoint perform_all (fuel : nat) (cs : list node_call) (h : host_) : host_ * list (result ()) :=
  match cs with
  | [] => (h, [])
  | call :: cs' =>
      let '(h1, x) := perform1 fuel call h in
      let '(h2, xs) := perform_all fuel cs' h1 in
      (h2, x :: xs)
  end.

Lemma step_refined call h : node_inv h → legal (abs h) call → step_refines call h.
Proof. destruct call; [apply stage_refines|apply publish_refines|apply unpublish_refines|apply unstage_refines]. Qed.

End Refinement.
