(* ===== verification/NodeExample.v ===== *)
(** * A machine for the node service

    The machine of [Staging.v] with file systems: three paths, mount(8) and umount(8)
    that understand the arguments of pkg/mount, and blkid and mkfs for the disks.  It
    satisfies [GuestKernelLaws] and [NodeKernelLaws], and the node service runs on it. *)
From S2P Require Import Prelude GoStrings Errors Json Messages Effects SPDK Daemon Controller ControllerSeq Registry CSIEnv Paths Remote Sysfs Mount MountFacts Subpath MountInterface System Staging CSIMessages CephCSI CSIDriver CSIServer NodeKernel Node.
Import oimcontroller kernel_example.

Module node_example.
Record nstate := MkN { n_dev : kstate; n_fs : fsview }.

Definition paths : list string := ["/staging/b"; "/staging/a"; "/target/b"].

Definition entry (p : string) : MountPoint := MkMountPoint "/dev/sdb" p "ext4" ["rw"; "relatime"] 0 0.

(** Only known types of file systems are visible. *)
Definition view_ (o : nstate) : fsview :=
  let v := n_fs o in MkFs (f_dirs v) (f_mounts v) (filter (λ kv : string * string, kv.2 ∈ formats) (f_content v)).

#[export] Instance node_kernel : NodeKernel nstate := {
  fs := view_; managed := λ p, p ∈ paths; root_dev := 1;
  mount_entries := λ v, entry <$> filter (λ p, is_Some (f_mounts v !! p)) paths
}.

Definition upd (f : fsview → fsview) (o : nstate) : nstate := MkN (n_dev o) (f (n_fs o)).

(** The volume of a device node. *)
Definition volume_of (d : refd) (o : nstate) (node : string) : option string :=
  dev ← k_nodes (n_dev o) !! node;
  '(_, e) ← list_find (λ e, dev_major dev = se_major e ∧ dev_minor dev = se_minor e) (visible (n_dev o) d);
  rl d !! Target (lk_disk (se_link e)).

(** The arguments of mount(8), from the end: source, target, type and options. *)
Definition parse_mount (args : list string) : option (string * string * string * string) :=
  match rev args with
  | p :: x :: y :: rest =>
      if decide (y = "-o") then Some ("", p, default "" (head rest), x)
      else Some (x, p, default "" (head (tail rest)), y)
  | _ => None
  end.

Definition fine : output := ("", None).
Definition wrong : output := ("", Some (ExitError 32)).

Definition mount_with (s p fstype options : string) (d : refd) (o : nstate) : nstate * output :=
  if decide (options = "defaults") then
    match volume_of d o s with
    | Some n => if mountable (f_content (view_ o) !! n) fstype then (upd (add_mount p n) o, fine) else (o, wrong)
    | None => (o, wrong)
    end
  else if decide (options = "bind") then
    match f_mounts (n_fs o) !! s with Some n => (upd (add_mount p n) o, fine) | None => (o, wrong) end
  else (o, fine).

Definition do_mount (args : list string) (d : refd) (o : nstate) : nstate * output :=
  match parse_mount args with
  | None => (o, wrong)
  | Some (s, p, fstype, options) => mount_with s p fstype options d o
  end.

Definition do_umount (args : list string) (o : nstate) : nstate * output :=
  match args with
  | [p] => match f_mounts (n_fs o) !! p with Some _ => (upd (del_mount p) o, fine) | None => (o, wrong) end
  | _ => (o, wrong)
  end.

Definition do_blkid (args : list string) (d : refd) (o : nstate) : nstate * output :=
  (o, match (n ← last args ≫= volume_of d o; f_content (view_ o) !! n) with
      | Some g => (export_text [("DEVNAME", "/dev/sd"); ("TYPE", g)], None)
      | None => ("", Some (ExitError 2))
      end).

Definition do_mkfs (fstype : string) (args : list string) (d : refd) (o : nstate) : nstate * output :=
  match last args ≫= volume_of d o with
  | Some n => (upd (format n fstype) o, fine)
  | None => (o, wrong)
  end.

Definition do_exec (cmd : string) (args : list string) (d : refd) (o : nstate) : nstate * output :=
  if decide (cmd = "fsck") then (o, fine)
  else if decide (cmd = "blkid") then do_blkid args d o
  else do_mkfs (TrimPrefix cmd "mkfs.") args d o.

Definition do_stat (p : string) (o : nstate) : result FileInfo :=
  if decide (p ∈ f_dirs (n_fs o))
  then Ok (MkFileInfo ModeDir (match f_mounts (n_fs o) !! p with None => 1 | Some _ => 2 end) 0)
  else Err (SysError ENOENT "stat").

Definition serve_node : ∀ B, osE B → refd → nstate → nstate * B := λ B e,
  match e in osE B return refd → nstate → nstate * B with
  | Stat p => λ d o, (o, do_stat p o)
  | Lstat p => λ d o, (o, Ok (MkFileInfo ModeDir 1 0))
  | MkdirAll p _ => λ d o, (upd (add_dir p) o, Ok ())
  | Remove p => λ d o, (upd (del_dir p) o, Ok ())
  | RemoveAll p => λ d o, (o, Ok ())
  | EvalSymlinks p => λ d o, (o, Ok p)
  | ReadFile p => λ d o, (o, Ok (mount_table (mount_entries (view_ o))))
  | Command cmd args => λ d o, if decide (cmd = "mount") then do_mount args d o else do_umount args o
  | ExecRun cmd args => λ d o, do_exec cmd args d o
  | e => λ d o, let '(k, b) := serve_kernel _ e d (n_dev o) in (MkN k (n_fs o), b)
  end.

#[export] Instance guest_kernel : GuestKernel refd nstate := {
  kernel := serve_node; disks := λ o, visible (n_dev o); nodes := λ o, k_nodes (n_dev o)
}.
End node_example.
Import node_example.

(** ** The disks *)

#[export] Program Instance guest_laws : GuestKernelLaws refd nstate "vhost.0" vhost_addr.
Next Obligation. intros o d. exact (disks_wf "vhost.0" vhost_addr (n_dev o) d). Qed.
Next Obligation. intros o d e. exact (disks_numbers "vhost.0" vhost_addr (n_dev o) d e). Qed.
Next Obligation. by intros [k v] d. Qed.
Next Obligation.
  intros [k v] d e He. pose proof (read_entry "vhost.0" vhost_addr k d e He) as Hr.
  cbn [kernel guest_kernel serve_node n_dev]. cbn [kernel kernel_] in Hr. by rewrite Hr.
Qed.
Next Obligation. intros [k v] d. by exists (MkN k v). Qed.
Next Obligation.
  intros [k v] d t n Ht Hn. pose proof (hotplug "vhost.0" vhost_addr k d t n Ht Hn) as Ha. clear Hn.
  induction Ha as [k e He Hat|k k' choice Hsel Hc _ IH]; [by apply (appears_now _ _ _ _ e)|].
  apply (appears_later _ _ _ _ (MkN k' v) choice); [|done..].
  cbn [kernel guest_kernel serve_node n_dev n_fs]. cbn [kernel kernel_] in Hsel. by rewrite Hsel.
Qed.
Next Obligation. intros [k v] d name dev. by eexists (MkN k v), _, (MkN _ v). Qed.

(** ** The file systems *)

Lemma disk_minor : Forall (λ e, se_minor e = 16 * Target (lk_disk (se_link e))) all_disks.
Proof. apply (bool_decide_unpack _). by vm_compute. Qed.

Lemma volume_of_spec d o node n : dev_is "vhost.0" vhost_addr d o node n → volume_of d o node = Some n.
Proof.
  intros (e & He & (dev & Hdev & Hmaj & Hmin) & t & [_ Hat] & [_ Hrl]%ref_places). unfold volume_of.
  change (k_nodes (n_dev o) !! node = Some dev) in Hdev. rewrite Hdev. cbn [mbind option_bind].
  change (e ∈ visible (n_dev o) d) in He.
  destruct (list_find_elem_of (λ e, dev_major dev = se_major e ∧ dev_minor dev = se_minor e) _ e He) as [[i e'] Hfind]; [done|].
  rewrite Hfind. cbn [mbind option_bind]. apply list_find_Some in Hfind as (He' & [_ Hmin'] & _).
  apply list_elem_of_lookup_2, visible_all in He'. apply visible_all in He.
  pose proof disk_minor as Hall. rewrite Forall_forall in Hall. pose proof (Hall _ He). pose proof (Hall _ He').
  rewrite Hat in *. cbn [Target] in *. by replace (Target (lk_disk (se_link e'))) with t by lia.
Qed.

Lemma parse_makeMountArgs s p fstype o opts :
  Join (o :: opts) "," ≠ "-o" → parse_mount (makeMountArgs s p fstype (o :: opts)) = Some (s, p, fstype, Join (o :: opts) ",").
Proof.
  intros Ho. unfold makeMountArgs. rewrite (decide_False (P := o :: opts = [])) by done.
  destruct (decide (fstype = "")) as [->|Hf], (decide (s = "")) as [->|Hs]; cbn [app]; unfold parse_mount; cbn [rev app];
    by rewrite ?decide_True, ?decide_False by done.
Qed.

Lemma kernel_mount s p fstype o opts d st :
  Join (o :: opts) "," ≠ "-o" →
  kernel _ (Command "mount" (makeMountArgs s p fstype (o :: opts))) d st = mount_with s p fstype (Join (o :: opts) ",") d st.
Proof.
  intros Ho. cbn [kernel guest_kernel serve_node]. rewrite decide_True by done. unfold do_mount.
  by rewrite parse_makeMountArgs.
Qed.

Lemma entry_ok : Forall (λ p, mount_ok (entry p)) paths.
Proof. repeat constructor; vm_compute; done. Qed.

Lemma no_deleted : Forall (λ p, Forall (λ q, q ≠ p +:+ "\040(deleted)") paths) paths.
Proof. apply (bool_decide_unpack _). by vm_compute. Qed.

Lemma entries_match v p :
  p ∈ paths → existsb (λ mp, IsMountPointMatch mp p) (mount_entries v) = bool_decide (is_Some (f_mounts v !! p)).
Proof.
  intros Hp. apply eq_bool_prop_intro. rewrite bool_decide_spec. unfold Is_true at 1.
  cbn [mount_entries node_kernel]. destruct (existsb _ _) eqn:He; (split; [|try done]).
  - intros _. apply existsb_exists in He as (mp & Hin%list_elem_of_In & Hm).
    apply list_elem_of_fmap in Hin as (q & -> & Hq). apply list_elem_of_filter in Hq as [Hq Hq'].
    unfold IsMountPointMatch in Hm. cbn [entry mp_Path] in Hm.
    apply orb_true_iff in Hm as [->%bool_decide_eq_true|Hm%bool_decide_eq_true]; [done|].
    pose proof no_deleted as Hno. rewrite Forall_forall in Hno. specialize (Hno p Hp). rewrite Forall_forall in Hno. by destruct (Hno q Hq').
  - done.
  - intros Hm. assert (existsb (λ mp, IsMountPointMatch mp p) (entry <$> filter (λ p, is_Some (f_mounts v !! p)) paths) = true); [|congruence].
    apply existsb_exists. exists (entry p). split.
    + apply list_elem_of_In, list_elem_of_fmap. exists p. split; [done|]. by apply list_elem_of_filter.
    + unfold IsMountPointMatch. cbn [entry mp_Path]. by rewrite bool_decide_true.
Qed.

Lemma content_format g n o : f_content (view_ o) !! n = Some g → g ∈ formats.
Proof. unfold view_. cbn [f_content]. by intros [_ ?]%map_lookup_filter_Some. Qed.

Lemma upd_format n fstype o : fstype ∈ formats → view_ (upd (format n fstype) o) = format n fstype (view_ o).
Proof. intros Hf. unfold view_, upd, format. cbn. f_equal. by rewrite map_filter_insert_True. Qed.

Lemma last_mkfs_args fstype node : last (mkfs_args fstype node) = Some node.
Proof. unfold mkfs_args. by case_decide. Qed.

Lemma mkfs_command fstype : fstype ∈ formats →
  "mkfs." +:+ fstype ≠ "fsck" ∧ "mkfs." +:+ fstype ≠ "blkid" ∧ TrimPrefix ("mkfs." +:+ fstype) "mkfs." = fstype.
Proof. intros Hf. repeat (apply elem_of_cons in Hf as [->|Hf]; [by vm_compute|]). by apply elem_of_nil in Hf. Qed.

Lemma blkid_export g : g ∈ formats →
  let kvs := [("DEVNAME", "/dev/sd"); ("TYPE", g)] in
  Forall export_ok kvs ∧ last_value "TYPE" kvs = Some g ∧ last_value "PTTYPE" kvs = None.
Proof.
  intros Hf. repeat (apply elem_of_cons in Hf as [->|Hf]; [split; [repeat constructor; by vm_compute|by vm_compute]|]).
  by apply elem_of_nil in Hf.
Qed.

#[export] Program Instance node_laws : NodeKernelLaws refd nstate "vhost.0" vhost_addr.
Next Obligation.
  intros p d o o' r Hp [= <- <-]. split; [done|]. unfold do_stat. change (f_dirs (fs o)) with (f_dirs (n_fs o)).
  case_decide; [|by eexists]. eexists. split; [done|]. cbn [Dev]. change (f_mounts (fs o)) with (f_mounts (n_fs o)).
  by destruct (f_mounts (n_fs o) !! p).
Qed.
Next Obligation. intros p d o o' r _ _ [= <- <-]. split; [done|]. by eexists. Qed.
Next Obligation. by intros p perm d o o' r _ [= <- <-]. Qed.
Next Obligation. by intros p d o o' r _ _ _ [= <- <-]. Qed.
Next Obligation. by intros p d o o' r _ _ [= <- <-]. Qed.
Next Obligation. by intros d o o' r [= <- <-]. Qed.
Next Obligation.
  intros v. apply Forall_fmap, Forall_forall. intros p [_ Hp]%list_elem_of_filter.
  pose proof entry_ok as Hok. rewrite Forall_forall in Hok. by apply Hok.
Qed.
Next Obligation. exact entries_match. Qed.
Next Obligation. intros d [k v] o' r [= <- <-]. split; [done|by eexists]. Qed.
Next Obligation.
  intros node n p fstype d o o' r Hdev%volume_of_spec _ _ _ Hrun. rewrite kernel_mount in Hrun by done. unfold mount_with in Hrun.
  rewrite decide_True, Hdev in Hrun by done. change (f_content (fs o)) with (f_content (view_ o)).
  destruct (mountable _ _); injection Hrun as <- <-; [done|]. split; [done|by eexists].
Qed.
Next Obligation.
  intros s p n fstype d o o' r _ _ _ Hs Hrun. rewrite kernel_mount in Hrun by done. unfold mount_with in Hrun.
  rewrite decide_False, decide_True in Hrun by done. change (f_mounts (n_fs o) !! s = Some n) in Hs. rewrite Hs in Hrun.
  by injection Hrun as <- <-.
Qed.
Next Obligation.
  intros s p n fstype options d o o' r _ _ Hrun. rewrite kernel_mount in Hrun by done. unfold mount_with in Hrun.
  rewrite !decide_False in Hrun by done. by injection Hrun as <- <-.
Qed.
Next Obligation.
  intros p d o o' r _ Hrun. cbn [kernel guest_kernel serve_node] in Hrun. rewrite decide_False in Hrun by done.
  cbn [do_umount] in Hrun. change (f_mounts (fs o)) with (f_mounts (n_fs o)).
  destruct (f_mounts (n_fs o) !! p); injection Hrun as <- <-; [done|]. split; [done|by eexists].
Qed.
Next Obligation. by intros node n d o o' r _ [= <- <-]. Qed.
Next Obligation.
  intros node n d o o' r Hdev%volume_of_spec Hrun. cbn [kernel guest_kernel serve_node] in Hrun. unfold do_exec in Hrun.
  rewrite decide_False, decide_True in Hrun by done. unfold do_blkid, blkid_args in Hrun. cbn [last mbind option_bind] in Hrun.
  rewrite Hdev in Hrun. cbn [mbind option_bind] in Hrun. change (f_content (fs o)) with (f_content (view_ o)).
  destruct (f_content (view_ o) !! n) as [g|] eqn:Hg; injection Hrun as <- <-; [|done]. split; [done|].
  eexists. by destruct (blkid_export g (content_format g n o Hg)) as (? & ? & ?).
Qed.
Next Obligation.
  intros node n fstype d o o' r Hdev%volume_of_spec Hf Hrun. cbn [kernel guest_kernel serve_node] in Hrun.
  destruct (mkfs_command fstype Hf) as (H1 & H2 & H3). unfold do_exec in Hrun. rewrite !decide_False, H3 in Hrun by done.
  unfold do_mkfs in Hrun. rewrite last_mkfs_args in Hrun. cbn [mbind option_bind] in Hrun. rewrite Hdev in Hrun.
  injection Hrun as <- <-. split; [|done]. split; [by apply upd_format|done].
Qed.
Next Obligation.
  intros B e d [k v] o' r He Hrun. destruct e; try done; cbn [kernel guest_kernel serve_node] in Hrun;
    match type of Hrun with (let '(_, _) := ?x in _) = _ => destruct x end; by injection Hrun as <- <-.
Qed.
Next Obligation. by intros dir d o o' r _ [= <- <-]. Qed.

(** ** The service on this machine *)

Definition node_remote : remoteSPDK csi_request :=
  MkRemoteSPDK "dns:///registry:8999" "ca.crt" "host.host-0.key" "host-0" None.

Definition ext4 : option VolumeCapability :=
  Some (MkVolumeCapability (MountVolume_ (MkMountVolume "ext4" [])) (Some SINGLE_NODE_WRITER)).

Definition stage_call (n p : string) : node_call := NStage (MkNodeStageVolumeRequest n p ext4 ∅ ∅).

(** Volume "b" goes through its life; a volume that does not exist cannot be staged;
    "b" can be staged a second time and then has its file system already. *)
Definition life : list node_call :=
  [ stage_call "b" "/staging/b";
    NPublish (MkNodePublishVolumeRequest "b" "/staging/b" "/target/b" ext4 false);
    NUnpublish (MkNodeUndoRequest "b" "/target/b");
    stage_call "nope" "/staging/a";
    NUnstage (MkNodeUndoRequest "b" "/staging/b");
    NUnstage (MkNodeUndoRequest "b" "/staging/b");
    stage_call "b" "/staging/b" ].

Definition h0 : host := MkHost sys_example.w0 (MkN (MkKstate 2 ∅) (MkFs ∅ ∅ ∅)).

Lemma h0_inv : node_inv sys_example.ctl "host.host-0" node_remote vhost_addr h0.
Proof.
  split.
  - by split_and!.
  - done.
  - by split_and!; vm_compute.
  - exists (MkGetValuesReply []), (MkPCIAddress 0 0 0 0). by split_and!; vm_compute.
  - apply d0_good.
  - eexists _, _. split; [by left|done].
  - apply map_Forall_insert_2; [done|]. by apply map_Forall_singleton.
  - by intros p [? ?].
  - done.
Qed.

(** The abstract run decides what is legal. *)
Lemma life_legal : legal_run (abs h0) life.
Proof.
  assert (managed "/staging/b" ∧ managed "/staging/a" ∧ managed "/target/b") as (Hb & Ha & Ht)
    by (cbn [managed node_kernel]; unfold paths; set_solver).
  assert (supported "ext4") as Hs by (right; do 2 right; by left).
  repeat (split; [first [done|split; done|idtac]|]); try done.
  right. exists "b". by vm_compute.
Qed.

(** What the specification says of it: "b" is formatted once. *)
Lemma life_outcome :
  let '(a, oks) := abs_run life (abs h0) in
  oks = [true; true; true; false; true; false; true] ∧
  map_to_list (a_mounts a) = [("/staging/b", "b")] ∧ map_to_list (a_content a) = [("b", "ext4")] ∧
  elements (a_attached a) = ["a"; "b"].
Proof. by vm_compute. Qed.

(** The model runs: two rounds of waiting at the first call, none later. *)
Example life_runs :
  is_ok <$> (perform_all sys_example.ctl "host.host-0" node_remote Request1 4 life h0).2 =
    [true; true; true; false; true; false; true].
Proof. by vm_compute. Qed.

