(* ===== verification/Commands.v ===== *)
(** * The programs: cmd/*/main.go

    The main functions put the components together.  A program ends with a status
    ([Exit]) or by returning; its log goes through the simple logger, and what it
    does besides is recorded in its world: for oimctl the registry it talks to and
    its standard output, for the servers what they start.  Flags are records; the
    files with keys and certificates, sockets and SPDK are parameters.

    [oimctl_set_get] says what oimctl does to a registry and prints,
    [registry_main_secure] and [controller_main_secure] that the servers run only
    with mutual TLS. *)
From S2P Require Import Prelude GoStrings Strconv Errors RegistryPath Messages GRPC PCI Registry Effects Controller Registration.
From stdpp Require Import sorting.
From S2P Require Import CSIEnv Remote Local CSIMessages CephCSI CSIDriver Slices Level Log LogFacts Tracing.

(** File descriptors as writers. *)
Definition Stdout : nat := 1.
Definition Stderr : nat := 2.

Section Sort.
Context {A : Type} (lt : A → A → bool).

(** [sort.SliceStable]: insertion behind everything that is not larger. *)
Fixpoint insert_stable (x : A) (l : list A) : list A :=
  match l with
  | [] => [x]
  | y :: l' => if lt x y then x :: l else y :: insert_stable x l'
  end.

Definition SliceStable (l : list A) : list A := foldl (λ acc x, insert_stable x acc) [] l.

Lemma insert_stable_perm x l : insert_stable x l ≡ₚ x :: l.
Proof.
  induction l as [|y l IH]; simpl; [done|]. destruct (lt x y); [done|]. rewrite IH. constructor.
Qed.

Lemma SliceStable_perm l : SliceStable l ≡ₚ l.
Proof.
  unfold SliceStable. assert (∀ acc, foldl (λ acc x, insert_stable x acc) acc l ≡ₚ acc ++ l) as H; [|apply (H [])].
  induction l as [|x l IH]; intros acc; simpl; [by rewrite app_nil_r|].
  rewrite IH, insert_stable_perm. simpl. apply Permutation_middle.
Qed.

Definition sorted : list A → Prop := StronglySorted (λ x y, lt y x = false).

Hypothesis lt_trans : ∀ x y z, lt y x = false → lt z y = false → lt z x = false.
Hypothesis lt_asym : ∀ x y, lt x y = true → lt y x = false.

Lemma insert_stable_sorted x l : sorted l → sorted (insert_stable x l).
Proof.
  induction 1 as [|y l Hl IH Hy]; simpl; [by repeat constructor|].
  destruct (lt x y) eqn:E.
  - constructor; [by constructor|]. constructor; [by apply lt_asym|].
    eapply Forall_impl; [exact Hy|]. intros z Hz. eapply lt_trans; [|exact Hz]. by apply lt_asym.
  - constructor; [done|]. rewrite insert_stable_perm. by constructor.
Qed.

Lemma SliceStable_sorted l : sorted (SliceStable l).
Proof.
  unfold SliceStable. assert (∀ acc, sorted acc → sorted (foldl (λ acc x, insert_stable x acc) acc l)) as H;
    [|apply H; constructor].
  induction l as [|x l IH]; intros acc Hacc; simpl; [done|]. apply IH. by apply insert_stable_sorted.
Qed.
End Sort.

(** [strings.Compare(a, b) < 0] on paths. *)
Definition path_lt (x y : Messages.Value) : bool := String.ltb (Path x) (Path y).

Lemma str_compare_trans x y z : String.compare x y = Lt → String.compare y z = Lt → String.compare x z = Lt.
Proof.
  revert y z. induction x as [|a x IH]; intros [|b y] [|c z]; simpl; try done. unfold Ascii.compare.
  destruct (N.compare_spec (N_of_ascii a) (N_of_ascii b)) as [Hab|Hab|Hab]; [|intros _|done].
  - rewrite Hab. destruct (N_of_ascii b ?= N_of_ascii c)%N; [by apply IH|done|done].
  - destruct (N.compare_spec (N_of_ascii b) (N_of_ascii c)) as [Hbc|Hbc|Hbc]; [|intros _|done].
    + rewrite <-Hbc. intros _. by rewrite (proj2 (N.compare_lt_iff _ _) Hab).
    + by rewrite (proj2 (N.compare_lt_iff _ _) (N.lt_trans _ _ _ Hab Hbc)).
Qed.

Lemma path_lt_asym x y : path_lt x y = true → path_lt y x = false.
Proof.
  unfold path_lt, String.ltb. rewrite (String.compare_antisym (Path y)). by destruct (String.compare _ _).
Qed.

Lemma path_lt_trans x y z : path_lt y x = false → path_lt z y = false → path_lt z x = false.
Proof.
  unfold path_lt, String.ltb. intros Hyx Hzy.
  destruct (String.compare (Path z) (Path x)) eqn:E; [done| |done]. exfalso.
  destruct (String.compare (Path y) (Path x)) eqn:E1; [|done|].
  - apply String.compare_eq_iff in E1. rewrite E1 in Hzy. by rewrite E in Hzy.
  - rewrite String.compare_antisym in E1. destruct (String.compare (Path x) (Path y)) eqn:E2; try done.
    by rewrite (str_compare_trans _ _ _ E E2) in Hzy.
Qed.

(** ** Errors at the start *)

(** [v, err := f(); if err != nil { ... }], where the second part does not return. *)
Definition or_fatal {W A} (r : result A) (fatal : error → LM simpleLogger W ()) : LM simpleLogger W A :=
  match r with
  | Ok a => mret a
  | Err e => fatal e ≫= λ _, ends (Panicking "unreachable")
  | Panic why => ends (Panicking why)
  end.

(** ** oimctl *)

Record oimctl_flags := MkOimctl {
  ctl_level : Threshold; ctl_printVersion : bool; ctl_endpoint : string; ctl_ca : string; ctl_key : string;
  ctl_get : bool; ctl_set : bool; ctl_path : string; ctl_value : string
}.

(** The registry behind the connection, and standard output. *)
Record ctl_world (DB : Type) := MkCtl { ctl_db : DB; ctl_stdout : list string }.
Arguments MkCtl {DB}.
Arguments ctl_db {DB}.
Arguments ctl_stdout {DB}.

Section Oimctl.
Context {rt : GoRuntime} {DB CredsT : Type}.
Local Abbreviation LM := (LM simpleLogger (ctl_world DB)).
Context (version : string).
(** [oimcommon.LoadTLS] with the files on disk, and [grpc.DialContext]. *)
Context (load_tls : string → string → string → result CredsT).
Context (dial : string → list (DialOption CredsT) → result ()).
(** The calls of the registry, as they arrive there. *)
Context (rpc_SetValue : SetValueRequest → DB → DB * result ()).
Context (rpc_GetValues : GetValuesRequest → DB → result GetValuesReply).

Definition call_SetValue (in_ : SetValueRequest) : LM (result ()) := λ s,
  let '(db, r) := rpc_SetValue in_ (ctl_db (l_world s)) in
  (MkLState (l_mem s) (l_written s) (l_tests s) (l_logger s) (l_std s) (MkCtl db (ctl_stdout (l_world s))), inl r).
Definition call_GetValues (in_ : GetValuesRequest) : LM (result GetValuesReply) := λ s,
  (s, inl (rpc_GetValues in_ (ctl_db (l_world s)))).
Definition print (text : string) : LM () := λ s,
  (MkLState (l_mem s) (l_written s) (l_tests s) (l_logger s) (l_std s)
     (MkCtl (ctl_db (l_world s)) (ctl_stdout (l_world s) ++ [text])), inl ()).

Definition entry_line (entry : Messages.Value) : string :=
  Path entry +:+ "=" +:+ Value_ entry +:+ String "010" "".

Fixpoint print_entries (l : list Messages.Value) : LM () :=
  match l with
  | [] => mret ()
  | entry :: l' => print (entry_line entry) ≫= λ _, print_entries l'
  end.

Definition oimctl_main (f : oimctl_flags) : LM () :=
  let config := MkSimpleConfig (Level (NewSimpleConfig (ctl_level f) Stdout)) Stderr in
  let logger := NewSimpleLogger config in
  let base := simple_base logger in
  Set_ logger ≫= λ _,
  if ctl_printVersion f then Infof base "oimctl %s" [AString version]
  else
    (if decide (ctl_endpoint f = "") then Fatal base [AString "-registry must be set"] else mret ()) ≫= λ _,
    (if decide (ctl_ca f = "") then Fatalf base "A CA file is required." [] else mret ()) ≫= λ _,
    (if decide (ctl_key f = "") then Fatalf base "A key file is required." [] else mret ()) ≫= λ _,
    or_fatal (load_tls (ctl_ca f) (ctl_key f) "component.registry")
      (λ err, Fatalw base "load TLS certs" [AString "error"; AError err]) ≫= λ transportCreds,
    let opts := ChooseDialOpts (ctl_endpoint f) [WithTransportCredentials transportCreds] in
    or_fatal (dial (ctl_endpoint f) opts)
      (λ err, Fatalw base "connecting to OIM registry" [AString "error"; AError err]) ≫= λ _,
    or_fatal (SplitRegistryPath (ctl_path f))
      (λ err, Fatalw base "path" [AString (ctl_path f); AString "error"; AError err]) ≫= λ elements,
    let key := JoinRegistryPath elements in
    if ctl_set f then
      (if decide (key = "") then Fatal base [AString "key required"] else mret ()) ≫= λ _,
      call_SetValue (MkSetValueRequest (Some (MkValue key (ctl_value f)))) ≫= λ r,
      or_fatal r (λ err, Fatalw base "setting a registry value"
        [AString "error"; AError err; AString "path"; AString key; AString "value"; AString (ctl_value f)])
    else if ctl_get f then
      (if decide (ctl_value f = "") then mret ()
       else Fatalw base "value not allowed for --get" [AString "value"; AString (ctl_value f)]) ≫= λ _,
      call_GetValues (MkGetValuesRequest key) ≫= λ r,
      or_fatal r (λ err, Fatalw base "getting registry values" [AString "error"; AError err]) ≫= λ reply,
      print_entries (SliceStable path_lt (Values reply))
    else Fatal base [AString "either --get or --set must be chosen"].
End Oimctl.

(** *** oimctl and a registry *)

Section OimctlFacts.
Context {rt : GoRuntime} {DB CredsT : Type} {RDB : RegistryDB DB} {RDL : RegistryDBLaws DB}.
Local Abbreviation lstate := (lstate simpleLogger (ctl_world DB)).
Context (version : string) (load_tls : string → string → string → result CredsT).
Context (dial : string → list (DialOption CredsT) → result ()).
(** oimctl is known to the registry by the certificate of its key. *)
Context (ctx : context) (admin : getPeer ctx = Ok "user.admin").

Definition oimctl : oimctl_flags → LM simpleLogger (ctl_world DB) () :=
  oimctl_main version load_tls dial (SetValue ctx) (GetValues ctx).

(** The flags that are needed for a connection, and their use. *)
Definition connects (f : oimctl_flags) : Prop :=
  ctl_printVersion f = false ∧ ctl_endpoint f ≠ "" ∧ ctl_ca f ≠ "" ∧ ctl_key f ≠ "" ∧
  ∃ c, load_tls (ctl_ca f) (ctl_key f) "component.registry" = Ok c ∧
    dial (ctl_endpoint f) (ChooseDialOpts (ctl_endpoint f) [WithTransportCredentials c]) = Ok ().

Lemma print_entries_run l (s : lstate) :
  ∃ s', print_entries l s = (s', inl ()) ∧
    l_world s' = MkCtl (ctl_db (l_world s)) (ctl_stdout (l_world s) ++ (entry_line <$> l)).
Proof.
  revert s. induction l as [|e l IH]; intros s.
  { exists s. rewrite app_nil_r. split; [done|]. by destruct (l_world s). }
  cbn [print_entries]. unfold mbind, LM_bind. cbn [print].
  match goal with |- context [print_entries l ?s1] => destruct (IH s1) as (s' & -> & Hw) end.
  exists s'. split; [done|]. rewrite Hw. simpl. by rewrite <-app_assoc.
Qed.

Lemma oimctl_set_run f es (s : lstate) :
  connects f → ctl_set f = true → SplitRegistryPath (ctl_path f) = Ok es → es ≠ [] →
  ∃ s', oimctl f s = (s', inl ()) ∧
    l_world s' = MkCtl (Store (JoinRegistryPath es) (ctl_value f) (ctl_db (l_world s))) (ctl_stdout (l_world s)).
Proof.
  intros (Hv & He & Hc & Hk & c & Htls & Hdial) Hset Hes Hne.
  pose proof (SplitRegistryPath_wf _ _ Hes) as Hwf.
  unfold oimctl, oimctl_main, mbind, LM_bind. cbn [Set_]. rewrite Hv, !decide_False by done. cbn [mret LM_ret].
  rewrite Htls. cbn [or_fatal mret LM_ret]. rewrite Hdial. cbn [or_fatal mret LM_ret]. rewrite Hes.
  cbn [or_fatal mret LM_ret]. rewrite Hset.
  rewrite decide_False by (by intros ?%JoinRegistryPath_nil). cbn [mret LM_ret call_SetValue].
  assert (SetValue_check ctx (MkSetValueRequest (Some (MkValue (JoinRegistryPath es) (ctl_value f)))) =
    Ok (JoinRegistryPath es, ctl_value f)) as Hcheck.
  { apply SetValue_check_Ok. exists (JoinRegistryPath es), es, "user.admin".
    split_and!; [done|by apply SplitRegistryPath_Join|done|done|done|done]. }
  unfold call_SetValue, SetValue. rewrite Hcheck. by eexists.
Qed.

Lemma oimctl_get_run f es (s : lstate) :
  connects f → ctl_set f = false → ctl_get f = true → ctl_value f = "" → SplitRegistryPath (ctl_path f) = Ok es →
  db_wf (ctl_db (l_world s)) → canonical_db (ctl_db (l_world s)) →
  ∃ s' vs, oimctl f s = (s', inl ()) ∧
    l_world s' = MkCtl (ctl_db (l_world s)) (ctl_stdout (l_world s) ++ (entry_line <$> SliceStable path_lt vs)) ∧
    NoDup (Path <$> vs) ∧
    ∀ k v, MkValue k v ∈ vs ↔
      v ≠ "" ∧ Registry.Lookup k (ctl_db (l_world s)) = v ∧ ∃ es', Forall wf_element es' ∧ k = JoinRegistryPath (es ++ es').
Proof.
  intros (Hv & He & Hc & Hk & c & Htls & Hdial) Hset Hget Hval Hes Hwf Hcan.
  destruct (GetValues_run ctx (MkGetValuesRequest (JoinRegistryPath es)) (ctl_db (l_world s)) es "user.admin")
    as (vs & Hvs & Hnd & Hin); [done|done|apply SplitRegistryPath_Join; by eapply SplitRegistryPath_wf|done|].
  unfold oimctl, oimctl_main, mbind, LM_bind. cbn [Set_]. rewrite Hv, !(decide_False (P := _ = "")) by done. cbn [mret LM_ret].
  rewrite Htls. cbn [or_fatal mret LM_ret]. rewrite Hdial. cbn [or_fatal mret LM_ret]. rewrite Hes.
  cbn [or_fatal mret LM_ret]. rewrite Hset, Hget, decide_True by done. cbn [mret LM_ret call_GetValues].
  cbn [l_world set_logger]. rewrite Hvs. cbn [or_fatal mret LM_ret Values].
  match goal with |- context [print_entries ?l ?s1] => destruct (print_entries_run l s1) as (s' & -> & Hw) end.
  by exists s', vs.
Qed.

(** C20. What the administrator sets with oimctl is what oimctl prints: after -set with
    a path and a value, both commands end without an error, and -get for any path
    prints, sorted by key and one per line, exactly the entries at or below that path,
    among them the new value under its canonical key, and no longer the old one; an
    empty value removes the entry. *)
Theorem oimctl_set_get f g es gs (s : lstate) :
  connects f → ctl_set f = true → SplitRegistryPath (ctl_path f) = Ok es → es ≠ [] →
  connects g → ctl_set g = false → ctl_get g = true → ctl_value g = "" → SplitRegistryPath (ctl_path g) = Ok gs →
  db_wf (ctl_db (l_world s)) → canonical_db (ctl_db (l_world s)) →
  ∃ s1 s2 vs, oimctl f s = (s1, inl ()) ∧ oimctl g s1 = (s2, inl ()) ∧
    ctl_stdout (l_world s2) = ctl_stdout (l_world s) ++ (entry_line <$> vs) ∧
    sorted path_lt vs ∧ NoDup (Path <$> vs) ∧
    ∀ k v, MkValue k v ∈ vs ↔
      v ≠ "" ∧ (∃ es', Forall wf_element es' ∧ k = JoinRegistryPath (gs ++ es')) ∧
      v = if decide (k = JoinRegistryPath es) then ctl_value f else Registry.Lookup k (ctl_db (l_world s)).
Proof.
  intros Hf Hfs Hfp Hne Hg Hgs Hgg Hgv Hgp Hwf Hcan.
  destruct (oimctl_set_run f es s Hf Hfs Hfp Hne) as (s1 & Hrun1 & Hw1).
  assert (db_wf (ctl_db (l_world s1))) as Hwf1 by (rewrite Hw1; by apply Store_wf).
  assert (∀ k, Registry.Lookup k (ctl_db (l_world s1)) =
    if decide (k = JoinRegistryPath es) then ctl_value f else Registry.Lookup k (ctl_db (l_world s))) as Hlk.
  { intros k. rewrite Hw1. cbn [ctl_db]. rewrite Lookup_Store by done. by repeat case_decide. }
  destruct (oimctl_get_run g gs s1 Hg Hgs Hgg Hgv Hgp Hwf1) as (s2 & vs & Hrun2 & Hw2 & Hnd & Hin).
  { intros k. rewrite Hlk. case_decide as Hk; [|apply Hcan]. intros _. subst k. exists es.
    split_and!; [done|by eapply SplitRegistryPath_wf|done]. }
  exists s1, s2, (SliceStable path_lt vs). split_and!; [done|done| | | |].
  - rewrite Hw2, Hw1. done.
  - apply SliceStable_sorted; [apply path_lt_trans|apply path_lt_asym].
  - by rewrite SliceStable_perm.
  - intros k v. rewrite SliceStable_perm, Hin, Hlk. naive_solver.
Qed.
End OimctlFacts.

(** A path that is refused: the error itself is not in the message, because it has
    become a key without a value. *)
Lemma oimctl_path_error_lost :
  l_written (oimctl_main (rt:=doubling) (DB:=unit) (CredsT:=unit) "1" (λ _ _ _, Ok ()) (λ _ _, Ok ())
    (λ _ d, (d, Ok ())) (λ _ _, Ok (MkGetValuesReply []))
    (MkOimctl level.Info false "dns:///r:1" "ca" "k" true false "a/.." "")
    (MkLState [] [] [] (NewSimpleLogger (MkSimpleConfig level.Warn Stdout)) (None, None) (MkCtl () []))).1 =
  [(Stderr, "FATAL path | a/..: error" +:+ String "010" "")].
Proof. vm_compute. reflexivity. Qed.

Module ctl_example.
Definition admin : context := RegistryClientContext (MkContext None None) "user.admin".
Definition flags (set : bool) (path value : string) : oimctl_flags :=
  MkOimctl level.Info false "dns:///r:1" "ca" "user.admin" (negb set) set path value.
Definition state0 : lstate simpleLogger (ctl_world memdb.memRegistryDB) :=
  MkLState [] [] [] (NewSimpleLogger (MkSimpleConfig level.Warn Stdout)) (None, None) (MkCtl example.db0 []).
Definition load (ca key peer : string) : result () := Ok ().
Definition dial_ok (endpoint : string) (opts : list (DialOption ())) : result () := Ok ().
End ctl_example.

Lemma oimctl_set_get_witness :
  ∃ s1 s2, oimctl (rt:=doubling) "1" ctl_example.load ctl_example.dial_ok ctl_example.admin
      (ctl_example.flags true "/host-0//pci" "00:03.0") ctl_example.state0 = (s1, inl ()) ∧
    oimctl (rt:=doubling) "1" ctl_example.load ctl_example.dial_ok ctl_example.admin
      (ctl_example.flags false "host-0" "") s1 = (s2, inl ()) ∧
    ctl_stdout (l_world s2) = ["host-0/pci=00:03.0" +:+ String "010" ""].
Proof.
  destruct (oimctl_set_get (rt:=doubling) "1" ctl_example.load ctl_example.dial_ok ctl_example.admin eq_refl
    (ctl_example.flags true "/host-0//pci" "00:03.0") (ctl_example.flags false "host-0" "")
    ["host-0"; "pci"] ["host-0"] ctl_example.state0) as (s1 & s2 & vs & H1 & H2 & _);
    [by split_and!; [..|eexists]|done|vm_compute; reflexivity|done|by split_and!; [..|eexists]|done|done|done|vm_compute; reflexivity|apply example_wf|by intros k|].
  exists s1, s2. split_and!; [exact H1|exact H2|].
  assert (s1 = (oimctl (rt:=doubling) "1" ctl_example.load ctl_example.dial_ok ctl_example.admin
      (ctl_example.flags true "/host-0//pci" "00:03.0") ctl_example.state0).1) as -> by (by rewrite H1).
  assert (s2 = (oimctl (rt:=doubling) "1" ctl_example.load ctl_example.dial_ok ctl_example.admin
      (ctl_example.flags false "host-0" "") (oimctl (rt:=doubling) "1" ctl_example.load ctl_example.dial_ok ctl_example.admin
      (ctl_example.flags true "/host-0//pci" "00:03.0") ctl_example.state0).1).1) as -> by (by rewrite H2).
  vm_compute. reflexivity.
Defined.

(** ** The servers *)

Section Servers.
Context {rt : GoRuntime} {DB Cert Pool : Type} `{RegistryDB DB}.
Local Abbreviation TLSConfig := (TLSConfig Cert Pool).
(** Key and certificate files, sockets, and SPDK. *)
Context (LoadX509KeyPair : string → string → result Cert) (ReadFile : string → result string).
Context (AppendCertsFromPEM : string → option Pool).
Context (Remove : string → option (error * bool)) (Listen : string → string → result string).
Context (spdk_New : string → result oimcontroller.Client).
Context (version : string).

(** What a server does: it serves a registry, a controller or a CSI driver, with the
    state of the gRPC server at the end. *)
Inductive cmd_event :=
| ServedRegistry (r : @registry DB TLSConfig) (s : NonBlockingGRPCServer)
| RegistrationStarted (r : option reg_state)
| ServedController (c : oimcontroller.Controller TLSConfig) (s : NonBlockingGRPCServer)
| ControllerClosed
| ServedCSI (od : oimDriver).

Local Abbreviation LM := (LM simpleLogger (list cmd_event)).

Definition happens (e : cmd_event) : LM () := λ s,
  (MkLState (l_mem s) (l_written s) (l_tests s) (l_logger s) (l_std s) (l_world s ++ [e]), inl ()).

Definition load_config (ca key peerName : string) : result TLSConfig :=
  LoadTLSConfig LoadX509KeyPair ReadFile AppendCertsFromPEM ca key peerName.

Record registry_flags := MkRegistryFlags {
  rf_level : Threshold; rf_printVersion : bool; rf_endpoint : string; rf_ca : string; rf_key : string
}.

Definition nl : string := String "010" "".

Definition oim_registry_main (default_db : DB) (f : registry_flags) : LM () :=
  let app := "oim-registry" in
  let logger := NewSimpleLogger (NewSimpleConfig (rf_level f) Stdout) in
  let base := simple_base logger in
  Set_ logger ≫= λ _,
  if rf_printVersion f then Infof base "oim-registry %s" [AString version]
  else
    (if decide (rf_ca f = "") then Fatalf base "A CA file is required." [] else mret ()) ≫= λ _,
    (if decide (rf_key f = "") then Fatalf base "A key file is required." [] else mret ()) ≫= λ _,
    or_fatal (InitTracer app) (λ err, Fatalf base ("Failed to initialize tracer: %s" +:+ nl) [AError err]) ≫= λ closer,
    or_fatal (load_config (rf_ca f) (rf_key f) "")
      (λ err, Fatalw base "load TLS certs" [AString "error"; AError err]) ≫= λ tlsConfig,
    or_fatal (Registry.New default_db [TLS_ tlsConfig])
      (λ err, Fatalf base ("Failed to initialize server: %s" +:+ nl) [AError err]) ≫= λ registry,
    let '(server, service) := registry_Server registry (rf_endpoint f) in
    or_fatal (GRPC.Run Remove Listen server [service])
      (λ err, Fatalf base ("Failed to run server: %s" +:+ nl) [AError err]) ≫= λ server,
    happens (ServedRegistry registry server).

Record controller_flags := MkControllerFlags {
  cf_level : Threshold; cf_printVersion : bool; cf_endpoint : string; cf_spdk : string; cf_vhost : string;
  cf_vhostDev : string; cf_controllerID : string; cf_controllerAddress : string; cf_registry : string;
  cf_ca : string; cf_key : string; cf_registryDelay : Z
}.

Definition oim_controller_main (f : controller_flags) : LM () :=
  let app := "oim-controller" in
  let logger := NewSimpleLogger (NewSimpleConfig (cf_level f) Stdout) in
  let base := simple_base logger in
  Set_ logger ≫= λ _,
  if cf_printVersion f then Infof base "oim-controller %s" [AString version]
  else
    or_fatal (InitTracer app) (λ err, Fatalf base ("Failed to initialize tracer: %s" +:+ nl) [AError err]) ≫= λ closer,
    or_fatal (load_config (cf_ca f) (cf_key f) "component.registry")
      (λ err, Fatalw base "load TLS certs" [AString "error"; AError err]) ≫= λ transportCreds,
    let options := [oimcontroller.WithControllerID (cf_controllerID f); oimcontroller.WithSPDK (cf_spdk f);
      oimcontroller.WithVHostController (cf_vhost f); oimcontroller.WithVHostDev (cf_vhostDev f);
      oimcontroller.WithControllerAddress (cf_controllerAddress f); oimcontroller.WithRegistry (cf_registry f);
      oimcontroller.WithRegistryDelay (cf_registryDelay f); oimcontroller.WithCreds (Some transportCreds)] in
    or_fatal (oimcontroller.New spdk_New options)
      (λ err, Fatalf base ("Failed to initialize server: %s" +:+ nl) [AError err]) ≫= λ controller,
    happens (RegistrationStarted (Start_ controller)) ≫= λ _,
    let '(server, service) := oimcontroller.Server (cf_endpoint f) in
    or_fatal (GRPC.Run Remove Listen server [service])
      (λ err, Fatalf base ("Failed to run server: %s" +:+ nl) [AError err]) ≫= λ server,
    happens (ServedController controller server) ≫= λ _,
    happens ControllerClosed.

Record csi_flags := MkCSIFlags {
  df_level : Threshold; df_printVersion : bool; df_endpoint : string; df_driverName : string; df_nodeID : string;
  df_spdkSocket : string; df_oimRegistryAddress : string; df_ca : string; df_key : string;
  df_controllerID : string; df_emulate : string; df_csiversion : string
}.

Definition oim_csi_driver_main (f : csi_flags) : LM () :=
  let logger := NewSimpleLogger (NewSimpleConfig (df_level f) Stdout) in
  let base := simple_base logger in
  Set_ logger ≫= λ _,
  if df_printVersion f then Infof base "oim-csi-driver %s" [AString version]
  else
    or_fatal (InitTracer (df_driverName f))
      (λ err, Fatalf base ("Failed to initialize tracer: %s" +:+ nl) [AError err]) ≫= λ closer,
    let options := [WithDriverName (df_driverName f); WithDriverVersion version; WithCSIEndpoint (df_endpoint f);
      WithNodeID (df_nodeID f); WithVHostEndpoint (df_spdkSocket f);
      WithOIMRegistryAddress (df_oimRegistryAddress f); WithOIMControllerID (df_controllerID f);
      WithRegistryCreds (df_ca f) (df_key f); WithEmulation (df_emulate f); WithCSIVersion (df_csiversion f)] in
    or_fatal (CSIDriver.New options)
      (λ err, Fatalf base ("Failed to initialize driver: %s" +:+ nl) [AError err]) ≫= λ driver,
    or_fatal (CSIDriver.Run Remove Listen driver) (λ err, Fatal base [AError err]) ≫= λ _,
    happens (ServedCSI driver).

(** *** With which credentials the servers run *)

(** A call of the logger that does not return and changes nothing but the log. *)
Definition is_fatal {W} (p : Log.LM simpleLogger W ()) : Prop :=
  ∀ s, ∃ s' e, p s = (s', inr e) ∧ l_world s' = l_world s.

Lemma fatal_Outputw {W} c msg kvs : is_fatal (Outputw (L:=simpleLogger) (W:=W) (newSimpleLogger c) level.Fatal msg kvs).
Proof.
  intros s. rewrite (Outputw_run _ _ _ _ "FATAL"); [|apply valid_nil|done].
  unfold ending_of. rewrite (decide_True (P := level.Fatal = level.Fatal)) by done.
  eexists _, _. split; [done|]. by case_decide.
Qed.

Lemma or_fatal_spec {W A} (r : result A) (fatal : error → Log.LM simpleLogger W ()) s :
  (∀ e, is_fatal (fatal e)) →
  (∃ a, r = Ok a ∧ or_fatal r fatal s = (s, inl a)) ∨
  (∃ s' e, or_fatal r fatal s = (s', inr e) ∧ l_world s' = l_world s).
Proof.
  intros Hf. destruct r as [a|e|why]; [left; by exists a|right..].
  - destruct (Hf e s) as (s' & e' & Hrun & Hw). exists s', e'. unfold or_fatal, mbind, LM_bind. by rewrite Hrun.
  - by eexists _, _.
Qed.

(** Programs whose world at the end is as before or satisfies [Q]. *)
Definition ends_with {W A} (Q : W → Prop) (w : W) (p : Log.LM simpleLogger W A) : Prop :=
  ∀ s, l_world s = w → l_world (p s).1 = w ∨ Q (l_world (p s).1).

Lemma ends_with_or_fatal {W A B} (Q : W → Prop) w (r : result A) fatal (k : A → Log.LM simpleLogger W B) :
  (∀ e, is_fatal (fatal e)) → (∀ a, r = Ok a → ends_with Q w (k a)) →
  ends_with Q w (or_fatal r fatal ≫= k).
Proof.
  intros Hf Hk s Hs. unfold mbind, LM_bind.
  destruct (or_fatal_spec r fatal s Hf) as [(a & Hr & ->)|(s' & e & -> & Hw)]; [by apply Hk|].
  left. simpl. congruence.
Qed.

Lemma ends_with_check {W B} (Q : W → Prop) w P `{Decision P} fatal (k : () → Log.LM simpleLogger W B) :
  is_fatal fatal → (¬ P → ends_with Q w (k ())) →
  ends_with Q w ((if decide P then fatal else mret ()) ≫= k).
Proof.
  intros Hf Hk s Hs. unfold mbind, LM_bind. case_decide as HP; [|by apply Hk].
  destruct (Hf s) as (s' & e & -> & Hw). left. simpl. congruence.
Qed.

Lemma ends_with_Set {W B} (Q : W → Prop) w l (k : () → Log.LM simpleLogger W B) :
  ends_with Q w (k ()) → ends_with Q w (Set_ l ≫= k).
Proof. intros Hk s Hs. by apply (Hk (set_logger l s)). Qed.

Lemma ends_with_Infof {W} (Q : W → Prop) w c format args : ends_with Q w (Infof (simple_base (newSimpleLogger c)) format args).
Proof.
  intros s Hs. left. unfold Infof. cbn [simple_base lb_Printf Init]. rewrite Outputf_as_Outputw.
  rewrite (Outputw_run _ _ _ _ "INFO"); [|apply valid_nil|done]. simpl. by case_decide.
Qed.

Lemma ends_with_happens {B} (Q : list cmd_event → Prop) w e (k : () → LM B) :
  (∀ s, l_world s = w ++ [e] → Q (l_world (k () s).1)) → ends_with Q w (happens e ≫= k).
Proof. intros Hk s Hs. right. apply Hk. simpl. by rewrite Hs. Qed.

Lemma GRPC_Run_options (srv srv' : NonBlockingGRPCServer) services :
  GRPC.Run Remove Listen srv services = Ok srv' → ServerOptions srv' = ServerOptions srv.
Proof.
  unfold GRPC.Run, GRPC.Start. destruct (ParseEndpoint _) as [[proto addr]| |]; [|done..]. simpl.
  destruct (listen_address _ _ _); [|done..]. simpl. destruct (Listen _ _); [|done..]. simpl. by intros [= <-].
Qed.

Lemma load_config_Ok ca key peerName cfg :
  load_config ca key peerName = Ok cfg →
  RequireAndVerifyClientCert cfg = true ∧ VerifyPeerCertificate cfg = verify_peer peerName.
Proof.
  unfold load_config, LoadTLSConfig. destruct (LoadX509KeyPair _ _); [|done..].
  destruct (ReadFile ca); [|done..]. destruct (AppendCertsFromPEM _); [|done]. by intros [= <-].
Qed.

Definition registry_served (w : list cmd_event) : Prop :=
  ∃ reg srv cfg, w = [ServedRegistry reg srv] ∧ tlsConfig reg = Some cfg ∧
    RequireAndVerifyClientCert cfg = true ∧ GRPC.Creds ∈ ServerOptions srv.

Lemma oim_registry_main_ends default_db f : ends_with registry_served [] (oim_registry_main default_db f).
Proof.
  unfold oim_registry_main. apply ends_with_Set. destruct (rf_printVersion f); [apply ends_with_Infof|].
  apply ends_with_check; [apply fatal_Outputw|intros _].
  apply ends_with_check; [apply fatal_Outputw|intros _].
  apply ends_with_or_fatal; [intros; apply fatal_Outputw|intros closer _].
  apply ends_with_or_fatal; [intros; apply fatal_Outputw|intros cfg [Hreq _]%load_config_Ok].
  apply ends_with_or_fatal; [intros; apply fatal_Outputw|intros reg Hreg]. cbn [registry_Server].
  apply ends_with_or_fatal; [intros; apply fatal_Outputw|intros srv Hsrv%GRPC_Run_options].
  intros s Hs. right. exists reg, srv, cfg. simpl. rewrite Hs. split_and!; [done| |done|].
  - unfold Registry.New in Hreg. simpl in Hreg. by injection Hreg as <-.
  - rewrite Hsrv. simpl. set_solver.
Qed.

Definition controller_served (w : list cmd_event) : Prop :=
  (∃ r, w = [RegistrationStarted r]) ∨
  ∃ r c srv cfg, w = [RegistrationStarted r; ServedController c srv; ControllerClosed] ∧
    oimcontroller.creds c = Some cfg ∧ RequireAndVerifyClientCert cfg = true ∧
    VerifyPeerCertificate cfg = verify_peer "component.registry" ∧ GRPC.Creds ∈ ServerOptions srv.

Lemma New_creds (options : list oimcontroller.Option_) (cfg : TLSConfig) c :
  oimcontroller.New spdk_New (options ++ [oimcontroller.WithCreds (Some cfg)]) = Ok c → oimcontroller.creds c = Some cfg.
Proof.
  unfold oimcontroller.New.
  assert (∀ c0 c1, oimcontroller.apply_options (options ++ [oimcontroller.WithCreds (Some cfg)]) c0 = Ok c1 →
    oimcontroller.creds c1 = Some cfg) as Hlast.
  { induction options as [|op options IH]; intros c0 c1; cbn [app oimcontroller.apply_options].
    - by intros [= <-].
    - destruct (op c0); [|done..]. simpl. apply IH. }
  destruct (oimcontroller.apply_options _ _) as [c1| |] eqn:E; [|done..]. apply Hlast in E.
  cbn [mbind result_mbind result_bind]. case_decide.
  - simpl. case_decide; [done|]. rewrite E. by intros [= <-].
  - destruct (spdk_New _); [|done..]. simpl. case_decide; [done|]. rewrite E. by intros [= <-].
Qed.

Lemma oim_controller_main_ends f : ends_with controller_served [] (oim_controller_main f).
Proof.
  unfold oim_controller_main. apply ends_with_Set. destruct (cf_printVersion f); [apply ends_with_Infof|].
  apply ends_with_or_fatal; [intros; apply fatal_Outputw|intros closer _].
  apply ends_with_or_fatal; [intros; apply fatal_Outputw|intros cfg [Hreq Hver]%load_config_Ok].
  apply ends_with_or_fatal; [intros; apply fatal_Outputw|intros c Hc].
  apply (New_creds [_; _; _; _; _; _; _]) in Hc.
  apply ends_with_happens. intros s1 Hs1. cbn [oimcontroller.Server]. unfold mbind, LM_bind.
  match goal with |- context [or_fatal ?r ?k s1] =>
    destruct (or_fatal_spec r k s1) as [(srv & Hsrv%GRPC_Run_options & ->)|(s' & e & -> & Hw)];
      [intros; apply fatal_Outputw| |] end.
  - right. eexists _, c, srv, cfg. split_and!; [simpl; by rewrite Hs1|done..|]. rewrite Hsrv. simpl. set_solver.
  - left. eexists. simpl. by rewrite Hw.
Qed.

End Servers.

Module srv_example.
Definition key_pair (crt key : string) : result string := Ok crt.
Definition read (file : string) : result string := Ok "pem".
Definition pem (text : string) : option string := Some text.
Definition remove (file : string) : option (error * bool) := None.
Definition listen (proto addr : string) : result string := Ok addr.
Definition spdk (path : string) : result oimcontroller.Client := Ok (oimcontroller.MkClient path).
Definition state0 : lstate simpleLogger (list (cmd_event (DB := memdb.memRegistryDB) (Cert := string) (Pool := string))) :=
  MkLState [] [] [] (NewSimpleLogger (MkSimpleConfig level.Warn Stdout)) (None, None) [].
Definition rflags : registry_flags := MkRegistryFlags level.Info false "tcp://:8999" "ca.crt" "component.registry".
Definition cflags (dev : string) : controller_flags :=
  MkControllerFlags level.Info false "tcp://:8999" "/var/tmp/vhost.sock" "vhost.0" dev "host-0" "ipv4:///c:8999" ""
    "ca.crt" "controller.host-0" (60 * 10 ^ 9).
Abbreviation registry_end := (oim_registry_main (rt:=doubling) key_pair read pem remove listen "1" example.db0 rflags state0).1 (only parsing).
Abbreviation controller_end dev :=
  (oim_controller_main (rt:=doubling) (DB := memdb.memRegistryDB) key_pair read pem remove listen spdk "1" (cflags dev) state0).1 (only parsing).
End srv_example.

Lemma srv_registry_world : ∃ reg srv, l_world srv_example.registry_end = [ServedRegistry reg srv].
Proof. eexists _, _. vm_compute. reflexivity. Qed.

Lemma srv_controller_world :
  ∃ r c srv, l_world (srv_example.controller_end ":.3") = [RegistrationStarted r; ServedController c srv; ControllerClosed].
Proof. eexists _, _, _. vm_compute. reflexivity. Qed.


(** The default of the flag for the PCI address is no PCI address: a controller that
    is started without the flag ends with an error. *)
Lemma vhost_device_flag_required :
  ∃ text, l_written (srv_example.controller_end "") = [(Stdout, text)] ∧ l_world (srv_example.controller_end "") = [].
Proof. eexists. vm_compute. split; reflexivity. Qed.
